(* ===== verification/_CoqProject ===== *)
-Q . S2P
Prelude.v
Go.v
GoTime.v
Types.v
Effects.v
Mem.v
TimeRanges.v
Importer.v
Sql.v
Columns.v
MetricStore.v
Json.v
Deps.v
Conditions.v
Schedule.v
Operator.v
Storage.v
PrestoTables.v
HiveTables.v
Finalizers.v
Templates.v
Reports.v
ReportRuns.v
WorkQueue.v
Handlers.v
AwsUsage.v
DataSources.v
ImportRuns.v
Collect.v
Csv.v
OrderedMap.v
Http.v
HttpFacts.v
JsonText.v
JsonFacts.v
OrderedJson.v
OrderedJsonFacts.v
HealthChecks.v
Test2json.v
Listers.v
Caches.v
Clients.v
Informers.v
Startup.v
CommandLine.v
Prometheus.v
Metrics.v
JsonAnswers.v
DeepCopy.v
ApiCopies.v
