(* ===== verification/Prelude.v ===== *)
(** * Metering operator: a verification development

    The program (src/pkg/operator and the packages it uses) is a Kubernetes
    operator.  It keeps a data warehouse: metrics read from Prometheus and
    billing data found in S3 become tables of Hive and Presto, and reports are
    SQL queries over them whose results are tables again.  Users describe all
    of it as custom resources; six controllers bring the databases in line
    with the resources, and an HTTP API serves the results.

    ** How the parts work together

    Informers, made by one factory (Informers), watch the resources through the
    generated clients (Clients), keep them in caches that listers read
    (Listers), and call event handlers (Handlers), which put keys on work queues; workers take keys off (WorkQueue) and sync the
    resource a key names.  A sync is a handler of one of the controllers:
    storage locations (Storage), Hive tables (HiveTables), Presto tables
    (PrestoTables), data sources and queries (DataSources), reports (Reports).
    A data source of metrics is filled by an importer (Importer), which splits
    the time to import into ranges (TimeRanges), queries Prometheus for each,
    and stores what comes back (MetricStore).  A report resolves the queries,
    data sources and reports it depends on (Deps), works out the period it
    covers (Schedule), renders its query (Templates) and stores the rows (Sql,
    Templates).  Resources own other resources, and finalizers hold a resource
    back until what it owns outside the cluster is dropped (Finalizers).
    [Run] connects to the databases, starts servers and workers and stops them
    again (Startup).

    ** Files

    - Prelude: this header; tactics and lemmas on lists, sums, strings.
    - Go, GoTime, Json, JsonText, Csv: the parts of Go's library the code uses,
      as far as it uses them ([fmt], [strings], [path], slices and their
      backing arrays, [time], encoding/json, encoding/csv).
    - OrderedMap, OrderedJson: pkg/util/orderedmap, its operations and its
      trip through JSON text.  Theorems are in JsonFacts and OrderedJsonFacts.
    - Types: the custom resources (pkg/apis/metering/v1) and the column and
      table types of pkg/hive and pkg/presto.
    - Effects: the environment (class [Env]) and the monad of a handler, which
      records the effects of a run as a trace; the tactics and lemmas that
      compute what a handler can emit, return and perform.  Mem is one
      concrete environment, which the witnesses use.
    - TimeRanges, Importer, MetricStore: pkg/operator/prestostore (query.go,
      importer.go, prometheusmetric.go).
    - Sql: pkg/presto/util.go, pkg/hive, reporting/db.go.
    - Columns: reportingutil/util.go.  Conditions: v1/util/report_util.go and
      pkg/util/slice.
    - Deps: reporting/dependencies.go, getters.go, validate.go.
    - Schedule: cron specifications and periods of reports.go and util.go.
    - Operator: configuration, keys, metadata and finalizers, enqueueing.
    - Storage, PrestoTables, HiveTables, DataSources, Reports, AwsUsage: the
      controllers (storagelocations.go, prestotables.go, hivetables.go,
      datasources.go with reportquery.go and the configuration half of
      promsum.go, reports.go, aws_usage_hive.go with pkg/aws).  Their larger
      theorems are in ImportRuns, ReportRuns and Finalizers.
    - Templates: reporting/templates.go, report_generator.go,
      prestostore/reports.go.
    - WorkQueue and Handlers: queues.go, over a model of client-go's rate
      limited work queue.
    - Collect: the on-demand imports of promsum.go.
    - Http and HttpFacts: http.go, health.go and the answers they give;
      JsonAnswers: the text of those in JSON, and the way the code gets to it.
      HealthChecks: concurrent checks that share a query.
    - Prometheus: the client library's collectors and registry, as far as they
      are used.  Metrics: the collectors of promsum.go, reports.go and
      hivetables.go, pkg/util/chiprometheus, workqueue and reflector.
    - Listers: the caches of informers and pkg/generated/listers; Caches puts
      them below the operator, as an environment.  Clients: the clients of
      pkg/generated/clientset, over rest.Request of client-go.  Informers: the
      factory of pkg/generated/informers.
    - Startup: operator.go, [Run].  CommandLine: the start command of
      cmd/reporting-operator/start.go, and [operator.New].
    - Test2json: gotools/test2json, which the build runs on test output.
    - DeepCopy: Go memory with pointers, slices and maps, the statements of
      generated copies, and a check of them that is proved sound.  ApiCopies:
      zz_generated.deepcopy.go, each struct [T] of the API as [T_fields] and
      its methods as [T_methods].

    A Go function is a definition of the same name; where a function is long,
    its phases are definitions of their own, composed in its order.  A method
    on the operator is a computation [M S A]; a function that only computes is
    a Rocq function, with [outcome] for a result that may be an error or a
    panic.  Logging is left out.

    ** What the theorems show

    - Imports (TimeRanges, Importer, MetricStore, DataSources, ImportRuns,
      Collect): the ranges of an import are within bounds, aligned, and query
      every instant once; the split terminates and catches up; an import
      reports exactly what it stored, continues after the last row, is limited
      to the configured durations and goes on after an error; batches hold
      every metric once and fit their capacity; the status only ever widens;
      concurrent on-demand imports report every source.
    - Reports (Schedule, ReportRuns, Templates, Conditions): the periods of a
      scheduled report follow each other without gap or overlap and follow the
      schedule; a report runs only when it is due and its dependencies are
      there, and is then recorded; a report that is due does run or queues
      what it waits for; its conditions stay one per type.
    - Dependencies (Deps): a resolution is closed under references, and a
      cycle is reported.
    - Tables (HiveTables, PrestoTables, AwsUsage, Columns, Finalizers): the
      partitions of a table become those of its spec; a table is created as
      its spec says; names are valid SQL identifiers; column types survive the
      conversion from Hive to Presto and back; a resource goes only after what
      it stands for was dropped.
    - Queues (WorkQueue, Handlers): workers exclude each other and lose no
      key, retries are bounded, a sync does not trigger itself, and deletion
      without finalizers does what the sync does with them.
    - HTTP (Http, HttpFacts, Csv, OrderedMap, OrderedJsonFacts): hidden columns
      are not served, an answer in CSV or in JSON reads back as the table, a
      report is read from its own table; a row made an ordered map is written
      as the row; every health check is answered (HealthChecks).
    - The API (Listers, Clients, Informers, ApiCopies): a lister shows what its
      informer has heard of and handlers are told of every change; a client's
      request is for the resource the call names and no other; an informer
      runs once; a deep copy has the value of its original and shares no
      memory with it, so that changing it leaves the cache as it is.
    - The operator (Startup, CommandLine): work starts in order; a stop ends
      all of it, and always ends; which of arguments, environment and default
      decides a setting.
    - Metrics: every collector registers at the start; an import changes the
      series of its own data source by what it reports and no other, whatever
      runs beside it; each request is counted once under the status its client
      gets; a queue's depth is the number of items that wait.
    - Test2json: the converter ends, and loses no byte of the tests' output.

    Some theorems state a defect: an import status that stops an import
    forever, two AWS partitions that fall into one, a failed answer with
    status 200, two health queries at once, workers that start before the
    caches are filled.  They hold of the code as it is.

    ** Fuel and bounds

    [chunk_fuel] is more than the number of minutes between the two ends of a
    window, and a chunk starts at least a minute after the one before
    (getTimeRangesChunked_total).  [resolveDependencies] counts down the
    code's own [maxDepth] of 50.  [RenderQuery] counts down [go_stack], the
    depth of calls a Go program's stack allows, a field of [TemplateEngine];
    when it is spent the result is the panic of a stack overflow.
    [mapToOrderedMap], [find_key] and [decode_value] count down the length of
    the text, which every step shortens; a line buffer's [write] counts down
    what is written, and without fuel it loops (it does not, with room for
    four bytes).  The number of attempts of a polling loop comes from the
    environment.  [api_depth] is more than the depth of any API type
    (api_depth_enough).  Durations are 64-bit where arithmetic can overflow ([int64],
    [Sub]).

    ** Parameters

    [Env]: API server, informer caches, clock, cron library, databases and
    Prometheus, with arbitrary answers.  [OperatorState], [Aws]: the importers
    an operator keeps, S3.  [TemplateEngine]: text/template and sprig.
    [UnicodeTables]: letters and digits above Latin-1.  [MapOrder],
    [RowOrder], [SetOrder]: the order in which Go ranges over a map or set.
    [HttpLibrary], [Router]: float formatting, tabwriter and request decoding,
    chi.  [Dialers]: files, certificates and drivers.  [FlagText]: pflag's
    reading of numbers, durations and lists.  [Host]: the host's name and its
    access to the cluster.  [Float64]: strconv's writing and reading of a
    float64.  [RangeOrder]: the order of a cache.  [ClientLibrary]: the encoding
    of options and bodies of requests.  [LowerCase]: lower case letters beyond ASCII.  A theorem that
    needs more of them says so by a hypothesis or a class of laws ([Stable],
    [FaithfulServer], [NamesKept], [CacheLaws], [LawfulImporters],
    [LawfulRouter], [GoodSchedule], [GetterNames], [FloatText]) which a witness
    instantiates.

    ** Not modelled

    The durations of imports and reports and what reflectors observe, which
    are no events of a trace; logging, with the wrappers around a database that
    log statements (pkg/db); the fake clients and the registration of types
    (pkg/generated, register.go), which list names for apimachinery; the routes
    of the profiling server.  The end-to-end tests are not part of the program.
    What API server, reflectors and databases answer is [Env]: the controllers
    are proved against it, and Caches is one whose listers read Listers'
    stores.
    Within Collect the queries of two imports under way at once are not
    interleaved; within Http failures of the connection to the client are left
    out; in Startup a queue may take items from the time Presto was read,
    whatever the informers do.  A panic ends the process and has no further
    steps. *)

From stdpp Require Export base gmap strings list sorting pretty.
From Stdlib Require Export ZArith Lia.

#[global] Set Default Proof Using "Type".

(** ** Tactics shared by the development *)

(** Case analysis on the scrutinee of a [match] in the goal or a hypothesis. *)
Ltac case_goal :=
  match goal with
  | |- context [match ?x with _ => _ end] => destruct x eqn:?
  end.

Ltac case_hyp :=
  match goal with
  | H : context [match ?x with _ => _ end] |- _ => destruct x eqn:?
  end.

(** Turn boolean tests of hypotheses into propositions. *)
Ltac bool_props :=
  repeat match goal with
  | H : (_ && _)%bool = true |- _ => apply andb_prop in H as [? ?]
  | H : (_ && _)%bool = false |- _ => apply andb_false_iff in H as [?|?]
  | H : (_ || _)%bool = true |- _ => apply orb_prop in H as [?|?]
  | H : (_ || _)%bool = false |- _ => apply orb_false_iff in H as [? ?]
  | H : negb _ = true |- _ => apply negb_true_iff in H
  | H : negb _ = false |- _ => apply negb_false_iff in H
  | H : bool_decide _ = true |- _ => apply bool_decide_eq_true_1 in H
  | H : bool_decide _ = false |- _ => apply bool_decide_eq_false_1 in H
  | H : (_ <? _)%Z = true |- _ => apply Z.ltb_lt in H
  | H : (_ <? _)%Z = false |- _ => apply Z.ltb_ge in H
  | H : (_ <=? _)%Z = true |- _ => apply Z.leb_le in H
  | H : (_ <=? _)%Z = false |- _ => apply Z.leb_gt in H
  | H : (_ =? _)%Z = true |- _ => apply Z.eqb_eq in H
  | H : (_ =? _)%Z = false |- _ => apply Z.eqb_neq in H
  end.

(** Closed facts of arithmetic, by evaluation. *)
Ltac zconst := split_and?; vm_compute; first [reflexivity | discriminate | by split].

(** ** Generic lemmas on lists *)

Section lists.
Context {A B : Type}.

Lemma filter_id (P : A → Prop) `{∀ x, Decision (P x)} (l : list A) :
  Forall P l → filter P l = l.
Proof.
  induction 1 as [|x l Hx _ IH]; [done|].
  by rewrite filter_cons_True, IH.
Qed.

Lemma filter_idemp (P : A → Prop) `{∀ x, Decision (P x)} (l : list A) :
  filter P (filter P l) = filter P l.
Proof. apply filter_id, Forall_forall. intros x Hx. by apply list_elem_of_filter in Hx as [? _]. Qed.

Lemma Forall_last (P : A → Prop) (l : list A) (x : A) :
  Forall P l → last l = Some x → P x.
Proof.
  intros Hl [l' ->]%last_Some.
  rewrite Forall_app, Forall_singleton in Hl. tauto.
Qed.

Lemma fold_left_inv (P : A → Prop) (f : A → B → A) (l : list B) (a : A) :
  P a → (∀ a b, b ∈ l → P a → P (f a b)) → P (fold_left f l a).
Proof.
  revert a. induction l as [|b l IH]; intros a Ha Hf; cbn; [done|].
  apply IH; [by apply Hf; [apply list_elem_of_here|]|].
  intros a' b' Hb'. apply Hf. by apply list_elem_of_further.
Qed.
End lists.

(** ** Strings *)
Lemma str_length_app s t : String.length (s +:+ t) = (String.length s + String.length t)%nat.
Proof.
  induction s as [|c s IH]; [done|]. change (S (String.length (s +:+ t)) = (S (String.length s) + String.length t)%nat). by rewrite IH. Qed.

Lemma str_app_assoc (s t u : string) : (s +:+ t) +:+ u = s +:+ (t +:+ u).
Proof.
  induction s as [|c s IH]; [done|]. change (String c ((s +:+ t) +:+ u) = String c (s +:+ (t +:+ u))). by rewrite IH. Qed.

Lemma str_app_nil (s : string) : s +:+ "" = s.
Proof.
  induction s as [|c s IH]; [done|]. change (String c (s +:+ "") = String c s). by rewrite IH. Qed.

Lemma str_nil_app (s : string) : "" +:+ s = s.
Proof. done. Qed.

(** A sum over a list with one element replaced. *)
Lemma sum_insert {A} (f : A → nat) (l : list A) i x y :
  l !! i = Some x → (sum_list_with f (<[i := y]> l) + f x = sum_list_with f l + f y)%nat.
Proof.
  revert i. induction l as [|z l IH]; intros [|i] Hi; simplify_eq/=; [lia|].
  specialize (IH i Hi). lia.
Qed.

(** ** Executions of a step relation *)
Section executions.
Context {S : Type} (step : S → S → Prop).

(** Every execution from a state gets to one where [P] holds: until then a step
    can be taken, and whatever is done next leads there. *)
Inductive eventually (P : S → Prop) (s : S) : Prop :=
  | eventually_now : P s → eventually P s
  | eventually_later : (∃ s', step s s') → (∀ s', step s s' → eventually P s') → eventually P s.

(** By an invariant and a measure that every step decreases. *)
Lemma eventually_measure (P inv : S → Prop) (measure : S → nat) :
  (∀ s, inv s → P s ∨ ∃ s', step s s') →
  (∀ s s', inv s → step s s' → inv s' ∧ (measure s' < measure s)%nat) →
  ∀ s, inv s → eventually P s.
Proof.
  intros Hprogress Hstep s Hs. remember (measure s) as n eqn:En. revert s Hs En.
  induction n as [n IH] using (well_founded_induction lt_wf). intros s Hs ->.
  destruct (Hprogress s Hs) as [HP|Hex]; [by apply eventually_now|].
  apply eventually_later; [done|]. intros s' Hst. destruct (Hstep s s' Hs Hst) as [Hs' Hlt]. by eapply IH.
Qed.
End executions.
