(* ===== verification/Go.v ===== *)
(** * The Go language and the parts of its standard library the operator uses

    Results and errors ([outcome]), [int64] arithmetic, [strings], [fmt],
    [path], slices with their backing arrays.  Strings are byte strings; the
    case and white-space functions of [strings] act on ASCII. *)

From S2P Require Export Prelude.
From Stdlib Require Export Ascii.
From Stdlib Require Export SpecFloat.

Open Scope Z_scope.

(** ** Errors and results *)

(** The error values the code tells apart: the API status errors recognised by
    [apierrors.Is...], [wait.ErrWaitTimeout], the validation error of the
    reporting package; everything else is an opaque message. *)
Inductive err_kind :=
  | KPlain
  | KNotFound
  | KAlreadyExists
  | KConflict
  | KWaitTimeout
  | KDependency (datasources reports : list string).

Record error := MkError { err_kind_of : err_kind; Error : string }.

#[export] Instance err_kind_eq_dec : EqDecision err_kind.
Proof. solve_decision. Defined.
#[export] Instance error_eq_dec : EqDecision error.
Proof. solve_decision. Defined.

Definition New (msg : string) : error := MkError KPlain msg.

Definition IsNotFound (e : error) : bool := bool_decide (err_kind_of e = KNotFound).
Definition IsAlreadyExists (e : error) : bool := bool_decide (err_kind_of e = KAlreadyExists).
Definition IsConflict (e : error) : bool := bool_decide (err_kind_of e = KConflict).

(** What a Go call returns: a value, an error, or a run-time panic. *)
Inductive outcome (A : Type) :=
  | Ok (a : A)
  | Err (e : error)
  | Panic (msg : string).
Arguments Ok {A} a.
Arguments Err {A} e.
Arguments Panic {A} msg.

#[export] Instance outcome_ret : MRet outcome := @Ok.
#[export] Instance outcome_bind : MBind outcome := λ A B f o,
  match o with Ok a => f a | Err e => Err e | Panic m => Panic m end.

Definition is_Ok {A} (o : outcome A) : bool :=
  match o with Ok _ => true | _ => false end.

(** ** Fixed-width integers *)

Definition int64_max : Z := 2 ^ 63 - 1.
Definition int64_min : Z := - 2 ^ 63.

(** Two's complement wrap-around of [int64] arithmetic. *)
Definition int64 (z : Z) : Z := (z + 2 ^ 63) mod 2 ^ 64 - 2 ^ 63.

Lemma int64_id z : int64_min ≤ z ≤ int64_max → int64 z = z.
Proof.
  unfold int64_min, int64_max, int64. intros ?.
  rewrite Z.mod_small; lia.
Qed.

Lemma int64_range z : int64_min ≤ int64 z ≤ int64_max.
Proof.
  unfold int64_min, int64_max, int64.
  pose proof (Z.mod_pos_bound (z + 2 ^ 63) (2 ^ 64) ltac:(lia)). lia.
Qed.

(** ** strings *)

Definition ascii_upper (c : ascii) : ascii :=
  let n := nat_of_ascii c in
  if ((97 <=? n) && (n <=? 122))%nat then ascii_of_nat (n - 32) else c.
Definition ascii_lower (c : ascii) : ascii :=
  let n := nat_of_ascii c in
  if ((65 <=? n) && (n <=? 90))%nat then ascii_of_nat (n + 32) else c.

Fixpoint str_map (f : ascii → ascii) (s : string) : string :=
  match s with "" => "" | String c s => String (f c) (str_map f s) end.

Definition ToUpper : string → string := str_map ascii_upper.
Definition ToLower : string → string := str_map ascii_lower.

(** [strings.Index], with [None] for [-1]. *)
Definition Index (s sub : string) : option nat := String.index 0 sub s.
Definition Contains (s sub : string) : bool :=
  match Index s sub with Some _ => true | None => false end.

Definition HasPrefix (s pre : string) : bool := String.prefix pre s.
Definition HasSuffix (s suf : string) : bool :=
  let n := String.length s in let m := String.length suf in
  (m <=? n)%nat && String.eqb (String.substring (n - m) m s) suf.
Definition TrimPrefix (s pre : string) : string :=
  if HasPrefix s pre then
    String.substring (String.length pre) (String.length s - String.length pre) s
  else s.

Fixpoint trim_left (s : string) : string :=
  match s with
  | String c s' => if Ascii.is_space c then trim_left s' else s
  | "" => ""
  end.
Definition TrimSpace (s : string) : string :=
  String.rev (trim_left (String.rev (trim_left s))).

Definition Join (l : list string) (sep : string) : string := String.concat sep l.

(** [s[i:j]] on in-range bounds; out of range it panics. *)
Definition slice_str (s : string) (i j : Z) : outcome string :=
  if (0 <=? i) && (i <=? j) && (j <=? Z.of_nat (String.length s)) then
    Ok (String.substring (Z.to_nat i) (Z.to_nat (j - i)) s)
  else Panic "runtime error: slice bounds out of range".

(** [strings.SplitN(s, sep, 2)] for a non-empty separator. *)
Definition SplitN2 (s sep : string) : list string :=
  match Index s sep with
  | None => [s]
  | Some i =>
      let j := (i + String.length sep)%nat in
      [String.substring 0 i s; String.substring j (String.length s - j) s]
  end.

(** Replacement of every occurrence of one byte by another. *)
Definition replace_byte (old new : ascii) : string → string :=
  str_map (λ c, if Ascii.eqb c old then new else c).

(** ** fmt *)

(** Fixed-point rendering of a double: [%f] prints the exact binary value
    rounded half-to-even at six decimals. *)
Definition div_half_even (n d : Z) : Z :=
  let q := n / d in let r := n mod d in
  if 2 * r <? d then q
  else if d <? 2 * r then q + 1
  else if Z.even q then q else q + 1.

Fixpoint zeros (n : nat) : string :=
  match n with O => "" | S n => String "0" (zeros n) end.

(** Decimal digits of [z ≥ 0], padded with zeros to at least [w] digits. *)
Definition pad_dec (w : nat) (z : Z) : string :=
  let s := pretty z in zeros (w - String.length s) +:+ s.

Definition fmt_f (x : spec_float) : string :=
  match x with
  | S754_nan => "NaN"
  | S754_infinity false => "+Inf"
  | S754_infinity true => "-Inf"
  | S754_zero false => "0.000000"
  | S754_zero true => "-0.000000"
  | S754_finite s m e =>
      let num := Z.pos m * 1000000 * (if 0 <=? e then 2 ^ e else 1) in
      let den := if 0 <=? e then 1 else 2 ^ (- e) in
      let q := div_half_even num den in
      (if s then "-" else "") +:+ pretty (q / 1000000) +:+ "." +:+ pad_dec 6 (q mod 1000000)
  end.

(** [strconv.Quote] on ASCII input. *)
Definition hex_digit (n : nat) : ascii :=
  ascii_of_nat (if (n <? 10)%nat then 48 + n else 87 + n).
Definition quote_byte (c : ascii) : string :=
  let n := nat_of_ascii c in
  if Ascii.eqb c (ascii_of_nat 34) then String "\" (String (ascii_of_nat 34) "")
  else if Ascii.eqb c "\" then "\\"
  else if (n =? 7)%nat then "\a"
  else if (n =? 8)%nat then "\b"
  else if (n =? 12)%nat then "\f"
  else if (n =? 10)%nat then "\n"
  else if (n =? 13)%nat then "\r"
  else if (n =? 9)%nat then "\t"
  else if (n =? 11)%nat then "\v"
  else if ((32 <=? n) && (n <=? 126))%nat then String c ""
  else "\x" +:+ String (hex_digit (n / 16)) (String (hex_digit (n mod 16)) "").
Fixpoint quote_bytes (s : string) : string :=
  match s with "" => "" | String c s => quote_byte c +:+ quote_bytes s end.
Definition dquote : string := String (ascii_of_nat 34) "".
Definition fmt_q (s : string) : string := dquote +:+ quote_bytes s +:+ dquote.

(** Operands of the formatting functions. *)
Inductive fmt_arg :=
  | FStr (s : string)
  | FInt (z : Z)
  | FFloat (x : spec_float).

Definition format_verb (v : ascii) (a : fmt_arg) : string :=
  match a with
  | FStr s =>
      if Ascii.eqb v "s" || Ascii.eqb v "v" then s
      else if Ascii.eqb v "q" then fmt_q s
      else "%!" +:+ String v "" +:+ "(string=" +:+ s +:+ ")"
  | FInt z =>
      if Ascii.eqb v "d" || Ascii.eqb v "v" then pretty z
      else "%!" +:+ String v "" +:+ "(int=" +:+ pretty z +:+ ")"
  | FFloat x =>
      if Ascii.eqb v "f" then fmt_f x
      else "%!" +:+ String v "" +:+ "(float64=" +:+ fmt_f x +:+ ")"
  end.

Definition extra_arg (a : fmt_arg) : string :=
  match a with
  | FStr s => "string=" +:+ s
  | FInt z => "int=" +:+ pretty z
  | FFloat x => "float64=" +:+ fmt_f x
  end.

(** [fmt.Sprintf] on one-letter verbs: a verb without an operand prints
    [%!s(MISSING)], operands without a verb print [%!(EXTRA ...)]. *)
Fixpoint Sprintf (f : string) (args : list fmt_arg) : string :=
  match f with
  | "" =>
      match args with
      | [] => ""
      | _ => "%!(EXTRA " +:+ Join (extra_arg <$> args) ", " +:+ ")"
      end
  | String c f1 =>
      if Ascii.eqb c "%" then
        match f1 with
        | "" => "%!(NOVERB)"
        | String v f2 =>
            if Ascii.eqb v "%" then String "%" (Sprintf f2 args)
            else match args with
                 | [] => "%!" +:+ String v "" +:+ "(MISSING)" +:+ Sprintf f2 []
                 | a :: args => format_verb v a +:+ Sprintf f2 args
                 end
        end
      else String c (Sprintf f1 args)
  end.

Definition Errorf (f : string) (args : list fmt_arg) : error := New (Sprintf f args).

(** ** Slices

    A slice is a window of a backing array of the store; [append] writes into
    the spare capacity when there is some, which other slices of the same
    array see, and reallocates otherwise. *)
Section slices.
Context {A : Type}.

Record slice := MkSlice { s_arr : nat; s_len : nat; s_cap : nat }.
(** Backing arrays, by identifier; positions past the end are unwritten. *)
Record heap := MkHeap { h_next : nat; h_cells : gmap (nat * nat) A }.

Definition heap_empty : heap := MkHeap 0 ∅.

(** The nil slice owns no array (capacity 0). *)
Definition slice_nil : slice := MkSlice 0 0 0.

(** Growth of the capacity when one element is appended to a full slice of
    fewer than 1024 elements: 1, 2, 4, 8, ... (16-byte elements, whose size
    classes leave the doubled capacity unchanged). *)
Definition grow_cap (c : nat) : nat := if (c =? 0)%nat then 1%nat else (2 * c)%nat.

Definition slice_elems (h : heap) (s : slice) : list A :=
  omap (λ i, h_cells h !! (s_arr s, i)) (seq 0 (s_len s)).

Definition slice_append (h : heap) (s : slice) (x : A) : heap * slice :=
  if (s_len s <? s_cap s)%nat then
    (MkHeap (h_next h) (<[(s_arr s, s_len s) := x]> (h_cells h)),
     MkSlice (s_arr s) (S (s_len s)) (s_cap s))
  else
    let a := h_next h in
    let copied := foldr (λ i m, match h_cells h !! (s_arr s, i) with
                                | Some y => <[(a, i) := y]> m
                                | None => m end) (h_cells h) (seq 0 (s_len s)) in
    (MkHeap (S a) (<[(a, s_len s) := x]> copied),
     MkSlice a (S (s_len s)) (grow_cap (s_cap s))).

(** Writing a slice's cells from position [i] on. *)
Fixpoint write_cells (arr i : nat) (l : list A) (cells : gmap (nat * nat) A) : gmap (nat * nat) A :=
  match l with
  | [] => cells
  | x :: l => write_cells arr (S i) l (<[(arr, i) := x]> cells)
  end.
End slices.
Arguments heap : clear implicits.

(** ** sort *)

(** [sort.Strings]. *)
Definition sort_strings (l : list string) : list string := merge_sort String.le l.

(** ... which sorts in place: every slice of the array sees it. *)
Definition slice_sort (h : heap string) (s : slice) : heap string :=
  MkHeap (h_next h) (write_cells (s_arr s) 0 (sort_strings (slice_elems h s)) (h_cells h)).

(** [sort.Slice] by a string key; the result is sorted and a permutation. *)
Section sort_by.
Context {A : Type} (key : A → string).
Definition key_le (x y : A) : Prop := String.le (key x) (key y).
#[export] Instance key_le_dec : RelDecision key_le.
Proof. intros x y. unfold key_le. apply _. Defined.
#[export] Instance key_le_total : Total key_le.
Proof. intros x y. unfold key_le. apply total, _. Qed.
#[export] Instance key_le_trans : Transitive key_le.
Proof. intros x y z. unfold key_le. apply transitivity. Qed.
Definition sort_by (l : list A) : list A := merge_sort key_le l.

Lemma sort_by_Permutation l : sort_by l ≡ₚ l.
Proof. apply merge_sort_Permutation. Qed.
Lemma sort_by_Sorted l : StronglySorted key_le (sort_by l).
Proof. apply (StronglySorted_merge_sort key_le). Qed.
End sort_by.
