(* ===== verification/GoTime.v ===== *)
(** * Package time

    A [time.Time] is its instant: nanoseconds since the zero time
    (January 1, year 1, 00:00 UTC), so [Truncate] and [IsZero] read as in the
    package documentation.  Locations only matter for printing: most times are
    in UTC, and a [ZonedTime], parsed from text with an offset, prints as the
    clock of its zone shows.  A [Duration] is an [int64] number of nanoseconds. *)

From S2P Require Export Go.
Open Scope Z_scope.

Abbreviation Time := Z (only parsing).
Abbreviation Duration := Z (only parsing).

Definition Nanosecond : Duration := 1.
Definition Millisecond : Duration := 1000000.
Definition Second : Duration := 1000 * Millisecond.
Definition Minute : Duration := 60 * Second.
Definition Hour : Duration := 60 * Minute.

Definition After (t u : Time) : bool := u <? t.
Definition Before (t u : Time) : bool := t <? u.
Definition Equal (t u : Time) : bool := t =? u.
Definition IsZero (t : Time) : bool := t =? 0.
Definition Add (t : Time) (d : Duration) : Time := t + d.

(** [t.Sub(u)] saturates at the bounds of [Duration]. *)
Definition Sub (t u : Time) : Duration := Z.max int64_min (Z.min int64_max (t - u)).

(** [t.Truncate(d)] rounds down to a multiple of [d] since the zero time. *)
Definition Truncate (t : Time) (d : Duration) : Time :=
  if d <=? 0 then t else t - t mod d.

(** [d.Truncate(m)] on durations rounds toward zero. *)
Definition DurTruncate (d m : Duration) : Duration :=
  if m <=? 0 then d else d - Z.rem d m.

Section truncate.
Context (d : Duration) (Hd : 0 < d).

Lemma Truncate_eq t : Truncate t d = d * (t / d).
Proof using Hd.
  unfold Truncate. destruct (Z.leb_spec d 0); [lia|].
  pose proof (Z.div_mod t d). lia.
Qed.

Lemma Truncate_bounds t : Truncate t d ≤ t < Truncate t d + d.
Proof using Hd.
  rewrite Truncate_eq. pose proof (Z.div_mod t d). pose proof (Z.mod_pos_bound t d). lia.
Qed.

Lemma Truncate_multiple t : Truncate t d mod d = 0.
Proof using Hd. rewrite Truncate_eq, Z.mul_comm. apply Z.mod_mul. lia. Qed.

Lemma Truncate_fix t : t mod d = 0 → Truncate t d = t.
Proof using Hd.
  intros H. rewrite Truncate_eq. pose proof (Z.div_mod t d). lia.
Qed.

Lemma Truncate_idemp t : Truncate (Truncate t d) d = Truncate t d.
Proof using Hd. apply Truncate_fix, Truncate_multiple. Qed.

Lemma Truncate_mono t u : t ≤ u → Truncate t d ≤ Truncate u d.
Proof using Hd.
  intros H. rewrite !Truncate_eq. apply Z.mul_le_mono_nonneg_l; [lia|].
  by apply Z.div_le_mono.
Qed.

(** A multiple of [d] added before or after truncation is the same. *)
Lemma Truncate_add_multiple t k : Truncate (t + k * d) d = Truncate t d + k * d.
Proof using Hd. rewrite !Truncate_eq, Z.div_add by lia. lia. Qed.

Lemma Truncate_add_mod t e : e mod d = 0 → Truncate (t + e) d = Truncate t d + e.
Proof using Hd.
  intros He. pose proof (Z.div_mod e d ltac:(lia)) as E.
  replace e with (e / d * d) by lia. apply Truncate_add_multiple.
Qed.
End truncate.

Lemma Sub_small t u : int64_min ≤ t - u ≤ int64_max → Sub t u = t - u.
Proof. unfold Sub. lia. Qed.

(** ** Calendar *)

Definition day_ns : Z := 24 * Hour.

(** Civil date of the day number [n] (day 0 is January 1, year 1). *)
Definition civil_of_days (n : Z) : Z * Z * Z :=
  let z := n + 306 in
  let era := z / 146097 in
  let doe := z mod 146097 in
  let yoe := (doe - doe / 1460 + doe / 36524 - doe / 146096) / 365 in
  let doy := doe - (365 * yoe + yoe / 4 - yoe / 100) in
  let mp := (5 * doy + 2) / 153 in
  let d := doy - (153 * mp + 2) / 5 + 1 in
  let m := if mp <? 10 then mp + 3 else mp - 9 in
  (yoe + era * 400 + (if m <=? 2 then 1 else 0), m, d).

Definition days_of_civil (y m d : Z) : Z :=
  let y' := y - (if m <=? 2 then 1 else 0) in
  let era := y' / 400 in
  let yoe := y' mod 400 in
  let doy := (153 * (m + (if 2 <? m then -3 else 9)) + 2) / 5 + d - 1 in
  let doe := yoe * 365 + yoe / 4 - yoe / 100 + doy in
  era * 146097 + doe - 306.

Definition Date (y m d hh mm ss : Z) : Time :=
  days_of_civil y m d * day_ns + hh * Hour + mm * Minute + ss * Second.

(** ** Format

    The layouts of the program, as the chunks the package splits them into. *)
Inductive chunk :=
  | CLit (s : string)
  | CYear | CMonth | CDay | CHour | CMinute | CSecond
  | CFrac0 (n : nat)      (* .000: [n] digits *)
  | CFrac9                (* .999999999: trailing zeros removed *).

Fixpoint strip_zeros (l : list ascii) : list ascii :=
  match l with
  | c :: l' => if Ascii.eqb c "0" then strip_zeros l' else l
  | [] => []
  end.

Definition frac9 (ns : Z) : string :=
  match strip_zeros (rev (String.list_ascii_of_string (pad_dec 9 ns))) with
  | [] => ""
  | l => "." +:+ String.string_of_list_ascii (rev l)
  end.

Definition format_chunk (t : Time) (c : chunk) : string :=
  let '(y, m, d) := civil_of_days (t / day_ns) in
  let ns := t mod day_ns in
  match c with
  | CLit s => s
  | CYear => pad_dec 4 y
  | CMonth => pad_dec 2 m
  | CDay => pad_dec 2 d
  | CHour => pad_dec 2 (ns / Hour)
  | CMinute => pad_dec 2 ((ns mod Hour) / Minute)
  | CSecond => pad_dec 2 ((ns mod Minute) / Second)
  | CFrac0 n => "." +:+ String.substring 0 n (pad_dec 9 (ns mod Second))
  | CFrac9 => frac9 (ns mod Second)
  end.

Definition Format (t : Time) (layout : list chunk) : string :=
  String.concat "" (format_chunk t <$> layout).

(** ["2006-01-02 15:04:05.999999999 -0700 MST"], the layout of [Time.String],
    for a time in UTC. *)
Definition layout_string : list chunk :=
  [CYear; CLit "-"; CMonth; CLit "-"; CDay; CLit " "; CHour; CLit ":"; CMinute; CLit ":";
   CSecond; CFrac9; CLit " +0000 UTC"].
Definition TimeString (t : Time) : string := Format t layout_string.

(** A time in a zone: the instant and the zone's offset; it formats as the
    zone's clock shows it. *)
Definition ZonedTime : Type := Time * Duration.
Definition FormatIn (t : ZonedTime) (layout : list chunk) : string := Format (t.1 + t.2) layout.

Definition FTime (t : Time) : fmt_arg := FStr (TimeString t).
