(* ===== verification/Types.v ===== *)
(** * The custom resources (src/pkg/apis/metering/v1) and the table types of
    the presto and hive packages

    Pointers are options, [json.RawMessage] its bytes, maps [gmap]s; a map
    whose nil value is told apart from the empty one is an option.  A nil
    slice is the empty list. *)

From S2P Require Export GoTime.

(** ** Object metadata (apimachinery, the fields the operator reads or sets) *)
Record OwnerReference := {
  or_APIVersion : string; or_Kind : string; or_Name : string;
}.

Record ObjectMeta := {
  Name : string;
  Namespace : string;
  ResourceVersion : string;
  Labels : gmap string string;
  Annotations : gmap string string;
  OwnerReferences : list OwnerReference;
  Finalizers : list string;
  DeletionTimestamp : option Time;
}.

Definition set_Finalizers (fs : list string) (m : ObjectMeta) : ObjectMeta :=
  {| Name := Name m; Namespace := Namespace m; ResourceVersion := ResourceVersion m;
     Labels := Labels m; Annotations := Annotations m; OwnerReferences := OwnerReferences m;
     Finalizers := fs; DeletionTimestamp := DeletionTimestamp m |}.

(** [cache.MetaNamespaceKeyFunc]. *)
Definition MetaNamespaceKey (m : ObjectMeta) : string :=
  if decide (Namespace m = "") then Name m else Namespace m +:+ "/" +:+ Name m.

(** ** presto and hive tables *)
Module presto.
Record Column := MkColumn { col_Name : string; col_Type : string }.
#[global] Instance Column_eq_dec : EqDecision Column.
Proof. solve_decision. Defined.
End presto.

Module hive.
Record Column := MkColumn { col_Name : string; col_Type : string }.
#[global] Instance Column_eq_dec : EqDecision Column.
Proof. solve_decision. Defined.

Record SortColumn := { sc_Name : string; sc_Decending : option bool }.
#[global] Instance SortColumn_eq_dec : EqDecision SortColumn.
Proof. solve_decision. Defined.

Abbreviation PartitionSpec := (gmap string string).
Record TablePartition := MkPartition { tp_Location : string; tp_Spec : PartitionSpec }.
#[global] Instance TablePartition_eq_dec : EqDecision TablePartition.
Proof. solve_decision. Defined.

Record TableParameters := {
  p_Database : string;
  p_Name : string;
  p_Columns : list Column;
  p_PartitionedBy : list Column;
  p_ClusteredBy : list string;
  p_SortedBy : list SortColumn;
  p_NumBuckets : Z;
  p_Location : string;
  p_RowFormat : string;
  p_FileFormat : string;
  p_TableProperties : option (gmap string string);
  p_External : bool;
}.

Record DatabaseParameters := { db_Name : string; db_Location : string }.
End hive.

(** ** Report *)
Record ReportScheduleCron := { Expression : string }.
Record ReportScheduleHourly := { h_Minute : Z; h_Second : Z }.
Record ReportScheduleDaily := { d_Hour : Z; d_Minute : Z; d_Second : Z }.
Record ReportScheduleWeekly := {
  w_DayOfWeek : option string; w_Hour : Z; w_Minute : Z; w_Second : Z }.
Record ReportScheduleMonthly := {
  m_DayOfMonth : option Z; m_Hour : Z; m_Minute : Z; m_Second : Z }.

Definition ReportPeriodCron : string := "cron".
Definition ReportPeriodHourly : string := "hourly".
Definition ReportPeriodDaily : string := "daily".
Definition ReportPeriodWeekly : string := "weekly".
Definition ReportPeriodMonthly : string := "monthly".

Record ReportSchedule := {
  Period : string;
  Cron : option ReportScheduleCron;
  Hourly : option ReportScheduleHourly;
  Daily : option ReportScheduleDaily;
  Weekly : option ReportScheduleWeekly;
  Monthly : option ReportScheduleMonthly;
}.

Record ReportQueryInputValue := { iv_Name : string; iv_Value : option string }.
Record StorageLocationRef := { StorageLocationName : string }.

Record ReportSpec := {
  rs_QueryName : string;
  rs_Schedule : option ReportSchedule;
  rs_ReportingStart : option Time;
  rs_ReportingEnd : option Time;
  rs_OverwriteExistingData : bool;
  rs_RunImmediately : bool;
  rs_Inputs : list ReportQueryInputValue;
  rs_Output : option StorageLocationRef;
}.

Inductive ConditionStatus := ConditionTrue | ConditionFalse | ConditionUnknown.
#[export] Instance ConditionStatus_eq_dec : EqDecision ConditionStatus.
Proof. solve_decision. Defined.

Record ReportCondition := {
  c_Type : string;
  c_Status : ConditionStatus;
  c_LastUpdateTime : Time;
  c_LastTransitionTime : Time;
  c_Reason : string;
  c_Message : string;
}.

Record ReportStatus := {
  Conditions : list ReportCondition;
  LastReportTime : option Time;
  NextReportTime : option Time;
  rst_TableRef : string;
}.

Record Report := { r_Meta : ObjectMeta; r_Spec : ReportSpec; r_Status : ReportStatus }.

(** ** ReportQuery *)
Record ReportQueryColumn := {
  q_Name : string; q_Type : string; TableHidden : bool; Unit : string }.
Record ReportQueryInputDefinition := {
  id_Name : string; id_Required : bool; id_Type : string; id_Default : option string }.
Record ReportQuerySpec := {
  qs_Columns : list ReportQueryColumn;
  qs_Query : string;
  qs_Inputs : list ReportQueryInputDefinition;
}.
Record ReportQuery := { q_Meta : ObjectMeta; q_Spec : ReportQuerySpec }.

(** ** ReportDataSource *)
Record S3Bucket := { Region : string; Bucket : string; Prefix : string }.
Record AWSBillingDataSource := { aws_Source : option S3Bucket; aws_DatabaseName : string }.
Record PrometheusQueryConfig := {
  QueryInterval : option Duration; StepSize : option Duration; ChunkSize : option Duration }.
Record PrometheusMetricsImporterDataSource := {
  pm_Query : string;
  pm_QueryConfig : option PrometheusQueryConfig;
  pm_Storage : option StorageLocationRef;
  pm_PrometheusURL : option string;
}.
Record ReportQueryViewDataSource := {
  rv_QueryName : string;
  rv_Inputs : list ReportQueryInputValue;
  rv_Storage : option StorageLocationRef;
}.
Record ReportDataSourceSpec := {
  ds_PrometheusMetricsImporter : option PrometheusMetricsImporterDataSource;
  ds_AWSBilling : option AWSBillingDataSource;
  ds_PrestoTable : option string;   (* the name of its tableRef *)
  ds_ReportQueryView : option ReportQueryViewDataSource;
}.
Record PrometheusMetricsImportStatus := {
  LastImportTime : option Time;
  ImportDataStartTime : option Time;
  ImportDataEndTime : option Time;
  EarliestImportedMetricTime : option Time;
  NewestImportedMetricTime : option Time;
}.
Record ReportDataSourceStatus := {
  dst_TableRef : string;
  dst_ImportStatus : option PrometheusMetricsImportStatus;
}.
Record ReportDataSource := {
  ds_Meta : ObjectMeta; ds_Spec : ReportDataSourceSpec; ds_Status : ReportDataSourceStatus }.

(** ** PrestoTable: spec and status share the table description *)
Record PrestoTableInfo := {
  pt_Catalog : string;
  pt_Schema : string;
  pt_TableName : string;
  pt_Columns : list presto.Column;
  pt_Properties : option (gmap string string);
  pt_Comment : string;
  pt_View : bool;
  pt_CreateTableAs : bool;
  pt_Query : string;
}.
Record PrestoTable := {
  pt_Meta : ObjectMeta; pt_Unmanaged : bool; pt_Spec : PrestoTableInfo; pt_Status : PrestoTableInfo }.

(** ** HiveTable *)
Record HiveTableInfo := {
  ht_DatabaseName : string;
  ht_TableName : string;
  ht_Columns : list hive.Column;
  ht_PartitionedBy : list hive.Column;
  ht_ClusteredBy : list string;
  ht_SortedBy : list hive.SortColumn;
  ht_NumBuckets : Z;
  ht_Location : string;
  ht_RowFormat : string;
  ht_FileFormat : string;
  ht_TableProperties : option (gmap string string);
  ht_External : bool;
  ht_Partitions : list hive.TablePartition;
}.
Record HiveTable := {
  ht_Meta : ObjectMeta; ht_ManagePartitions : bool; ht_Spec : HiveTableInfo; ht_Status : HiveTableInfo }.

(** ** StorageLocation *)
Definition IsDefaultStorageLocationAnnotation : string :=
  "storagelocation.metering.openshift.io/is-default".
Record HiveStorage := {
  UnmanagedDatabase : bool;
  hs_DatabaseName : string;
  hs_Location : string;
  DefaultTableProperties : option (string * string);   (* row format, file format *)
}.
Record StorageLocation := {
  sl_Meta : ObjectMeta;
  sl_Hive : option HiveStorage;
  sl_DatabaseName : string;   (* status.hive.databaseName *)
  sl_Location : string;       (* status.hive.location *)
}.

Definition GroupName : string := "metering.openshift.io".

(** ** Decidable equality, which [reflect.DeepEqual] computes *)
#[export] Instance ReportScheduleCron_eq_dec : EqDecision ReportScheduleCron.
Proof. solve_decision. Defined.
#[export] Instance ReportScheduleHourly_eq_dec : EqDecision ReportScheduleHourly.
Proof. solve_decision. Defined.
#[export] Instance ReportScheduleDaily_eq_dec : EqDecision ReportScheduleDaily.
Proof. solve_decision. Defined.
#[export] Instance ReportScheduleWeekly_eq_dec : EqDecision ReportScheduleWeekly.
Proof. solve_decision. Defined.
#[export] Instance ReportScheduleMonthly_eq_dec : EqDecision ReportScheduleMonthly.
Proof. solve_decision. Defined.
#[export] Instance ReportSchedule_eq_dec : EqDecision ReportSchedule.
Proof. solve_decision. Defined.
#[export] Instance ReportQueryInputValue_eq_dec : EqDecision ReportQueryInputValue.
Proof. solve_decision. Defined.
#[export] Instance StorageLocationRef_eq_dec : EqDecision StorageLocationRef.
Proof. solve_decision. Defined.
#[export] Instance ReportSpec_eq_dec : EqDecision ReportSpec.
Proof. solve_decision. Defined.
#[export] Instance ReportQueryColumn_eq_dec : EqDecision ReportQueryColumn.
Proof. solve_decision. Defined.
#[export] Instance ReportQueryInputDefinition_eq_dec : EqDecision ReportQueryInputDefinition.
Proof. solve_decision. Defined.
#[export] Instance ReportQuerySpec_eq_dec : EqDecision ReportQuerySpec.
Proof. solve_decision. Defined.
#[export] Instance S3Bucket_eq_dec : EqDecision S3Bucket.
Proof. solve_decision. Defined.
#[export] Instance AWSBillingDataSource_eq_dec : EqDecision AWSBillingDataSource.
Proof. solve_decision. Defined.
#[export] Instance PrometheusQueryConfig_eq_dec : EqDecision PrometheusQueryConfig.
Proof. solve_decision. Defined.
#[export] Instance PrometheusMetricsImporterDataSource_eq_dec :
  EqDecision PrometheusMetricsImporterDataSource.
Proof. solve_decision. Defined.
#[export] Instance ReportQueryViewDataSource_eq_dec : EqDecision ReportQueryViewDataSource.
Proof. solve_decision. Defined.
#[export] Instance ReportDataSourceSpec_eq_dec : EqDecision ReportDataSourceSpec.
Proof. solve_decision. Defined.
#[export] Instance PrometheusMetricsImportStatus_eq_dec : EqDecision PrometheusMetricsImportStatus.
Proof. solve_decision. Defined.
