(* ===== verification/Effects.v ===== *)
(** * Effects of the operator

    The services the operator talks to (API server, informer caches, Hive,
    Presto, Prometheus, the clock) are an environment with a state of type [S]
    and arbitrary operations: the class [Env].  A handler is a computation
    [M S A] over a [world]: the environment's state and the trace of the
    effects performed so far, oldest first, each with its success.  Logging
    is not modelled. *)

From S2P Require Export Types.

(** ** Resource kinds *)
Inductive kind := KReport | KReportQuery | KReportDataSource | KPrestoTable | KHiveTable | KStorageLocation.
#[export] Instance kind_eq_dec : EqDecision kind.
Proof. solve_decision. Defined.

Definition obj (k : kind) : Type :=
  match k with
  | KReport => Report
  | KReportQuery => ReportQuery
  | KReportDataSource => ReportDataSource
  | KPrestoTable => PrestoTable
  | KHiveTable => HiveTable
  | KStorageLocation => StorageLocation
  end.

Definition meta (k : kind) : obj k → ObjectMeta :=
  match k with
  | KReport => r_Meta
  | KReportQuery => q_Meta
  | KReportDataSource => ds_Meta
  | KPrestoTable => pt_Meta
  | KHiveTable => ht_Meta
  | KStorageLocation => sl_Meta
  end.

(** ** Prometheus values *)
Record Range := MkRange { r_Start : Time; r_End : Time; r_Step : Duration }.
Record SamplePair := { sp_Timestamp : Time; sp_Value : spec_float }.
Record SampleStream := { ss_Metric : gmap string string; ss_Values : list SamplePair }.
(** [model.Value]: a matrix, or a value of another type (its name). *)
Inductive PromValue := Matrix (m : list SampleStream) | OtherValue (type : string).

Record PrometheusMetric := {
  pm_Labels : gmap string string;
  pm_Amount : spec_float;
  pm_StepSize : Duration;
  pm_Timestamp : Time;
  pm_Dt : string;
}.

Inductive counter :=
  | ImportsRunningGauge | TotalImports | FailedImports
  | TotalPrometheusQueries | FailedPrometheusQueries
  | TotalPrestoStores | FailedPrestoStores
  | MetricsScraped | MetricsImported
  | GenerateReportTotal | GenerateReportFailed | HiveTablePartitions.
#[export] Instance counter_eq_dec : EqDecision counter.
Proof. solve_decision. Defined.

(** ** Values and rows read from Presto

    [interface{}] values as the driver produces them; [VOther] is a value of
    any other type (its type name). *)
Inductive Value :=
  | VNil
  | VString (s : string)
  | VBytes (s : string)
  | VInt (z : Z)
  | VFloat (x : spec_float)
  | VBool (b : bool)
  | VTime (t : Time)
  | VMap (l : list (string * Value))
  | VOther (type : string).

Abbreviation Row := (gmap string Value).

(** [sql.Rows]: the column names, the scanned rows, the error met while
    fetching. *)
Record Rows := {
  rows_Columns : outcome (list string);
  rows_Scan : list (outcome (list Value));
  rows_Err : option error;
}.

(** ** Effects *)
Inductive action :=
  | ACreate (k : kind) (o : obj k)
  | AUpdate (k : kind) (o : obj k)
  | AEnqueue (k : kind) (key : string)
  | AEnqueueAfter (k : kind) (key : string) (d : Duration)
  | AHiveCreateTable (p : hive.TableParameters) (ignoreExists : bool)
  | AHiveDropTable (db table : string) (ignoreNotExists : bool)
  | AHiveCreateDatabase (p : hive.DatabaseParameters)
  | AHiveDropDatabase (db : string) (ignoreNotExists cascade : bool)
  | AHiveAddPartition (table : string) (cols : list hive.Column) (p : hive.TablePartition)
  | AHiveDropPartition (table : string) (cols : list hive.Column) (p : hive.TablePartition)
  | APrestoCreateTable (catalog schema table : string) (cols : list presto.Column)
      (comment : string) (props : option (gmap string string)) (ignoreExists : bool)
  | APrestoCreateTableAs (catalog schema table : string) (cols : list presto.Column)
      (comment : string) (props : option (gmap string string)) (ignoreExists : bool) (query : string)
  | APrestoCreateView (catalog schema view query : string)
  | APrestoDropTable (catalog schema table : string) (ignoreNotExists : bool)
  | APrestoDropView (catalog schema view : string) (ignoreNotExists : bool)
  | APrestoQuery (sql : string)
  | AHiveExec (sql : string)
  | APromQuery (query : string) (r : Range)
  | AStoreMetrics (table : string) (ms : list PrometheusMetric)
  | ACounter (c : counter) (n : Z).

Record event := Ev { ev_action : action; ev_ok : bool }.

(** ** The environment *)
Class Env (S : Type) := {
  (* API client and informer caches *)
  client_get : ∀ k, string → string → S → outcome (obj k) * S;
  client_list : ∀ k, string → S → outcome (list (obj k)) * S;
  client_create : ∀ k, obj k → S → outcome (obj k) * S;
  client_update : ∀ k, obj k → S → outcome (obj k) * S;
  lister_get : ∀ k, string → string → S → outcome (obj k) * S;
  lister_list : ∀ k, string → S → outcome (list (obj k)) * S;
  (* clock, scheduling *)
  clock_now : S → Time * S;
  wait_jitter : Duration → S → Duration * S;
  (* number of attempts wait.Poll or retry.RetryOnConflict makes before its time is up *)
  poll_attempts : S → nat * S;
  (* cron library *)
  cron_Parse : string → outcome (Time → Time);
  cron_ParseStandard : string → outcome (Time → Time);
  (* databases and generators *)
  db_exec : action → S → outcome unit * S;
  presto_query : string → S → outcome Rows * S;
  (* Prometheus *)
  prom_query : string → Range → S → outcome PromValue * S;
  ctx_err : S → option error * S;
  last_timestamp : string → S → outcome (option Time) * S;
}.

Record world (S : Type) := World { env : S; trace : list event }.
Arguments World {S} env trace.
Arguments env {S} w.
Arguments trace {S} w.

Definition M (S A : Type) : Type := world S → outcome A * world S.

Section monad.
Context {S : Type}.

#[export] Instance M_ret : MRet (M S) := λ A a w, (Ok a, w).
#[export] Instance M_bind : MBind (M S) := λ A B f m w,
  match m w with
  | (Ok a, w') => f a w'
  | (Err e, w') => (Err e, w')
  | (Panic p, w') => (Panic p, w')
  end.

Definition fail {A} (e : error) : M S A := λ w, (Err e, w).
Definition panic {A} (msg : string) : M S A := λ w, (Panic msg, w).
Definition ret_out {A} (o : outcome A) : M S A := λ w, (o, w).

(** [try m] hands an error to the caller as a value; a panic propagates. *)
Definition try {A} (m : M S A) : M S (A + error) := λ w,
  match m w with
  | (Ok a, w') => (Ok (inl a), w')
  | (Err e, w') => (Ok (inr e), w')
  | (Panic p, w') => (Panic p, w')
  end.

(** [if err := m; err != nil { log }]. *)
Definition log_err {A} (m : M S A) : M S unit := _ ← try m; mret tt.

(** [if err := m; err != nil { return wrap(err) }]. *)
Definition map_err {A} (f : error → error) (m : M S A) : M S A := λ w,
  match m w with
  | (Err e, w') => (Err (f e), w')
  | r => r
  end.

(** A read of the environment, and an effect on it. *)
Definition read {A} (f : S → outcome A * S) : M S A := λ w,
  let '(o, s) := f (env w) in (o, World s (trace w)).
Definition read_pure {A} (f : S → A * S) : M S A := λ w,
  let '(a, s) := f (env w) in (Ok a, World s (trace w)).
Definition effect {A} (a : action) (f : S → outcome A * S) : M S A := λ w,
  let '(o, s) := f (env w) in (o, World s (trace w ++ [Ev a (is_Ok o)])).
Definition emit (a : action) : M S unit := λ w,
  (Ok tt, World (env w) (trace w ++ [Ev a true])).

Fixpoint for_each {A} (l : list A) (f : A → M S unit) : M S unit :=
  match l with
  | [] => mret tt
  | x :: l => _ ← f x; for_each l f
  end.
End monad.

(** ** The client, lister, queue and database calls of the operator *)
Section calls.
Context {S : Type} `{!Env S}.

Definition Get (k : kind) (ns name : string) : M S (obj k) := read (client_get k ns name).
Definition List (k : kind) (ns : string) : M S (list (obj k)) := read (client_list k ns).
Definition Create (k : kind) (o : obj k) : M S (obj k) := effect (ACreate k o) (client_create k o).
Definition Update (k : kind) (o : obj k) : M S (obj k) := effect (AUpdate k o) (client_update k o).
Definition ListerGet (k : kind) (ns name : string) : M S (obj k) := read (lister_get k ns name).
Definition ListerList (k : kind) (ns : string) : M S (list (obj k)) := read (lister_list k ns).
Definition Now : M S Time := read_pure clock_now.
Definition Jitter (d : Duration) : M S Duration := read_pure (wait_jitter d).
Definition exec (a : action) : M S unit := effect a (db_exec a).

Definition enqueue (k : kind) (o : obj k) : M S unit :=
  emit (AEnqueue k (MetaNamespaceKey (meta k o))).
Definition enqueueAfter (k : kind) (o : obj k) (d : Duration) : M S unit :=
  emit (AEnqueueAfter k (MetaNamespaceKey (meta k o)) d).
Definition Inc (c : counter) : M S unit := emit (ACounter c 1).
End calls.

(** ** Reasoning about traces *)

(** Every effect [m] performs satisfies [P]. *)
Definition emits {S A} (P : event → Prop) (m : M S A) : Prop :=
  ∀ w, ∃ tr, trace (m w).2 = trace w ++ tr ∧ Forall P tr.

Create HintDb effects.

Section emits.
Context {S : Type} (P : event → Prop).

Lemma emits_nil {A} (m : M S A) : (∀ w, trace (m w).2 = trace w) → emits P m.
Proof. intros H w. exists []. rewrite H, app_nil_r. by split; [|constructor]. Qed.

Lemma emits_ret {A} (a : A) : emits P (mret a : M S A).
Proof. by apply emits_nil. Qed.
Lemma emits_fail {A} (e : error) : emits P (fail e : M S A).
Proof. by apply emits_nil. Qed.
Lemma emits_panic {A} (p : string) : emits P (panic p : M S A).
Proof. by apply emits_nil. Qed.
Lemma emits_ret_out {A} (o : outcome A) : emits P (ret_out o : M S A).
Proof. by apply emits_nil. Qed.
Lemma emits_read {A} (f : S → outcome A * S) : emits P (read f).
Proof. apply emits_nil. intros w. unfold read. by destruct (f (env w)). Qed.
Lemma emits_read_pure {A} (f : S → A * S) : emits P (read_pure f).
Proof. apply emits_nil. intros w. unfold read_pure. by destruct (f (env w)). Qed.

Lemma emits_bind {A B} (m : M S A) (f : A → M S B) :
  emits P m → (∀ a, emits P (f a)) → emits P (x ← m; f x).
Proof.
  intros Hm Hf w. destruct (Hm w) as (tr & Htr & HP).
  unfold mbind, M_bind. destruct (m w) as [[a|e|p] w'] eqn:E; simpl in *; eauto.
  destruct (Hf a w') as (tr' & Htr' & HP').
  exists (tr ++ tr'). rewrite Htr', Htr, app_assoc. split; [done|].
  by apply Forall_app_2.
Qed.

Lemma emits_try {A} (m : M S A) : emits P m → emits P (try m).
Proof.
  intros Hm w. destruct (Hm w) as (tr & Htr & HP). exists tr.
  unfold try. by destruct (m w) as [[a|e|p] w'].
Qed.
Lemma emits_log_err {A} (m : M S A) : emits P m → emits P (log_err m).
Proof. intros. apply emits_bind; [by apply emits_try|]. intros. apply emits_ret. Qed.
Lemma emits_map_err {A} g (m : M S A) : emits P m → emits P (map_err g m).
Proof.
  intros Hm w. destruct (Hm w) as (tr & Htr & HP). exists tr.
  unfold map_err. by destruct (m w) as [[a|e|p] w'].
Qed.

Lemma emits_effect {A} a (f : S → outcome A * S) :
  (∀ ok, P (Ev a ok)) → emits P (effect a f).
Proof.
  intros Ha w. unfold effect. destruct (f (env w)) as [o s]; simpl.
  eexists. split; [done|]. by apply Forall_singleton.
Qed.
Lemma emits_emit a : P (Ev a true) → emits P (emit a : M S unit).
Proof. intros Ha w. eexists. split; [done|]. by apply Forall_singleton. Qed.

Lemma emits_for_each {A} (l : list A) (f : A → M S unit) :
  (∀ x, x ∈ l → emits P (f x)) → emits P (for_each l f).
Proof.
  induction l as [|x l IH]; intros Hf; simpl; [apply emits_ret|].
  apply emits_bind; [apply Hf; set_solver|]. intros _. apply IH. set_solver.
Qed.
End emits.

Lemma emits_weaken {S A} (P Q : event → Prop) (m : M S A) :
  (∀ e, P e → Q e) → emits P m → emits Q m.
Proof.
  intros HPQ Hm w. destruct (Hm w) as (tr & Htr & HP).
  exists tr. split; [done|]. by eapply Forall_impl.
Qed.

#[export] Hint Resolve emits_ret emits_fail emits_panic emits_ret_out emits_read emits_read_pure
  emits_bind emits_try emits_log_err emits_map_err emits_effect emits_emit emits_for_each : effects.

(** Structural proof of [emits]: binds, reads and branches are decomposed,
    effects leave the side condition on the event. *)
Ltac emits_step :=
  match goal with
  | |- emits _ (mbind _ _) => apply emits_bind; [|intros ?]
  | |- emits _ (mret _) => apply emits_ret
  | |- emits _ (fail _) => apply emits_fail
  | |- emits _ (panic _) => apply emits_panic
  | |- emits _ (ret_out _) => apply emits_ret_out
  | |- emits _ (read _) => apply emits_read
  | |- emits _ (read_pure _) => apply emits_read_pure
  | |- emits _ (try _) => apply emits_try
  | |- emits _ (log_err _) => apply emits_log_err
  | |- emits _ (map_err _ _) => apply emits_map_err
  | |- emits _ (effect _ _) => apply emits_effect; intros ?
  | |- emits _ (emit _) => apply emits_emit
  | |- emits _ (for_each _ _) => apply emits_for_each; intros ? ?
  | |- emits _ (match ?x with _ => _ end) => destruct x eqn:?
  | |- emits _ (let _ := _ in _) => cbv zeta
  | |- emits _ (Get _ _ _) => apply emits_read
  | |- emits _ (List _ _) => apply emits_read
  | |- emits _ (ListerGet _ _ _) => apply emits_read
  | |- emits _ (ListerList _ _) => apply emits_read
  | |- emits _ Now => apply emits_read_pure
  | |- emits _ (Jitter _) => apply emits_read_pure
  | |- emits _ (Create _ _) => apply emits_effect; intros ?
  | |- emits _ (Update _ _) => apply emits_effect; intros ?
  | |- emits _ (exec _) => apply emits_effect; intros ?
  | |- emits _ (enqueue _ _) => apply emits_emit
  | |- emits _ (enqueueAfter _ _ _) => apply emits_emit
  | |- emits _ (Inc _) => apply emits_emit
  end.
Ltac emits_tac := repeat emits_step; try done.

(** ** Inversion of successful runs *)
Section inversion.
Context {S : Type}.

Lemma bind_Ok_inv {A B} (m : M S A) (f : A → M S B) w b w' :
  (x ← m; f x) w = (Ok b, w') → ∃ a w1, m w = (Ok a, w1) ∧ f a w1 = (Ok b, w').
Proof. unfold mbind, M_bind. destruct (m w) as [[a|e|p] w1]; naive_solver. Qed.

Lemma bind_run {A B} (m : M S A) (f : A → M S B) w :
  (x ← m; f x) w =
  match m w with
  | (Ok a, w') => f a w'
  | (Err e, w') => (Err e, w')
  | (Panic p, w') => (Panic p, w')
  end.
Proof. done. Qed.

Lemma ret_inv {A} (a : A) (w : world S) o w' : (mret a : M S A) w = (o, w') → o = Ok a ∧ w' = w.
Proof. unfold mret, M_ret. naive_solver. Qed.

Lemma emit_inv a (w : world S) o w' :
  emit a w = (o, w') → o = Ok tt ∧ w' = World (env w) (trace w ++ [Ev a true]).
Proof. unfold emit. naive_solver. Qed.

Lemma read_trace {A} (f : S → outcome A * S) w o w' :
  read f w = (o, w') → trace w' = trace w ∧ f (env w) = (o, env w').
Proof. unfold read. destruct (f (env w)). naive_solver. Qed.

Lemma read_pure_trace {A} (f : S → A * S) w o w' :
  read_pure f w = (o, w') → trace w' = trace w ∧ ∃ a, o = Ok a ∧ f (env w) = (a, env w').
Proof. unfold read_pure. destruct (f (env w)). naive_solver. Qed.

Lemma effect_trace {A} a (f : S → outcome A * S) w o w' :
  effect a f w = (o, w') →
  trace w' = trace w ++ [Ev a (is_Ok o)] ∧ f (env w) = (o, env w').
Proof. unfold effect. destruct (f (env w)). naive_solver. Qed.

Definition is_inl {A B} (x : A + B) : bool := match x with inl _ => true | inr _ => false end.

Lemma try_inv {A} (m : M S A) w r w' :
  try m w = (Ok r, w') →
  match r with inl a => m w = (Ok a, w') | inr e => m w = (Err e, w') end.
Proof. unfold try. destruct (m w) as [[a|e|p] w1]; naive_solver. Qed.

Lemma try_effect_inv {A} a (f : S → outcome A * S) w r w' :
  try (effect a f) w = (Ok r, w') → trace w' = trace w ++ [Ev a (is_inl r)].
Proof.
  intros H%try_inv. destruct r; apply effect_trace in H as [-> _]; done.
Qed.
End inversion.

(** Decompose a hypothesis [m w = (Ok a, w')] into the runs of its parts. *)
Ltac run_inv :=
  repeat match goal with
  | H : @mbind _ _ _ _ _ _ _ = (Ok _, _) |- _ =>
      apply bind_Ok_inv in H as (? & ? & ? & ?)
  | H : @mret _ _ _ _ _ = (_, _) |- _ => apply ret_inv in H as [? ?]; simplify_eq
  | H : emit _ _ = (_, _) |- _ => apply emit_inv in H as [? ?]; simplify_eq
  | H : Inc _ _ = (_, _) |- _ => unfold Inc in H
  | H : read_pure _ _ = (_, _) |- _ =>
      apply read_pure_trace in H as (? & ? & ? & ?); simplify_eq
  end.

(** Solve [trace w' = trace w ++ ?t] from the equations of the intermediate worlds. *)
Ltac trace_tac :=
  simpl in *;
  repeat match goal with H : trace ?x = _ |- context [trace ?x] => rewrite H; clear H end;
  rewrite <- ?app_assoc; reflexivity.

(** Evaluate the monadic structure at the head of a goal. *)
Ltac run_red := unfold mbind, M_bind, mret, M_ret, Inc, emit, fail, panic, try, exec, effect, read,
  read_pure; simpl.

(** ** Results of successful runs *)

(** Whenever [m] succeeds its result satisfies [P]. *)
Definition returns {S A} (P : A → Prop) (m : M S A) : Prop :=
  ∀ w a w', m w = (Ok a, w') → P a.

Section returns.
Context {S : Type}.

Lemma returns_ret {A} (P : A → Prop) (a : A) : P a → returns (S := S) P (mret a).
Proof. intros Ha w b w' [[= ->] _]%ret_inv. done. Qed.
Lemma returns_fail {A} (P : A → Prop) e : returns (S := S) P (fail e).
Proof. by intros w b w' ?. Qed.
Lemma returns_panic {A} (P : A → Prop) p : returns (S := S) P (panic p).
Proof. by intros w b w' ?. Qed.
Lemma returns_ret_out {A} (P : A → Prop) (o : outcome A) :
  (∀ a, o = Ok a → P a) → returns (S := S) P (ret_out o).
Proof. intros Ho w b w' [= ->]. by apply Ho. Qed.
Lemma returns_bind {A B} (P : A → Prop) (Q : B → Prop) (m : M S A) (f : A → M S B) :
  returns P m → (∀ a, P a → returns Q (f a)) → returns Q (x ← m; f x).
Proof. intros Hm Hf w b w' (a & w1 & H1 & H2)%bind_Ok_inv. eapply Hf; [by eapply Hm|done]. Qed.
Lemma returns_weaken {A} (P Q : A → Prop) (m : M S A) :
  returns P m → (∀ a, P a → Q a) → returns Q m.
Proof. intros Hm HPQ w a w' H. by eapply HPQ, Hm. Qed.
Lemma returns_any {A} (m : M S A) : returns (λ _, True) m.
Proof. by intros ?. Qed.
End returns.
#[export] Hint Resolve returns_ret returns_fail returns_panic returns_ret_out returns_any : effects.

(** ** Effects and results together

    [performs P Q m]: every effect of [m] satisfies [P], and a result satisfies
    [Q].  The continuation of a bind may use what is known of the result. *)
Definition performs {S A} (P : event → Prop) (Q : A → Prop) (m : M S A) : Prop :=
  ∀ w o w', m w = (o, w') →
    ∃ tr, trace w' = trace w ++ tr ∧ Forall P tr ∧ ∀ a, o = Ok a → Q a.

Section performs.
Context {S : Type} (P : event → Prop).

Lemma performs_emits {A} (Q : A → Prop) (m : M S A) : emits P m → returns Q m → performs P Q m.
Proof.
  intros He Hr w o w' E. destruct (He w) as (tr & Htr & HP). rewrite E in Htr.
  exists tr. split_and!; [done|done|]. intros a ->. by eapply Hr.
Qed.
Lemma performs_any {A} (m : M S A) : emits P m → performs P (λ _, True) m.
Proof. intros. by apply performs_emits. Qed.
Lemma emits_performs {A} (Q : A → Prop) (m : M S A) : performs P Q m → emits P m.
Proof.
  intros H w. destruct (m w) as [o w'] eqn:E. destruct (H w o w' E) as (tr & Htr & HP & _). eauto.
Qed.

Lemma performs_ret {A} (Q : A → Prop) a : Q a → performs P Q (mret a : M S A).
Proof. intros. by apply performs_emits; [apply emits_ret|apply returns_ret]. Qed.
Lemma performs_fail {A} (Q : A → Prop) e : performs P Q (fail e : M S A).
Proof. by apply performs_emits; [apply emits_fail|apply returns_fail]. Qed.
Lemma performs_ret_out {A} (Q : A → Prop) (o : outcome A) :
  (∀ a, o = Ok a → Q a) → performs P Q (ret_out o : M S A).
Proof. intros. by apply performs_emits; [apply emits_ret_out|apply returns_ret_out]. Qed.
Lemma performs_bind {A B} (Q : A → Prop) (R : B → Prop) (m : M S A) (f : A → M S B) :
  performs P Q m → (∀ a, Q a → performs P R (f a)) → performs P R (x ← m; f x).
Proof.
  intros Hm Hf w o w'. rewrite bind_run. destruct (m w) as [[a|e|p] w1] eqn:E; intros Hw.
  - destruct (Hm _ _ _ E) as (tr & Htr & HP & HQ).
    destruct (Hf a (HQ a eq_refl) _ _ _ Hw) as (tr' & Htr' & HP' & HR).
    exists (tr ++ tr'). rewrite Htr', Htr, app_assoc. split_and!; [done|by apply Forall_app|done].
  - destruct (Hm _ _ _ E) as (tr & Htr & HP & _). simplify_eq. exists tr. by split_and!.
  - destruct (Hm _ _ _ E) as (tr & Htr & HP & _). simplify_eq. exists tr. by split_and!.
Qed.
Lemma performs_weaken {A} (Q R : A → Prop) (m : M S A) :
  performs P Q m → (∀ a, Q a → R a) → performs P R m.
Proof.
  intros Hm HQ w o w' E. destruct (Hm _ _ _ E) as (tr & Htr & HP & H).
  exists tr. split_and!; [done|done|]. intros a Ha. by apply HQ, H.
Qed.
Lemma performs_map_err {A} (Q : A → Prop) g (m : M S A) : performs P Q m → performs P Q (map_err g m).
Proof.
  intros Hm w o w'. unfold map_err. destruct (m w) as [[a|e|p] w1] eqn:E; intros Hw; simplify_eq;
    destruct (Hm _ _ _ E) as (tr & Htr & HP & H); exists tr; by split_and!.
Qed.
Lemma performs_try {A} (Q : A → Prop) (m : M S A) :
  performs P Q m → performs P (λ r, match r with inl a => Q a | inr _ => True end) (try m).
Proof.
  intros Hm w o w'. unfold try. destruct (m w) as [[a|e|p] w1] eqn:E; intros Hw; simplify_eq;
    destruct (Hm _ _ _ E) as (tr & Htr & HP & H); exists tr; split_and!; try done;
    intros b [= <-]; [by apply H|done].
Qed.
Lemma performs_effect {A} (Q : A → Prop) a (f : S → outcome A * S) :
  (∀ ok, P (Ev a ok)) → (∀ s x s', f s = (Ok x, s') → Q x) → performs P Q (effect a f).
Proof.
  intros HP HQ w o w' [Htr Hf]%effect_trace. exists [Ev a (is_Ok o)].
  split_and!; [done|by apply Forall_singleton|]. intros x ->. by eapply HQ.
Qed.

(** The run of a bind, on every outcome of its first part. *)
Lemma bind_cases {A B} (m : M S A) (f : A → M S B) w o w' :
  (x ← m; f x) w = (o, w') →
  (∃ a w1, m w = (Ok a, w1) ∧ f a w1 = (o, w')) ∨
  (∃ o1, m w = (o1, w') ∧ is_Ok o1 = false ∧ is_Ok o = false).
Proof.
  rewrite bind_run. destruct (m w) as [[a|e|p] w1]; intros H; simplify_eq; [left; by eauto|right; by eauto..].
Qed.
End performs.

