(* ===== verification/Mem.v ===== *)
(** * An in-memory environment

    One concrete instance of [Env]: object stores with the API server's
    create/update errors, caches that are always in sync, a fixed clock, and
    databases and a Prometheus given by functions.  The witnesses run the
    operator against it. *)

From S2P Require Export Effects.

Record Mem := {
  m_objs : ∀ k, gmap (string * string) (obj k);
  m_now : Time;
  m_db : action → outcome unit;
  m_prom : string → Range → outcome PromValue;
  m_last : option Time;
}.

Definition set_objs (k : kind) (o : gmap (string * string) (obj k)) (m : Mem) : Mem :=
  {| m_objs := λ k', match decide (k = k') with
                     | left E => eq_rect k (λ k, gmap (string * string) (obj k)) o k' E
                     | right _ => m_objs m k'
                     end;
     m_now := m_now m; m_db := m_db m; m_prom := m_prom m; m_last := m_last m |}.

Definition obj_key (k : kind) (o : obj k) : string * string := (Namespace (meta k o), Name (meta k o)).

(** An object is found under its own namespace and name only. *)
Definition mem_get (k : kind) (ns name : string) (m : Mem) : outcome (obj k) * Mem :=
  (match m_objs m k !! (ns, name) with
   | Some o =>
       if decide (obj_key k o = (ns, name)) then Ok o
       else Err (MkError KNotFound (name +:+ " not found"))
   | None => Err (MkError KNotFound (name +:+ " not found"))
   end, m).
Definition mem_list (k : kind) (ns : string) (m : Mem) : outcome (list (obj k)) * Mem :=
  (Ok (snd <$> filter (λ p, p.1.1 = ns) (map_to_list (m_objs m k))), m).
Definition mem_create (k : kind) (o : obj k) (m : Mem) : outcome (obj k) * Mem :=
  match m_objs m k !! obj_key k o with
  | Some _ => (Err (MkError KAlreadyExists (Name (meta k o) +:+ " already exists")), m)
  | None => (Ok o, set_objs k (<[obj_key k o := o]> (m_objs m k)) m)
  end.
Definition mem_update (k : kind) (o : obj k) (m : Mem) : outcome (obj k) * Mem :=
  match m_objs m k !! obj_key k o with
  | Some _ => (Ok o, set_objs k (<[obj_key k o := o]> (m_objs m k)) m)
  | None => (Err (MkError KNotFound (Name (meta k o) +:+ " not found")), m)
  end.

(** A schedule activating at every whole hour. *)
Definition hourly (t : Time) : Time := Truncate t Hour + Hour.

#[export] Instance mem_env : Env Mem := {|
  client_get := mem_get; client_list := mem_list;
  client_create := mem_create; client_update := mem_update;
  lister_get := mem_get; lister_list := mem_list;
  clock_now := λ m, (m_now m, m);
  wait_jitter := λ d m, (d, m);
  poll_attempts := λ m, (20%nat, m);
  cron_Parse := λ _, Ok hourly;
  cron_ParseStandard := λ _, Ok hourly;
  db_exec := λ a m, (m_db m a, m);
  presto_query := λ _ m, (Ok {| rows_Columns := Ok []; rows_Scan := []; rows_Err := None |}, m);
  prom_query := λ q r m, (m_prom m q r, m);
  ctx_err := λ m, (None, m);
  last_timestamp := λ _ m, (Ok (m_last m), m);
|}.

Lemma mem_get_key k ns name m o m' : mem_get k ns name m = (Ok o, m') → obj_key k o = (ns, name).
Proof. unfold mem_get. by repeat case_match; intros; simplify_eq. Qed.

Definition mem0 : Mem :=
  {| m_objs := λ _, ∅; m_now := Date 2019 7 4 12 0 0; m_db := λ _, Ok tt;
     m_prom := λ _ r, Ok (Matrix [{| ss_Metric := ∅;
       ss_Values := [{| sp_Timestamp := r_End r; sp_Value := S754_zero false |};
                     {| sp_Timestamp := r_Start r; sp_Value := S754_zero false |}] |}]);
     m_last := None |}.

Definition world0 (m : Mem) : world Mem := World m [].

Definition add_obj (k : kind) (o : obj k) (m : Mem) : Mem :=
  set_objs k (<[obj_key k o := o]> (m_objs m k)) m.

(** Metadata of a plain object. *)
Definition meta_of (ns name : string) : ObjectMeta :=
  {| Name := name; Namespace := ns; ResourceVersion := "1"; Labels := ∅; Annotations := ∅;
     OwnerReferences := []; Finalizers := []; DeletionTimestamp := None |}.

(** The same environment frozen at one state: every call answers from [m]. *)
Definition frozen_env (m : Mem) : Env () := {|
  client_get := λ k ns n _, ((mem_get k ns n m).1, ());
  client_list := λ k ns _, ((mem_list k ns m).1, ());
  client_create := λ k o _, ((mem_create k o m).1, ());
  client_update := λ k o _, ((mem_update k o m).1, ());
  lister_get := λ k ns n _, ((mem_get k ns n m).1, ());
  lister_list := λ k ns _, ((mem_list k ns m).1, ());
  clock_now := λ _, (m_now m, ());
  wait_jitter := λ d _, (d, ());
  poll_attempts := λ _, (20%nat, ());
  cron_Parse := λ _, Ok hourly;
  cron_ParseStandard := λ _, Ok hourly;
  db_exec := λ a _, (m_db m a, ());
  presto_query := λ _ _, (Ok {| rows_Columns := Ok []; rows_Scan := []; rows_Err := None |}, ());
  prom_query := λ q r _, (m_prom m q r, ());
  ctx_err := λ _, (None, ());
  last_timestamp := λ _ _, (Ok (m_last m), ());
|}.

(** A concrete run is evaluated only for what is asked of its result; its final
    world stays a projection of the run. *)
Lemma run_Ok {A W} (x : outcome A * W) (P : A → W → Prop) :
  match x with (Ok a, w) => P a w | _ => False end → ∃ a w, x = (Ok a, w) ∧ P a w.
Proof. destruct x as [[a|e|p] w]; [by eauto|done..]. Qed.
Lemma run_any {A W} (x : outcome A * W) (P : W → Prop) : P x.2 → ∃ o w, x = (o, w) ∧ P w.
Proof. destruct x as [o w]. by exists o, w. Qed.
