(* ===== verification/TimeRanges.v ===== *)
(** * Splitting an import into chunks (src/pkg/operator/prestostore/query.go)

    [getTimeRangesChunked] and what makes its result a correct plan for an
    import: termination, alignment, bounds, no gap and no overlap, coverage. *)

From S2P Require Export Effects.
Open Scope Z_scope.

(** [truncateToSecond]: the function truncates to the minute. *)
Definition truncateToSecond (t : Time) : Time := Truncate t Minute.

Section chunks.
Context (endTime : Time) (chunkSize stepSize : Duration) (maxTimeRanges : Z)
    (allowIncompleteChunks : bool).

Definition disableMax : bool := maxTimeRanges <=? 0.

(** The body of the loop decides to stop without a range, to emit a last
    range, or to emit a range and go on. *)
Inductive chunk_step := Stop | Last (r : Range) | Next (r : Range) (start' end' : Time).

Definition chunk_body (chunkStart chunkEnd : Time) : chunk_step :=
  let chunkEnd' :=
    if allowIncompleteChunks && After chunkEnd endTime then truncateToSecond endTime
  else chunkEnd in
  if allowIncompleteChunks && Equal chunkEnd' chunkStart then Stop
  else if negb allowIncompleteChunks && After chunkEnd' endTime then Stop
  else if negb allowIncompleteChunks && (Sub chunkEnd' chunkStart <? chunkSize) then Stop
  else
    let r := MkRange chunkStart chunkEnd' stepSize in
    if allowIncompleteChunks && Equal chunkEnd' (truncateToSecond endTime) then Last r
  else
    let start' := truncateToSecond (Add chunkEnd' stepSize) in
    Next r start' (truncateToSecond (Add start' chunkSize)).

(** The [for] loop; [None] when the fuel runs out. *)
Fixpoint chunk_loop (fuel : nat) (i : Z) (chunkStart chunkEnd : Time) : option (list Range) :=
  match fuel with
  | O => None
  | S fuel =>
      if disableMax || (i <? maxTimeRanges) then
        match chunk_body chunkStart chunkEnd with
        | Stop => Some []
        | Last r => Some [r]
        | Next r start' end' => cons r <$> chunk_loop fuel (i + 1) start' end'
        end
      else Some []
  end.

(** Each range but the last advances the start by a minute at least, so the
    number of minutes up to the end bounds the iterations. *)
Definition chunk_fuel (beginTime : Time) : nat :=
  S (S (Z.to_nat ((endTime - beginTime) / Minute + 1))).

Definition getTimeRangesChunked (beginTime : Time) : option (list Range) :=
  let chunkStart := truncateToSecond beginTime in
  let chunkEnd := truncateToSecond (Add chunkStart chunkSize) in
  chunk_loop (chunk_fuel beginTime) 0 chunkStart chunkEnd.
End chunks.

Lemma Minute_pos : 0 < Minute.
Proof. done. Qed.
Lemma Minute_nz : Minute ≠ 0.
Proof. discriminate. Qed.

Lemma trunc_le t : truncateToSecond t ≤ t.
Proof. apply (Truncate_bounds Minute Minute_pos t). Qed.
Lemma trunc_lt t : t < truncateToSecond t + Minute.
Proof. apply (Truncate_bounds Minute Minute_pos t). Qed.
Lemma trunc_mono t u : t ≤ u → truncateToSecond t ≤ truncateToSecond u.
Proof. apply (Truncate_mono Minute Minute_pos). Qed.
Lemma trunc_idemp t : truncateToSecond (truncateToSecond t) = truncateToSecond t.
Proof. apply (Truncate_idemp Minute Minute_pos). Qed.

(** A minute-aligned instant. *)
Definition aligned (t : Time) : Prop := truncateToSecond t = t.

Lemma aligned_trunc t : aligned (truncateToSecond t).
Proof. apply trunc_idemp. Qed.
Lemma aligned_mod t : aligned t ↔ t mod Minute = 0.
Proof.
  unfold aligned. split; [intros Ht; rewrite <- Ht; apply (Truncate_multiple Minute Minute_pos)|].
  apply (Truncate_fix Minute Minute_pos).
Qed.
Lemma aligned_le_trunc t u : aligned t → t ≤ u → t ≤ truncateToSecond u.
Proof. unfold aligned. intros Ht H. rewrite <- Ht. by apply trunc_mono. Qed.
Lemma aligned_lt t u : aligned t → aligned u → t < u → t + Minute ≤ u.
Proof.
  rewrite !aligned_mod. intros Ht Hu H.
  pose proof (Z.div_mod t Minute Minute_nz). pose proof (Z.div_mod u Minute Minute_nz).
  pose proof Minute_pos.
  assert (t / Minute < u / Minute); [|nia].
  apply (Z.mul_lt_mono_pos_l Minute); lia.
Qed.
Lemma trunc_add_step t d : aligned t → d mod Minute = 0 → truncateToSecond (t + d) = t + d.
Proof.
  intros Ht Hd. unfold truncateToSecond. rewrite (Truncate_add_mod Minute Minute_pos) by done.
  unfold aligned, truncateToSecond in Ht. by rewrite Ht.
Qed.

#[export] Hint Resolve aligned_trunc trunc_le : effects.

Section chunk_facts.
Context (endTime : Time) (chunkSize stepSize : Duration) (maxTimeRanges : Z) (inc : bool).
Context (Hchunk : 0 < chunkSize ≤ int64_max) (Hstep : 0 ≤ stepSize).

Abbreviation body := (chunk_body endTime chunkSize stepSize inc).
Abbreviation loop := (chunk_loop endTime chunkSize stepSize maxTimeRanges inc).

(** What one iteration establishes. *)
Definition range_ok (r : Range) : Prop :=
  aligned (r_Start r) ∧ aligned (r_End r) ∧ r_End r ≤ endTime ∧ r_Step r = stepSize ∧
  (if inc then True else r_End r - r_Start r = chunkSize).

Definition loop_inv (s e : Time) : Prop := aligned s ∧ e = truncateToSecond (s + chunkSize).

Lemma loop_inv_next s : aligned s → loop_inv s (truncateToSecond (Add s chunkSize)).
Proof. by split. Qed.

Lemma loop_inv_aligned s e : loop_inv s e → aligned e.
Proof. intros [_ ->]. apply aligned_trunc. Qed.

Lemma body_range s e :
  loop_inv s e →
  match body s e with
  | Stop => True
  | Last r => range_ok r ∧ inc = true ∧ r_Start r = s ∧ r_End r = truncateToSecond endTime
  | Next r s' e' =>
      range_ok r ∧ r_Start r = s ∧ r_End r = e ∧ s < e ∧ e ≤ truncateToSecond endTime ∧
      (inc = true → e < truncateToSecond endTime) ∧
      s' = truncateToSecond (e + stepSize) ∧ loop_inv s' e'
  end.
Proof using Hchunk Hstep.
  intros Hinv. pose proof (loop_inv_aligned _ _ Hinv) as He.
  destruct Hinv as [Hs Ee]. pose proof (trunc_le (s + chunkSize)) as Hle.
  assert (s ≤ e) as Hse by (rewrite Ee; apply aligned_le_trunc; [done|lia]).
  pose proof (trunc_le endTime) as Hend.
  unfold chunk_body, After, Equal, Add, range_ok. destruct inc; simpl.
  - destruct (Z.ltb_spec endTime e) as [Hlt|Hge].
    + destruct (Z.eqb_spec (truncateToSecond endTime) s); [done|].
      rewrite Z.eqb_refl. simpl. auto 10 using aligned_trunc.
    + assert (e ≤ truncateToSecond endTime) by by apply aligned_le_trunc.
      destruct (Z.eqb_spec e s); [done|].
      destruct (Z.eqb_spec e (truncateToSecond endTime)); simpl.
      * auto 10 using aligned_trunc.
      * unfold loop_inv. intuition auto using aligned_trunc; lia.
  - destruct (Z.ltb_spec endTime e); [done|].
    assert (e ≤ truncateToSecond endTime) by by apply aligned_le_trunc.
    destruct (Z.ltb_spec (Sub e s) chunkSize) as [|Hsub]; [done|].
    rewrite Sub_small in Hsub by (unfold int64_min in *; lia).
    unfold loop_inv; simpl. intuition auto using aligned_trunc; lia.
Qed.

(** *** Termination *)

Definition fuel_bound (s : Time) : Z := Z.max 0 ((endTime - s) / Minute + 1).

Lemma fuel_bound_next s s' : s + Minute ≤ s' → s < endTime → Minute ≤ endTime - s →
  fuel_bound s' < fuel_bound s.
Proof using Type.
  intros Hs Hlt Hm. unfold fuel_bound.
  pose proof Minute_pos.
  assert (1 ≤ (endTime - s) / Minute) by (apply Z.div_le_lower_bound; lia).
  assert ((endTime - s') / Minute ≤ (endTime - s) / Minute - 1); [|lia].
  replace ((endTime - s) / Minute - 1) with ((endTime - s + (-1) * Minute) / Minute)
    by (rewrite Z.div_add by lia; lia).
  apply Z.div_le_mono; lia.
Qed.

Lemma loop_total fuel i s e :
  loop_inv s e → fuel_bound s < Z.of_nat fuel → is_Some (loop fuel i s e).
Proof using Hchunk Hstep.
  revert i s e. induction fuel as [|fuel IH]; intros i s e Hinv Hfuel.
  { unfold fuel_bound in Hfuel. lia. }
  simpl. destruct (disableMax maxTimeRanges || (i <? maxTimeRanges)); [|by eexists].
  pose proof (body_range s e Hinv) as Hb. pose proof (loop_inv_aligned s e Hinv) as He.
  destruct (body s e) as [|r|r s' e']; [by eexists..|].
  destruct Hb as (_ & _ & _ & Hse & Hend & _ & -> & Hinv').
  apply fmap_is_Some, IH; [done|].
  pose proof (trunc_le endTime). destruct Hinv as [Hs _].
  pose proof (aligned_lt s e Hs He Hse).
  assert (e ≤ truncateToSecond (e + stepSize)) by (apply aligned_le_trunc; [done|lia]).
  pose proof Minute_pos.
  pose proof (fuel_bound_next s (truncateToSecond (e + stepSize))). lia.
Qed.

(** *** The shape of the plan *)

(** [plan s l]: the ranges start at [s]; each but the last is a full,
    non-empty chunk; the next starts one step after its end. *)
Fixpoint plan (s : Time) (l : list Range) : Prop :=
  match l with
  | [] => True
  | r :: l' =>
      range_ok r ∧ r_Start r = s ∧
      (l' ≠ [] → r_End r = truncateToSecond (s + chunkSize) ∧ s < r_End r) ∧
      plan (truncateToSecond (r_End r + stepSize)) l'
  end.

Lemma loop_plan fuel i s e l :
  loop_inv s e → loop fuel i s e = Some l → plan s l.
Proof using Hchunk Hstep.
  revert i s e l. induction fuel as [|fuel IH]; intros i s e l Hinv Hl; [done|].
  simpl in Hl. destruct (disableMax maxTimeRanges || _); [|by simplify_eq].
  pose proof (body_range s e Hinv) as Hb.
  destruct (body s e) as [|r|r s' e']; [by simplify_eq| |].
  { injection Hl as <-. destruct Hb as (? & _ & ? & _). by split_and!. }
  destruct Hb as (Hr & Hrs & Hre & Hse & _ & _ & -> & Hinv').
  apply fmap_Some in Hl as (l' & Hl' & ->). destruct Hinv as [Hs He].
  split_and!; [done..|by rewrite Hre, <- He|].
  rewrite Hre. by eapply IH.
Qed.

Lemma loop_count fuel i s e l :
  0 < maxTimeRanges → i ≤ maxTimeRanges → loop fuel i s e = Some l →
  i + Z.of_nat (length l) ≤ maxTimeRanges.
Proof using Type.
  revert i s e l. induction fuel as [|fuel IH]; intros i s e l Hmax Hi Hl; [done|].
  simpl in Hl. destruct (_ || _) eqn:E; [|simplify_eq; simpl; lia].
  unfold disableMax in E. bool_props; [lia|].
  destruct (body s e); simplify_eq; simpl; [lia..|].
  apply fmap_Some in Hl as (l' & Hl' & ->).
  apply IH in Hl'; [|done|lia]. simpl. lia.
Qed.

Lemma plan_range_ok s l : plan s l → Forall range_ok l.
Proof using Type.
  revert s. induction l as [|r l IH]; intros s; [by constructor|].
  intros (Hr & _ & _ & Hl). constructor; eauto.
Qed.
End chunk_facts.

(** *** The instants an import samples

    A range query samples [Start], [Start + Step], ... up to [End]. *)
Definition points (r : Range) : list Time :=
  (λ k, r_Start r + k * r_Step r) <$> seqZ 0 ((r_End r - r_Start r) / r_Step r + 1).

Lemma fmap_seqZ_shift (a b step : Z) (m n : Z) :
  0 ≤ m → 0 ≤ n → b = a + m * step →
  ((λ k, a + k * step) <$> seqZ 0 m) ++ ((λ k, b + k * step) <$> seqZ 0 n) =
  (λ k, a + k * step) <$> seqZ 0 (m + n).
Proof.
  intros Hm Hn ->. rewrite (seqZ_app 0 m n) by lia. rewrite fmap_app. f_equal.
  replace (seqZ (0 + m) n) with (Z.add m <$> seqZ 0 n) by (rewrite fmap_add_seqZ; f_equal; lia).
  rewrite <- list_fmap_compose. apply list_fmap_ext. intros _ k _. simpl. lia.
Qed.

Lemma plan_points endTime chunkSize stepSize inc s l :
  0 < stepSize → stepSize mod Minute = 0 → 0 < chunkSize → chunkSize mod stepSize = 0 →
  aligned s → plan endTime chunkSize stepSize inc s l →
  ∃ n, 0 ≤ n ∧ mjoin (points <$> l) = (λ k, s + k * stepSize) <$> seqZ 0 n.
Proof.
  intros Hstep Hm Hc Hcs. revert s. induction l as [|r l IH]; intros s Hs.
  { intros _. by exists 0. }
  intros ((_ & Hae & _ & Hrs & _) & Hst & Hfull & Hplan).
  assert (mjoin (points <$> r :: l) = points r ++ mjoin (points <$> l)) as -> by done.
  unfold points at 1. rewrite Hst, Hrs.
  destruct l as [|r' l'].
  { clear. simpl. rewrite app_nil_r.
    destruct (decide (0 ≤ (r_End r - s) / stepSize + 1)) as [|Hneg]; [by eexists|].
    exists 0. split; [done|]. rewrite !seqZ_nil by lia. done. }
  assert (chunkSize mod Minute = 0) as Hcm.
  { apply Z.mod_divide in Hm; [|apply Minute_nz]. apply Z.mod_divide in Hcs; [|lia].
    apply Z.mod_divide; [apply Minute_nz|]. by etrans. }
  destruct (Hfull ltac:(done)) as [He Hlt].
  rewrite trunc_add_step in He by done.
  rewrite He in Hplan. rewrite trunc_add_step in Hplan;
    [|rewrite aligned_mod in Hs |- *; by rewrite Z.add_mod, Hs, Hcm by apply Minute_nz|done].
  destruct (IH (s + chunkSize + stepSize)) as (n & Hn & ->); [|done|].
  { rewrite aligned_mod in Hs |- *.
    rewrite Z.add_mod, Hm, Z.add_0_r, Z.mod_mod by apply Minute_nz.
    by rewrite Z.add_mod, Hs, Hcm by apply Minute_nz. }
  rewrite He. replace (s + chunkSize - s) with chunkSize by lia.
  pose proof (Z.div_mod chunkSize stepSize ltac:(lia)) as Hdiv. rewrite Hcs in Hdiv.
  assert (0 ≤ chunkSize / stepSize) by (apply Z.div_pos; lia).
  exists (chunkSize / stepSize + 1 + n). split; [lia|].
  apply fmap_seqZ_shift; lia.
Qed.

(** ** Properties of [getTimeRangesChunked] *)

Lemma chunk_fuel_enough endTime beginTime :
  fuel_bound endTime (truncateToSecond beginTime) < Z.of_nat (chunk_fuel endTime beginTime).
Proof.
  unfold fuel_bound, chunk_fuel. pose proof (trunc_lt beginTime). pose proof Minute_pos.
  assert ((endTime - truncateToSecond beginTime) / Minute ≤ (endTime - beginTime) / Minute + 1);
    [|lia].
  replace ((endTime - beginTime) / Minute + 1) with ((endTime - beginTime + 1 * Minute) / Minute)
    by (rewrite Z.div_add by lia; lia).
  apply Z.div_le_mono; lia.
Qed.

Lemma getTimeRangesChunked_some endTime chunkSize stepSize maxTimeRanges inc beginTime :
  0 < chunkSize ≤ int64_max → 0 ≤ stepSize →
  is_Some (getTimeRangesChunked endTime chunkSize stepSize maxTimeRanges inc beginTime).
Proof.
  intros Hc Hs. apply (loop_total _ _ _ _ _ Hc Hs); [|apply chunk_fuel_enough].
  apply loop_inv_next, aligned_trunc.
Qed.

Lemma getTimeRangesChunked_plan endTime chunkSize stepSize maxTimeRanges inc beginTime l :
  0 < chunkSize ≤ int64_max → 0 ≤ stepSize →
  getTimeRangesChunked endTime chunkSize stepSize maxTimeRanges inc beginTime = Some l →
  plan endTime chunkSize stepSize inc (truncateToSecond beginTime) l.
Proof.
  intros Hc Hs Hl. eapply loop_plan; [exact Hc|done|apply loop_inv_next, aligned_trunc|exact Hl].
Qed.

Lemma getTimeRangesChunked_range_ok endTime chunkSize stepSize maxTimeRanges inc beginTime l :
  0 < chunkSize ≤ int64_max → 0 ≤ stepSize →
  getTimeRangesChunked endTime chunkSize stepSize maxTimeRanges inc beginTime = Some l →
  Forall (range_ok endTime chunkSize stepSize inc) l.
Proof. intros Hc Hs Hl. by eapply plan_range_ok, getTimeRangesChunked_plan. Qed.

(** C31: splitting an import terminates: for a positive chunk size and a
    non-negative step, with or without a limit on the number of ranges and
    with or without incomplete chunks, [getTimeRangesChunked] returns a
    plan, whatever the begin and end times are. *)
Theorem getTimeRangesChunked_total endTime chunkSize stepSize maxTimeRanges inc beginTime :
  0 < chunkSize ≤ int64_max → 0 ≤ stepSize →
  is_Some (getTimeRangesChunked endTime chunkSize stepSize maxTimeRanges inc beginTime).
Proof. apply getTimeRangesChunked_some. Qed.

Theorem getTimeRangesChunked_total_witness :
  is_Some (getTimeRangesChunked (17 * Minute) (5 * Minute) Minute 0 true 0).
Proof. apply getTimeRangesChunked_total; zconst. Defined.

(** every range of a plan starts and ends on a whole minute, ends no later
    than the end time and carries the step; without incomplete chunks every
    range is exactly one chunk long; a positive limit bounds their number. *)
Theorem getTimeRangesChunked_bounds endTime chunkSize stepSize maxTimeRanges inc beginTime l :
  0 < chunkSize ≤ int64_max → 0 ≤ stepSize →
  getTimeRangesChunked endTime chunkSize stepSize maxTimeRanges inc beginTime = Some l →
  Forall (λ r, r_Start r mod Minute = 0 ∧ r_End r mod Minute = 0 ∧ r_End r ≤ endTime ∧
               r_Step r = stepSize ∧ (inc = false → r_End r - r_Start r = chunkSize)) l ∧
  (0 < maxTimeRanges → Z.of_nat (length l) ≤ maxTimeRanges).
Proof.
  intros Hc Hs Hl. split.
  - apply getTimeRangesChunked_range_ok in Hl; [|done..].
    eapply Forall_impl; [done|]. intros r (H1 & H2 & H3 & H4 & H5).
    rewrite !aligned_mod in *. split_and!; try done. by intros ->.
  - intros Hm. unfold getTimeRangesChunked in Hl.
    apply (loop_count endTime chunkSize stepSize maxTimeRanges inc) in Hl; lia.
Qed.

Theorem getTimeRangesChunked_bounds_witness :
  ∃ l, getTimeRangesChunked (12 * Minute) (5 * Minute) Minute 3 false 0 = Some l ∧
    length l = 2%nat ∧
    Forall (λ r, r_Start r mod Minute = 0 ∧ r_End r mod Minute = 0 ∧ r_End r ≤ 12 * Minute ∧
               r_Step r = Minute ∧ (false = false → r_End r - r_Start r = 5 * Minute)) l ∧
    (0 < 3 → Z.of_nat (length l) ≤ 3).
Proof.
  eexists. split; [vm_compute; reflexivity|]. split; [reflexivity|].
  apply (getTimeRangesChunked_bounds (12 * Minute) (5 * Minute) Minute 3 false 0);
    [zconst|zconst|vm_compute; reflexivity].
Defined.

(** C1: nothing is missed and nothing is queried twice: when the step is a
    whole number of minutes and divides the chunk size, the instants the
    ranges sample, read in order, are exactly [begin], [begin + step],
    [begin + 2 step], ... for the begin time truncated to the minute. *)
Theorem getTimeRangesChunked_tiles endTime chunkSize stepSize maxTimeRanges inc beginTime l :
  0 < chunkSize ≤ int64_max → 0 < stepSize →
  stepSize mod Minute = 0 → chunkSize mod stepSize = 0 →
  getTimeRangesChunked endTime chunkSize stepSize maxTimeRanges inc beginTime = Some l →
  ∃ n, 0 ≤ n ∧ mjoin (points <$> l) = (λ k, truncateToSecond beginTime + k * stepSize) <$> seqZ 0 n.
Proof.
  intros Hc Hs Hm Hcs Hl.
  apply (plan_points endTime chunkSize stepSize inc); [done|done|apply Hc|done|apply aligned_trunc|].
  eapply getTimeRangesChunked_plan; [exact Hc|lia|exact Hl].
Qed.

Theorem getTimeRangesChunked_tiles_witness :
  ∃ l, getTimeRangesChunked (13 * Minute) (5 * Minute) Minute 0 true 30 = Some l ∧
    length l = 3%nat ∧
    ∃ n, 0 ≤ n ∧ mjoin (points <$> l) = (λ k, truncateToSecond 30 + k * Minute) <$> seqZ 0 n.
Proof.
  eexists. split; [vm_compute; reflexivity|]. split; [reflexivity|].
  apply (getTimeRangesChunked_tiles (13 * Minute) (5 * Minute) Minute 0 true 30);
    [zconst|zconst|reflexivity|reflexivity|vm_compute; reflexivity].
Defined.

Section catch_up.
Context (endTime : Time) (chunkSize stepSize : Duration).
Context (Hchunk : Minute ≤ chunkSize ≤ int64_max) (Hstep : 0 ≤ stepSize ≤ Minute).

Lemma loop_catches_up fuel i s e l :
  loop_inv chunkSize s e → s ≤ truncateToSecond endTime →
  chunk_loop endTime chunkSize stepSize 0 true fuel i s e = Some l →
  (l = [] ∧ s = truncateToSecond endTime) ∨
  ∃ r, last l = Some r ∧ truncateToSecond endTime - Minute ≤ r_End r.
Proof using Hchunk Hstep.
  pose proof Minute_pos.
  revert i s e l. induction fuel as [|fuel IH]; intros i s e l Hinv Hs Hl; [done|].
  assert (Hchunk' : 0 < chunkSize ≤ int64_max) by lia.
  assert (Hstep' : 0 ≤ stepSize) by lia.
  pose proof (body_range endTime chunkSize stepSize true Hchunk' Hstep' s e Hinv) as Hb.
  cbn [chunk_loop disableMax] in Hl. simpl in Hl.
  destruct (chunk_body _ _ _ _ s e) as [|r|r s' e'] eqn:Hbody; simpl in Hl.
  - left. split; [by simplify_eq|].
    unfold chunk_body, After, Equal, Add in Hbody. simpl in Hbody.
    destruct Hinv as [Has He].
    assert (s + Minute ≤ e).
    { rewrite He. transitivity (truncateToSecond (s + Minute)); [|apply trunc_mono; lia].
      rewrite trunc_add_step; [done..|]. by apply Z.mod_same, Minute_nz. }
    repeat case_hyp; bool_props; simplify_eq; lia.
  - right. exists r. destruct Hb as (_ & _ & _ & He). split; [by simplify_eq|]. lia.
  - right. destruct Hb as (_ & _ & Hre & Hlt & Hle & Hinc & Hs' & Hinv').
    specialize (Hinc eq_refl). pose proof (loop_inv_aligned _ _ _ Hinv) as Hae.
    pose proof (aligned_lt _ _ Hae (aligned_trunc endTime) Hinc).
    assert (s' ≤ e + Minute).
    { rewrite Hs'. etrans; [apply trunc_le|lia]. }
    apply fmap_Some in Hl as (l' & Hl' & ->).
    eapply IH in Hl' as [[-> Hs'']|(r' & Hr' & He')]; [..|done|lia].
    + exists r. split; [done|]. lia.
    + exists r'. split; [|done]. rewrite last_cons. by rewrite Hr'.
Qed.
End catch_up.

(** an import catches up: with incomplete chunks allowed, no limit on the
    number of ranges, a step of at most a minute and chunks of at least a
    minute, the plan is empty only when begin and end fall in the same minute,
    and otherwise its last range ends within a minute of the end time. *)
Theorem getTimeRangesChunked_catches_up endTime chunkSize stepSize beginTime l :
  Minute ≤ chunkSize ≤ int64_max → 0 ≤ stepSize ≤ Minute → beginTime ≤ endTime →
  getTimeRangesChunked endTime chunkSize stepSize 0 true beginTime = Some l →
  (l = [] ∧ truncateToSecond beginTime = truncateToSecond endTime) ∨
  ∃ r, last l = Some r ∧ truncateToSecond endTime - Minute ≤ r_End r ≤ endTime.
Proof.
  intros Hc Hs Hbe Hl. pose proof Minute_pos.
  pose proof (getTimeRangesChunked_range_ok endTime chunkSize stepSize 0 true beginTime l
    ltac:(lia) ltac:(lia) Hl) as Hok.
  eapply (loop_catches_up endTime chunkSize stepSize Hc Hs) in Hl as [?|(r & Hr & He)];
    [by left| |apply loop_inv_next, aligned_trunc|by apply trunc_mono].
  right. exists r. split; [done|]. split; [done|].
  apply (Forall_last _ _ _ Hok) in Hr as (_ & _ & ? & _). done.
Qed.

Theorem getTimeRangesChunked_catches_up_witness :
  ∃ l, getTimeRangesChunked (13 * Minute) (5 * Minute) Minute 0 true 0 = Some l ∧
    ((l = [] ∧ truncateToSecond 0 = truncateToSecond (13 * Minute)) ∨
     ∃ r, last l = Some r ∧ truncateToSecond (13 * Minute) - Minute ≤ r_End r ≤ 13 * Minute).
Proof.
  eexists. split; [vm_compute; reflexivity|].
  apply (getTimeRangesChunked_catches_up (13 * Minute) (5 * Minute) Minute 0);
    [zconst|zconst|zconst|vm_compute; reflexivity].
Defined.

(** with a step that is not a whole number of minutes consecutive ranges
    overlap (the end of a chunk is the start of the next one, so its samples
    are queried twice), and with a step of several minutes the last range can
    end before it starts. *)
Theorem getTimeRangesChunked_step_pitfalls :
  getTimeRangesChunked (10 * Minute) (5 * Minute) (30 * Second) 0 true 0 =
    Some [MkRange 0 (5 * Minute) (30 * Second); MkRange (5 * Minute) (10 * Minute) (30 * Second)] ∧
  getTimeRangesChunked (7 * Minute) (5 * Minute) (5 * Minute) 0 true 0 =
    Some [MkRange 0 (5 * Minute) (5 * Minute); MkRange (10 * Minute) (7 * Minute) (5 * Minute)].
Proof. split; vm_compute; reflexivity. Qed.

(** ** More facts on plans, used by the importer *)
Lemma plan_starts endTime chunkSize stepSize inc s l :
  0 ≤ stepSize → plan endTime chunkSize stepSize inc s l → Forall (λ r, s ≤ r_Start r) l.
Proof.
  intros Hstep. revert s. induction l as [|r l IH]; intros s; [by constructor|].
  intros ((_ & Hae & _) & Hs & Hfull & Hl). constructor; [lia|].
  destruct l as [|r' l]; [constructor|].
  destruct (Hfull ltac:(done)) as [_ Hlt].
  apply IH in Hl. eapply Forall_impl; [done|]. intros r''; simpl.
  pose proof (aligned_le_trunc (r_End r) (r_End r + stepSize) Hae ltac:(lia)). lia.
Qed.

Lemma getTimeRangesChunked_starts endTime chunkSize stepSize maxTimeRanges inc beginTime l :
  0 < chunkSize ≤ int64_max → 0 ≤ stepSize →
  getTimeRangesChunked endTime chunkSize stepSize maxTimeRanges inc beginTime = Some l →
  Forall (λ r, truncateToSecond beginTime ≤ r_Start r) l.
Proof.
  intros Hc Hs Hl. eapply plan_starts; [done|]. by eapply getTimeRangesChunked_plan.
Qed.
