(* ===== verification/Importer.v ===== *)
(** * Importing Prometheus metrics (src/pkg/operator/prestostore/query.go and
    importer.go) *)

From S2P Require Export TimeRanges Mem.

(** ** State and data *)
Record Config := {
  cfg_PrometheusQuery : string;
  cfg_PrestoTableName : string;
  cfg_ChunkSize : Duration;
  cfg_StepSize : Duration;
  cfg_MaxTimeRanges : Z;
  cfg_MaxQueryRangeDuration : Duration;
  cfg_ImportFromTime : option Time;
  cfg_MaxBackfillImportDuration : Duration;
}.

Record PrometheusImportResults := {
  ProcessedTimeRanges : list Range;
  Metrics : list PrometheusMetric;
}.

Definition no_results : PrometheusImportResults :=
  {| ProcessedTimeRanges := []; Metrics := [] |}.

(** The importer object, less its handles on the environment. *)
Record PrometheusImporter := {
  imp_cfg : Config;
  lastTimestamp : option Time;
}.

Definition NewPrometheusImporter (cfg : Config) : PrometheusImporter :=
  {| imp_cfg := cfg; lastTimestamp := None |}.

Definition UpdateConfig (cfg : Config) (imp : PrometheusImporter) : PrometheusImporter :=
  {| imp_cfg := cfg; lastTimestamp := lastTimestamp imp |}.

(** ** Samples to metrics *)
Definition promMatrixToPrometheusMetrics (timeRange : Range) (matrix : list SampleStream)
  : list PrometheusMetric :=
  mjoin ((λ ss,
    (λ v, {| pm_Labels := ss_Metric ss; pm_Amount := sp_Value v; pm_StepSize := r_Step timeRange;
             pm_Timestamp := sp_Timestamp v; pm_Dt := "" |}) <$> ss_Values ss) <$> matrix).

(** [sort.Slice] by timestamp. *)
Definition ts_le (a b : PrometheusMetric) : Prop := pm_Timestamp a ≤ pm_Timestamp b.
#[export] Instance ts_le_dec : RelDecision ts_le.
Proof. intros a b. unfold ts_le. apply _. Defined.
#[export] Instance ts_le_total : Total ts_le.
Proof. intros a b. unfold ts_le. lia. Qed.
#[export] Instance ts_le_trans : Transitive ts_le.
Proof. intros a b c. unfold ts_le. lia. Qed.
Definition sort_metrics (ms : list PrometheusMetric) : list PrometheusMetric := merge_sort ts_le ms.

Section import.
Context {S : Type} `{!Env S}.

Abbreviation result := (PrometheusImportResults * option error)%type.

Definition add_range (r : Range) (res : PrometheusImportResults) : PrometheusImportResults :=
  {| ProcessedTimeRanges := ProcessedTimeRanges res ++ [r]; Metrics := Metrics res |}.
Definition add_metrics (ms : list PrometheusMetric) (res : PrometheusImportResults)
    : PrometheusImportResults :=
  {| ProcessedTimeRanges := ProcessedTimeRanges res; Metrics := Metrics res ++ ms |}.

(** [select { case <-ctx.Done(): ...; default: }]. *)
Definition cancelled : M S (option error) := read_pure ctx_err.

(** Storing the metrics of one range; an error ends the import. *)
Definition store_range (cfg : Config) (tr : Range) (metrics : list PrometheusMetric)
    (res : PrometheusImportResults) : M S (PrometheusImportResults + error) :=
  if decide (metrics = []) then mret (inl res) else
    let sorted := sort_metrics metrics in
    _ ← Inc TotalPrometheusQueries;
    stored ← try (exec (AStoreMetrics (cfg_PrestoTableName cfg) sorted));
    match stored with
    | inr err =>
        _ ← Inc FailedImports;
        _ ← Inc FailedPrestoStores;
        mret (inr (Errorf "failed to store Prometheus metrics into table %s for the range %v to %v: %v"
                     [FStr (cfg_PrestoTableName cfg); FTime (r_Start tr); FTime (r_End tr);
                      FStr (Error err)]))
    | inl _ =>
        _ ← emit (ACounter MetricsImported (Z.of_nat (length sorted)));
        mret (inl (add_metrics sorted res))
    end.

(** The loop over the time ranges. *)
Fixpoint import_ranges (cfg : Config) (timeRanges : list Range) (res : PrometheusImportResults)
    : M S result :=
  match timeRanges with
  | [] => mret (res, None)
  | tr :: rest =>
      c ← cancelled;
      match c with Some e => mret (res, Some e) | None =>
          pVal ← try (effect (APromQuery (cfg_PrometheusQuery cfg) tr)
                        (prom_query (cfg_PrometheusQuery cfg) tr));
          _ ← Inc TotalPrometheusQueries;
          match pVal with
          | inr err =>
              _ ← Inc FailedImports;
              _ ← Inc FailedPrometheusQueries;
              mret (res, Some (Errorf "failed to perform Prometheus query: %v" [FStr (Error err)]))
          | inl (OtherValue ty) =>
              mret (res, Some (Errorf "expected a matrix in response to query, got a %v" [FStr ty]))
          | inl (Matrix matrix) =>
              let metrics := promMatrixToPrometheusMetrics tr matrix in
              _ ← emit (ACounter MetricsScraped (Z.of_nat (length metrics)));
              c ← cancelled;
              match c with Some e => mret (res, Some e) | None =>
                  stored ← store_range cfg tr metrics res;
                  match stored with
                  | inr err => mret (res, Some err)
                  | inl res => import_ranges cfg rest (add_range tr res)
                  end end
          end end
  end.

(** The end time, limited by [MaxQueryRangeDuration]. *)
Definition limit_endTime (cfg : Config) (startTime endTime : Time) : Time :=
  if negb (cfg_MaxQueryRangeDuration cfg =? 0) &&
  (cfg_MaxQueryRangeDuration cfg <? Sub endTime startTime)
  then Add startTime (cfg_MaxQueryRangeDuration cfg) else endTime.

(** [ImportFromTimeRange]: partial results come back with the error.  A
    non-terminating split is the panic "out of fuel", which
    [getTimeRangesChunked_total] excludes. *)
Definition ImportFromTimeRange (startTime endTime : Time) (cfg : Config)
    (allowIncompleteChunks : bool) : M S result :=
  _ ← Inc ImportsRunningGauge;
  let endTime := limit_endTime cfg startTime endTime in
  _ ← Inc TotalImports;
  (* deferred: the gauge goes down on every return *)
    res ← match getTimeRangesChunked endTime (cfg_ChunkSize cfg) (cfg_StepSize cfg)
            (cfg_MaxTimeRanges cfg) allowIncompleteChunks startTime with
          | None => panic "out of fuel"
          | Some [] => mret (no_results, None)
          | Some timeRanges => import_ranges cfg timeRanges no_results
          end;
  _ ← emit (ACounter ImportsRunningGauge (-1));
  mret res.

(** [ImportFromLastTimestamp], run with the importer's lock held; the lock
    makes it one step on the importer's state. *)
Definition import_start (cfg : Config) (last : option Time) (now : Time) : Time :=
  match last with
  | Some t => Add t (cfg_StepSize cfg)
  | None =>
      match cfg_ImportFromTime cfg with
      | Some t => t
      | None => Add now (- cfg_MaxBackfillImportDuration cfg)
      end
  end.

Definition import_window (cfg : Config) (last : option Time) (now : Time) : option (Time * Time) :=
  let startTime := import_start cfg last now in
  if After startTime now then None
  else
    let totalChunkDuration := Sub startTime now in
    Some (startTime,
          if cfg_MaxQueryRangeDuration cfg <=? totalChunkDuration
          then Add startTime (cfg_MaxQueryRangeDuration cfg) else now).

Definition with_lastTimestamp (t : option Time) (imp : PrometheusImporter) : PrometheusImporter :=
  {| imp_cfg := imp_cfg imp; lastTimestamp := t |}.

Definition ImportFromLastTimestamp (imp : PrometheusImporter) (allowIncompleteChunks : bool)
    : M S (PrometheusImporter * (option PrometheusImportResults * option error)) :=
  endTime ← Now;
  let cfg := imp_cfg imp in
  last ← match lastTimestamp imp with
         | Some t => mret (inl (Some t))
         | None => try (read (last_timestamp (cfg_PrestoTableName cfg)))
         end;
  match last with
  | inr err => mret (with_lastTimestamp None imp, (None, Some err))
  | inl last =>
      match import_window cfg last endTime with
      | None => mret (with_lastTimestamp last imp, (Some no_results, None))
      | Some (startTime, endTime) =>
          '(results, err) ← ImportFromTimeRange startTime endTime cfg allowIncompleteChunks;
          match err with
          | Some e => mret (with_lastTimestamp None imp, (Some results, Some e))
          | None =>
              mret (with_lastTimestamp
                      (match list.last (ProcessedTimeRanges results) with
                       | Some r => Some (r_End r)
                       | None => last
                       end) imp, (Some results, None))
          end
      end
  end.
End import.

(** ** What a trace says about an import *)

Definition stored_of (e : event) : list PrometheusMetric :=
  match e with Ev (AStoreMetrics _ ms) true => ms | _ => [] end.
(** The metrics successfully stored, in order. *)
Definition stored (tr : list event) : list PrometheusMetric := mjoin (stored_of <$> tr).

Definition count_of (c : counter) (e : event) : Z :=
  match ev_action e with ACounter c' n => if decide (c' = c) then n else 0 | _ => 0 end.
(** The amount a counter changed by. *)
Definition count (c : counter) (tr : list event) : Z := foldr (λ e z, count_of c e + z) 0 tr.

Definition is_query (e : event) : bool :=
  match ev_action e with APromQuery _ _ => true | _ => false end.
Definition is_store (e : event) : bool :=
  match ev_action e with AStoreMetrics _ _ => true | _ => false end.
Definition occurrences (p : event → bool) (tr : list event) : Z :=
  foldr (λ e z, (if p e then 1 else 0) + z) 0 tr.

Lemma stored_app t1 t2 : stored (t1 ++ t2) = stored t1 ++ stored t2.
Proof. unfold stored. by rewrite fmap_app, join_app. Qed.
Lemma count_app c t1 t2 : count c (t1 ++ t2) = count c t1 + count c t2.
Proof. unfold count. induction t1 as [|e t1 IH]; simpl; lia. Qed.
Lemma occurrences_app p t1 t2 : occurrences p (t1 ++ t2) = occurrences p t1 + occurrences p t2.
Proof. unfold occurrences. induction t1 as [|e t1 IH]; simpl; lia. Qed.

Lemma sort_metrics_sorted ms : StronglySorted ts_le (sort_metrics ms).
Proof. apply (StronglySorted_merge_sort ts_le). Qed.
Lemma sort_metrics_perm ms : sort_metrics ms ≡ₚ ms.
Proof. apply merge_sort_Permutation. Qed.

Section import_facts.
Context {S : Type} `{!Env S}.

(** A stored batch is non-empty and sorted by timestamp. *)
Definition batch_ok (e : event) : Prop :=
  match ev_action e with
  | AStoreMetrics _ ms => ms ≠ [] ∧ StronglySorted ts_le ms
  | _ => True
  end.

(** The bookkeeping of one stretch of an import's trace. *)
Record accounted (tr : list event) (ms : list PrometheusMetric) : Prop := {
  acc_stored : stored tr = ms;
  acc_imported : count MetricsImported tr = Z.of_nat (length ms);
  acc_queries : count TotalPrometheusQueries tr = occurrences is_query tr + occurrences is_store tr;
  acc_stores : count TotalPrestoStores tr = 0;
  acc_gauge : count ImportsRunningGauge tr = 0;
  acc_batches : Forall batch_ok tr;
}.

Lemma accounted_app t1 m1 t2 m2 :
  accounted t1 m1 → accounted t2 m2 → accounted (t1 ++ t2) (m1 ++ m2).
Proof.
  intros [] []. split; rewrite ?stored_app, ?count_app, ?occurrences_app, ?length_app;
    [congruence|lia..|by apply Forall_app_2].
Qed.

Lemma accounted_nil : accounted [] [].
Proof. by split. Qed.

Ltac acc_lia := lazy -[Z.add Z.of_nat length sort_metrics promMatrixToPrometheusMetrics]; simpl length; lia.
Ltac close_accounted :=
  split; [unfold stored; simpl; by rewrite ?app_nil_r|acc_lia|acc_lia|acc_lia|acc_lia|
          repeat constructor; done].

Lemma store_range_spec cfg tr metrics res w r w' :
  store_range cfg tr metrics res w = (Ok r, w') →
  ∃ t, trace w' = trace w ++ t ∧
  match r with
  | inl res' =>
      ProcessedTimeRanges res' = ProcessedTimeRanges res ∧
      Metrics res' = Metrics res ++ sort_metrics metrics ∧ accounted t (sort_metrics metrics)
  | inr _ => accounted t []
  end.
Proof.
  unfold store_range. case_decide as Hms; intros H.
  { run_inv. exists []. rewrite !app_nil_r. split_and!; done || apply accounted_nil. }
  assert (sort_metrics metrics ≠ []) as Hne.
  { intros E. apply Hms, Permutation_nil_r. by rewrite <- E, sort_metrics_perm. }
  pose proof (sort_metrics_sorted metrics) as Hsorted.
  run_inv. match goal with H : try _ _ = _ |- _ => apply try_effect_inv in H end.
  simpl in *. case_match; run_inv; simpl in *; eexists;
    (split; [rewrite <- ?app_assoc in *; simpl in *; eassumption ||
             (match goal with H : trace _ = _ |- _ => rewrite H, <- !app_assoc; reflexivity end)|]).
  - split_and!; [done..|]. close_accounted.
  - close_accounted.
Qed.

(** What a run of the loop over [l] from [res] to [res'] leaves behind. *)
Definition imported (l : list Range) (res res' : PrometheusImportResults) (err : option error)
    (w w' : world S) : Prop :=
  ∃ t k ms, trace w' = trace w ++ t ∧
  ProcessedTimeRanges res' = ProcessedTimeRanges res ++ take k l ∧
  (err = None → k = length l) ∧
  Metrics res' = Metrics res ++ ms ∧ accounted t ms.

Lemma imported_stop l res e w w' t :
  trace w' = trace w ++ t → accounted t [] → imported l res res (Some e) w w'.
Proof. intros. exists t, 0%nat, []. rewrite !app_nil_r. by split_and!. Qed.

Lemma import_ranges_spec cfg l res w res' err w' :
  import_ranges cfg l res w = (Ok (res', err), w') → imported l res res' err w w'.
Proof.
  revert res w. induction l as [|r l IH]; intros res w H; simpl in H; unfold cancelled in *.
  { run_inv. exists [], 0%nat, []. rewrite !app_nil_r. split_and!; done || apply accounted_nil. }
  run_inv. case_match; run_inv.
  { apply imported_stop with []; [by rewrite app_nil_r|apply accounted_nil]. }
  repeat match goal with H : try _ _ = _ |- _ => apply try_effect_inv in H end.
  match goal with v : PromValue + error |- _ => destruct v as [[matrix|ty]|e] end;
    run_inv; simpl in *.
  - case_match; run_inv.
    { eapply imported_stop; [trace_tac|]. simpl. close_accounted. }
    match goal with H : store_range _ _ _ _ _ = _ |- _ =>
        apply store_range_spec in H as (t1 & Ht1 & Hres) end.
    match goal with H : context [match ?v with inl _ => _ | inr _ => _ end] |- _ =>
        destruct v as [res1|e1] end.
    + destruct Hres as (HP & HM & Hacc).
      match goal with H : import_ranges _ _ _ _ = _ |- _ =>
          apply IH in H as (t2 & k & ms & Ht2 & HP2 & Hk & HM2 & Hacc2) end.
      eexists _, (Datatypes.S k), _. split; [trace_tac|]. split_and!.
      * rewrite HP2. simpl. by rewrite HP, <- app_assoc.
      * intros E. simpl. f_equal. by apply Hk.
      * rewrite HM2. simpl. by rewrite HM, <- app_assoc.
      * rewrite !app_assoc. apply accounted_app; [|done].
        apply (accounted_app _ []); [|done]. simpl. close_accounted.
    + run_inv. eapply imported_stop; [trace_tac|]. rewrite !app_assoc.
      apply (accounted_app _ [] _ []); [|done]. simpl. close_accounted.
  - eapply imported_stop; [trace_tac|]. simpl. close_accounted.
  - eapply imported_stop; [trace_tac|]. simpl. close_accounted.
Qed.

Lemma ImportFromTimeRange_run startTime endTime cfg inc w res err w' :
  ImportFromTimeRange startTime endTime cfg inc w = (Ok (res, err), w') →
  ∃ l t k, getTimeRangesChunked (limit_endTime cfg startTime endTime) (cfg_ChunkSize cfg)
    (cfg_StepSize cfg) (cfg_MaxTimeRanges cfg) inc startTime = Some l ∧
  trace w' = trace w ++ [Ev (ACounter ImportsRunningGauge 1) true; Ev (ACounter TotalImports 1) true]
  ++ t ++ [Ev (ACounter ImportsRunningGauge (-1)) true] ∧
  ProcessedTimeRanges res = take k l ∧ (err = None → k = length l) ∧
  accounted t (Metrics res).
Proof.
  unfold ImportFromTimeRange. intros H. run_inv.
  destruct (getTimeRangesChunked _ _ _ _ _ _) as [l|] eqn:Hl; [|done].
  destruct l as [|r l]; run_inv.
  - exists [], [], 0%nat. split_and!; try done || apply accounted_nil. trace_tac.
  - match goal with H : import_ranges _ _ _ _ = _ |- _ =>
        apply import_ranges_spec in H as (t & k & ms & Ht & HP & Hk & HM & Hacc) end.
    exists (r :: l), t, k. split_and!; try done; [trace_tac|]. by rewrite HM.
Qed.

(** *** The properties *)

(** C2: what an import reports is what it did.  Whatever the services answer,
    the processed ranges are a prefix of the plan (all of it when there is
    no error), the reported metrics are exactly those of the successful
    stores in order, the imported-metrics counter grew by their number, the
    gauge of running imports is back to its value, and every batch stored is
    non-empty and sorted by timestamp. *)
Theorem ImportFromTimeRange_reports startTime endTime cfg inc w res err w' :
  ImportFromTimeRange startTime endTime cfg inc w = (Ok (res, err), w') →
  ∃ t l k, trace w' = trace w ++ t ∧
  getTimeRangesChunked (limit_endTime cfg startTime endTime) (cfg_ChunkSize cfg)
    (cfg_StepSize cfg) (cfg_MaxTimeRanges cfg) inc startTime = Some l ∧
  ProcessedTimeRanges res = take k l ∧ (err = None → ProcessedTimeRanges res = l) ∧
  Metrics res = stored t ∧
  count MetricsImported t = Z.of_nat (length (Metrics res)) ∧
  count ImportsRunningGauge t = 0 ∧
  Forall batch_ok t.
Proof.
  intros (l & t & k & Hl & Ht & HP & Hk & [])%ImportFromTimeRange_run.
  eexists _, l, k. split; [exact Ht|].
  rewrite !stored_app, !count_app, !Forall_app. split_and!; try done.
  - intros E. rewrite HP, Hk by done. apply firstn_all.
  - rewrite acc_stored0. unfold stored. simpl. by rewrite app_nil_r.
  - rewrite acc_imported0. lazy -[Z.add Z.of_nat length]. lia.
  - rewrite acc_gauge0. reflexivity.
  - by repeat constructor.
  - by repeat constructor.
Qed.

(** the counters of an import disagree with their names: the counter of
    Prometheus queries counts queries and stores together, and the counter
    of Presto stores never moves. *)
Theorem ImportFromTimeRange_counters startTime endTime cfg inc w res err w' :
  ImportFromTimeRange startTime endTime cfg inc w = (Ok (res, err), w') →
  ∃ t, trace w' = trace w ++ t ∧
  count TotalPrometheusQueries t = occurrences is_query t + occurrences is_store t ∧
  count TotalPrestoStores t = 0.
Proof.
  intros (l & t & k & Hl & Ht & HP & Hk & [])%ImportFromTimeRange_run.
  eexists. split; [exact Ht|].
  rewrite !count_app, !occurrences_app, acc_queries0, acc_stores0.
  split; lazy -[Z.add occurrences is_query is_store]; simpl; lia.
Qed.

(** an import always comes back: when the services answer without
    panicking, a positive chunk size and a non-negative step suffice. *)
Theorem ImportFromTimeRange_total startTime endTime cfg inc w :
  0 < cfg_ChunkSize cfg ≤ int64_max → 0 ≤ cfg_StepSize cfg →
  (∀ q r s m, (prom_query q r s).1 ≠ Panic m) → (∀ a s m, (db_exec a s).1 ≠ Panic m) →
  ∃ res w', ImportFromTimeRange startTime endTime cfg inc w = (Ok res, w').
Proof.
  intros Hc Hs Hq Hd.
  assert (∀ l res w, ∃ out w', import_ranges cfg l res w = (Ok out, w')) as Hloop.
  { induction l as [|r l IH]; intros res w0; simpl; unfold cancelled, store_range; run_red;
    [by eexists _, _|].
    destruct (ctx_err (env w0)) as [[e|] s1]; simpl; [by eexists _, _|].
    pose proof (Hq (cfg_PrometheusQuery cfg) r s1) as Hq1.
    destruct (prom_query _ r s1) as [[[m|ty]|e|p] s2]; simpl in *;
      [|by eexists _, _|by eexists _, _|by edestruct Hq1].
    destruct (ctx_err s2) as [[e|] s3]; simpl; [by eexists _, _|].
    case_decide; [apply IH|].
    match goal with |- context [db_exec ?a ?s] =>
        pose proof (Hd a s) as Hd1; destruct (db_exec a s) as [[u|e|p] s4] end;
      simpl in *; [apply IH|by eexists _, _|by edestruct Hd1]. }
  unfold ImportFromTimeRange. run_red.
  destruct (getTimeRangesChunked_some (limit_endTime cfg startTime endTime) (cfg_ChunkSize cfg)
              (cfg_StepSize cfg) (cfg_MaxTimeRanges cfg) inc startTime Hc Hs) as [[|r l] ->];
    [by eexists _, _|].
  match goal with |- context [World (env w) ?t] =>
      destruct (Hloop (r :: l) no_results (World (env w) t)) as (out & w1 & ->) end.
  by eexists _, _.
Qed.
End import_facts.

Section last_timestamp.
Context {S : Type} `{!Env S}.

(** Where an import starts and ends. *)
Lemma import_window_some cfg last now s e :
  0 < cfg_MaxQueryRangeDuration cfg → import_window cfg last now = Some (s, e) →
  e = now ∧ s ≤ now ∧
  match last with Some t => s = t + cfg_StepSize cfg | None => True end.
Proof.
  intros Hmax. unfold import_window, After, Add.
  destruct (Z.ltb_spec now (import_start cfg last now)) as [|Hle]; [done|].
  rewrite (proj2 (Z.leb_gt _ _)) by (unfold Sub, int64_max, int64_min in *; lia).
  intros ?; simplify_eq. split_and!; [done|lia|]. by destruct last.
Qed.

Lemma limit_endTime_bound cfg s e :
  0 < cfg_MaxQueryRangeDuration cfg < int64_max →
  limit_endTime cfg s e ≤ e ∧ limit_endTime cfg s e ≤ s + cfg_MaxQueryRangeDuration cfg.
Proof.
  intros Hmax. unfold limit_endTime, Add.
  destruct (Z.eqb_spec (cfg_MaxQueryRangeDuration cfg) 0); [lia|]. simpl.
  destruct (Z.ltb_spec (cfg_MaxQueryRangeDuration cfg) (Sub e s));
    unfold Sub, int64_min, int64_max in *; lia.
Qed.


(** the limit [ImportFromLastTimestamp] computes is never applied: it
    compares [startTime.Sub(endTime)], which is not positive, so the window
    it hands on always ends at the current time; [ImportFromTimeRange] is
    what cuts it. *)
Theorem import_window_limit_dead cfg last now s e :
  0 < cfg_MaxQueryRangeDuration cfg → import_window cfg last now = Some (s, e) → e = now.
Proof. intros Hmax Hw. by apply import_window_some in Hw as (-> & _). Qed.
End last_timestamp.

(** ** Concrete imports *)
Definition cfg0 : Config :=
  {| cfg_PrometheusQuery := "up"; cfg_PrestoTableName := "t"; cfg_ChunkSize := 5 * Minute;
     cfg_StepSize := Minute; cfg_MaxTimeRanges := 0; cfg_MaxQueryRangeDuration := 10 * Minute;
     cfg_ImportFromTime := None; cfg_MaxBackfillImportDuration := Hour |}.
Definition noon : Time := Date 2019 7 4 12 0 0.
Definition import0 : outcome (PrometheusImportResults * option error) * world Mem :=
  ImportFromTimeRange (noon - 12 * Minute) noon cfg0 true (world0 mem0).

Lemma ImportFromTimeRange_reports_witness : ∃ res w',
  import0 = (Ok (res, None), w') ∧ length (Metrics res) = 4%nat ∧
  ∃ t l k, trace w' = trace (world0 mem0) ++ t ∧
    getTimeRangesChunked (limit_endTime cfg0 (noon - 12 * Minute) noon) (cfg_ChunkSize cfg0)
      (cfg_StepSize cfg0) (cfg_MaxTimeRanges cfg0) true (noon - 12 * Minute) = Some l ∧
    ProcessedTimeRanges res = take k l ∧ (None = @None error → ProcessedTimeRanges res = l) ∧
    Metrics res = stored t ∧
    count MetricsImported t = Z.of_nat (length (Metrics res)) ∧
    count ImportsRunningGauge t = 0 ∧
    Forall batch_ok t.
Proof.
  eexists _, _. split; [vm_compute; reflexivity|]. split; [reflexivity|].
  apply (ImportFromTimeRange_reports (noon - 12 * Minute) noon cfg0 true (world0 mem0)).
  vm_compute. reflexivity.
Defined.

Lemma ImportFromTimeRange_counters_witness : ∃ res w',
  import0 = (Ok res, w') ∧
  ∃ t, trace w' = trace (world0 mem0) ++ t ∧
    count TotalPrometheusQueries t = occurrences is_query t + occurrences is_store t ∧
    count TotalPrestoStores t = 0.
Proof.
  eexists (_, _), _. split; [vm_compute; reflexivity|].
  eapply (ImportFromTimeRange_counters (noon - 12 * Minute) noon cfg0 true (world0 mem0)).
  vm_compute. reflexivity.
Defined.

Lemma ImportFromTimeRange_total_witness : ∃ res w',
  ImportFromTimeRange (Env0 := frozen_env mem0) (noon - 12 * Minute) noon cfg0 true (World () []) =
    (Ok res, w').
Proof.
  apply (ImportFromTimeRange_total (Env0 := frozen_env mem0));
    [zconst|zconst|discriminate|discriminate].
Defined.

Definition importer0 : PrometheusImporter :=
  {| imp_cfg := cfg0; lastTimestamp := Some (noon - 13 * Minute) |}.


Lemma import_window_limit_dead_witness :
  import_window cfg0 None noon = Some (noon - Hour, noon) ∧ noon = noon.
Proof.
  split; [vm_compute; reflexivity|].
  apply (import_window_limit_dead cfg0 None noon (noon - Hour)); [zconst|vm_compute; reflexivity].
Defined.
