(* ===== verification/Sql.v ===== *)
(** * SQL statements and their execution
    (src/pkg/presto/util.go, src/pkg/hive, src/pkg/operator/reporting/db.go,
    src/pkg/operator/prestostore/reports.go) *)

From S2P Require Export Effects.
Open Scope Z_scope.

(** Iteration order of Go maps is unspecified: [range_map] is any function
    listing a map's entries. *)
Class MapOrder := {
  range_map : gmap string string → list (string * string);
  range_map_perm m : range_map m ≡ₚ map_to_list m;
}.

#[export] Instance sorted_order : MapOrder := {|
  range_map := λ m, map_to_list m; range_map_perm := λ m, reflexivity _ |}.

Definition newline : string := String (ascii_of_nat 10) "".
Definition tab : string := String (ascii_of_nat 9) "".

(** ** Presto statements *)
Module Presto.
Import presto.

Definition FullyQualifiedTableName (catalog schema tableName : string) : string :=
  Sprintf "%s.%s.%s" [FStr catalog; FStr schema; FStr tableName].

Definition FormatInsertQuery (target query : string) : string :=
  Sprintf "INSERT INTO %s %s" [FStr target; FStr query].

Definition quoteColumn (col : Column) : string := dquote +:+ col_Name col +:+ dquote.

Definition GenerateQuotedColumnsListSQL (columns : list Column) : string :=
  Join (quoteColumn <$> columns) ",".

Definition backquote : string := "`".

Definition generateColumnDefinitionListSQL (columns : list Column) : string :=
  Join ((λ col, Sprintf "`%s` %s" [FStr (col_Name col); FStr (col_Type col)]) <$> columns) ",".

(** A column is ordered by its map entries when its type mentions [map(]
    before the first closing parenthesis. *)
Definition is_map_column (col : Column) : bool :=
  let colType := ToLower (col_Type col) in
  match Index colType "map(" with
  | None => false
  | Some mapIndex =>
      match Index colType ")" with
      | None => false
      | Some i => (mapIndex <? i)%nat
      end
  end.

Definition order_column (col : Column) : string :=
  if is_map_column col
  then "map_entries(" +:+ dquote +:+ col_Name col +:+ dquote +:+ ")"
  else quoteColumn col.

Definition GenerateOrderBySQL (columns : list Column) : string :=
  Sprintf "%s ASC" [FStr (Join (order_column <$> columns) ", ")].

Definition GenerateGetRowsSQL (tableName : string) (columns : list Column) : string :=
  Sprintf "SELECT %s FROM %s ORDER BY %s"
    [FStr (GenerateQuotedColumnsListSQL columns); FStr tableName; FStr (GenerateOrderBySQL columns)].

Definition GenerateGetRowsSQLWithWhere (tableName : string) (columns : list Column)
    (whereClause : string) : string :=
  Sprintf "SELECT %s FROM %s %s ORDER BY %s"
    [FStr (GenerateQuotedColumnsListSQL columns); FStr tableName; FStr whereClause;
     FStr (GenerateOrderBySQL columns)].

Section props.
Context `{!MapOrder}.

Definition generatePropertiesSQL (props : gmap string string) : string :=
  Join ((λ '(k, v), Sprintf "%s = %s" [FStr k; FStr v]) <$> range_map props) ", ".

Definition props_str (properties : option (gmap string string)) : string :=
  match properties with
  | Some p => if decide (p = ∅) then "" else
    Sprintf "WITH (%s)" [FStr (generatePropertiesSQL p)]
  | None => ""
  end.

Definition create_table_format : string :=
  "CREATE TABLE %s" +:+ newline +:+ "%s (" +:+ newline +:+ tab +:+ "%s" +:+ newline +:+ ")" +:+
  newline +:+ "%s" +:+ newline +:+ "%s".

(** Four operands for the five verbs of the format: [comment] is not
    among them. *)
Definition generateCreateTableSQL (catalog schema tableName : string) (columns : list Column)
    (comment : string) (properties : option (gmap string string)) (ignoreExists : bool) : string :=
  let ifNotExists := if ignoreExists then "IF NOT EXISTS" else "" in
  Sprintf create_table_format
    [FStr ifNotExists; FStr (FullyQualifiedTableName catalog schema tableName);
     FStr (generateColumnDefinitionListSQL columns); FStr (props_str properties)].

Definition generateCreateTableAsSQL (catalog schema tableName : string) (columns : list Column)
    (comment : string) (properties : option (gmap string string)) (ignoreExists : bool)
    (query : string) : string :=
  let ifNotExists := if ignoreExists then "IF NOT EXISTS" else "" in
  Sprintf (create_table_format +:+ newline +:+ "AS %s")
    [FStr ifNotExists; FStr (FullyQualifiedTableName catalog schema tableName);
     FStr (GenerateQuotedColumnsListSQL columns); FStr (props_str properties);
     FStr comment; FStr query].
End props.

Definition drop_table_sql (catalog schema tableName : string) (ignoreNotExists : bool) : string :=
  Sprintf "DROP TABLE %s %s" [FStr (if ignoreNotExists then "IF EXISTS" else "");
                              FStr (FullyQualifiedTableName catalog schema tableName)].
Definition drop_view_sql (catalog schema viewName : string) (ignoreNotExists : bool) : string :=
  Sprintf "DROP VIEW %s %s" [FStr (if ignoreNotExists then "IF EXISTS" else "");
                             FStr (FullyQualifiedTableName catalog schema viewName)].
Definition create_view_sql (catalog schema viewName query : string) (replace : bool) : string :=
  let fullQuery := "CREATE" +:+ (if replace then " OR REPLACE" else "") +:+ " VIEW %s AS %s" in
  Sprintf fullQuery [FStr (FullyQualifiedTableName catalog schema viewName); FStr query].

(** *** Execution *)
Section exec.
Context {S : Type} `{!Env S} {MO : MapOrder}.

Definition Query (sql : string) : M S Rows := effect (APrestoQuery sql) (presto_query sql).

(** Every row is fetched so that the query's error shows. *)
Definition execQuery (query : string) : M S unit :=
  rows ← Query query;
  match rows_Err rows with
  | Some err => fail (Errorf "presto SQL error: %v" [FStr (Error err)])
  | None => mret tt
  end.

Definition InsertInto (tableName query : string) : M S unit :=
  execQuery (FormatInsertQuery tableName query).

(** [DeleteFrom] only submits the query. *)
Definition DeleteFrom (tableName : string) : M S unit :=
  _ ← Query (Sprintf "DELETE FROM %s" [FStr tableName]); mret tt.

Definition row_of (cols : list string) (vals : list Value) : Row :=
  fold_left (λ m '(c, v), <[c := v]> m) (zip cols vals) ∅.

Fixpoint scan_rows (cols : list string) (rows : list (outcome (list Value))) : outcome (list Row) :=
  match rows with
  | [] => Ok []
  | r :: rows =>
      vals ← r;
      rest ← scan_rows cols rows;
      Ok (row_of cols vals :: rest)
  end.

Definition ExecuteSelect (query : string) : M S (list Row) :=
  rows ← Query query;
  cols ← ret_out (rows_Columns rows);
  results ← ret_out (scan_rows cols (rows_Scan rows));
  match rows_Err rows with
  | Some err => fail err
  | None => mret results
  end.

Definition GetRows (tableName : string) (columns : list Column) : M S (list Row) :=
  ExecuteSelect (GenerateGetRowsSQL tableName columns).
Definition GetRowsWhere (tableName : string) (columns : list Column) (whereClause : string)
    : M S (list Row) :=
  ExecuteSelect (GenerateGetRowsSQLWithWhere tableName columns whereClause).

Definition CreateTable (catalog schema tableName : string) (columns : list Column)
    (comment : string) (properties : option (gmap string string)) (ignoreExists : bool) : M S unit :=
  _ ← Query (generateCreateTableSQL catalog schema tableName columns comment properties ignoreExists);
  mret tt.
Definition CreateTableAs (catalog schema tableName : string) (columns : list Column)
    (comment : string) (properties : option (gmap string string)) (ignoreExists : bool)
    (query : string) : M S unit :=
  _ ← Query (generateCreateTableAsSQL catalog schema tableName columns comment properties
               ignoreExists query);
  mret tt.
Definition DropTable (catalog schema tableName : string) (ignoreNotExists : bool) : M S unit :=
  _ ← Query (drop_table_sql catalog schema tableName ignoreNotExists); mret tt.
Definition CreateView (catalog schema viewName query : string) (replace : bool) : M S unit :=
  _ ← Query (create_view_sql catalog schema viewName query replace); mret tt.
Definition DropView (catalog schema viewName : string) (ignoreNotExists : bool) : M S unit :=
  _ ← Query (drop_view_sql catalog schema viewName ignoreNotExists); mret tt.
End exec.
End Presto.

(** ** Hive statements *)
Module Hive.
Import hive.

Definition escapeColumn (columnName columnType : string) : string :=
  Sprintf "`%s` %s" [FStr columnName; FStr columnType].
Definition generateColumnListSQL (columns : list Column) : string :=
  Join ((λ col, escapeColumn (col_Name col) (col_Type col)) <$> columns) ",".
Definition generateColumnNoTypesListSQL (columns : list string) : string :=
  Join ((λ col, "`" +:+ col +:+ "`") <$> columns) ",".
Definition generateSortedByColumnListSQL (columns : list SortColumn) : string :=
  Join ((λ col, "`" +:+ sc_Name col +:+ "`" +:+
         match sc_Decending col with
         | None => ""
         | Some true => " DESC"
         | Some false => " ASC"
         end) <$> columns) ",".

Definition generateDropTableSQL (database tableName : string) (ignoreNotExists purge : bool) : string :=
  let tableName :=
    if decide (database = "") then tableName
  else Sprintf "%s.%s" [FStr database; FStr tableName] in
  Sprintf "DROP TABLE %s %s %s"
    [FStr (if ignoreNotExists then "IF EXISTS" else ""); FStr tableName;
     FStr (if purge then "PURGE" else "")].

Section props.
Context `{!MapOrder}.

(** [%s] of a map: [map[k:v k:v]]. *)
Definition fmt_map (m : gmap string string) : string :=
  "map[" +:+ Join ((λ '(k, v), k +:+ ":" +:+ v) <$> range_map m) " " +:+ "]".

Definition create_table_format : string :=
  "CREATE %s TABLE %s" +:+ newline +:+ "%s (%s) %s" +:+ newline +:+ "%s %s %s" +:+ newline +:+
  "%s %s %s" +:+ newline +:+ "%s".

Definition generateCreateTableSQL (params : TableParameters) (ignoreExists : bool) : string :=
  let tableType := if p_External params then "EXTERNAL" else "" in
  let ifNotExists := if ignoreExists then "IF NOT EXISTS" else "" in
  let tableName :=
    if decide (p_Database params = "") then p_Name params
  else Sprintf "%s.%s" [FStr (p_Database params); FStr (p_Name params)] in
  let partitionedBy :=
    if decide (p_PartitionedBy params = []) then ""
  else Sprintf "PARTITIONED BY (%s)" [FStr (generateColumnListSQL (p_PartitionedBy params))] in
  let clustered := negb (bool_decide (p_ClusteredBy params = [])) in
  let clusteredBy :=
    if clustered
  then Sprintf "CLUSTERED BY (%s)" [FStr (generateColumnNoTypesListSQL (p_ClusteredBy params))]
  else "" in
  let intoBuckets :=
    if clustered then Sprintf "INTO %d BUCKETS" [FInt (p_NumBuckets params)] else "" in
  let sortedBy :=
    if clustered && negb (bool_decide (p_SortedBy params = []))
  then Sprintf "SORTED BY (%s)" [FStr (generateSortedByColumnListSQL (p_SortedBy params))]
  else "" in
  let rowFormatStr :=
    if decide (p_RowFormat params = "") then ""
  else Sprintf "ROW FORMAT %s" [FStr (TrimSpace (p_RowFormat params))] in
  let format :=
    if decide (p_FileFormat params = "") then ""
  else Sprintf "STORED AS %s" [FStr (p_FileFormat params)] in
  let location :=
    if decide (p_Location params = "") then ""
  else "LOCATION " +:+ dquote +:+ p_Location params +:+ dquote in
  let tblProps :=
    match p_TableProperties params with
    | None => ""
    | Some m => Sprintf "TBLPROPERTIES(%s)" [FStr (fmt_map m)]
    end in
  Sprintf create_table_format
    [FStr tableType; FStr ifNotExists;
     FStr tableName; FStr (generateColumnListSQL (p_Columns params)); FStr partitionedBy;
     FStr clusteredBy; FStr sortedBy; FStr intoBuckets;
     FStr rowFormatStr; FStr format; FStr location;
     FStr tblProps].
End props.

(** [IF NOT EXISTS] depends on the location, not on [ignoreExists]. *)
Definition generateCreateDatabaseSQL (params : DatabaseParameters) (ignoreExists : bool) : string :=
  let ignoreExistsStr := if decide (db_Location params = "") then "" else "IF NOT EXISTS" in
  let locStr :=
    if decide (db_Location params = "") then ""
  else Sprintf "LOCATION '%s'" [FStr (db_Location params)] in
  Sprintf ("CREATE DATABASE" +:+ newline +:+ "%s" +:+ newline +:+ "%s" +:+ newline +:+ "%s")
    [FStr ignoreExistsStr; FStr (db_Name params); FStr locStr].

Definition generateDropDatabaseSQL (dbName : string) (ignoreNotExists cascade : bool) : string :=
  Sprintf ("DROP DATABASE" +:+ newline +:+ "%s" +:+ newline +:+ "%s" +:+ newline +:+ "%s")
    [FStr (if ignoreNotExists then "IF EXISTS" else ""); FStr dbName;
     FStr (if cascade then "CASCADE" else "")].

(** [reporting.FmtPartitionSpec]; a column missing from the spec reads as
    the empty string. *)
Definition FmtPartitionSpec (partitionColumns : list Column) (partSpec : gmap string string) : string :=
  Join ((λ col,
    let val := default "" (partSpec !! col_Name col) in
    let val := if decide (ToLower (col_Type col) = "string") then "`" +:+ val +:+ "`" else val in
    Sprintf "`%s`=%s" [FStr (col_Name col); FStr val]) <$> partitionColumns) ", ".

(** *** [HiveManager] *)
Section exec.
Context {S : Type} `{!Env S} {MO : MapOrder}.

Definition Exec (sql : string) : M S unit := exec (AHiveExec sql).

Definition CreateTable (params : TableParameters) (ignoreExists : bool) : M S unit :=
  Exec (generateCreateTableSQL params ignoreExists).
Definition DropTable (dbName tableName : string) (ignoreNotExists : bool) : M S unit :=
  Exec (generateDropTableSQL dbName tableName ignoreNotExists false).
Definition CreateDatabase (params : DatabaseParameters) : M S unit :=
  Exec (generateCreateDatabaseSQL params false).
Definition DropDatabase (dbName : string) (ignoreNotExists cascade : bool) : M S unit :=
  Exec (generateDropDatabaseSQL dbName ignoreNotExists cascade).
Definition AddPartition (tableName : string) (partitionColumns : list Column)
    (partition : TablePartition) : M S unit :=
  let locationStr :=
    if decide (tp_Location partition = "") then "" else "LOCATION " +:+ tp_Location partition in
  Exec (Sprintf "ALTER TABLE %s ADD IF NOT EXISTS PARTITION (%s) %s"
          [FStr tableName; FStr (FmtPartitionSpec partitionColumns (tp_Spec partition));
           FStr locationStr]).
Definition DropPartition (tableName : string) (partitionColumns : list Column)
    (partition : TablePartition) : M S unit :=
  Exec (Sprintf "ALTER TABLE %s DROP IF EXISTS PARTITION (%s)"
          [FStr tableName; FStr (FmtPartitionSpec partitionColumns (tp_Spec partition))]).
End exec.
End Hive.
