(* ===== verification/Columns.v ===== *)
(** * Names, identifiers and column types
    (src/pkg/operator/reportingutil/util.go) *)

From S2P Require Export Sql.
Open Scope Z_scope.

(** ** Names *)

(** [strings.NewReplacer("-", "_", ".", "_")]. *)
Definition resourceNameReplacer : string → string :=
  str_map (λ c, if Ascii.eqb c "-" || Ascii.eqb c "." then "_"%char else c).

Definition DataSourceTableName (namespace dataSourceName : string) : string :=
  Sprintf "datasource_%s_%s"
    [FStr (resourceNameReplacer namespace); FStr (resourceNameReplacer dataSourceName)].

Definition ReportTableName (namespace reportName : string) : string :=
  Sprintf "report_%s_%s"
    [FStr (resourceNameReplacer namespace); FStr (resourceNameReplacer reportName)].

Definition TableResourceNameFromKind (kind namespace name : string) : string :=
  ToLower (Sprintf "%s-%s-%s" [FStr kind; FStr namespace; FStr name]).

(** ["20060102"]. *)
Definition AWSUsagePartitionDateStringLayout : list chunk := [CYear; CMonth; CDay].
Definition AWSBillingPeriodTimestamp (date : Time) : string :=
  Format date AWSUsagePartitionDateStringLayout.

Definition FullyQualifiedTableName (prestoTable : PrestoTable) : outcome string :=
  let st := pt_Status prestoTable in
  let errs :=
    (if String.eqb (pt_Catalog st) "" then ["prestoTable.Status.Catalog is unset"] else []) ++
    (if String.eqb (pt_Schema st) "" then ["prestoTable.Status.Schema is unset"] else []) ++
    (if String.eqb (pt_TableName st) "" then ["prestoTable.Status.TableName is unset"] else []) in
  match errs with
  | [] => Ok (Presto.FullyQualifiedTableName (pt_Catalog st) (pt_Schema st) (pt_TableName st))
  | _ => Err (Errorf "PrestoTable status is invalid: %s" [FStr (Join errs ", ")])
  end.

Definition TruncateToMinute (t : Time) : Time := Truncate t Minute.

(** ** Identifiers

    A [range] over a string decodes UTF-8; a byte that starts no valid
    sequence reads as U+FFFD.  [unicode.IsLetter] and [unicode.IsDigit] are
    given up to U+00FF; their tables above are a parameter. *)
Class UnicodeTables := { letter_above : Z → bool; digit_above : Z → bool }.
#[export] Instance latin1_tables : UnicodeTables :=
  {| letter_above := λ _, false; digit_above := λ _, false |}.

Definition byte_of (c : ascii) : Z := Z.of_N (N_of_ascii c).
Definition str_bytes (s : string) : list Z := byte_of <$> String.list_ascii_of_string s.

Definition RuneError : Z := 0xFFFD.

Definition cont (lo hi b : Z) : bool := (lo <=? b) && (b <=? hi).

(** The first rune of a non-empty byte string and its width. *)
Definition decode_rune (b0 : Z) (rest : list Z) : Z * nat :=
  if b0 <? 0x80 then (b0, 1%nat)
  else if cont 0xC2 0xDF b0 then
    match rest with
    | b1 :: _ => if cont 0x80 0xBF b1
                 then ((b0 - 0xC0) * 64 + (b1 - 0x80), 2%nat) else (RuneError, 1%nat)
    | [] => (RuneError, 1%nat)
    end
  else if cont 0xE0 0xEF b0 then
    match rest with
    | b1 :: b2 :: _ =>
        if cont (if b0 =? 0xE0 then 0xA0 else 0x80) (if b0 =? 0xED then 0x9F else 0xBF) b1 &&
           cont 0x80 0xBF b2
        then ((b0 - 0xE0) * 4096 + (b1 - 0x80) * 64 + (b2 - 0x80), 3%nat)
        else (RuneError, 1%nat)
    | _ => (RuneError, 1%nat)
    end
  else if cont 0xF0 0xF4 b0 then
    match rest with
    | b1 :: b2 :: b3 :: _ =>
        if cont (if b0 =? 0xF0 then 0x90 else 0x80) (if b0 =? 0xF4 then 0x8F else 0xBF) b1 &&
           cont 0x80 0xBF b2 && cont 0x80 0xBF b3
        then ((b0 - 0xF0) * 262144 + (b1 - 0x80) * 4096 + (b2 - 0x80) * 64 + (b3 - 0x80), 4%nat)
        else (RuneError, 1%nat)
    | _ => (RuneError, 1%nat)
    end
  else (RuneError, 1%nat).

(** [skip] bytes of the sequence just decoded remain to be passed over. *)
Fixpoint runes_aux (skip : nat) (bs : list Z) : list Z :=
  match bs with
  | [] => []
  | b :: bs =>
      match skip with
      | S k => runes_aux k bs
      | O => let '(r, w) := decode_rune b bs in r :: runes_aux (pred w) bs
      end
  end.
Definition runes (bs : list Z) : list Z := runes_aux 0 bs.

Section identifiers.
Context `{!UnicodeTables}.

Definition IsLetter (r : Z) : bool :=
  if r <? 0x80 then cont 65 90 r || cont 97 122 r
  else if r <=? 0xFF then
    (r =? 0xAA) || (r =? 0xB5) || (r =? 0xBA) || cont 0xC0 0xD6 r || cont 0xD8 0xF6 r || cont 0xF8 0xFF r
  else letter_above r.
Definition IsDigit (r : Z) : bool :=
  if r <=? 0xFF then cont 48 57 r else digit_above r.

(** The first byte is taken as a rune, the rest is decoded. *)
Definition IsValidSQLIdentifier (id : string) : bool :=
  match str_bytes id with
  | [] => false
  | firstChar :: rest =>
      if negb (IsLetter firstChar) && negb (firstChar =? 95) then false
      else forallb (λ r, IsLetter r || IsDigit r || (r =? 95)) (runes rest)
  end.
End identifiers.

(** ** Columns *)
Definition GenerateHiveColumns (query : ReportQuery) : list hive.Column :=
  (λ col, hive.MkColumn (q_Name col) (q_Type col)) <$> qs_Columns (q_Spec query).
Definition GeneratePrestoColumns (query : ReportQuery) : list presto.Column :=
  (λ col, presto.MkColumn (q_Name col) (q_Type col)) <$> qs_Columns (q_Spec query).

Definition member (s : string) (l : list string) : bool := existsb (String.eqb s) l.

Definition hive_simple_types : list string :=
  ["TINYINT"; "SMALLINT"; "INT"; "INTEGER"; "BIGINT"; "FLOAT"; "DOUBLE"; "BOOLEAN"; "VARCHAR"; "CHAR";
   "DATE"; "TIME"; "TIMESTAMP"; "BINARY"].
Definition SimpleHiveColumnTypeToPrestoColumnType (colType : string) : string :=
  let up := ToUpper colType in
  if member up hive_simple_types then colType
  else if String.eqb up "STRING" then "VARCHAR"
  else "".

Definition presto_simple_types : list string :=
  ["TINYINT"; "SMALLINT"; "INT"; "INTEGER"; "BIGINT"; "FLOAT"; "DOUBLE"; "BOOLEAN"; "CHAR";
   "DATE"; "TIME"; "TIMESTAMP"; "BINARY"].
Definition SimplePrestoColumnTypeToHiveColumnType (colType : string) : string :=
  let up := ToUpper colType in
  if member up presto_simple_types then up
  else if String.eqb up "REAL" then "FLOAT"
  else if String.eqb up "VARCHAR" then "STRING"
  else "".

Definition HiveColumnToPrestoColumn (column : hive.Column) : outcome presto.Column :=
  let name := hive.col_Name column in
  let type := hive.col_Type column in
  let colType := SimpleHiveColumnTypeToPrestoColumnType type in
  if negb (String.eqb colType "") then Ok (presto.MkColumn name colType)
  else
    let colType := ToUpper type in
    if Contains colType "MAP" then
      if Contains colType "ARRAY" then
        Err (Errorf "cannot convert map containing array into map for Presto, column: %q, type: %q"
               [FStr name; FStr type])
      else
        match Index colType "<", Index colType ">" with
        | Some beginMapIndex, Some endMapIndex =>
            if (String.length colType <=? beginMapIndex + 1)%nat then
              Err (Errorf "invalid map definition in column type, column %q, type: %q"
                     [FStr name; FStr type])
            else
              mapComponents ← slice_str colType (Z.of_nat beginMapIndex + 1) (Z.of_nat endMapIndex);
              match SplitN2 mapComponents "," with
              | [k; v] =>
                  let keyType := TrimSpace k in
                  let valueType := TrimSpace v in
                  let prestoKeyType := SimpleHiveColumnTypeToPrestoColumnType keyType in
                  let prestoValueType := SimpleHiveColumnTypeToPrestoColumnType valueType in
                  if String.eqb prestoKeyType "" then
                    Err (Errorf "invalid presto map key type: %q" [FStr keyType])
                  else if String.eqb prestoValueType "" then
                    Err (Errorf "invalid presto map value type: %q" [FStr valueType])
                  else Ok (presto.MkColumn name
                             (Sprintf "map(%s,%s)" [FStr prestoKeyType; FStr prestoValueType]))
              | _ => Err (Errorf "invalid map definition in column type, column %q, type: %q"
                            [FStr name; FStr type])
              end
        | _, _ => Err (Errorf "unable to find matching <, > pair for column %q, type: %q"
                         [FStr name; FStr type])
        end
    else Err (Errorf "unsupported hive type: %q" [FStr type]).

Definition PrestoColumnToHiveColumn (column : presto.Column) : outcome hive.Column :=
  let name := presto.col_Name column in
  let type := presto.col_Type column in
  let colType := SimplePrestoColumnTypeToHiveColumnType type in
  if negb (String.eqb colType "") then Ok (hive.MkColumn name colType)
  else
    let colType := ToUpper type in
    if Contains colType "MAP" then
      if Contains colType "ARRAY" then
        Err (Errorf "cannot convert map containing array into map for Presto, column: %q, type: %q"
               [FStr name; FStr type])
      else
        match Index colType "(", Index colType ")" with
        | Some beginMapIndex, Some endMapIndex =>
            if (String.length colType <=? beginMapIndex + 1)%nat then
              Err (Errorf "invalid map definition in column type, column %q, type: %q"
                     [FStr name; FStr type])
            else
              mapComponents ← slice_str colType (Z.of_nat beginMapIndex + 1) (Z.of_nat endMapIndex);
              match SplitN2 mapComponents "," with
              | [k; v] =>
                  let keyType := TrimSpace k in
                  let valueType := TrimSpace v in
                  let hiveKeyType := SimplePrestoColumnTypeToHiveColumnType keyType in
                  let hiveValueType := SimplePrestoColumnTypeToHiveColumnType valueType in
                  if String.eqb hiveKeyType "" then
                    Err (Errorf "invalid hive map key type: %q" [FStr keyType])
                  else if String.eqb hiveValueType "" then
                    Err (Errorf "invalid hive map value type: %q" [FStr valueType])
                  else Ok (hive.MkColumn name
                             (Sprintf "MAP<%s,%s>" [FStr hiveKeyType; FStr hiveValueType]))
              | _ => Err (Errorf "invalid map definition in column type, column %q, type: %q"
                            [FStr name; FStr type])
              end
        | _, _ => Err (Errorf "unable to find matching (, ) pair for column %q, type: %q"
                         [FStr name; FStr type])
        end
    else Err (Errorf "unsupported hive type: %q" [FStr type]).

Fixpoint HiveColumnsToPrestoColumns (columns : list hive.Column) : outcome (list presto.Column) :=
  match columns with
  | [] => Ok []
  | col :: columns =>
      c ← HiveColumnToPrestoColumn col;
      cs ← HiveColumnsToPrestoColumns columns;
      Ok (c :: cs)
  end.
Fixpoint PrestoColumnsToHiveColumns (columns : list presto.Column) : outcome (list hive.Column) :=
  match columns with
  | [] => Ok []
  | col :: columns =>
      c ← PrestoColumnToHiveColumn col;
      cs ← PrestoColumnsToHiveColumns columns;
      Ok (c :: cs)
  end.

Definition ConvertInputDefinitionsIntoInputList (defs : list ReportQueryInputDefinition) : list string :=
  id_Name <$> filter (λ def, id_Required def = true) defs.

(** ** Facts about identifiers *)

(** Letters, digits and the underscore. *)
Definition word_byte (b : Z) : bool := cont 48 57 b || cont 65 90 b || cont 97 122 b || (b =? 95).
Definition high (b : Z) : Prop := 0x80 ≤ b.

Lemma decode_rune_ascii b rest : b < 0x80 → decode_rune b rest = (b, 1%nat).
Proof. intros H. unfold decode_rune. by rewrite (proj2 (Z.ltb_lt _ _) H). Qed.

(** The continuation bytes a sequence takes are not ASCII. *)
Lemma decode_rune_skips b rest : Forall high (take (pred (decode_rune b rest).2) rest).
Proof.
  unfold decode_rune, high, cont.
  repeat (case_goal; simpl; try constructor); bool_props; repeat constructor;
    repeat (case_match; simplify_eq); lia.
Qed.

Lemma runes_aux_ascii bs skip b :
  Forall high (take skip bs) → b ∈ bs → b < 0x80 → b ∈ runes_aux skip bs.
Proof.
  revert skip. induction bs as [|b0 bs IH]; intros skip Hskip Hb Hlt; [by apply elem_of_nil in Hb|].
  destruct skip as [|k]; simpl in *.
  - destruct (decode_rune b0 bs) as [r w] eqn:E.
    apply elem_of_cons in Hb as [->|Hb].
    + rewrite decode_rune_ascii in E by done. simplify_eq. by left.
    + right. apply IH; [|done..]. pose proof (decode_rune_skips b0 bs) as H. by rewrite E in H.
  - apply Forall_cons in Hskip as [Hh Hskip]. unfold high in Hh.
    apply elem_of_cons in Hb as [->|Hb]; [lia|by apply IH].
Qed.

Lemma runes_ascii bs : Forall (λ b, b < 0x80) bs → runes bs = bs.
Proof.
  unfold runes. induction 1 as [|b bs Hb _ IH]; [done|].
  cbn [runes_aux]. rewrite decode_rune_ascii by done. cbn [pred]. by rewrite IH.
Qed.

Section identifier_facts.
Context `{!UnicodeTables}.

Lemma word_rune b : b < 0x80 → IsLetter b || IsDigit b || (b =? 95) = word_byte b.
Proof.
  intros Hb. unfold IsLetter, IsDigit, word_byte.
  rewrite (proj2 (Z.ltb_lt _ _) Hb), (proj2 (Z.leb_le b 255)) by lia.
  destruct (cont 65 90 b), (cont 97 122 b), (cont 48 57 b), (b =? 95); done.
Qed.

(** C17: an accepted database name cannot break out of the statement it is
    spliced into: it is not empty, does not start with a digit, and its
    ASCII bytes are letters, digits and underscores, so it holds no quote,
    space, semicolon or dot; whatever the other bytes are. *)
Theorem IsValidSQLIdentifier_safe id :
  IsValidSQLIdentifier id = true →
  id ≠ "" ∧ (∀ b, head (str_bytes id) = Some b → cont 48 57 b = false) ∧
  ∀ b, b ∈ str_bytes id → b < 0x80 → word_byte b = true.
Proof.
  unfold IsValidSQLIdentifier. destruct (str_bytes id) as [|b0 bs] eqn:E; [done|].
  destruct (negb (IsLetter b0) && negb (b0 =? 95)) eqn:E0; [done|].
  intros Hall. apply andb_false_iff in E0. rewrite !negb_false_iff in E0. split_and!.
  - by intros ->.
  - intros b [= <-]. destruct (cont 48 57 b0) eqn:Ed; [|done].
    unfold cont in *. bool_props.
    destruct E0 as [E0|E0]; [|bool_props; lia].
    unfold IsLetter, cont in E0. rewrite (proj2 (Z.ltb_lt b0 0x80)) in E0 by lia.
    bool_props; lia.
  - intros b Hb Hlt. rewrite <- word_rune by done. apply elem_of_cons in Hb as [->|Hb].
    + destruct E0 as [->| ->]; [done|]. by rewrite !orb_true_r.
    + rewrite forallb_forall in Hall. apply Hall. apply list_elem_of_In.
      by apply runes_aux_ascii.
Qed.

Lemma valid_of_word id :
  (match str_bytes id with b :: _ => cont 97 122 b = true | [] => False end) →
  Forall (λ b, word_byte b = true ∧ b < 0x80) (str_bytes id) → IsValidSQLIdentifier id = true.
Proof.
  unfold IsValidSQLIdentifier. destruct (str_bytes id) as [|b bs]; [done|].
  intros Hb [[_ Hlt] Hbs]%Forall_cons.
  assert (IsLetter b = true) as ->.
  { unfold IsLetter. by rewrite (proj2 (Z.ltb_lt _ _) Hlt), Hb, orb_true_r. }
  simpl. rewrite runes_ascii by (by eapply Forall_impl; [done|]; intros ? []).
  apply forallb_forall. intros x Hx%list_elem_of_In.
  rewrite Forall_forall in Hbs. specialize (Hbs x Hx) as [??]. by rewrite word_rune.
Qed.
End identifier_facts.

(** The names Kubernetes accepts: lower-case letters, digits, [-] and [.]. *)
Definition dns_byte (b : Z) : bool := cont 97 122 b || cont 48 57 b || (b =? 45) || (b =? 46).
Definition dns_name (s : string) : Prop := Forall (λ b, dns_byte b = true) (str_bytes s).

Lemma str_bytes_app s t : str_bytes (s +:+ t) = str_bytes s ++ str_bytes t.
Proof. induction s as [|c s IH]; [done|]. change (byte_of c :: str_bytes (s +:+ t) = byte_of c :: (str_bytes s ++ str_bytes t)). by rewrite IH. Qed.

Lemma replacer_byte c :
  dns_byte (byte_of c) = true →
  let c' := if Ascii.eqb c "-" || Ascii.eqb c "." then "_"%char else c in
  word_byte (byte_of c') = true ∧ byte_of c' < 0x80.
Proof.
  intros H c'. subst c'.
  destruct (Ascii.eqb_spec c "-") as [->|H1]; [by split|].
  destruct (Ascii.eqb_spec c ".") as [->|H2]; [by split|]. simpl.
  assert (∀ d, c ≠ d → byte_of c ≠ byte_of d) as Hinj.
  { intros d Hcd E. apply Hcd. unfold byte_of in E. apply N2Z.inj in E.
    rewrite <- (ascii_N_embedding c), E. apply ascii_N_embedding. }
  apply Hinj in H1, H2. change (byte_of "-") with 45 in H1. change (byte_of ".") with 46 in H2.
  unfold dns_byte, word_byte, cont in *.
  bool_props; try (exfalso; lia); (split; [|lia]);
    rewrite ?orb_true_iff, ?andb_true_iff, ?Z.leb_le, ?Z.eqb_eq; lia.
Qed.

Lemma replacer_word s :
  dns_name s → Forall (λ b, word_byte b = true ∧ b < 0x80) (str_bytes (resourceNameReplacer s)).
Proof.
  unfold dns_name. induction s as [|c s IH]; [constructor|].
  change (str_bytes (String c s)) with (byte_of c :: str_bytes s).
  intros [Hc Hs]%Forall_cons. simpl. constructor; [by apply replacer_byte|by apply IH].
Qed.

(** the tables the operator creates for data sources and reports have valid
    SQL identifiers as names, whatever Kubernetes namespace and name they come
    from. *)
Theorem table_names_valid `{!UnicodeTables} namespace name :
  dns_name namespace → dns_name name →
  IsValidSQLIdentifier (DataSourceTableName namespace name) = true ∧
  IsValidSQLIdentifier (ReportTableName namespace name) = true.
Proof.
  intros Hns Hn.
  assert (∀ p, Forall (λ b, word_byte b = true ∧ b < 0x80) (str_bytes p) →
    Forall (λ b, word_byte b = true ∧ b < 0x80)
      (str_bytes (p +:+ (resourceNameReplacer namespace +:+ ("_" +:+ (resourceNameReplacer name +:+ "")))))) as Hw.
  { intros p Hp. rewrite !str_bytes_app, !Forall_app.
    split_and!; [done|by apply replacer_word|by repeat constructor|by apply replacer_word|constructor]. }
  split; apply valid_of_word; try done.
  - apply (Hw "datasource_"). by repeat constructor.
  - apply (Hw "report_"). by repeat constructor.
Qed.

Lemma table_names_valid_witness :
  (dns_name "kube-system" ∧ dns_name "node.cpu") ∧
  IsValidSQLIdentifier (DataSourceTableName "kube-system" "node.cpu") = true ∧
  IsValidSQLIdentifier (ReportTableName "kube-system" "node.cpu") = true.
Proof.
  assert (dns_name "kube-system" ∧ dns_name "node.cpu") as [H1 H2]
    by (split; by repeat constructor).
  split; [by split|]. apply (table_names_valid _ _ H1 H2).
Defined.

Lemma IsValidSQLIdentifier_safe_witness :
  IsValidSQLIdentifier "metering" = true ∧
  "metering" ≠ "" ∧ (∀ b, head (str_bytes "metering") = Some b → cont 48 57 b = false) ∧
  ∀ b, b ∈ str_bytes "metering" → b < 0x80 → word_byte b = true.
Proof. split; [reflexivity|]. by apply (IsValidSQLIdentifier_safe "metering"). Defined.

(** Different resources can map to one table name. *)
Example table_name_collision :
  DataSourceTableName "a" "b-c" = DataSourceTableName "a-b" "c" ∧
  ReportTableName "ns" "a.b" = ReportTableName "ns" "a-b".
Proof. split; vm_compute; reflexivity. Qed.

(** ** Facts about column types *)

(** The Hive types the conversion supports, and how they print. *)
Inductive hive_type := Prim (s : string) | MapOf (k v : string).
Definition hive_prims : list string := "STRING" :: hive_simple_types.
Definition supported (t : hive_type) : bool :=
  match t with
  | Prim s => member s hive_prims
  | MapOf k v => member k hive_prims && member v hive_prims
  end.
Definition print_type (t : hive_type) : string :=
  match t with Prim s => s | MapOf k v => "MAP<" +:+ k +:+ "," +:+ v +:+ ">" end.

(** A [VARCHAR] comes back as a [STRING]. *)
Definition canon_prim (s : string) : string := if String.eqb s "VARCHAR" then "STRING" else s.
Definition canon_type (t : hive_type) : hive_type :=
  match t with Prim s => Prim (canon_prim s) | MapOf k v => MapOf (canon_prim k) (canon_prim v) end.

Lemma member_spec s l : member s l = true ↔ s ∈ l.
Proof.
  unfold member. rewrite existsb_exists. split.
  - intros (x & Hx & ->%String.eqb_eq). by apply list_elem_of_In.
  - intros Hs. exists s. split; [by apply list_elem_of_In|apply String.eqb_refl].
Qed.

(** The conversion of a map type only looks at its upper-case form. *)
Lemma map_conversion name ty k v :
  member k hive_prims = true → member v hive_prims = true →
  ToUpper ty = print_type (MapOf k v) →
  ∃ pc, HiveColumnToPrestoColumn (hive.MkColumn name ty) = Ok pc ∧
    PrestoColumnToHiveColumn pc =
      Ok (hive.MkColumn name (print_type (MapOf (canon_prim k) (canon_prim v)))).
Proof.
  rewrite !member_spec, !list_elem_of_In. intros Hk Hv Hup.
  unfold HiveColumnToPrestoColumn, SimpleHiveColumnTypeToPrestoColumnType. simpl hive.col_Type.
  rewrite Hup. clear Hup. simpl in Hk, Hv.
  repeat (destruct Hk as [<-|Hk]; [repeat (destruct Hv as [<-|Hv]; [eexists; split; [vm_compute; reflexivity|vm_compute; reflexivity]|]); done|]).
  done.
Qed.

Lemma prim_conversion name ty s :
  member s hive_prims = true → ToUpper ty = s →
  ∃ pc, HiveColumnToPrestoColumn (hive.MkColumn name ty) = Ok pc ∧
    PrestoColumnToHiveColumn pc = Ok (hive.MkColumn name (canon_prim s)).
Proof.
  rewrite member_spec, list_elem_of_In. intros Hs Hup.
  assert (ty ≠ "") as Hne by (intros ->; rewrite <- Hup in Hs; simpl in Hs; intuition discriminate).
  unfold HiveColumnToPrestoColumn, SimpleHiveColumnTypeToPrestoColumnType. simpl hive.col_Type.
  rewrite Hup. simpl in Hs. destruct Hs as [<-|Hs].
  { eexists. split; [vm_compute; reflexivity|vm_compute; reflexivity]. }
  assert (member s hive_simple_types = true) as Hm by by apply member_spec, list_elem_of_In.
  rewrite Hm, (proj2 (String.eqb_neq ty "") Hne). eexists. split; [reflexivity|].
  unfold PrestoColumnToHiveColumn, SimplePrestoColumnTypeToHiveColumnType. simpl presto.col_Type.
  rewrite Hup. repeat (destruct Hs as [<-|Hs]; [vm_compute; reflexivity|]). done.
Qed.

(** the column type conversions are inverse to each other: every supported
    Hive type, in any case and for maps with any supported key and value,
    converts to a Presto column of the same name whose conversion back is the
    Hive type in upper case, with VARCHAR read as STRING. *)
Theorem hive_presto_roundtrip name ty t :
  supported t = true → ToUpper ty = print_type t →
  ∃ pc, HiveColumnToPrestoColumn (hive.MkColumn name ty) = Ok pc ∧
    PrestoColumnToHiveColumn pc = Ok (hive.MkColumn name (print_type (canon_type t))).
Proof.
  destruct t as [s|k v]; simpl; [by apply prim_conversion|].
  intros [Hk Hv]%andb_prop. by apply map_conversion.
Qed.

Lemma hive_presto_roundtrip_witness :
  ∃ pc, HiveColumnToPrestoColumn (hive.MkColumn "labels" "map<string,varchar>") = Ok pc ∧
    PrestoColumnToHiveColumn pc =
      Ok (hive.MkColumn "labels" (print_type (canon_type (MapOf "STRING" "VARCHAR")))).
Proof. apply (hive_presto_roundtrip "labels" "map<string,varchar>"); reflexivity. Defined.

(** What the conversion requires of a type before it slices out the map's
    components. *)
Definition map_brackets (ty : string) (i j : nat) : Prop :=
  SimpleHiveColumnTypeToPrestoColumnType ty = "" ∧
  Contains (ToUpper ty) "MAP" = true ∧ Contains (ToUpper ty) "ARRAY" = false ∧
  Index (ToUpper ty) "<" = Some i ∧ Index (ToUpper ty) ">" = Some j ∧
  (i + 1 < String.length (ToUpper ty))%nat.

Lemma Index_bound s c i : Index s (String c "") = Some i → (i < String.length s)%nat.
Proof.
  unfold Index. revert i. induction s as [|d s IH]; intros i; [by destruct i|].
  simpl. destruct (ascii_dec c d) as [->|].
  { destruct s; simpl; intros [= <-]; lia. }
  destruct (String.index 0 (String c "") s) as [k|] eqn:E; [|done].
  intros [= <-]. specialize (IH k eq_refl). lia.
Qed.

(** a Hive column type of a user crashes the conversion (slice bounds out
    of range) exactly when it is taken for a map whose first [>] comes before
    its first [<]. *)
Theorem HiveColumnToPrestoColumn_panics col :
  (∃ msg, HiveColumnToPrestoColumn col = Panic msg) ↔
  ∃ i j, map_brackets (hive.col_Type col) i j ∧ (j ≤ i)%nat.
Proof.
  unfold HiveColumnToPrestoColumn, map_brackets. destruct col as [name ty]. simpl.
  destruct (String.eqb_spec (SimpleHiveColumnTypeToPrestoColumnType ty) "") as [->|Hne]; simpl;
    [|naive_solver].
  destruct (Contains (ToUpper ty) "MAP"); [|naive_solver].
  destruct (Contains (ToUpper ty) "ARRAY"); [naive_solver|].
  destruct (Index (ToUpper ty) "<") as [i|] eqn:Hi; [|naive_solver].
  destruct (Index (ToUpper ty) ">") as [j|] eqn:Hj; [|naive_solver].
  destruct (Nat.leb_spec (String.length (ToUpper ty)) (i + 1)) as [Hlen|Hlen]; [naive_solver lia|].
  apply Index_bound in Hj. unfold slice_str.
  rewrite (proj2 (Z.leb_le 0 _)), (proj2 (Z.leb_le (Z.of_nat j) _)) by lia. simpl.
  destruct (Z.leb_spec (Z.of_nat i + 1) (Z.of_nat j)) as [Hij|Hij]; simpl.
  - split; [|naive_solver lia]. intros [msg E]. exfalso. revert E. repeat case_match; done.
  - split; [|by eauto]. intros _. exists i, j. split_and!; done || lia.
Qed.

Example backward_brackets_panic :
  is_Ok (HiveColumnToPrestoColumn (hive.MkColumn "labels" "map>string,string<")) = false ∧
  HiveColumnToPrestoColumn (hive.MkColumn "labels" "map>string,string< ") =
    Panic "runtime error: slice bounds out of range".
Proof. by split. Qed.
