(* ===== verification/MetricStore.v ===== *)
(** * The Prometheus metrics tables
    (src/pkg/operator/prestostore/prometheusmetric.go) *)

From S2P Require Export Columns Mem.
Open Scope Z_scope.

(** ** Columns *)
Definition amountColumnName : string := "amount".
Definition timestampColumnName : string := "timestamp".
Definition timePrecisionColumnName : string := "timePrecision".
Definition labelsColumnName : string := "labels".
Definition dtColumnName : string := "dt".

Definition PrometheusMetricHiveTableColumns : list hive.Column :=
  [hive.MkColumn amountColumnName "double"; hive.MkColumn timestampColumnName "timestamp";
   hive.MkColumn timePrecisionColumnName "double"; hive.MkColumn labelsColumnName "map<string, string>"].
Definition PrometheusMetricHivePartitionColumns : list hive.Column :=
  [hive.MkColumn dtColumnName "string"].

(** The package's [init], which panics if a conversion fails. *)
Definition init : outcome (list presto.Column) :=
  match HiveColumnsToPrestoColumns PrometheusMetricHiveTableColumns with
  | Err err => Panic (Error err)
  | Panic m => Panic m
  | Ok tableColumns =>
      match HiveColumnsToPrestoColumns PrometheusMetricHivePartitionColumns with
      | Err err => Panic (Error err)
      | Panic m => Panic m
      | Ok partitionColumns => Ok (tableColumns ++ partitionColumns)
      end
  end.
Definition PrometheusMetricPrestoAllColumns : list presto.Column :=
  match init with Ok cols => cols | _ => [] end.

Example init_ok : ∃ cols, init = Ok cols ∧ length cols = 5%nat.
Proof. eexists. split; vm_compute; reflexivity. Qed.

(** ** Floating point *)

(** [float64(z)], IEEE addition and division. *)
Definition f64_of_Z (z : Z) : spec_float := binary_normalize 53 1024 z 0 false.
Definition f64_add : spec_float → spec_float → spec_float := SFadd 53 1024.
Definition f64_div : spec_float → spec_float → spec_float := SFdiv 53 1024.

(** [Duration.Seconds]. *)
Definition Seconds (d : Duration) : spec_float :=
  f64_add (f64_of_Z (Z.quot d Second)) (f64_div (f64_of_Z (Z.rem d Second)) (f64_of_Z 1000000000)).

(** Conversion of a double to [int64]; what is out of range converts to the
    minimum, as the amd64 instruction does. *)
Definition int64_of_f64 (x : spec_float) : Z :=
  match x with
  | S754_zero _ => 0
  | S754_finite s m e =>
      let a := if 0 <=? e then Z.pos m * 2 ^ e else Z.pos m / 2 ^ (- e) in
      let z := if s then - a else a in
      if (int64_min <=? z) && (z <=? int64_max) then z else int64_min
  | _ => int64_min
  end.

(** ** SQL literals *)

(** ["2006-01-02 15:04:05.000"] and ["2006-01-02"]. *)
Definition TimestampFormat : list chunk :=
  [CYear; CLit "-"; CMonth; CLit "-"; CDay; CLit " "; CHour; CLit ":"; CMinute; CLit ":";
   CSecond; CFrac0 3].
Definition PrometheusMetricTimestampPartitionFormat : list chunk :=
  [CYear; CLit "-"; CMonth; CLit "-"; CDay].
Definition PrometheusMetricTimestampPartition (t : Time) : string :=
  Format t PrometheusMetricTimestampPartitionFormat.

Section store.
Context {S : Type} `{!Env S} {MO : MapOrder}.

Definition generatePrometheusMetricSQLValues (metric : PrometheusMetric) : string :=
  let labels := range_map (pm_Labels metric) in
  let keys := (λ '(k, v), "'" +:+ k +:+ "'") <$> labels in
  let vals := (λ '(k, v), "'" +:+ v +:+ "'") <$> labels in
  let keyString := "ARRAY[" +:+ Join keys "," +:+ "]" in
  let valString := "ARRAY[" +:+ Join vals "," +:+ "]" in
  let dt := PrometheusMetricTimestampPartition (pm_Timestamp metric) in
  Sprintf "(%f,timestamp '%s',%f,map(%s,%s),'%s')"
    [FFloat (pm_Amount metric); FStr (Format (pm_Timestamp metric) TimestampFormat);
     FFloat (Seconds (pm_StepSize metric)); FStr keyString; FStr valString; FStr dt].

Definition strlen (s : string) : Z := Z.of_nat (String.length s).

Definition queryCap (bufferCapacity : Z) (tableName : string) : Z :=
  bufferCapacity - strlen (Presto.FormatInsertQuery tableName "").

Definition commaStr : string := ",".
Definition valuesStmtStr : string := "VALUES ".

Definition insert_buffer (tableName queryBuf : string) : M S unit :=
  map_err (λ err, Errorf "failed to store metrics into presto: %v" [FStr (Error err)])
    (Presto.InsertInto tableName queryBuf).

(** If writing the metric would exceed the capacity, the buffer is inserted
    and reset. *)
Definition flush_if_full (bufferCapacity : Z) (tableName metricSQLStr queryBuf : string)
    (metricsInBuffer : bool) : M S (string * bool) :=
  if metricsInBuffer then
    let bytesToWrite := strlen (commaStr +:+ metricSQLStr) in
    if queryCap bufferCapacity tableName <? bytesToWrite + strlen queryBuf then
      _ ← insert_buffer tableName queryBuf; mret ("", false)
    else mret (queryBuf, true)
  else mret (queryBuf, false).

(** The metric is written after "VALUES " or a comma. *)
Definition write_metric (bufferCapacity : Z) (tableName metricSQLStr queryBuf : string)
    (metricsInBuffer : bool) : M S string :=
  let toWrite :=
    if negb metricsInBuffer then valuesStmtStr +:+ metricSQLStr
  else commaStr +:+ metricSQLStr in
  let bytesToWrite := strlen toWrite in
  if queryCap bufferCapacity tableName <? bytesToWrite + strlen queryBuf then
    fail (Errorf "writing %q would exceed buffer size, please adjust buffer size: bufferCapacityBytes: %d, queryCapacityBytes: %d, currentBufferSize: %d bytesToWrite: %d"
            [FStr toWrite; FInt bufferCapacity; FInt (queryCap bufferCapacity tableName);
             FInt (strlen queryBuf); FInt bytesToWrite])
  else mret (queryBuf +:+ toWrite).

(** The loop over the metrics; its state is the buffer's contents and
    [metricsInBuffer]. *)
Fixpoint store_loop (bufferCapacity : Z) (tableName : string) (queryBuf : string)
    (metricsInBuffer : bool) (metrics : list PrometheusMetric) : M S unit :=
  match metrics with
  | [] => mret tt
  | metric :: rest =>
      c ← read_pure ctx_err;
      match c with
      | Some err => fail err
      | None =>
          let metricSQLStr := generatePrometheusMetricSQLValues metric in
          '(queryBuf, metricsInBuffer) ←
            flush_if_full bufferCapacity tableName metricSQLStr queryBuf metricsInBuffer;
          queryBuf ← write_metric bufferCapacity tableName metricSQLStr queryBuf metricsInBuffer;
          match rest with
          | [] => insert_buffer tableName queryBuf
          | _ => store_loop bufferCapacity tableName queryBuf true rest
          end
      end
  end.

(** [queryBuf] is the empty buffer the caller reset; only its capacity
    matters. *)
Definition StorePrometheusMetricsWithBuffer (bufferCapacity : Z) (tableName : string)
    (metrics : list PrometheusMetric) : M S unit :=
  store_loop bufferCapacity tableName "" false metrics.

Definition defaultPrestoQueryCap : Z := 1000000.

(** A buffer of the pool, empty and at the pool's capacity: writes never
    exceed it, so the buffer put back has it still. *)
Definition StorePrometheusMetrics (tableName : string) (metrics : list PrometheusMetric) : M S unit :=
  StorePrometheusMetricsWithBuffer defaultPrestoQueryCap tableName metrics.

(** ** Reading: the bounds are written as their zones' clocks show them *)
Definition where_clause (start end' : ZonedTime) : string :=
  (if negb (IsZero start.1) then
     Sprintf ("WHERE " +:+ dquote +:+ "timestamp" +:+ dquote +:+ " >= timestamp '%s' ")
       [FStr (FormatIn start TimestampFormat)] else "") +:+
  (if negb (IsZero end'.1) then
     (if negb (IsZero start.1) then " AND " else " WHERE ") +:+
     Sprintf (dquote +:+ "timestamp" +:+ dquote +:+ " <= timestamp '%s'")
       [FStr (FormatIn end' TimestampFormat)] else "").

Definition conversion_panic {A} : outcome A := Panic "interface conversion".

(** [value.(T)]. *)
Definition as_map (v : option Value) : outcome (list (string * Value)) :=
  match v with Some (VMap l) => Ok l | _ => conversion_panic end.
Definition as_float (v : option Value) : outcome spec_float :=
  match v with Some (VFloat x) => Ok x | _ => conversion_panic end.
Definition as_time (v : option Value) : outcome Time :=
  match v with Some (VTime t) => Ok t | _ => conversion_panic end.
Definition as_string (v : option Value) : outcome string :=
  match v with Some (VString s) => Ok s | _ => conversion_panic end.

(** The labels, in iteration order; the message's [%T] and [%+v] of the
    offending value are left out. *)
Fixpoint convert_labels (rowLabels : list (string * Value)) (labels : gmap string string)
    : outcome (gmap string string) :=
  match rowLabels with
  | [] => Ok labels
  | (key, VString s) :: rest => convert_labels rest (<[key := s]> labels)
  | (key, _) :: _ => Err (Errorf "invalid label %s" [FStr key])
  end.

Definition metric_of_row (row : Row) : outcome PrometheusMetric :=
  rowLabels ← as_map (row !! labelsColumnName);
  rowAmount ← as_float (row !! amountColumnName);
  rowTimePrecision ← as_float (row !! timePrecisionColumnName);
  rowTimestamp ← as_time (row !! timestampColumnName);
  dt ← as_string (row !! dtColumnName);
  labels ← convert_labels rowLabels ∅;
  Ok {| pm_Labels := labels; pm_Amount := rowAmount;
        pm_StepSize := int64 (int64_of_f64 rowTimePrecision * Second);
        pm_Timestamp := rowTimestamp; pm_Dt := dt |}.

Fixpoint metrics_of_rows (rows : list Row) : outcome (list PrometheusMetric) :=
  match rows with
  | [] => Ok []
  | row :: rows =>
      m ← metric_of_row row;
      ms ← metrics_of_rows rows;
      Ok (m :: ms)
  end.

Definition GetPrometheusMetrics (tableName : string) (start end' : ZonedTime)
    : M S (list PrometheusMetric) :=
  rows ← Presto.GetRowsWhere tableName PrometheusMetricPrestoAllColumns (where_clause start end');
  ret_out (metrics_of_rows rows).

Definition last_timestamp_query (tableName : string) : string :=
  let nl := newline +:+ tab +:+ tab +:+ tab +:+ tab in
  Sprintf (nl +:+ "SELECT " +:+ dquote +:+ "timestamp" +:+ dquote +:+ nl +:+ "FROM %s" +:+ nl +:+
           "ORDER BY " +:+ dquote +:+ "timestamp" +:+ dquote +:+ " DESC" +:+ nl +:+ "LIMIT 1")
    [FStr tableName].

Definition GetLastTimestampForTable (tableName : string) : M S (option Time) :=
  results ← map_err (λ err, Errorf "error getting last timestamp for table %s, maybe table doesn't exist yet? %v"
                       [FStr tableName; FStr (Error err)])
    (Presto.ExecuteSelect (last_timestamp_query tableName));
  match results with
  | row :: _ => ts ← ret_out (as_time (row !! "timestamp")); mret (Some ts)
  | [] => mret None
  end.
End store.

(** ** Batching *)
#[global] Arguments generatePrometheusMetricSQLValues : simpl never.
#[local] Opaque generatePrometheusMetricSQLValues.
#[global] Arguments Presto.FormatInsertQuery : simpl never.
#[global] Arguments strlen : simpl never.

Lemma strlen_app s t : strlen (s +:+ t) = strlen s + strlen t.
Proof. unfold strlen. rewrite str_length_app. lia. Qed.
Lemma strlen_nonneg s : 0 ≤ strlen s.
Proof. apply Zle_0_nat. Qed.


Lemma Join_snoc l x sep : l ≠ [] → Join (l ++ [x]) sep = Join l sep +:+ (sep +:+ x).
Proof.
  unfold Join. induction l as [|y l IH]; [done|]. intros _.
  destruct l as [|z l]; [done|].
  change (y +:+ (sep +:+ String.concat sep ((z :: l) ++ [x])) =
          (y +:+ (sep +:+ String.concat sep (z :: l))) +:+ (sep +:+ x)).
  rewrite IH by done. by rewrite !str_app_assoc.
Qed.

Lemma FormatInsertQuery_eq t q :
  Presto.FormatInsertQuery t q = "INSERT INTO " +:+ (t +:+ (" " +:+ q)).
Proof.
  change (Presto.FormatInsertQuery t q) with ("INSERT INTO " +:+ (t +:+ (" " +:+ (q +:+ "")))).
  by rewrite str_app_nil.
Qed.

Section batches.
Context {S : Type} `{!Env S} {MO : MapOrder}.

(** The values and the statement of a batch of metrics. *)
Definition values_of (batch : list PrometheusMetric) : string :=
  valuesStmtStr +:+ Join (generatePrometheusMetricSQLValues <$> batch) commaStr.
Definition stmt (t : string) (batch : list PrometheusMetric) : string :=
  Presto.FormatInsertQuery t (values_of batch).

Lemma values_snoc b m :
  b ≠ [] → values_of (b ++ [m]) = values_of b +:+ (commaStr +:+ generatePrometheusMetricSQLValues m).
Proof.
  intros Hb. unfold values_of. rewrite fmap_app. simpl.
  rewrite Join_snoc by (by intros ?%fmap_nil_inv). by rewrite !str_app_assoc.
Qed.

Lemma stmt_length t b B : strlen (values_of b) ≤ queryCap B t → strlen (stmt t b) ≤ B.
Proof.
  unfold stmt, queryCap. rewrite !FormatInsertQuery_eq, !strlen_app.
  change (strlen "") with 0. lia.
Qed.

Lemma values_one m : values_of [m] = valuesStmtStr +:+ generatePrometheusMetricSQLValues m.
Proof. reflexivity. Qed.

Lemma Join_length x l sep : x ∈ l → strlen x ≤ strlen (Join l sep).
Proof.
  unfold Join. induction l as [|y l IH]; [by intros ?%elem_of_nil|].
  intros Hx. destruct l as [|z l].
  { by apply list_elem_of_singleton in Hx as ->. }
  change (String.concat sep (y :: z :: l)) with (y +:+ (sep +:+ String.concat sep (z :: l))).
  rewrite !strlen_app. apply elem_of_cons in Hx as [->|Hx].
  - pose proof (strlen_nonneg sep). pose proof (strlen_nonneg (String.concat sep (z :: l))). lia.
  - specialize (IH Hx). pose proof (strlen_nonneg y). pose proof (strlen_nonneg sep). lia.
Qed.

Lemma values_mem m b : m ∈ b → strlen (values_of [m]) ≤ strlen (values_of b).
Proof.
  intros Hm. rewrite values_one. unfold values_of. rewrite !strlen_app.
  apply Z.add_le_mono_l, Join_length. by apply list_elem_of_fmap_2.
Qed.

Lemma stmt_strlen t b : strlen (stmt t b) = strlen (Presto.FormatInsertQuery t "") + strlen (values_of b).
Proof.
  unfold stmt. rewrite !FormatInsertQuery_eq, !strlen_app. change (strlen "") with 0. lia.
Qed.

#[local] Opaque stmt values_of Presto.FormatInsertQuery strlen.

(** What the buffer holds: nothing, or the values of the pending metrics. *)
Definition buffered (B : Z) (t buf : string) (inBuf : bool) (pend : list PrometheusMetric) : Prop :=
  if inBuf then pend ≠ [] ∧ buf = values_of pend ∧ strlen buf ≤ queryCap B t
  else pend = [] ∧ buf = "".

(** Statements sent, their batches, and the metrics not sent. *)
Definition sent (B : Z) (t : string) (ms : list PrometheusMetric) (o : outcome unit)
    (w w' : world S) : Prop :=
  ∃ batches rest evs, ms = mjoin batches ++ rest ∧ trace w' = trace w ++ evs ∧
  Forall2 (λ b e, ev_action e = APrestoQuery (stmt t b)) batches evs ∧
  Forall (λ b, b ≠ [] ∧ strlen (stmt t b) ≤ B) batches ∧
  (o = Ok tt → rest = [] ∧ Forall (λ e, ev_ok e = true) evs).

Lemma sent_nothing B t ms o w w' :
  trace w' = trace w → (o = Ok tt → ms = []) → sent B t ms o w w'.
Proof. intros Htr Ho. exists [], ms, []. rewrite Htr, app_nil_r. split_and!; auto. Qed.

Lemma insert_buffer_inv t q w o w' :
  insert_buffer t q w = (o, w') →
  ∃ ok, trace w' = trace w ++ [Ev (APrestoQuery (Presto.FormatInsertQuery t q)) ok] ∧
  (o = Ok tt → ok = true).
Proof.
  unfold insert_buffer, map_err, Presto.InsertInto, Presto.execQuery, Presto.Query. rewrite bind_run.
  destruct (effect _ _ w) as [r w1] eqn:E. apply effect_trace in E as [Htr _].
  unfold fail, mret, M_ret.
  destruct r as [rows|e|p]; simpl; [destruct (rows_Err rows)|..]; simpl; intros; simplify_eq;
    (eexists; split; [eassumption|done]).
Qed.

Lemma sent_one B t b ms ms' o ok w w1 w' :
  b ≠ [] → strlen (stmt t b) ≤ B →
  trace w1 = trace w ++ [Ev (APrestoQuery (stmt t b)) ok] → (o = Ok tt → ok = true) →
  ms = b ++ ms' → sent B t ms' o w1 w' → sent B t ms o w w'.
Proof.
  intros Hb Hlen Htr Hok -> (bs & rest & evs & -> & Htr' & Hbs & Hall & Ho).
  exists (b :: bs), rest, (Ev (APrestoQuery (stmt t b)) ok :: evs). split_and!.
  - simpl. by rewrite app_assoc.
  - by rewrite Htr', Htr, <- app_assoc.
  - by constructor.
  - by constructor.
  - intros E. destruct (Ho E). split; [done|]. constructor; [by apply Hok|done].
Qed.

Lemma write_metric_inv B t buf inBuf pend m (w : world S) o w' :
  buffered B t buf inBuf pend →
  write_metric B t (generatePrometheusMetricSQLValues m) buf inBuf w = (o, w') →
  w' = w ∧ match o with
           | Ok buf' => buffered B t buf' true (pend ++ [m])
           | Err _ => True
           | Panic _ => False
           end.
Proof.
  intros Hbuf. unfold write_metric. destruct (_ <? _) eqn:Hle; unfold fail, mret, M_ret;
    intros; simplify_eq; [done|]. apply Z.ltb_ge in Hle.
  split; [done|]. unfold buffered. split_and!; [by destruct pend| |].
  - destruct inBuf; simpl negb; cbv iota; [|destruct Hbuf as [-> ->]; simpl app; rewrite values_one; apply str_nil_app].
    destruct Hbuf as (Hne & -> & _). rewrite values_snoc by done. reflexivity.
  - rewrite strlen_app. lia.
Qed.

(** The flush either does nothing or sends what is pending. *)
Lemma flush_if_full_inv B t sql buf inBuf pend w o w' :
  buffered B t buf inBuf pend → flush_if_full B t sql buf inBuf w = (o, w') →
  (w' = w ∧ o = Ok (buf, inBuf)) ∨
  (∃ ok, pend ≠ [] ∧ strlen (stmt t pend) ≤ B ∧
   trace w' = trace w ++ [Ev (APrestoQuery (stmt t pend)) ok] ∧
   (∀ r, o = Ok r → ok = true ∧ r = ("", false))).
Proof.
  intros Hbuf. unfold flush_if_full. destruct inBuf; [|intros [-> ->]%ret_inv; by left].
  destruct Hbuf as (Hne & -> & Hlen). destruct (_ <? _); [|intros [-> ->]%ret_inv; by left].
  rewrite bind_run. destruct (insert_buffer t (values_of pend) w) as [oi wi] eqn:Hins.
  apply insert_buffer_inv in Hins as (ok & Htr & Hok). apply stmt_length in Hlen.
  intros H. right. exists ok. destruct oi as [[]|e|p]; unfold mret, M_ret in H; simplify_eq;
    (split_and!; [done..|intros ? [=]]). split; [by apply Hok|done].
Qed.

Lemma store_loop_spec B t ms buf inBuf pend w o w' :
  buffered B t buf inBuf pend → (ms = [] → pend = []) →
  store_loop B t buf inBuf ms w = (o, w') → sent B t (pend ++ ms) o w w'.
Proof.
  revert buf inBuf pend w. induction ms as [|m rest IH]; intros buf inBuf pend w Hbuf Hnil H.
  { simpl in H. apply ret_inv in H as [-> ->]. rewrite Hnil by done. by apply sent_nothing. }
  simpl in H. rewrite bind_run in H. unfold read_pure in H.
  destruct (ctx_err (env w)) as [[e|] s1]; [by unfold fail in H; simplify_eq; apply sent_nothing|].
  rewrite bind_run in H. destruct (flush_if_full _ _ _ _ _ _) as [ofl w2] eqn:Hflush.
(* after the flush *)
assert (∀ buf inBuf pend, buffered B t buf inBuf pend →
        (buf ← write_metric B t (generatePrometheusMetricSQLValues m) buf inBuf;
         match rest with [] => insert_buffer t buf | _ => store_loop B t buf true rest end) w2 = (o, w') →
        sent B t (pend ++ m :: rest) o w2 w') as Hwrite.
{ clear - IH. intros buf inBuf pend Hbuf. rewrite bind_run.
destruct (write_metric _ _ _ _ _ _) as [ow w3] eqn:Hw.
apply (write_metric_inv _ _ _ _ pend) in Hw as [-> Hbuf']; [|done].
destruct ow as [buf'|e|p]; [|by intros; simplify_eq; apply sent_nothing|done].
destruct rest as [|m' rest]; [|rewrite cons_middle, app_assoc; by apply IH].
intros (ok & Htr & Hok)%insert_buffer_inv. destruct Hbuf' as (Hne & -> & Hlen%stmt_length).
eapply (sent_one B t (pend ++ [m]) _ []); [done..|by rewrite app_nil_r|by apply sent_nothing]. }
    destruct (flush_if_full_inv _ _ _ _ _ _ _ _ _ Hbuf Hflush) as [[-> ->]|(ok & Hne & Hlen & Htr & Hr)].
- by apply (Hwrite _ _ pend) in H.
- destruct ofl as [[buf' inBuf']|e|p].
+ destruct (Hr _ eq_refl) as [-> [= -> ->]].
eapply (sent_one B t pend _ (m :: rest)); [done|done|exact Htr|done|done|].
by apply (Hwrite "" false []).
+ simplify_eq. exists [pend], (m :: rest), [Ev (APrestoQuery (stmt t pend)) ok].
simpl. rewrite app_nil_r. split_and!; [done|exact Htr|by repeat constructor|by repeat constructor|done].
+ simplify_eq. exists [pend], (m :: rest), [Ev (APrestoQuery (stmt t pend)) ok].
simpl. rewrite app_nil_r. split_and!; [done|exact Htr|by repeat constructor|by repeat constructor|done].
Qed.

(** C3: the metrics are sent in batches that lose, repeat and reorder
    nothing: whatever Presto answers, the INSERT statements sent hold a
    prefix of the metrics cut into non-empty batches, each statement within
    the buffer's capacity; when the call succeeds every metric was sent and
    every statement succeeded. *)
Theorem StorePrometheusMetrics_batches bufferCapacity tableName metrics w o w' :
  StorePrometheusMetricsWithBuffer bufferCapacity tableName metrics w = (o, w') →
  ∃ batches rest evs, metrics = mjoin batches ++ rest ∧ trace w' = trace w ++ evs ∧
  Forall2 (λ b e, ev_action e = APrestoQuery (stmt tableName b)) batches evs ∧
  Forall (λ b, b ≠ [] ∧ strlen (stmt tableName b) ≤ bufferCapacity) batches ∧
  (o = Ok tt → rest = [] ∧ Forall (λ e, ev_ok e = true) evs).
Proof. intros H. by apply (store_loop_spec _ _ _ _ _ []) in H. Qed.

(** *** When the call succeeds *)
Definition fits (B : Z) (t : string) (m : PrometheusMetric) : Prop := strlen (stmt t [m]) ≤ B.

Section good_services.
Context (Hpresto : ∀ sql s, ∃ rows s', presto_query sql s = (Ok rows, s') ∧ rows_Err rows = None).
Context (Hctx : ∀ s, (ctx_err s).1 = None).

Lemma insert_buffer_ok t q w : ∃ w', insert_buffer t q w = (Ok tt, w').
Proof using Hpresto.
  unfold insert_buffer, map_err, Presto.InsertInto, Presto.execQuery, Presto.Query.
  rewrite bind_run. unfold effect.
  destruct (Hpresto (Presto.FormatInsertQuery t q) (env w)) as (rows & s' & -> & ->).
  by eexists.
Qed.

Lemma store_loop_ok B t ms buf inBuf w :
  Forall (fits B t) ms → (inBuf = false → buf = "") →
  ∃ w', store_loop B t buf inBuf ms w = (Ok tt, w').
Proof using Hpresto Hctx.
  intros Hfits. revert buf inBuf w.
  induction Hfits as [|m ms Hm _ IH]; intros buf inBuf w Hbuf; [by eexists|].
  cbn [store_loop]. rewrite bind_run. unfold read_pure.
  pose proof (Hctx (env w)) as Hc. destruct (ctx_err (env w)) as [c s1]. simpl in Hc. subst c.
  assert (∀ buf' inBuf' w, (strlen (if negb inBuf' then valuesStmtStr +:+ generatePrometheusMetricSQLValues m
                                    else commaStr +:+ generatePrometheusMetricSQLValues m) + strlen buf' ≤ queryCap B t) →
          ∃ w', (buf ← write_metric B t (generatePrometheusMetricSQLValues m) buf' inBuf';
                 match ms with [] => insert_buffer t buf | _ => store_loop B t buf true ms end) w = (Ok tt, w')) as Hw.
  { intros buf' inBuf' w0 Hle. rewrite bind_run. unfold write_metric.
    rewrite (proj2 (Z.ltb_ge _ _) Hle).
    destruct ms; [apply insert_buffer_ok|by apply IH]. }
  assert (strlen (valuesStmtStr +:+ generatePrometheusMetricSQLValues m) + strlen "" ≤ queryCap B t) as H0.
  { unfold fits in Hm. rewrite stmt_strlen, values_one in Hm. unfold queryCap.
    change (strlen "") with 0. lia. }
  rewrite bind_run. unfold flush_if_full. destruct inBuf; [|rewrite Hbuf by done; by apply Hw].
  destruct (Z.ltb_spec (queryCap B t) (strlen (commaStr +:+ generatePrometheusMetricSQLValues m) + strlen buf)).
  - rewrite bind_run. destruct (insert_buffer_ok t buf (World s1 (trace w))) as [w1 ->].
    by apply Hw.
  - by apply Hw.
Qed.

(** with Presto answering and the context live, storing succeeds if and
    only if every metric fits in a statement of its own: flushing early
    leaves no other way to run out of buffer. *)
Theorem StorePrometheusMetrics_succeeds bufferCapacity tableName metrics w :
  (∃ w', StorePrometheusMetricsWithBuffer bufferCapacity tableName metrics w = (Ok tt, w')) ↔
  Forall (fits bufferCapacity tableName) metrics.
Proof using Hpresto Hctx.
  split; [|intros; by apply store_loop_ok].
  intros [w' H]. apply (store_loop_spec _ _ _ _ _ []) in H; [|done|done].
  destruct H as (bs & rest & evs & Hms & _ & _ & Hbs & Hok). destruct (Hok eq_refl) as [-> _].
  simpl in Hms. rewrite app_nil_r in Hms. subst metrics.
  apply Forall_forall. intros m (b & Hm & Hb)%list_elem_of_join.
  rewrite Forall_forall in Hbs. destruct (Hbs b Hb) as [_ Hlen].
  unfold fits. rewrite stmt_strlen in *. pose proof (values_mem m b Hm). lia.
Qed.
End good_services.
End batches.

(** ** A concrete run *)
Definition metric0 (h : Z) : PrometheusMetric :=
  {| pm_Labels := <["pod" := "a"]> ∅; pm_Amount := f64_of_Z h; pm_StepSize := Minute;
     pm_Timestamp := Date 2019 7 4 h 0 0; pm_Dt := "" |}.

Example metric0_sql :
  generatePrometheusMetricSQLValues (metric0 12) =
    "(12.000000,timestamp '2019-07-04 12:00:00.000',60.000000,map(ARRAY['pod'],ARRAY['a']),'2019-07-04')".
Proof. vm_compute. reflexivity. Qed.

Lemma StorePrometheusMetrics_batches_witness : ∃ w',
  StorePrometheusMetricsWithBuffer 250 "t" [metric0 1; metric0 2; metric0 3] (world0 mem0) =
    (Ok tt, w') ∧ length (trace w') = 2%nat ∧
  ∃ batches rest evs, [metric0 1; metric0 2; metric0 3] = mjoin batches ++ rest ∧
    trace w' = trace (world0 mem0) ++ evs ∧
    Forall2 (λ b e, ev_action e = APrestoQuery (stmt "t" b)) batches evs ∧
    Forall (λ b, b ≠ [] ∧ strlen (stmt "t" b) ≤ 250) batches ∧
    (Ok tt = Ok tt → rest = [] ∧ Forall (λ e, ev_ok e = true) evs).
Proof.
  eexists. split; [vm_compute; reflexivity|]. split; [reflexivity|].
  apply (StorePrometheusMetrics_batches 250 "t"). vm_compute. reflexivity.
Defined.

Lemma StorePrometheusMetrics_succeeds_witness :
  (∃ w', StorePrometheusMetricsWithBuffer (Env0 := frozen_env mem0) 140 "t" [metric0 1; metric0 2]
           (World () []) = (Ok tt, w')) ↔
  Forall (fits 140 "t") [metric0 1; metric0 2].
Proof.
  apply (StorePrometheusMetrics_succeeds (Env0 := frozen_env mem0)).
  - intros sql s. eexists _, _. split; reflexivity.
  - reflexivity.
Defined.

(** A sub-second step does not survive the table. *)
Example step_size_truncated :
  int64 (int64_of_f64 (Seconds (1500 * Millisecond)) * Second) = Second.
Proof. vm_compute. reflexivity. Qed.
