(* ===== verification/Json.v ===== *)
(** * encoding/json: unmarshalling a raw value into a string, an integer or a
    time

    A raw value is text; unmarshalling [null] leaves the zero value.  Only
    whether there is an error is modelled, not the package's messages. *)

From S2P Require Export GoTime.
Open Scope Z_scope.

Abbreviation RawMessage := string (only parsing).

(** ** Text *)
Definition json_space (c : ascii) : bool :=
  let n := nat_of_ascii c in (n =? 32)%nat || (n =? 9)%nat || (n =? 10)%nat || (n =? 13)%nat.
Fixpoint drop_space (l : list ascii) : list ascii :=
  match l with
  | c :: l' => if json_space c then drop_space l' else l
  | [] => []
  end.
Definition json_trim (s : string) : list ascii :=
  rev (drop_space (rev (drop_space (String.list_ascii_of_string s)))).

Definition quote_char : ascii := ascii_of_nat 34.
Definition digit_val (c : ascii) : option Z :=
  let n := Z.of_nat (nat_of_ascii c) in
  if (48 <=? n) && (n <=? 57) then Some (n - 48) else None.
Definition hex_val (c : ascii) : option Z :=
  let n := Z.of_nat (nat_of_ascii c) in
  if (48 <=? n) && (n <=? 57) then Some (n - 48)
  else if (97 <=? n) && (n <=? 102) then Some (n - 87)
  else if (65 <=? n) && (n <=? 70) then Some (n - 55)
  else None.

(** UTF-8 of a code point below 0x10000; a surrogate is replaced by U+FFFD. *)
Definition utf8 (r : Z) : list ascii :=
  let r := if (0xD800 <=? r) && (r <=? 0xDFFF) then 0xFFFD else r in
  let b z := ascii_of_nat (Z.to_nat z) in
  if r <? 0x80 then [b r]
  else if r <? 0x800 then [b (0xC0 + r / 64); b (0x80 + r mod 64)]
  else [b (0xE0 + r / 4096); b (0x80 + r / 64 mod 64); b (0x80 + r mod 64)].

(** The characters of a string literal after its opening quote; surrogate
    pairs are not combined. *)
Fixpoint json_chars (l : list ascii) : option (list ascii * list ascii) :=
  match l with
  | [] => None
  | c :: l1 =>
      if Ascii.eqb c quote_char then Some ([], l1)
      else if Ascii.eqb c "\" then
        match l1 with
        | e :: l2 =>
            let simple a := '(s, rest) ← json_chars l2; Some (a :: s, rest) in
            if Ascii.eqb e quote_char || Ascii.eqb e "\" || Ascii.eqb e "/" then simple e
            else if Ascii.eqb e "b" then simple (ascii_of_nat 8)
            else if Ascii.eqb e "f" then simple (ascii_of_nat 12)
            else if Ascii.eqb e "n" then simple (ascii_of_nat 10)
            else if Ascii.eqb e "r" then simple (ascii_of_nat 13)
            else if Ascii.eqb e "t" then simple (ascii_of_nat 9)
            else if Ascii.eqb e "u" then
              match l2 with
              | h1 :: h2 :: h3 :: h4 :: l6 =>
                  v1 ← hex_val h1; v2 ← hex_val h2; v3 ← hex_val h3; v4 ← hex_val h4;
                  '(s, rest) ← json_chars l6;
                  Some (utf8 (v1 * 4096 + v2 * 256 + v3 * 16 + v4) ++ s, rest)
              | _ => None
              end
            else None
        | [] => None
        end
      else if (nat_of_ascii c <? 32)%nat then None
      else '(s, rest) ← json_chars l1; Some (c :: s, rest)
  end.

Definition is_null (l : list ascii) : bool :=
  String.eqb (String.string_of_list_ascii l) "null".

(** [json.Unmarshal(raw, new(string))]. *)
Definition unmarshal_string (raw : RawMessage) : option string :=
  match json_trim raw with
  | c :: l =>
      if is_null (c :: l) then Some ""
      else if Ascii.eqb c quote_char then
        match json_chars l with
        | Some (s, []) => Some (String.string_of_list_ascii s)
        | _ => None
        end
      else None
  | [] => None
  end.

(** ** Integers *)
Fixpoint digits (acc : Z) (l : list ascii) : option Z :=
  match l with
  | [] => Some acc
  | c :: l => d ← digit_val c; digits (acc * 10 + d) l
  end.
Definition natural (l : list ascii) : option Z :=
  match l with
  | [] => None
  | [c] => digit_val c
  | c :: _ => if Ascii.eqb c "0" then None else digits 0 l
  end.

(** [json.Unmarshal(raw, new(int))] on a 64-bit machine. *)
Definition unmarshal_int (raw : RawMessage) : option Z :=
  match json_trim raw with
  | c :: l =>
      if is_null (c :: l) then Some 0
      else
        z ← (if Ascii.eqb c "-" then n ← natural l; Some (- n) else natural (c :: l));
        if (int64_min <=? z) && (z <=? int64_max) then Some z else None
  | [] => None
  end.

(** ** Times *)
Definition parser (A : Type) : Type := list ascii → option (A * list ascii).

(** Exactly [n] digits. *)
Fixpoint fixed_num (n : nat) (acc : Z) : parser Z := λ l,
  match n with
  | O => Some (acc, l)
  | S n => match l with c :: l => d ← digit_val c; fixed_num n (acc * 10 + d) l | [] => None end
  end.
(** One or two digits. *)
Definition hour_num : parser Z := λ l,
  match fixed_num 2 0 l with Some r => Some r | None => fixed_num 1 0 l end.
Definition lit (c : ascii) : parser unit := λ l,
  match l with d :: l => if Ascii.eqb c d then Some (tt, l) else None | [] => None end.

Fixpoint span_digits (l : list ascii) : list ascii * list ascii :=
  match l with
  | c :: l' => match digit_val c with
               | Some _ => let '(ds, rest) := span_digits l' in (c :: ds, rest)
               | None => ([], l)
               end
  | [] => ([], [])
  end.

(** A fraction after the seconds, although the layout has none. *)
Definition fraction : parser Z := λ l,
  match l with
  | c :: l' =>
      if Ascii.eqb c "." then
        match span_digits l' with
        | ([], _) => Some (0, l)
        | (ds, rest) =>
            n ← digits 0 ds;
            if n <? 1000000000 then Some (n * 10 ^ Z.of_nat (9 - length ds), rest) else None
        end
      else Some (0, l)
  | [] => Some (0, l)
  end.

Definition zone : parser Z := λ l,
  match l with
  | c :: l =>
      if Ascii.eqb c "Z" then Some (0, l)
      else if Ascii.eqb c "+" || Ascii.eqb c "-" then
        '(hh, l) ← fixed_num 2 0 l; '(_, l) ← lit ":" l; '(mm, l) ← fixed_num 2 0 l;
        let off := (hh * 60 + mm) * Minute in
        Some (if Ascii.eqb c "-" then - off else off, l)
      else None
  | [] => None
  end.

Definition leap (y : Z) : bool := (y mod 4 =? 0) && (negb (y mod 100 =? 0) || (y mod 400 =? 0)).
Definition days_in (m y : Z) : Z :=
  if m =? 2 then (if leap y then 29 else 28)
  else if (m =? 4) || (m =? 6) || (m =? 9) || (m =? 11) then 30 else 31.

(** [time.Parse(time.RFC3339, s)]. *)
Definition parse_RFC3339_zone (l : list ascii) : option ZonedTime :=
  '(y, l) ← fixed_num 4 0 l; '(_, l) ← lit "-" l;
  '(m, l) ← fixed_num 2 0 l; '(_, l) ← lit "-" l;
  '(d, l) ← fixed_num 2 0 l; '(_, l) ← lit "T" l;
  '(hh, l) ← hour_num l; '(_, l) ← lit ":" l;
  '(mm, l) ← fixed_num 2 0 l; '(_, l) ← lit ":" l;
  '(ss, l) ← fixed_num 2 0 l;
  '(ns, l) ← fraction l;
  '(off, l) ← zone l;
  match l with
  | [] =>
      if (1 <=? m) && (m <=? 12) && (1 <=? d) && (d <=? days_in m y) &&
         (hh <? 24) && (mm <? 60) && (ss <? 60)
      then Some (Date y m d hh mm ss + ns - off, off) else None
  | _ => None
  end.

(** [json.Unmarshal(raw, new(time.Time))]. *)
Definition unmarshal_time (raw : RawMessage) : option ZonedTime :=
  match json_trim raw with
  | c :: l =>
      if is_null (c :: l) then Some (0, 0)
      else if Ascii.eqb c quote_char then
        match rev l with
        | q :: body => if Ascii.eqb q quote_char then parse_RFC3339_zone (rev body) else None
        | [] => None
        end
      else None
  | [] => None
  end.

Example unmarshal_ok :
  unmarshal_string (fmt_q "node-cpu") = Some "node-cpu" ∧ unmarshal_string "null" = Some "" ∧
  unmarshal_string "12" = None ∧ unmarshal_int " -12" = Some (-12) ∧ unmarshal_int "01" = None ∧
  unmarshal_time (fmt_q "2019-07-04T12:00:00Z") = Some (Date 2019 7 4 12 0 0, 0) ∧
  unmarshal_time (fmt_q "2019-07-04T14:00:00.5+02:00") = Some (Date 2019 7 4 12 0 0 + 500 * Millisecond, 2 * Hour) ∧
  unmarshal_time (fmt_q "2019-02-29T12:00:00Z") = None.
Proof. repeat split; vm_compute; reflexivity. Qed.
