(* ===== verification/Deps.v ===== *)
(** * Dependencies of a query
    (src/pkg/operator/reporting/dependencies.go, getters.go, validate.go) *)

From S2P Require Export Json Mem.
Open Scope Z_scope.

Definition ReportingStartInputName : string := "ReportingStart".
Definition ReportingEndInputName : string := "ReportingEnd".

Definition maxDepth : nat := 50.

Record ReportQueryDependencies := {
  ReportQueries : list ReportQuery;
  ReportDataSources : list ReportDataSource;
  Reports : list Report;
}.

(** Decoded input values ([interface{}]). *)
Inductive InputValue := IString (s : string) | ITime (t : ZonedTime) | IInt (z : Z).

Record resolverContext := {
  reportAccumulator : gmap string Report;
  queryAccumulator : gmap string ReportQuery;
  datasourceAccumulator : gmap string ReportDataSource;
  inputValues : gmap string InputValue;
}.

Definition emptyContext : resolverContext :=
  {| reportAccumulator := ∅; queryAccumulator := ∅; datasourceAccumulator := ∅; inputValues := ∅ |}.

Definition add_report (r : Report) (c : resolverContext) : resolverContext :=
  {| reportAccumulator := <[Name (r_Meta r) := r]> (reportAccumulator c);
     queryAccumulator := queryAccumulator c;
     datasourceAccumulator := datasourceAccumulator c; inputValues := inputValues c |}.
Definition add_query (q : ReportQuery) (c : resolverContext) : resolverContext :=
  {| reportAccumulator := reportAccumulator c;
     queryAccumulator := <[Name (q_Meta q) := q]> (queryAccumulator c);
     datasourceAccumulator := datasourceAccumulator c; inputValues := inputValues c |}.
Definition add_datasource (d : ReportDataSource) (c : resolverContext) : resolverContext :=
  {| reportAccumulator := reportAccumulator c; queryAccumulator := queryAccumulator c;
     datasourceAccumulator := <[Name (ds_Meta d) := d]> (datasourceAccumulator c);
     inputValues := inputValues c |}.
Definition add_input (name : string) (v : InputValue) (c : resolverContext) : resolverContext :=
  {| reportAccumulator := reportAccumulator c; queryAccumulator := queryAccumulator c;
     datasourceAccumulator := datasourceAccumulator c; inputValues := <[name := v]> (inputValues c) |}.

(** ** Getters *)
Record DependencyResolver (S : Type) := {
  queryGetter : string → string → M S ReportQuery;
  dataSourceGetter : string → string → M S ReportDataSource;
  reportGetter : string → string → M S Report;
}.
Arguments queryGetter {S} _ _ _.
Arguments dataSourceGetter {S} _ _ _.
Arguments reportGetter {S} _ _ _.

Section getters.
Context {S : Type} `{!Env S}.

Definition NewReportQueryListerGetter : string → string → M S ReportQuery := ListerGet KReportQuery.
Definition NewReportQueryClientGetter : string → string → M S ReportQuery := Get KReportQuery.
Definition NewReportDataSourceListerGetter : string → string → M S ReportDataSource :=
  ListerGet KReportDataSource.
Definition NewReportDataSourceClientGetter : string → string → M S ReportDataSource :=
  Get KReportDataSource.
Definition NewReportListerGetter : string → string → M S Report := ListerGet KReport.
Definition NewReportClientGetter : string → string → M S Report := Get KReport.

(** The resolver of the operator ([newReportingOperator]). *)
Definition listerResolver : DependencyResolver S :=
  {| queryGetter := NewReportQueryListerGetter; dataSourceGetter := NewReportDataSourceListerGetter;
     reportGetter := NewReportListerGetter |}.
End getters.

(** ** Resolution *)
Section resolver.
Context {S : Type} (resolver : DependencyResolver S).

Abbreviation Defs := (list ReportQueryInputDefinition).
Abbreviation Vals := (list ReportQueryInputValue).

Section step.
(** [resolveDependencies] one level down. *)
Context (rec : string → resolverContext → Defs → Vals → M S resolverContext).

(** The dependencies of the query are resolved without input values. *)
Definition resolveQuery (namespace : string) (ctx : resolverContext) (queryName : string)
    : M S resolverContext :=
  match queryAccumulator ctx !! queryName with
  | Some _ => mret ctx
  | None =>
      query ← queryGetter resolver namespace queryName;
      ctx ← rec namespace ctx (qs_Inputs (q_Spec query)) [];
      mret (add_query query ctx)
  end.

Definition resolveDataSource (namespace : string) (ctx : resolverContext) (dsName : string)
    : M S resolverContext :=
  match datasourceAccumulator ctx !! dsName with
  | Some _ => mret ctx
  | None =>
      datasource ← dataSourceGetter resolver namespace dsName;
      ctx ← match ds_ReportQueryView (ds_Spec datasource) with
            | Some view => resolveQuery namespace ctx (rv_QueryName view)
            | None => mret ctx
            end;
      mret (add_datasource datasource ctx)
  end.

Definition resolveReport (namespace : string) (ctx : resolverContext) (reportName : string)
    : M S resolverContext :=
  match reportAccumulator ctx !! reportName with
  | Some _ => mret ctx
  | None =>
      report ← reportGetter resolver namespace reportName;
      ctx ← resolveQuery namespace ctx (rs_QueryName (r_Spec report));
      mret (add_report report ctx)
  end.

(** [strings.ToLower(def.Type)], except for the reporting period. *)
Definition input_type (def : ReportQueryInputDefinition) : string :=
  if String.eqb (id_Name def) ReportingStartInputName || String.eqb (id_Name def) ReportingEndInputName
  then "time" else ToLower (id_Type def).

(** The value given, or the default. *)
Definition input_val (def : ReportQueryInputDefinition) (given : gmap string ReportQueryInputValue)
    : option string :=
  match given !! id_Name def with
  | Some v => match iv_Value v with Some raw => Some raw | None => id_Default def end
  | None => id_Default def
  end.

(** A failure to unmarshal; the message of the package is not modelled. *)
Definition not_valid {A} (def : ReportQueryInputDefinition) (raw : string) : M S A :=
  fail (Errorf "inputs Name: %s is not valid a '%s': value: '%s', err: %s"
          [FStr (id_Name def); FStr (input_type def); FStr raw; FStr "json"]).

Definition unmarshal {A} (def : ReportQueryInputDefinition) (raw : string) (o : option A) : M S A :=
  match o with Some a => mret a | None => not_valid def raw end.

Definition resolve_value (namespace : string) (ctx : resolverContext)
    (def : ReportQueryInputDefinition) (raw : string) : M S (resolverContext * InputValue) :=
  let inputType := input_type def in
  if String.eqb inputType "" || String.eqb inputType "string" then
    s ← unmarshal def raw (unmarshal_string raw); mret (ctx, IString s)
  else if String.eqb inputType "time" then
    t ← unmarshal def raw (unmarshal_time raw); mret (ctx, ITime t)
  else if String.eqb inputType "int" || String.eqb inputType "integer" then
    z ← unmarshal def raw (unmarshal_int raw); mret (ctx, IInt z)
  else if String.eqb inputType "reportdatasource" then
    name ← unmarshal def raw (unmarshal_string raw);
    ctx ← resolveDataSource namespace ctx name;
    mret (ctx, IString name)
  else if String.eqb inputType "reportquery" then
    name ← unmarshal def raw (unmarshal_string raw);
    ctx ← resolveQuery namespace ctx name;
    mret (ctx, IString name)
  else if String.eqb inputType "report" then
    name ← unmarshal def raw (unmarshal_string raw);
    ctx ← resolveReport namespace ctx name;
    mret (ctx, IString name)
  else fail (Errorf "unsupported input type %s" [FStr inputType]).

Fixpoint resolve_inputs (namespace : string) (given : gmap string ReportQueryInputValue)
    (defs : Defs) (ctx : resolverContext) : M S resolverContext :=
  match defs with
  | [] => mret ctx
  | def :: defs =>
      match inputValues ctx !! id_Name def with
      | Some _ => resolve_inputs namespace given defs ctx
      | None =>
          match input_val def given with
          | None => resolve_inputs namespace given defs ctx
          | Some raw =>
              '(ctx, v) ← resolve_value namespace ctx def raw;
              resolve_inputs namespace given defs (add_input (id_Name def) v ctx)
          end
      end
  end.
End step.

(** The values by name; a value without a definition is refused. *)
Fixpoint given_inputs (inputDefs : Defs) (inputVals : Vals) (given : gmap string ReportQueryInputValue)
    : outcome (gmap string ReportQueryInputValue) :=
  match inputVals with
  | [] => Ok given
  | val :: inputVals =>
      if existsb (λ def, String.eqb (id_Name def) (iv_Name val)) inputDefs
      then given_inputs inputDefs inputVals (<[iv_Name val := val]> given)
      else Err (Errorf "invalid input %q, supported inputs: %s"
                  [FStr (iv_Name val); FStr (Join (id_Name <$> inputDefs) " ,")])
  end.

(** The fuel is what is left of the code's own bound: [maxDepth - depth]. *)
Fixpoint resolveDependencies (fuel : nat) (namespace : string) (ctx : resolverContext)
    (inputDefs : Defs) (inputVals : Vals) : M S resolverContext :=
  match fuel with
  | O => fail (Errorf "detected a cycle at depth %d" [FInt (Z.of_nat maxDepth)])
  | Datatypes.S fuel =>
      given ← ret_out (given_inputs inputDefs inputVals ∅);
      resolve_inputs (resolveDependencies fuel) namespace given inputDefs ctx
  end.

Definition sorted_values {A} (name : A → string) (m : gmap string A) : list A :=
  sort_by name (snd <$> map_to_list m).

Definition ResolveDependencies (namespace : string) (inputDefs : Defs) (inputVals : Vals)
    : M S (ReportQueryDependencies * gmap string InputValue) :=
  ctx ← resolveDependencies maxDepth namespace emptyContext inputDefs inputVals;
  mret ({| ReportQueries := sorted_values (λ q, Name (q_Meta q)) (queryAccumulator ctx);
           ReportDataSources := sorted_values (λ d, Name (ds_Meta d)) (datasourceAccumulator ctx);
           Reports := sorted_values (λ r, Name (r_Meta r)) (reportAccumulator ctx) |},
        inputValues ctx).

Definition GetQueryDependencies (query : ReportQuery) (inputVals : Vals)
    : M S ReportQueryDependencies :=
  result ← ResolveDependencies (Namespace (q_Meta query)) (qs_Inputs (q_Spec query)) inputVals;
  mret (fst result).

(** ** Validation *)

(** [reportQueryDependenciesValidationError.Error]. *)
Definition validation_message (datasources reports : list string) : string :=
  let errs :=
    (if decide (datasources = []) then [] else
      [Sprintf "uninitialized ReportDataSource dependencies: %s" [FStr (Join datasources ", ")]]) ++
  (if decide (reports = []) then [] else
    [Sprintf "uninitialized Report dependencies: %s" [FStr (Join reports ", ")]]) in
  Sprintf "ReportQueryDependencyValidationError: %s" [FStr (Join errs ", ")].

Definition no_datasource_table (ds : ReportDataSource) : Prop := dst_TableRef (ds_Status ds) = "".
Definition no_report_table (r : Report) : Prop := rst_TableRef (r_Status r) = "".

(** The handler is called on each data source without a table. *)
Definition ValidateQueryDependencies (deps : ReportQueryDependencies)
    (handler : option (ReportDataSource → M S unit)) : M S unit :=
  let uninitializedDataSources := filter no_datasource_table (ReportDataSources deps) in
  let dsNames := (λ ds, Name (ds_Meta ds)) <$> uninitializedDataSources in
  let reportNames := (λ r, Name (r_Meta r)) <$> filter no_report_table (Reports deps) in
  _ ← match handler with
      | Some h => for_each uninitializedDataSources h
      | None => mret tt
      end;
  if decide (dsNames = [] ∧ reportNames = []) then mret tt
  else fail (MkError (KDependency dsNames reportNames) (validation_message dsNames reportNames)).

Definition GetAndValidateQueryDependencies (query : ReportQuery) (inputVals : Vals)
    (handler : option (ReportDataSource → M S unit)) : M S ReportQueryDependencies :=
  deps ← GetQueryDependencies query inputVals;
  _ ← ValidateQueryDependencies deps handler;
  mret deps.
End resolver.

Definition IsUninitializedDependencyError (e : error) : bool :=
  match err_kind_of e with
  | KDependency ds rs => negb (bool_decide (ds = [])) || negb (bool_decide (rs = []))
  | _ => false
  end.
Definition IsInvalidDependencyError (e : error) : bool :=
  match err_kind_of e with KDependency _ _ => true | _ => false end.

(** ** The result is closed under dependencies *)

(** A context only grows. *)
Record grows (c c' : resolverContext) : Prop := {
  gr_reports n : is_Some (reportAccumulator c !! n) → is_Some (reportAccumulator c' !! n);
  gr_queries n : is_Some (queryAccumulator c !! n) → is_Some (queryAccumulator c' !! n);
  gr_datasources n : is_Some (datasourceAccumulator c !! n) → is_Some (datasourceAccumulator c' !! n);
  gr_inputs n : is_Some (inputValues c !! n) → is_Some (inputValues c' !! n);
}.
#[export] Instance grows_refl : Reflexive grows.
Proof. by split. Qed.
#[export] Instance grows_trans : Transitive grows.
Proof. intros ??? [] []. split; auto. Qed.

(** Every resource is filed under its name; views and reports come with their
    query; the inputs of a query that have a default have a value. *)
Definition has_defaults (c : resolverContext) (q : ReportQuery) : Prop :=
  ∀ def, def ∈ qs_Inputs (q_Spec q) → id_Default def ≠ None → is_Some (inputValues c !! id_Name def).
Definition query_ok (c : resolverContext) (k : string) (q : ReportQuery) : Prop :=
  Name (q_Meta q) = k ∧ has_defaults c q.
Definition datasource_ok (c : resolverContext) (k : string) (d : ReportDataSource) : Prop :=
  Name (ds_Meta d) = k ∧
  ∀ v, ds_ReportQueryView (ds_Spec d) = Some v → is_Some (queryAccumulator c !! rv_QueryName v).
Definition report_ok (c : resolverContext) (k : string) (r : Report) : Prop :=
  Name (r_Meta r) = k ∧ is_Some (queryAccumulator c !! rs_QueryName (r_Spec r)).
Record closed (c : resolverContext) : Prop := {
  cl_query : map_Forall (query_ok c) (queryAccumulator c);
  cl_datasource : map_Forall (datasource_ok c) (datasourceAccumulator c);
  cl_report : map_Forall (report_ok c) (reportAccumulator c);
}.

Lemma closed_empty : closed emptyContext.
Proof. split; apply map_Forall_empty. Qed.

Lemma insert_is_Some {A} (m : gmap string A) k a n :
  is_Some (m !! n) → is_Some (<[k := a]> m !! n).
Proof. intros H. rewrite lookup_insert_is_Some. destruct (decide (k = n)); auto. Qed.
#[local] Hint Resolve insert_is_Some : core.

Lemma query_ok_grows c c' k q : grows c c' → query_ok c k q → query_ok c' k q.
Proof. intros [] [? H]. split; [done|]. intros def Hd Hn. auto. Qed.
Lemma datasource_ok_grows c c' k d : grows c c' → datasource_ok c k d → datasource_ok c' k d.
Proof. intros [] [? H]. split; auto. Qed.
Lemma report_ok_grows c c' k r : grows c c' → report_ok c k r → report_ok c' k r.
Proof. intros [] [? H]. split; auto. Qed.
#[local] Hint Resolve query_ok_grows datasource_ok_grows report_ok_grows : core.

Lemma grows_add_input c n v : grows c (add_input n v c).
Proof. split; simpl; auto. Qed.
Lemma grows_add_query c q : grows c (add_query q c).
Proof. split; simpl; auto. Qed.
Lemma grows_add_datasource c d : grows c (add_datasource d c).
Proof. split; simpl; auto. Qed.
Lemma grows_add_report c r : grows c (add_report r c).
Proof. split; simpl; auto. Qed.

(** Moving a [closed] proof to a larger context with one new entry. *)
Ltac closed_add G :=
  destruct 1 as [Hq Hd Hr]; split; simpl; try apply map_Forall_insert_2;
  try (eapply map_Forall_impl; [eassumption|]; intros; simpl in *; eauto using G).

Lemma closed_add_input c n v : closed c → closed (add_input n v c).
Proof. closed_add grows_add_input. Qed.
Lemma closed_add_query c q : has_defaults c q → closed c → closed (add_query q c).
Proof. intros H. closed_add grows_add_query. by split. Qed.
Lemma closed_add_datasource c d :
  datasource_ok c (Name (ds_Meta d)) d → closed c → closed (add_datasource d c).
Proof. intros H. closed_add grows_add_datasource. done. Qed.
Lemma closed_add_report c r : report_ok c (Name (r_Meta r)) r → closed c → closed (add_report r c).
Proof. intros H. closed_add grows_add_report. done. Qed.

(** The getters return the resource asked for. *)
Class GetterNames {S} (resolver : DependencyResolver S) : Prop := {
  query_name : ∀ ns n, returns (λ q, Name (q_Meta q) = n) (queryGetter resolver ns n);
  datasource_name : ∀ ns n, returns (λ d, Name (ds_Meta d) = n) (dataSourceGetter resolver ns n);
  report_name : ∀ ns n, returns (λ r, Name (r_Meta r) = n) (reportGetter resolver ns n);
}.

Section closure.
Context {S : Type} (resolver : DependencyResolver S) `{!GetterNames resolver}.

(** What a step from [c] establishes. *)
Definition good (c : resolverContext) (Q : resolverContext → Prop) (c' : resolverContext) : Prop :=
  closed c' ∧ grows c c' ∧ Q c'.

Definition defined (given : gmap string ReportQueryInputValue) (defs : list ReportQueryInputDefinition)
    (c : resolverContext) : Prop :=
  ∀ def, def ∈ defs → input_val def given ≠ None → is_Some (inputValues c !! id_Name def).

Section level.
Context (rec : string → resolverContext → list ReportQueryInputDefinition →
       list ReportQueryInputValue → M S resolverContext).
Context (Hrec : ∀ ns c defs, closed c → returns (good c (defined ∅ defs)) (rec ns c defs [])).

Lemma resolveQuery_good ns c n :
  closed c →
  returns (good c (λ c', is_Some (queryAccumulator c' !! n))) (resolveQuery resolver rec ns c n).
Proof using All.
  intros Hc. unfold resolveQuery. destruct (queryAccumulator c !! n) as [q|] eqn:E.
  { apply returns_ret. split_and!; [done|done|]. by rewrite E. }
  eapply returns_bind; [apply query_name|]. intros q Hn.
  eapply returns_bind; [by apply Hrec|]. intros c' (Hc' & Hg & Hdef). apply returns_ret.
  split_and!.
  - apply closed_add_query; [|done]. intros def Hd Hdefault. apply Hdef; [done|].
    unfold input_val. by rewrite lookup_empty.
  - etrans; [done|]. apply grows_add_query.
  - simpl in *. rewrite Hn, lookup_insert. by rewrite decide_True.
Qed.

Lemma resolveDataSource_good ns c n :
  closed c →
  returns (good c (λ c', is_Some (datasourceAccumulator c' !! n))) (resolveDataSource resolver rec ns c n).
Proof using All.
  intros Hc. unfold resolveDataSource. destruct (datasourceAccumulator c !! n) as [d|] eqn:E.
  { apply returns_ret. split_and!; [done|done|]. by rewrite E. }
  eapply returns_bind; [apply datasource_name|]. intros d Hn.
  apply (returns_bind (good c (λ c', ∀ v, ds_ReportQueryView (ds_Spec d) = Some v →
                               is_Some (queryAccumulator c' !! rv_QueryName v)))).
  { destruct (ds_ReportQueryView (ds_Spec d)) as [v|].
    - eapply returns_weaken; [by apply resolveQuery_good|].
      intros c' (?&?&?). split_and!; [done..|]. by intros v' [= <-].
    - apply returns_ret. by split_and!. }
  intros c' (Hc' & Hg & Hv). apply returns_ret. split_and!.
  - by apply closed_add_datasource.
  - etrans; [done|]. apply grows_add_datasource.
  - simpl in *. rewrite Hn, lookup_insert. by rewrite decide_True.
Qed.

Lemma resolveReport_good ns c n :
  closed c →
  returns (good c (λ c', is_Some (reportAccumulator c' !! n))) (resolveReport resolver rec ns c n).
Proof using All.
  intros Hc. unfold resolveReport. destruct (reportAccumulator c !! n) as [r|] eqn:E.
  { apply returns_ret. split_and!; [done|done|]. by rewrite E. }
  eapply returns_bind; [apply report_name|]. intros r Hn.
  eapply returns_bind; [by apply resolveQuery_good|].
  intros c' (Hc' & Hg & Hv). apply returns_ret. split_and!.
  - by apply closed_add_report.
  - etrans; [done|]. apply grows_add_report.
  - simpl in *. rewrite Hn, lookup_insert. by rewrite decide_True.
Qed.

Lemma resolve_value_good ns c def raw :
  closed c → returns (λ '(c', _), good c (λ _, True) c') (resolve_value resolver rec ns c def raw).
Proof using All.
  intros Hc. unfold resolve_value.
  assert (∀ A (o : option A) (f : A → M S (resolverContext * InputValue)),
          (∀ a, returns (λ '(c', _), good c (λ _, True) c') (f a)) →
          returns (λ '(c', _), good c (λ _, True) c') (x ← unmarshal def raw o; f x)) as Hun.
  { intros A o f Hf. apply (returns_bind (λ _, True)); [apply returns_any|]. intros a _. apply Hf. }
  assert (good c (λ _, True) c) as Hsame by (by unfold good; split_and!).
  assert (∀ (m : M S resolverContext) Q v, returns (good c Q) m →
          returns (λ '(c', _), good c (λ _, True) c') (c' ← m; mret (c', v : InputValue))) as Hm.
  { intros m Q v H. eapply returns_bind; [done|]. intros c' (?&?&?). by apply returns_ret. }
  repeat (case_match; [apply Hun; intros x; first [by apply returns_ret|eapply Hm]|]);
    [by apply resolveDataSource_good|by apply resolveQuery_good|by apply resolveReport_good|
     apply returns_fail].
Qed.

Lemma resolve_inputs_good ns given defs c :
  closed c → returns (good c (defined given defs)) (resolve_inputs resolver rec ns given defs c).
Proof using All.
  revert c. induction defs as [|def defs IH]; intros c Hc; simpl.
  { apply returns_ret. split_and!; [done|done|]. by intros ? ?%elem_of_nil. }
  assert (∀ c1, closed c1 → grows c c1 →
          (input_val def given ≠ None → is_Some (inputValues c1 !! id_Name def)) →
          returns (good c (defined given (def :: defs))) (resolve_inputs resolver rec ns given defs c1)) as Hnext.
  { intros c1 Hc1 Hg1 Hd. eapply returns_weaken; [by apply IH|].
    intros c2 (Hc2 & Hg2 & Hdef). split_and!; [done|by etrans|].
    intros d [->|Hd']%elem_of_cons Hv; [|by apply Hdef]. by apply (gr_inputs _ _ Hg2), Hd. }
  destruct (inputValues c !! id_Name def) eqn:E; [by apply Hnext; [done..|rewrite E]|].
  destruct (input_val def given) as [raw|]; [|by apply Hnext].
  eapply returns_bind; [by apply resolve_value_good|]. intros [c1 v] (Hc1 & Hg1 & _).
  apply Hnext; [by apply closed_add_input|etrans; [done|apply grows_add_input]|].
  intros _. simpl. rewrite lookup_insert. by rewrite decide_True.
Qed.
End level.

Lemma resolveDependencies_good fuel ns c defs vals :
  closed c → returns (good c (λ _, True)) (resolveDependencies resolver fuel ns c defs vals) ∧
  returns (good c (defined ∅ defs)) (resolveDependencies resolver fuel ns c defs []).
Proof using All.
  revert ns c defs vals. induction fuel as [|fuel IH]; intros ns c defs vals Hc; simpl.
  { split; apply returns_fail. }
  assert (∀ ns c defs, closed c → returns (good c (defined ∅ defs)) (resolveDependencies resolver fuel ns c defs []))
    as Hrec by (intros ns' c' defs' Hc'; by apply (IH ns' c' defs' [])).
  split.
  - apply (returns_bind (λ _, True)); [apply returns_any|]. intros given _.
    eapply returns_weaken; [by apply resolve_inputs_good|]. intros c' (?&?&?). by split_and!.
  - by apply (resolve_inputs_good _ Hrec).
Qed.
End closure.

Lemma elem_of_sorted_values {A} (name : A → string) (m : gmap string A) x :
  x ∈ sorted_values name m ↔ ∃ k, m !! k = Some x.
Proof.
  unfold sorted_values. rewrite sort_by_Permutation, list_elem_of_fmap. split.
  - intros ([k y] & -> & H%elem_of_map_to_list). by exists k.
  - intros [k H]. exists (k, x). by rewrite elem_of_map_to_list.
Qed.

Lemma sorted_values_names {A} (name : A → string) (m : gmap string A) :
  map_Forall (λ k x, name x = k) m → NoDup (name <$> sorted_values name m).
Proof.
  intros H. unfold sorted_values. rewrite sort_by_Permutation, <- list_fmap_compose.
  rewrite (list_fmap_ext _ fst); [apply NoDup_fst_map_to_list|].
  intros i [k x] Hkx%list_elem_of_lookup_2%elem_of_map_to_list. by apply H.
Qed.

Section resolution.
Context {S : Type} (resolver : DependencyResolver S) `{!GetterNames resolver}.

(** C9: what the resolver returns is closed and canonical.  With getters that
    return the resource asked for, a successful resolution lists each query,
    data source and report once, sorted by name; the query behind every
    report and every view data source is in the list; and every input of a
    listed query that has a default has a value. *)
Theorem ResolveDependencies_closed ns defs vals w deps values w' :
  ResolveDependencies resolver ns defs vals w = (Ok (deps, values), w') →
  (NoDup ((λ q, Name (q_Meta q)) <$> ReportQueries deps) ∧
   NoDup ((λ d, Name (ds_Meta d)) <$> ReportDataSources deps) ∧
   NoDup ((λ r, Name (r_Meta r)) <$> Reports deps)) ∧
  (StronglySorted (key_le (λ q, Name (q_Meta q))) (ReportQueries deps) ∧
   StronglySorted (key_le (λ d, Name (ds_Meta d))) (ReportDataSources deps) ∧
   StronglySorted (key_le (λ r, Name (r_Meta r))) (Reports deps)) ∧
  (∀ r, r ∈ Reports deps →
   ∃ q, q ∈ ReportQueries deps ∧ Name (q_Meta q) = rs_QueryName (r_Spec r)) ∧
  (∀ d v, d ∈ ReportDataSources deps → ds_ReportQueryView (ds_Spec d) = Some v →
   ∃ q, q ∈ ReportQueries deps ∧ Name (q_Meta q) = rv_QueryName v) ∧
  (∀ q def, q ∈ ReportQueries deps → def ∈ qs_Inputs (q_Spec q) → id_Default def ≠ None →
   is_Some (values !! id_Name def)).
Proof using All.
  unfold ResolveDependencies. intros (c & w1 & Hrun & H)%bind_Ok_inv.
  apply ret_inv in H as [[= -> ->] _].
  apply (resolveDependencies_good resolver maxDepth ns _ defs vals closed_empty) in Hrun as ([Hq Hd Hr] & _).
  assert (∀ n, is_Some (queryAccumulator c !! n) →
          ∃ q, q ∈ sorted_values (λ q, Name (q_Meta q)) (queryAccumulator c) ∧ Name (q_Meta q) = n) as Hquery.
  { intros n [q Hn]. exists q. rewrite elem_of_sorted_values. split; [by exists n|]. by apply Hq in Hn as []. }
  simpl. split_and!; try apply sort_by_Sorted; try apply sorted_values_names.
  - intros k q [? _]%Hq. done.
  - intros k d [? _]%Hd. done.
  - intros k r [? _]%Hr. done.
  - intros r [k Hk]%elem_of_sorted_values. apply Hquery. by apply Hr in Hk as [].
  - intros d v [k Hk]%elem_of_sorted_values Hv. apply Hquery. apply Hd in Hk as [_ H]. by apply H.
  - intros q def [k Hk]%elem_of_sorted_values. apply Hq in Hk as [_ H]. apply H.
Qed.
End resolution.

(** *** Cycles *)
Section cycles.
Context {S : Type} (resolver : DependencyResolver S) (ns : string).

(** [def] is a reference to the query [n] by default. *)
Definition refers (def : ReportQueryInputDefinition) (n : string) : Prop :=
  ∃ raw, id_Default def = Some raw ∧ unmarshal_string raw = Some n ∧ input_type def = "reportquery".

(** A set of queries each of which is found and first refers to another one
    of the set. *)
Definition cyclic (C : string → Prop) : Prop :=
  ∀ n, C n → ∀ w, ∃ q w' def defs n',
  queryGetter resolver ns n w = (Ok q, w') ∧
  qs_Inputs (q_Spec q) = def :: defs ∧ refers def n' ∧ C n'.

Definition cycle_error : error := Errorf "detected a cycle at depth %d" [FInt (Z.of_nat maxDepth)].

Lemma cyclic_fails C fuel n def defs w :
  cyclic C → C n → refers def n →
  ∃ w', resolveDependencies resolver fuel ns emptyContext (def :: defs) [] w = (Err cycle_error, w').
Proof.
  intros HC. revert n def defs w. induction fuel as [|fuel IH]; intros n def defs w Hn Hdef; [by eexists|].
  destruct Hdef as (raw & Hraw & Hun & Htype).
  cbn [resolveDependencies]. rewrite bind_run. simpl ret_out. cbv iota beta.
  unfold ret_out. simpl. unfold input_val. rewrite !lookup_empty, Hraw. simpl.
  rewrite bind_run. unfold resolve_value. rewrite Htype. simpl. rewrite bind_run, Hun. simpl.
  unfold resolveQuery. simpl. rewrite !lookup_empty.
  destruct (HC n Hn w) as (q & w1 & def' & defs' & n' & Hget & Hin & Href & Hn').
  rewrite bind_run. simpl. rewrite bind_run, Hget, bind_run, Hin.
  destruct (IH n' def' defs' w1 Hn' Href) as [w2 ->]. by eexists.
Qed.

(** C33: a query that depends on itself through its first inputs is reported
    as a cycle: the recursion is cut at the maximal depth and nothing is
    returned. *)
Theorem ResolveDependencies_cycle C n def defs w :
  cyclic C → C n → refers def n →
  ∃ w', ResolveDependencies resolver ns (def :: defs) [] w = (Err cycle_error, w').
Proof.
  intros HC Hn Hdef. unfold ResolveDependencies. rewrite bind_run.
  destruct (cyclic_fails C maxDepth n def defs w HC Hn Hdef) as [w' ->]. by eexists.
Qed.
End cycles.

(** input values are checked before anything is fetched: a value for an
    input the query does not define makes the resolution fail without touching
    the environment. *)
Theorem ResolveDependencies_invalid_input {S} (resolver : DependencyResolver S) ns defs vals w val :
  val ∈ vals → (∀ def, def ∈ defs → id_Name def ≠ iv_Name val) →
  ∃ e, ResolveDependencies resolver ns defs vals w = (Err e, w).
Proof.
  intros Hval Hdefs.
  assert (∀ given, ∃ e, given_inputs defs vals given = Err e) as Hgiven.
  { induction vals as [|v vals IH]; intros given; [by apply elem_of_nil in Hval|]. simpl.
    destruct (existsb _ defs) eqn:E; [|by eexists].
    apply elem_of_cons in Hval as [<-|Hval]; [|by apply IH].
    apply existsb_exists in E as (def & Hd%list_elem_of_In & Heq%String.eqb_eq).
    by destruct (Hdefs def Hd). }
  destruct (Hgiven ∅) as [e He]. exists e.
  unfold ResolveDependencies. rewrite bind_run. cbn [resolveDependencies maxDepth].
  rewrite bind_run. unfold ret_out. by rewrite He.
Qed.

(** *** Validation *)
Lemma validate_no_handler {S} (deps : ReportQueryDependencies) (w : world S) :
  let dsNames := (λ ds, Name (ds_Meta ds)) <$> filter no_datasource_table (ReportDataSources deps) in
  let reportNames := (λ r, Name (r_Meta r)) <$> filter no_report_table (Reports deps) in
  ValidateQueryDependencies deps None w =
    (if decide (dsNames = [] ∧ reportNames = []) then Ok tt
     else Err (MkError (KDependency dsNames reportNames) (validation_message dsNames reportNames)), w).
Proof. simpl. unfold ValidateQueryDependencies. rewrite bind_run. simpl. by case_decide. Qed.

(** a query is valid exactly when all the data sources and reports it
    depends on have a table; otherwise the error is recognised as an
    uninitialized dependency and names exactly those that do not, in order. *)
Theorem ValidateQueryDependencies_spec {S} (deps : ReportQueryDependencies) (w : world S) :
  (ValidateQueryDependencies deps None w = (Ok tt, w) ↔
     (∀ d, d ∈ ReportDataSources deps → dst_TableRef (ds_Status d) ≠ "") ∧
     (∀ r, r ∈ Reports deps → rst_TableRef (r_Status r) ≠ "")) ∧
  (ValidateQueryDependencies deps None w = (Ok tt, w) ∨
   ∃ e, ValidateQueryDependencies deps None w = (Err e, w) ∧
     IsUninitializedDependencyError e = true ∧
     err_kind_of e = KDependency
       ((λ ds, Name (ds_Meta ds)) <$> filter no_datasource_table (ReportDataSources deps))
       ((λ r, Name (r_Meta r)) <$> filter no_report_table (Reports deps))).
Proof.
  rewrite validate_no_handler. cbv zeta. case_decide as H.
  - split; [|by left]. split; [intros _|done]. destruct H as [H1%fmap_nil_inv H2%fmap_nil_inv].
    split; intros x Hx Hn.
    + assert (x ∈ filter no_datasource_table (ReportDataSources deps)) as Hin by by apply list_elem_of_filter.
      rewrite H1 in Hin. by apply elem_of_nil in Hin.
    + assert (x ∈ filter no_report_table (Reports deps)) as Hin by by apply list_elem_of_filter.
      rewrite H2 in Hin. by apply elem_of_nil in Hin.
  - split.
    + split; [done|]. intros [Hd Hr]. destruct H. split.
      * destruct (filter no_datasource_table (ReportDataSources deps)) as [|d l] eqn:E; [done|].
        assert (d ∈ filter no_datasource_table (ReportDataSources deps)) as [Hn Hin]%list_elem_of_filter
          by (rewrite E; by left). by destruct (Hd d Hin).
      * destruct (filter no_report_table (Reports deps)) as [|r l] eqn:E; [done|].
        assert (r ∈ filter no_report_table (Reports deps)) as [Hn Hin]%list_elem_of_filter
          by (rewrite E; by left). by destruct (Hr r Hin).
    + right. eexists. split; [done|]. split; [|done]. unfold IsUninitializedDependencyError.
      cbn [err_kind_of]. revert H. generalize ((λ ds, Name (ds_Meta ds)) <$> filter no_datasource_table (ReportDataSources deps)).
      generalize ((λ r, Name (r_Meta r)) <$> filter no_report_table (Reports deps)).
      intros rs ds H. destruct ds; [|done]. destruct rs; [by destruct H|done].
Qed.

(** ** Concrete resolutions *)
#[export] Instance mem_getters : GetterNames (S := Mem) listerResolver.
Proof.
  split; intros ns n w o w'; simpl;
    unfold NewReportQueryListerGetter, NewReportDataSourceListerGetter, NewReportListerGetter, ListerGet;
    intros [_ H]%read_trace; simpl in H;
    first [apply (mem_get_key KReportQuery) in H|apply (mem_get_key KReportDataSource) in H|
           apply (mem_get_key KReport) in H]; unfold obj_key in H; simpl in H; congruence.
Qed.

Definition input0 (name type default : string) : ReportQueryInputDefinition :=
  {| id_Name := name; id_Required := false; id_Type := type; id_Default := Some (fmt_q default) |}.
Definition query0 (name : string) (inputs : list ReportQueryInputDefinition) : ReportQuery :=
  {| q_Meta := meta_of "ns" name;
     q_Spec := {| qs_Columns := []; qs_Query := "SELECT 1"; qs_Inputs := inputs |} |}.
Definition datasource0 (name : string) (view : option string) : ReportDataSource :=
  {| ds_Meta := meta_of "ns" name;
     ds_Spec := {| ds_PrometheusMetricsImporter := None; ds_AWSBilling := None; ds_PrestoTable := None;
                   ds_ReportQueryView := (λ q, {| rv_QueryName := q; rv_Inputs := []; rv_Storage := None |})
                                           <$> view |};
     ds_Status := {| dst_TableRef := ""; dst_ImportStatus := None |} |}.

(** [report] depends on the view [cpu-view], whose query reads [cpu-raw]. *)
Definition deps_mem : Mem :=
  add_obj KReportQuery (query0 "cpu" [input0 "Raw" "ReportDataSource" "cpu-raw"])
  (add_obj KReportDataSource (datasource0 "cpu-raw" None)
  (add_obj KReportDataSource (datasource0 "cpu-view" (Some "cpu"))
  (add_obj KReportQuery (query0 "loop" [input0 "Self" "ReportQuery" "loop"]) mem0))).
Definition deps_inputs : list ReportQueryInputDefinition :=
  [input0 "View" "ReportDataSource" "cpu-view"; input0 "ReportingStart" "" "2019-07-04T00:00:00Z"].

Lemma ResolveDependencies_closed_witness : ∃ deps values w',
  ResolveDependencies listerResolver "ns" deps_inputs [] (world0 deps_mem) = (Ok (deps, values), w') ∧
  (λ d, Name (ds_Meta d)) <$> ReportDataSources deps = ["cpu-raw"; "cpu-view"] ∧
  NoDup ((λ d, Name (ds_Meta d)) <$> ReportDataSources deps) ∧
  (∀ d v, d ∈ ReportDataSources deps → ds_ReportQueryView (ds_Spec d) = Some v →
     ∃ q, q ∈ ReportQueries deps ∧ Name (q_Meta q) = rv_QueryName v).
Proof.
  destruct (run_Ok (ResolveDependencies listerResolver "ns" deps_inputs [] (world0 deps_mem))
    (λ r _, (λ d, Name (ds_Meta d)) <$> ReportDataSources (fst r) = ["cpu-raw"; "cpu-view"]))
    as ([deps values] & w' & Hrun & Hn); [vm_compute; reflexivity|].
  exists deps, values, w'. split; [exact Hrun|]. split; [exact Hn|].
  pose proof (ResolveDependencies_closed listerResolver "ns" deps_inputs [] (world0 deps_mem)
    deps values w' Hrun) as ((_ & H1 & _) & _ & _ & H2 & _).
  split; [exact H1|exact H2].
Defined.

Lemma ResolveDependencies_cycle_witness : ∃ w',
  ResolveDependencies (listerResolver (Env0 := frozen_env deps_mem)) "ns"
    [input0 "Q" "ReportQuery" "loop"] [] (World () []) = (Err cycle_error, w').
Proof.
  apply (ResolveDependencies_cycle (listerResolver (Env0 := frozen_env deps_mem)) "ns" (λ n, n = "loop") "loop").
  - intros n -> [[] tr]. eexists (query0 "loop" _), _, _, _, "loop".
    split; [vm_compute; reflexivity|]. split; [reflexivity|]. split; [|done].
    eexists. split; [reflexivity|]. split; vm_compute; reflexivity.
  - done.
  - eexists. split; [reflexivity|]. split; vm_compute; reflexivity.
Defined.

Lemma ResolveDependencies_invalid_input_witness : ∃ e,
  ResolveDependencies listerResolver "ns" deps_inputs
    [{| iv_Name := "Veiw"; iv_Value := None |}] (world0 deps_mem) = (Err e, world0 deps_mem).
Proof.
  apply (ResolveDependencies_invalid_input listerResolver "ns" deps_inputs _ (world0 deps_mem)
           {| iv_Name := "Veiw"; iv_Value := None |}).
  - by left.
  - intros def [->|[->|[]%elem_of_nil]%elem_of_cons]%elem_of_cons; discriminate.
Defined.

(** values are resolved by input name alone, across queries: when a query
    resolved on the way has an input of the same name, its default hides the
    value the user gave, and the data source the user asked for is not among
    the dependencies. *)
Theorem ResolveDependencies_shadowed_input : ∃ deps values w',
  ResolveDependencies listerResolver "ns"
    [input0 "Q" "ReportQuery" "cpu"; input0 "Raw" "ReportDataSource" "cpu-raw"]
    [{| iv_Name := "Raw"; iv_Value := Some (fmt_q "cpu-view") |}]
    (world0 deps_mem) = (Ok (deps, values), w') ∧
  values !! "Raw" = Some (IString "cpu-raw") ∧
  (λ d, Name (ds_Meta d)) <$> ReportDataSources deps = ["cpu-raw"].
Proof.
  destruct (run_Ok (ResolveDependencies listerResolver "ns"
    [input0 "Q" "ReportQuery" "cpu"; input0 "Raw" "ReportDataSource" "cpu-raw"]
    [{| iv_Name := "Raw"; iv_Value := Some (fmt_q "cpu-view") |}] (world0 deps_mem))
    (λ r _, snd r !! "Raw" = Some (IString "cpu-raw") ∧
       (λ d, Name (ds_Meta d)) <$> ReportDataSources (fst r) = ["cpu-raw"]))
    as ([deps values] & w' & Hrun & H1 & H2); [split; vm_compute; reflexivity|].
  by exists deps, values, w'.
Qed.
