(* ===== verification/Conditions.v ===== *)
(** * String slices and report conditions (src/pkg/util/slice/slice.go,
    src/pkg/apis/metering/v1/util/report_util.go) *)

From S2P Require Export Mem.
Open Scope Z_scope.

(** ** String slices *)
Section slice.
(** A nil [modifier] is [None]. *)
Definition matches (s : string) (modifier : option (string → string)) (item : string) : bool :=
  String.eqb item s || match modifier with Some f => String.eqb (f item) s | None => false end.

Fixpoint ContainsString (slice : list string) (s : string) (modifier : option (string → string)) : bool :=
  match slice with
  | [] => false
  | item :: slice => if matches s modifier item then true else ContainsString slice s modifier
  end.

Fixpoint RemoveString (slice : list string) (s : string) (modifier : option (string → string))
    : list string :=
  match slice with
  | [] => []
  | item :: slice =>
      if matches s modifier item then RemoveString slice s modifier
      else item :: RemoveString slice s modifier
  end.

(** Nil is told apart from an empty slice. *)
Definition CopyStrings (s : option (list string)) : option (list string) := s.
Definition SortStrings (s : list string) : list string := sort_strings s.

Lemma ContainsString_elem slice s : ContainsString slice s None = true ↔ s ∈ slice.
Proof.
  induction slice as [|x l IH]; simpl; [by rewrite elem_of_nil|].
  unfold matches. rewrite orb_false_r, elem_of_cons.
  destruct (String.eqb_spec x s) as [->|]; [naive_solver|]. rewrite IH. naive_solver.
Qed.

Lemma ContainsString_app l1 l2 s md :
  ContainsString (l1 ++ l2) s md = ContainsString l1 s md || ContainsString l2 s md.
Proof. induction l1 as [|x l1 IH]; simpl; [done|]. by destruct (matches s md x). Qed.

Lemma RemoveString_elem slice s x : x ∈ RemoveString slice s None ↔ x ∈ slice ∧ x ≠ s.
Proof.
  induction slice as [|y l IH]; simpl; [set_solver|].
  unfold matches. rewrite orb_false_r. destruct (String.eqb_spec y s) as [->|]; set_solver.
Qed.

Lemma RemoveString_ContainsString slice s md : ContainsString (RemoveString slice s md) s md = false.
Proof.
  induction slice as [|x l IH]; simpl; [done|].
  destruct (matches s md x) eqn:E; simpl; [done|]. by rewrite E.
Qed.

(** Removing what was appended gives the slice back. *)
Lemma RemoveString_append slice s :
  ContainsString slice s None = false → RemoveString (slice ++ [s]) s None = slice.
Proof.
  induction slice as [|x l IH]; simpl.
  { intros _. unfold matches. by rewrite String.eqb_refl. }
  destruct (matches s None x) eqn:E; [done|]. intros H. by rewrite IH.
Qed.
End slice.

(** ** Report conditions *)
Definition ReportRunning : string := "Running".

Definition ScheduledReason : string := "Scheduled".
Definition RunImmediatelyReason : string := "RunImmediately".
Definition ReportingPeriodWaitingReason : string := "ReportingPeriodWaiting".
Definition ReportFinishedReason : string := "Finished".
Definition InvalidReportReason : string := "InvalidReport".
Definition ReportingPeriodUnmetDependenciesReason : string := "ReportingPeriodUnmetDependencies".
Definition GenerateReportFailedReason : string := "GenerateReportFailed".

(** The two timestamps are two reads of the clock. *)
Definition NewReportCondition {S} `{!Env S} (condType : string) (status : ConditionStatus)
    (reason message : string) : M S ReportCondition :=
  t1 ← Now;
  t2 ← Now;
  mret {| c_Type := condType; c_Status := status; c_LastUpdateTime := t1; c_LastTransitionTime := t2;
          c_Reason := reason; c_Message := message |}.

Fixpoint get_condition (conditions : list ReportCondition) (condType : string) : option ReportCondition :=
  match conditions with
  | [] => None
  | c :: conditions => if String.eqb (c_Type c) condType then Some c else get_condition conditions condType
  end.
Definition GetReportCondition (status : ReportStatus) (condType : string) : option ReportCondition :=
  get_condition (Conditions status) condType.

Definition filterOutCondition (conditions : list ReportCondition) (condType : string)
  : list ReportCondition :=
  filter (λ c, c_Type c ≠ condType) conditions.

Definition set_Conditions (cs : list ReportCondition) (status : ReportStatus) : ReportStatus :=
  {| Conditions := cs; LastReportTime := LastReportTime status; NextReportTime := NextReportTime status;
     rst_TableRef := rst_TableRef status |}.

Definition set_LastTransitionTime (t : Time) (c : ReportCondition) : ReportCondition :=
  {| c_Type := c_Type c; c_Status := c_Status c; c_LastUpdateTime := c_LastUpdateTime c;
     c_LastTransitionTime := t; c_Reason := c_Reason c; c_Message := c_Message c |}.

Definition same_status (currentCond : option ReportCondition) (condition : ReportCondition) : bool :=
  match currentCond with
  | Some c => bool_decide (c_Status c = c_Status condition)
  | None => false
  end.
Definition same_reason (currentCond : option ReportCondition) (condition : ReportCondition) : bool :=
  match currentCond with
  | Some c => bool_decide (c_Reason c = c_Reason condition)
  | None => false
  end.

(** [lastTransitionTime] only changes with the status. *)
Definition keep_transition (currentCond : option ReportCondition) (condition : ReportCondition)
  : ReportCondition :=
  match currentCond with
  | Some c => if same_status currentCond condition
              then set_LastTransitionTime (c_LastTransitionTime c) condition else condition
  | None => condition
  end.

Definition SetReportCondition (status : ReportStatus) (condition : ReportCondition) : ReportStatus :=
  let currentCond := GetReportCondition status (c_Type condition) in
  if same_status currentCond condition && same_reason currentCond condition then status
  else
    let condition := keep_transition currentCond condition in
    let newConditions := filterOutCondition (Conditions status) (c_Type condition) in
    set_Conditions (newConditions ++ [condition]) status.

Definition RemoveReportCondition (status : ReportStatus) (condType : string) : ReportStatus :=
  set_Conditions (filterOutCondition (Conditions status) condType) status.

(** *** Facts *)

(** At most one condition of each type. *)
Definition one_per_type (status : ReportStatus) : Prop := NoDup (c_Type <$> Conditions status).

Lemma get_condition_type cs ty c : get_condition cs ty = Some c → c_Type c = ty ∧ c ∈ cs.
Proof.
  induction cs as [|c' cs IH]; simpl; [done|].
  destruct (String.eqb_spec (c_Type c') ty); [intros [= <-]|]; set_solver.
Qed.

Lemma get_condition_app cs1 cs2 ty :
  get_condition (cs1 ++ cs2) ty =
    match get_condition cs1 ty with Some c => Some c | None => get_condition cs2 ty end.
Proof. induction cs1 as [|c cs1 IH]; simpl; [done|]. by destruct (String.eqb (c_Type c) ty). Qed.

Lemma get_condition_filter cs ty ty' :
  get_condition (filterOutCondition cs ty) ty' = if String.eqb ty ty' then None else get_condition cs ty'.
Proof.
  unfold filterOutCondition. induction cs as [|c cs IH]; simpl; [by destruct (String.eqb ty ty')|].
  rewrite filter_cons. case_decide as Hc; simpl; rewrite IH;
    destruct (String.eqb_spec ty ty') as [->|]; destruct (String.eqb_spec (c_Type c) ty'); congruence.
Qed.

Lemma filterOut_types cs ty : c_Type <$> filterOutCondition cs ty = filter (λ t, t ≠ ty) (c_Type <$> cs).
Proof.
  unfold filterOutCondition. induction cs as [|c cs IH]; [done|].
  rewrite fmap_cons, !filter_cons. destruct (decide (c_Type c ≠ ty)).
  - by rewrite fmap_cons, IH.
  - by rewrite IH.
Qed.

Lemma one_per_type_filter st ty :
  one_per_type st → one_per_type (RemoveReportCondition st ty).
Proof.
  unfold one_per_type. simpl. rewrite filterOut_types. by apply NoDup_filter.
Qed.

Lemma keep_transition_type cur c : c_Type (keep_transition cur c) = c_Type c.
Proof. unfold keep_transition. by repeat case_match. Qed.

(** The two outcomes of [SetReportCondition]. *)
Lemma SetReportCondition_cases st c :
  let cur := GetReportCondition st (c_Type c) in
  SetReportCondition st c = st ∧ (∃ old, cur = Some old ∧ c_Status old = c_Status c ∧ c_Reason old = c_Reason c) ∨
  SetReportCondition st c =
    set_Conditions (filterOutCondition (Conditions st) (c_Type c) ++ [keep_transition cur c]) st ∧
  (∀ old, cur = Some old → ¬ (c_Status old = c_Status c ∧ c_Reason old = c_Reason c)).
Proof.
  simpl. unfold SetReportCondition. rewrite keep_transition_type.
  destruct (GetReportCondition st (c_Type c)) as [old|]; simpl; [|right; naive_solver].
  destruct (bool_decide (c_Status old = c_Status c) && bool_decide (c_Reason old = c_Reason c)) eqn:E.
  - left. bool_props. naive_solver.
  - right. split; [done|]. intros ? [= <-] [H1 H2]. by rewrite !bool_decide_true in E.
Qed.

Lemma get_set_Conditions_snoc st ty c ty' :
  c_Type c = ty →
  GetReportCondition (set_Conditions (filterOutCondition (Conditions st) ty ++ [c]) st) ty' =
    if String.eqb ty ty' then Some c else GetReportCondition st ty'.
Proof.
  intros <-. unfold GetReportCondition. simpl. rewrite get_condition_app, get_condition_filter. simpl.
  destruct (String.eqb (c_Type c) ty'); [done|]. by destruct (get_condition _ ty').
Qed.

(** The condition [SetReportCondition] leaves for its type. *)
Definition set_result (cur : option ReportCondition) (c : ReportCondition) : ReportCondition :=
  match cur with
  | None => c
  | Some old =>
      if decide (c_Status old = c_Status c) then
        if decide (c_Reason old = c_Reason c) then old
        else set_LastTransitionTime (c_LastTransitionTime old) c
      else c
  end.

Lemma SetReportCondition_get st c ty :
  GetReportCondition (SetReportCondition st c) ty =
    if String.eqb (c_Type c) ty then Some (set_result (GetReportCondition st (c_Type c)) c)
    else GetReportCondition st ty.
Proof.
  destruct (SetReportCondition_cases st c) as [[-> (old & Hold & H1 & H2)]|[-> Hne]].
  - rewrite Hold. simpl. rewrite !decide_True by done.
    destruct (String.eqb_spec (c_Type c) ty) as [<-|]; done.
  - rewrite get_set_Conditions_snoc by apply keep_transition_type.
    destruct (String.eqb (c_Type c) ty); [|done]. f_equal.
    unfold keep_transition, set_result, same_status, bool_decide.
    destruct (GetReportCondition st (c_Type c)) as [old|]; [|done]. specialize (Hne old eq_refl).
    repeat case_decide; naive_solver.
Qed.

Lemma set_condition_one_per_type st c : one_per_type st → one_per_type (SetReportCondition st c).
Proof.
  intros Hst. destruct (SetReportCondition_cases st c) as [[-> _]|[-> _]]; [done|].
  unfold one_per_type. simpl. rewrite fmap_app. apply NoDup_app. split_and!.
  - by apply one_per_type_filter.
  - simpl. rewrite filterOut_types, keep_transition_type. intros x [Hx _]%list_elem_of_filter. set_solver.
  - simpl. apply NoDup_singleton.
Qed.

(** setting a condition keeps one condition per type, leaves the
    conditions of other types as they are, and the condition of its own type
    afterwards is the old one, untouched, when status and reason are the same;
    otherwise it is the new one, with the old transition time when only the
    reason changed.  Doing it again changes nothing. *)
Theorem SetReportCondition_spec st c :
  (one_per_type st → one_per_type (SetReportCondition st c)) ∧
  (∀ ty, ty ≠ c_Type c → GetReportCondition (SetReportCondition st c) ty = GetReportCondition st ty) ∧
  GetReportCondition (SetReportCondition st c) (c_Type c) =
    Some match GetReportCondition st (c_Type c) with
         | None => c
         | Some old =>
             if decide (c_Status old = c_Status c) then
               if decide (c_Reason old = c_Reason c) then old
               else set_LastTransitionTime (c_LastTransitionTime old) c
             else c
         end ∧
  SetReportCondition (SetReportCondition st c) c = SetReportCondition st c.
Proof.
  split_and!.
  - apply set_condition_one_per_type.
  - intros ty Hty. rewrite SetReportCondition_get. by rewrite (proj2 (String.eqb_neq _ _)).
  - rewrite SetReportCondition_get, String.eqb_refl. done.
  - destruct (SetReportCondition_cases (SetReportCondition st c) c) as [[-> _]|[_ Hne]]; [done|].
    exfalso. rewrite SetReportCondition_get, String.eqb_refl in Hne. apply (Hne _ eq_refl).
    unfold set_result. destruct (GetReportCondition st (c_Type c)) as [old|]; [|done].
    by repeat case_decide.
Qed.
