(* ===== verification/Schedule.v ===== *)
(** * Schedules and reporting periods
    (src/pkg/operator/util.go, src/pkg/operator/reports.go) *)

From S2P Require Export Conditions.
Open Scope Z_scope.

(** ** Validation of schedule fields *)
Definition validateHour (hour : Z) : outcome unit :=
  if (0 <=? hour) && (hour <=? 23) then Ok tt
  else Err (Errorf "invalid hour: %d, must be between 0 and 23" [FInt hour]).
Definition validateMinute (minute : Z) : outcome unit :=
  if (0 <=? minute) && (minute <=? 59) then Ok tt
  else Err (Errorf "invalid minute: %d, must be between 0 and 59" [FInt minute]).
Definition validateSecond (second : Z) : outcome unit :=
  if (0 <=? second) && (second <=? 59) then Ok tt
  else Err (Errorf "invalid second: %d, must be between 0 and 59" [FInt second]).
Definition validateDayOfMonth (dom : Z) : outcome unit :=
  if (1 <=? dom) && (dom <=? 31) then Ok tt
  else Err (Errorf "invalid day of month: %d, must be between 1 and 31" [FInt dom]).

Definition one_of (s : string) (l : list string) : bool := existsb (String.eqb s) l.

Definition convertDayOfWeek (dow : string) : outcome Z :=
  let d := ToLower dow in
  if one_of d ["sun"; "sunday"] then Ok 0
  else if one_of d ["mon"; "monday"] then Ok 1
  else if one_of d ["tue"; "tues"; "tuesday"] then Ok 2
  else if one_of d ["wed"; "weds"; "wednesday"] then Ok 3
  else if one_of d ["thur"; "thurs"; "thursday"] then Ok 4
  else if one_of d ["fri"; "friday"] then Ok 5
  else if one_of d ["sat"; "saturday"] then Ok 6
  else Err (Errorf "invalid day of week: %s" [FStr dow]).

(** ** Schedules

    A schedule is its [Next] function. *)
Definition schedule : Type := Time → Time.

Section schedules.
Context {S : Type} `{!Env S}.

(** The six-field cron expression of a schedule that is not itself one. *)
Definition cronSpec (reportSched : ReportSchedule) : outcome string :=
  let period := Period reportSched in
  if String.eqb period ReportPeriodHourly then
    let sched := default {| h_Minute := 0; h_Second := 0 |} (Hourly reportSched) in
    _ ← validateMinute (h_Minute sched);
    _ ← validateSecond (h_Second sched);
    Ok (Sprintf "%d %d * * * *" [FInt (h_Second sched); FInt (h_Minute sched)])
  else if String.eqb period ReportPeriodDaily then
    let sched := default {| d_Hour := 0; d_Minute := 0; d_Second := 0 |} (Daily reportSched) in
    _ ← validateHour (d_Hour sched);
    _ ← validateMinute (d_Minute sched);
    _ ← validateSecond (d_Second sched);
    Ok (Sprintf "%d %d %d * * *" [FInt (d_Second sched); FInt (d_Minute sched); FInt (d_Hour sched)])
  else if String.eqb period ReportPeriodWeekly then
    let sched := default {| w_DayOfWeek := None; w_Hour := 0; w_Minute := 0; w_Second := 0 |}
      (Weekly reportSched) in
    dow ← match w_DayOfWeek sched with Some d => convertDayOfWeek d | None => Ok 0 end;
    _ ← validateHour (w_Hour sched);
    _ ← validateMinute (w_Minute sched);
    _ ← validateSecond (w_Second sched);
    Ok (Sprintf "%d %d %d * * %d"
          [FInt (w_Second sched); FInt (w_Minute sched); FInt (w_Hour sched); FInt dow])
  else if String.eqb period ReportPeriodMonthly then
    let sched := default {| m_DayOfMonth := None; m_Hour := 0; m_Minute := 0; m_Second := 0 |}
      (Monthly reportSched) in
    let dom := default 1 (m_DayOfMonth sched) in
    _ ← validateDayOfMonth dom;
    _ ← validateHour (m_Hour sched);
    _ ← validateMinute (m_Minute sched);
    _ ← validateSecond (m_Second sched);
    Ok (Sprintf "%d %d %d %d * *"
          [FInt (m_Second sched); FInt (m_Minute sched); FInt (m_Hour sched); FInt dom])
  else Err (Errorf "invalid Report.spec.schedule.period: %s" [FStr period]).

Definition getSchedule (reportSched : ReportSchedule) : outcome schedule :=
  if String.eqb (Period reportSched) ReportPeriodCron then
    match Cron reportSched with
    | Some c =>
        if String.eqb (Expression c) "" then
          Err (New "spec.schedule.cron.expression must be specified")
        else cron_ParseStandard (Expression c)
    | None => Err (New "spec.schedule.cron.expression must be specified")
    end
  else spec ← cronSpec reportSched; cron_Parse spec.
End schedules.

(** ** Reporting periods *)
Record reportPeriod := { periodEnd : Time; periodStart : Time }.

Definition getNextReportPeriod (sched : schedule) (period : string) (lastScheduled : Time) : reportPeriod :=
  let periodStart := lastScheduled in
  let periodEnd := sched periodStart in
  {| periodStart := Truncate periodStart Millisecond; periodEnd := Truncate periodEnd Millisecond |}.

Definition getRunOnceReportPeriod (report : Report) : outcome reportPeriod :=
  match rs_ReportingEnd (r_Spec report), rs_ReportingStart (r_Spec report) with
  | Some e, Some s => Ok {| periodStart := s; periodEnd := e |}
  | _, _ => Err (New "run-once reports must have both ReportingEnd and ReportingStart")
  end.

Definition isReportFinished (report : Report) : bool :=
  match GetReportCondition (r_Status report) ReportRunning with
  | None => false
  | Some runningCond =>
      if String.eqb (c_Reason runningCond) ReportFinishedReason &&
         negb (bool_decide (c_Status runningCond = ConditionTrue)) then
        match rs_Schedule (r_Spec report) with
        | None => true
        | Some _ =>
            match rs_ReportingEnd (r_Spec report) with
            | None => false
            | Some e =>
                match LastReportTime (r_Status report) with
                | Some l => negb (After e l)
                | None => true
                end
            end
        end
      else false
  end.

Definition set_NextReportTime (t : Time) (report : Report) : Report :=
  {| r_Meta := r_Meta report; r_Spec := r_Spec report;
     r_Status := {| Conditions := Conditions (r_Status report);
                    LastReportTime := LastReportTime (r_Status report);
                    NextReportTime := Some t; rst_TableRef := rst_TableRef (r_Status report) |} |}.

Section periods.
Context {S : Type} `{!Env S}.

(** The period of a scheduled report, before it is cut at the reporting end;
    the report's status remembers the first one. *)
Definition scheduledPeriod (now : Time) (sched : schedule) (period : string) (report : Report)
    : reportPeriod * Report :=
  match LastReportTime (r_Status report) with
  | Some l => (getNextReportPeriod sched period l, report)
  | None =>
      match rs_ReportingStart (r_Spec report) with
      | Some s => (getNextReportPeriod sched period s, report)
      | None =>
          match NextReportTime (r_Status report) with
          | Some n => (getNextReportPeriod sched period n, report)
          | None =>
              let currentPeriod := getNextReportPeriod sched period now in
              let rp := getNextReportPeriod sched period (periodEnd currentPeriod) in
              (rp, set_NextReportTime (periodStart rp) report)
          end
      end
  end.

(** The report comes back with the status the function mutates. *)
Definition getReportPeriod (now : Time) (report : Report) : outcome (reportPeriod * Report) :=
  '(rp, report) ←
    match rs_Schedule (r_Spec report) with
    | Some spec =>
        sched ← getSchedule spec;
        Ok (scheduledPeriod now sched (Period spec) report)
    | None =>
        rp ← getRunOnceReportPeriod report;
        Ok (rp, report)
    end;
  if After (periodStart rp) (periodEnd rp) then
    Panic "periodStart should never come after periodEnd"
  else
    match rs_ReportingEnd (r_Spec report) with
    | Some e =>
        if After (periodEnd rp) e
        then Ok ({| periodStart := periodStart rp; periodEnd := e |}, report)
        else Ok (rp, report)
    | None => Ok (rp, report)
    end.
End periods.

(** ** What a schedule compiles to *)

(** The six fields; [None] is [*]. *)
Record cron_fields := {
  f_second : Z; f_minute : Z; f_hour : option Z; f_dom : option Z; f_dow : option Z }.

Definition in_range (lo hi : Z) (z : Z) : Prop := lo ≤ z ≤ hi.
Definition opt_in_range (lo hi : Z) (o : option Z) : Prop :=
  match o with Some z => lo ≤ z ≤ hi | None => True end.
Definition fields_ok (f : cron_fields) : Prop :=
  in_range 0 59 (f_second f) ∧ in_range 0 59 (f_minute f) ∧ opt_in_range 0 23 (f_hour f) ∧
  opt_in_range 1 31 (f_dom f) ∧ opt_in_range 0 6 (f_dow f).

Definition field_str (o : option Z) : string := match o with Some z => pretty z | None => "*" end.
Definition print_fields (f : cron_fields) : string :=
  Join [pretty (f_second f); pretty (f_minute f); field_str (f_hour f); field_str (f_dom f); "*";
        field_str (f_dow f)] " ".

(** The week day names accepted. *)
Definition day_names : list (string * Z) :=
  [("sun", 0); ("sunday", 0); ("mon", 1); ("monday", 1); ("tue", 2); ("tues", 2); ("tuesday", 2);
   ("wed", 3); ("weds", 3); ("wednesday", 3); ("thur", 4); ("thurs", 4); ("thursday", 4);
   ("fri", 5); ("friday", 5); ("sat", 6); ("saturday", 6)].

(** The fields a schedule asks for. *)
Definition fields_of (rs : ReportSchedule) (f : cron_fields) : Prop :=
  (Period rs = ReportPeriodHourly ∧
   let s := default {| h_Minute := 0; h_Second := 0 |} (Hourly rs) in
   f = {| f_second := h_Second s; f_minute := h_Minute s; f_hour := None; f_dom := None; f_dow := None |}) ∨
  (Period rs = ReportPeriodDaily ∧
   let s := default {| d_Hour := 0; d_Minute := 0; d_Second := 0 |} (Daily rs) in
   f = {| f_second := d_Second s; f_minute := d_Minute s; f_hour := Some (d_Hour s); f_dom := None;
          f_dow := None |}) ∨
  (Period rs = ReportPeriodWeekly ∧
   let s := default {| w_DayOfWeek := None; w_Hour := 0; w_Minute := 0; w_Second := 0 |} (Weekly rs) in
   ∃ dow, (w_DayOfWeek s = None ∧ dow = 0 ∨ ∃ d, w_DayOfWeek s = Some d ∧ (ToLower d, dow) ∈ day_names) ∧
   f = {| f_second := w_Second s; f_minute := w_Minute s; f_hour := Some (w_Hour s); f_dom := None;
          f_dow := Some dow |}) ∨
  (Period rs = ReportPeriodMonthly ∧
   let s := default {| m_DayOfMonth := None; m_Hour := 0; m_Minute := 0; m_Second := 0 |} (Monthly rs) in
   f = {| f_second := m_Second s; f_minute := m_Minute s; f_hour := Some (m_Hour s);
          f_dom := Some (default 1 (m_DayOfMonth s)); f_dow := None |}).

Lemma validate_range (b1 b2 : bool) (e : error) :
  (if b1 && b2 then Ok tt else Err e) = Ok tt ↔ b1 = true ∧ b2 = true.
Proof. destruct b1, b2; naive_solver. Qed.
Lemma validateHour_ok z : validateHour z = Ok tt ↔ in_range 0 23 z.
Proof. unfold validateHour. rewrite validate_range, !Z.leb_le. reflexivity. Qed.
Lemma validateMinute_ok z : validateMinute z = Ok tt ↔ in_range 0 59 z.
Proof. unfold validateMinute. rewrite validate_range, !Z.leb_le. reflexivity. Qed.
Lemma validateSecond_ok z : validateSecond z = Ok tt ↔ in_range 0 59 z.
Proof. unfold validateSecond. rewrite validate_range, !Z.leb_le. reflexivity. Qed.
Lemma validateDayOfMonth_ok z : validateDayOfMonth z = Ok tt ↔ in_range 1 31 z.
Proof. unfold validateDayOfMonth. rewrite validate_range, !Z.leb_le. reflexivity. Qed.

Lemma bind_ok_iff {A B} (o : outcome A) (f : A → outcome B) b :
  (x ← o; f x) = Ok b ↔ ∃ a, o = Ok a ∧ f a = Ok b.
Proof. destruct o; simpl; unfold mbind, outcome_bind; naive_solver. Qed.
Lemma bind_unit_iff {B} (o : outcome unit) (f : unit → outcome B) b :
  (x ← o; f x) = Ok b ↔ o = Ok tt ∧ f tt = Ok b.
Proof. rewrite bind_ok_iff. split; [intros [[] ?]; done|by exists tt]. Qed.

Lemma convertDayOfWeek_ok d z : convertDayOfWeek d = Ok z ↔ (ToLower d, z) ∈ day_names.
Proof.
  unfold convertDayOfWeek, one_of, day_names. cbv zeta. generalize (ToLower d) as t. intros t.
  rewrite list_elem_of_In. simpl existsb.
  split.
  - repeat match goal with
    | |- context [String.eqb t ?s] => destruct (String.eqb_spec t s) as [->|]; simpl
    end; intros [= <-]; simpl; tauto.
  - simpl. intros H. repeat (destruct H as [[= <- <-]|H]; [reflexivity|]). done.
Qed.

Lemma convertDayOfWeek_range d z : convertDayOfWeek d = Ok z → in_range 0 6 z.
Proof.
  rewrite convertDayOfWeek_ok, list_elem_of_In. unfold day_names, in_range. simpl.
  intros H. destruct_or! H; simplify_eq; lia.
Qed.

Lemma week_spec s m h d :
  Sprintf "%d %d %d * * %d" [FInt s; FInt m; FInt h; FInt d] =
  print_fields {| f_second := s; f_minute := m; f_hour := Some h; f_dom := None; f_dow := Some d |}.
Proof.
  change (Sprintf "%d %d %d * * %d" [FInt s; FInt m; FInt h; FInt d]) with
    (pretty s +:+ (" " +:+ (pretty m +:+ (" " +:+ (pretty h +:+ (" * * " +:+ (pretty d +:+ ""))))))).
  by rewrite str_app_nil.
Qed.

(** a schedule is accepted exactly when its fields are in range, and it
    then compiles to the six-field cron expression of those fields, second
    first, with defaults for what is unset; hours, minutes, seconds, days of
    the month and named days of the week outside their range are refused. *)
Theorem cronSpec_fields rs spec :
  cronSpec rs = Ok spec ↔ ∃ f, fields_of rs f ∧ fields_ok f ∧ spec = print_fields f.
Proof.
  unfold cronSpec, fields_of, fields_ok.
  assert (ReportPeriodHourly ≠ ReportPeriodDaily ∧ ReportPeriodHourly ≠ ReportPeriodWeekly ∧
          ReportPeriodHourly ≠ ReportPeriodMonthly ∧ ReportPeriodDaily ≠ ReportPeriodWeekly ∧
          ReportPeriodDaily ≠ ReportPeriodMonthly ∧ ReportPeriodWeekly ≠ ReportPeriodMonthly)
    as (H1 & H2 & H3 & H4 & H5 & H6) by (split_and!; discriminate).
  destruct (String.eqb_spec (Period rs) ReportPeriodHourly) as [->|Hh].
  { generalize (default {| h_Minute := 0; h_Second := 0 |} (Hourly rs)) as s. intros s.
    rewrite !bind_unit_iff, validateMinute_ok, validateSecond_ok. split.
    - intros (?&?&[= <-]). eexists. split; [left; by split|]. by split_and!.
    - intros (f & [[_ ->]|[[? _]|[[? _]|[? _]]]] & (?&?&?&?&?) & ->); try congruence. by split_and!. }
  destruct (String.eqb_spec (Period rs) ReportPeriodDaily) as [->|Hd].
  { generalize (default {| d_Hour := 0; d_Minute := 0; d_Second := 0 |} (Daily rs)) as s. intros s.
    rewrite !bind_unit_iff, validateHour_ok, validateMinute_ok, validateSecond_ok. split.
    - intros (?&?&?&[= <-]). eexists. split; [right; left; by split|]. by split_and!.
    - intros (f & [[? _]|[[_ ->]|[[? _]|[? _]]]] & (?&?&?&?&?) & ->); try congruence. by split_and!. }
  destruct (String.eqb_spec (Period rs) ReportPeriodWeekly) as [->|Hw].
  { generalize (default {| w_DayOfWeek := None; w_Hour := 0; w_Minute := 0; w_Second := 0 |} (Weekly rs)) as s.
    intros s. rewrite bind_ok_iff.
    split.
    - intros (dow & Hdow & H). rewrite !bind_unit_iff, validateHour_ok, validateMinute_ok, validateSecond_ok in H.
      destruct H as (?&?&?&[= <-]). eexists. split; [right; right; left; split; [done|]|].
      + exists dow. split; [|done]. destruct (w_DayOfWeek s); [right|left; naive_solver].
        eexists. split; [done|]. by apply convertDayOfWeek_ok.
      + split_and!; try done; [|apply week_spec].
        simpl. destruct (w_DayOfWeek s); [by apply convertDayOfWeek_range in Hdow|].
        simplify_eq. lia.
    - intros (f & [[? _]|[[? _]|[[_ (dow & Hdow & ->)]|[? _]]]] & (?&?&?&?&?) & ->); try congruence.
      exists dow. rewrite !bind_unit_iff, validateHour_ok, validateMinute_ok, validateSecond_ok.
      split; [|rewrite week_spec; by split_and!].
      destruct Hdow as [[-> ->]|(d & -> & Hd')]; [done|]. by apply convertDayOfWeek_ok. }
  destruct (String.eqb_spec (Period rs) ReportPeriodMonthly) as [->|Hm].
  { generalize (default {| m_DayOfMonth := None; m_Hour := 0; m_Minute := 0; m_Second := 0 |} (Monthly rs)) as s.
    intros s. rewrite !bind_unit_iff, validateDayOfMonth_ok, validateHour_ok, validateMinute_ok, validateSecond_ok.
    split.
    - intros (?&?&?&?&[= <-]). eexists. split; [right; right; right; by split|]. by split_and!.
    - intros (f & [[? _]|[[? _]|[[? _]|[_ ->]]]] & (?&?&?&?&?) & ->); try congruence. by split_and!. }
  split; [done|]. naive_solver.
Qed.

Definition schedule_hourly : ReportSchedule :=
  {| Period := ReportPeriodHourly; Cron := None; Hourly := Some {| h_Minute := 30; h_Second := 5 |};
     Daily := None; Weekly := None; Monthly := None |}.
Example cronSpec_hourly : cronSpec schedule_hourly = Ok "5 30 * * * *".
Proof. reflexivity. Qed.

(** ** Periods *)

(** What the cron library promises of [Next]: a time later than the given one,
    on a whole second. *)
Class GoodSchedule (sched : schedule) : Prop := {
  next_later t : t < sched t;
  next_second t : sched t mod Second = 0;
}.

Lemma Millisecond_pos : 0 < Millisecond.
Proof. done. Qed.

Section good_schedule.
Context (sched : schedule) `{!GoodSchedule sched}.

Lemma next_truncated t : Truncate (sched t) Millisecond = sched t.
Proof using All.
  apply (Truncate_fix Millisecond Millisecond_pos).
  pose proof (next_second t) as H. apply Z.mod_divide in H as [k Hk]; [|done].
  rewrite Hk. unfold Second. replace (k * (1000 * Millisecond)) with ((k * 1000) * Millisecond) by lia.
  by apply Z.mod_mul.
Qed.

Lemma next_period_ordered period t :
  periodStart (getNextReportPeriod sched period t) ≤ t < periodEnd (getNextReportPeriod sched period t).
Proof using All.
  simpl. rewrite next_truncated. pose proof (next_later t).
  pose proof (Truncate_bounds Millisecond Millisecond_pos t). lia.
Qed.
End good_schedule.

Section period_facts.
Context {S : Type} `{!Env S}.

(** The instant a scheduled report's next period starts from. *)
Definition period_base (now : Time) (sched : schedule) (report : Report) : Time :=
  match LastReportTime (r_Status report), rs_ReportingStart (r_Spec report),
  NextReportTime (r_Status report) with
  | Some t, _, _ | None, Some t, _ | None, None, Some t => t
  | None, None, None => Truncate (sched now) Millisecond
  end.

Lemma scheduledPeriod_base now sched period report :
  (scheduledPeriod now sched period report).1 =
  getNextReportPeriod sched period (period_base now sched report).
Proof.
  unfold scheduledPeriod, period_base. by repeat case_match; simplify_eq.
Qed.
Lemma scheduledPeriod_report now sched period report :
  r_Spec (scheduledPeriod now sched period report).2 = r_Spec report ∧
  LastReportTime (r_Status (scheduledPeriod now sched period report).2) = LastReportTime (r_Status report).
Proof. unfold scheduledPeriod. by repeat case_match. Qed.

Definition cut_at (e : option Time) (t : Time) : Time :=
  match e with Some e => Z.min e t | None => t end.

Lemma scheduled_run now report spec sched :
  rs_Schedule (r_Spec report) = Some spec → getSchedule spec = Ok sched → GoodSchedule sched →
  ∃ rp report', getReportPeriod now report = Ok (rp, report') ∧
  periodStart rp = Truncate (period_base now sched report) Millisecond ∧
  periodEnd rp = cut_at (rs_ReportingEnd (r_Spec report)) (sched (period_base now sched report)) ∧
  periodStart rp < sched (period_base now sched report) ∧
  r_Spec report' = r_Spec report ∧
  LastReportTime (r_Status report') = LastReportTime (r_Status report).
Proof.
  intros Hspec Hsched Hgood. unfold getReportPeriod. rewrite Hspec, Hsched. simpl.
  unfold mbind, outcome_bind.
  pose proof (scheduledPeriod_base now sched (Period spec) report) as Hbase.
  destruct (scheduledPeriod_report now sched (Period spec) report) as [Hr1 Hr2].
  destruct (scheduledPeriod now sched (Period spec) report) as [rp report']. simpl in *. subst rp.
  pose proof (next_period_ordered sched (Period spec) (period_base now sched report)) as Hord.
  unfold After at 1. rewrite (proj2 (Z.ltb_ge _ _)) by lia. rewrite Hr1.
  pose proof (next_truncated sched (period_base now sched report)) as Htr. simpl in *.
  destruct (rs_ReportingEnd (r_Spec report)) as [e|]; unfold After; simpl;
    [destruct (Z.ltb_spec e (Truncate (sched (period_base now sched report)) Millisecond))|];
    eexists _, _; (split; [reflexivity|]); simpl; rewrite ?Htr in *; split_and!; (done || lia).
Qed.

(** the reporting period of a scheduled report: with a schedule that
    always fires later, it is computed without a panic, starts at the last
    report time, else the reporting start, else the remembered next report
    time, else the next firing after now (to the millisecond), and ends at
    the firing after that, cut at the reporting end. *)
Theorem getReportPeriod_scheduled now report spec sched :
  rs_Schedule (r_Spec report) = Some spec → getSchedule spec = Ok sched → GoodSchedule sched →
  ∃ rp report', getReportPeriod now report = Ok (rp, report') ∧
  periodStart rp = Truncate (period_base now sched report) Millisecond ∧
  periodEnd rp = cut_at (rs_ReportingEnd (r_Spec report)) (sched (period_base now sched report)) ∧
  periodStart rp < sched (period_base now sched report) ∧
  r_Spec report' = r_Spec report ∧
  LastReportTime (r_Status report') = LastReportTime (r_Status report).
Proof. apply scheduled_run. Qed.

Definition set_LastReportTime (t : Time) (report : Report) : Report :=
  {| r_Meta := r_Meta report; r_Spec := r_Spec report;
     r_Status := {| Conditions := Conditions (r_Status report); LastReportTime := Some t;
                    NextReportTime := NextReportTime (r_Status report);
                    rst_TableRef := rst_TableRef (r_Status report) |} |}.

(** C6: successive periods tile: once a period has been reported, that is,
    its end recorded as the last report time, the next period computed
    starts exactly at that end, whatever the clock says by then; it is not
    empty as long as the reporting end lies ahead. *)
Theorem getReportPeriod_tiles now now' report spec sched rp report' :
  rs_Schedule (r_Spec report) = Some spec → getSchedule spec = Ok sched → GoodSchedule sched →
  getReportPeriod now report = Ok (rp, report') →
  (∀ e, rs_ReportingEnd (r_Spec report) = Some e → periodEnd rp < e) →
  ∃ rp' report'', getReportPeriod now' (set_LastReportTime (periodEnd rp) report') = Ok (rp', report'') ∧
  periodStart rp' = periodEnd rp ∧ periodStart rp' < periodEnd rp'.
Proof.
  intros Hspec Hsched Hgood Hrp Hend.
  destruct (scheduled_run now report spec sched Hspec Hsched Hgood)
    as (rp0 & r0 & Hrun & _ & He & _ & Hr0 & _).
  rewrite Hrp in Hrun. simplify_eq.
  destruct (scheduled_run now' (set_LastReportTime (periodEnd rp0) r0) spec sched)
    as (rp1 & r1 & Hrun1 & Hs1 & He1 & _); [simpl; congruence|done..|].
  exists rp1, r1. split; [done|]. simpl in *. unfold period_base in Hs1, He1. simpl in *.
  rewrite Hr0 in He1. pose proof (next_later (sched := sched) (periodEnd rp0)) as Hlater.
  assert (Truncate (periodEnd rp0) Millisecond = periodEnd rp0) as Htr.
  { rewrite He. unfold cut_at. destruct (rs_ReportingEnd (r_Spec report)) as [e|];
    [|by apply next_truncated].
    specialize (Hend e eq_refl). rewrite Z.min_r; [by apply next_truncated|].
    rewrite He in Hend. simpl in Hend. lia. }
  split; [by rewrite Hs1|]. rewrite Hs1, He1, Htr. unfold cut_at.
  destruct (rs_ReportingEnd (r_Spec report)) as [e|]; [|done]. specialize (Hend e eq_refl). lia.
Qed.
End period_facts.

(** *** Concrete periods *)
Lemma Truncate_Second_Hour t : Truncate t Hour mod Second = 0.
Proof.
  rewrite (Truncate_eq Hour ltac:(done)). unfold Hour, Minute.
  replace (60 * (60 * Second) * (t / (60 * (60 * Second)))) with (60 * (60 * (t / (60 * (60 * Second)))) * Second) by lia.
  by apply Z.mod_mul.
Qed.
#[export] Instance hourly_good : GoodSchedule hourly.
Proof.
  split; intros t; unfold hourly.
  - pose proof (Truncate_bounds Hour ltac:(done) t). lia.
  - rewrite Z.add_mod, Truncate_Second_Hour by done. reflexivity.
Qed.

Definition report0 (last : option Time) (ending : option Time) : Report :=
  {| r_Meta := meta_of "ns" "hourly-report";
     r_Spec := {| rs_QueryName := "q"; rs_Schedule := Some schedule_hourly; rs_ReportingStart := None;
                  rs_ReportingEnd := ending; rs_OverwriteExistingData := false;
                  rs_RunImmediately := false; rs_Inputs := []; rs_Output := None |};
     r_Status := {| Conditions := []; LastReportTime := last; NextReportTime := None;
                    rst_TableRef := "" |} |}.

Lemma getReportPeriod_scheduled_witness : ∃ rp report',
  getReportPeriod (Date 2019 7 4 12 15 0) (report0 None None) = Ok (rp, report') ∧
  periodStart rp = Truncate (period_base (Date 2019 7 4 12 15 0) hourly (report0 None None)) Millisecond ∧
  periodEnd rp = cut_at None (hourly (period_base (Date 2019 7 4 12 15 0) hourly (report0 None None))) ∧
  periodStart rp < hourly (period_base (Date 2019 7 4 12 15 0) hourly (report0 None None)) ∧
  r_Spec report' = r_Spec (report0 None None) ∧
  LastReportTime (r_Status report') = LastReportTime (r_Status (report0 None None)).
Proof.
  apply (getReportPeriod_scheduled (Date 2019 7 4 12 15 0) (report0 None None) schedule_hourly hourly);
    [reflexivity|reflexivity|apply _].
Defined.

Lemma getReportPeriod_tiles_witness : ∃ rp report' rp' report'',
  getReportPeriod (Date 2019 7 4 12 15 0) (report0 None None) = Ok (rp, report') ∧
  getReportPeriod (Date 2019 7 5 0 0 0) (set_LastReportTime (periodEnd rp) report') = Ok (rp', report'') ∧
  periodStart rp' = periodEnd rp ∧ periodStart rp' < periodEnd rp'.
Proof.
  eexists _, _.
  assert (∀ P Q : Prop, P → Q → P ∧ Q) as Hand by done.
  edestruct (getReportPeriod_tiles (Date 2019 7 4 12 15 0) (Date 2019 7 5 0 0 0) (report0 None None)
               schedule_hourly hourly) as (rp' & report'' & H);
    [reflexivity|reflexivity|apply _|vm_compute; reflexivity|discriminate|].
  exists rp', report''. split; [vm_compute; reflexivity|]. exact H.
Defined.

(** a schedule that never fires again crashes the operator: when [Next]
    returns the zero time, which the cron library does for an expression like
    February 30, the period ends before it starts and [getReportPeriod]
    panics. *)
Theorem getReportPeriod_never_fires {S} `{!Env S} now report spec sched :
  rs_Schedule (r_Spec report) = Some spec → getSchedule spec = Ok sched →
  (∀ t, sched t = 0) → Millisecond ≤ period_base now sched report →
  getReportPeriod now report = Panic "periodStart should never come after periodEnd".
Proof.
  intros Hspec Hsched Hnever Hpos. unfold getReportPeriod. rewrite Hspec, Hsched. simpl.
  pose proof (scheduledPeriod_base now sched (Period spec) report) as Hbase.
  destruct (scheduledPeriod now sched (Period spec) report) as [rp report']. simpl in *. subst rp.
  unfold mbind, outcome_bind, After. simpl. rewrite Hnever.
  pose proof (Truncate_mono Millisecond Millisecond_pos _ _ Hpos) as Hm.
  change (Truncate Millisecond Millisecond) with Millisecond in Hm.
  rewrite (proj2 (Z.ltb_lt _ _)); [done|]. change (Truncate 0 Millisecond) with 0.
  pose proof Millisecond_pos. lia.
Qed.

(** The environment whose cron expressions never fire. *)
Definition never_env : Env () :=
  {| client_get := @client_get _ (frozen_env mem0); client_list := @client_list _ (frozen_env mem0);
     client_create := @client_create _ (frozen_env mem0); client_update := @client_update _ (frozen_env mem0);
     lister_get := @lister_get _ (frozen_env mem0); lister_list := @lister_list _ (frozen_env mem0);
     clock_now := @clock_now _ (frozen_env mem0); wait_jitter := @wait_jitter _ (frozen_env mem0);
     poll_attempts := @poll_attempts _ (frozen_env mem0);
     cron_Parse := λ _, Ok (λ _, 0); cron_ParseStandard := λ _, Ok (λ _, 0);
     db_exec := @db_exec _ (frozen_env mem0); presto_query := @presto_query _ (frozen_env mem0);
     prom_query := @prom_query _ (frozen_env mem0); ctx_err := @ctx_err _ (frozen_env mem0);
     last_timestamp := @last_timestamp _ (frozen_env mem0) |}.

Lemma getReportPeriod_never_fires_witness :
  getReportPeriod (Env0 := never_env) (Date 2019 7 4 12 15 0) (report0 (Some (Date 2019 7 4 12 0 0)) None) =
    Panic "periodStart should never come after periodEnd".
Proof.
  apply (getReportPeriod_never_fires (Env0 := never_env) _ _ schedule_hourly (λ _, 0));
    [reflexivity|reflexivity|reflexivity|zconst].
Defined.

(** moving the reporting end of a scheduled report before its last report
    time yields a period that ends before it starts, without the panic that
    guards against it: the order is checked before the end is cut. *)
Theorem getReportPeriod_inverted :
  getReportPeriod (Date 2019 7 4 12 15 0)
    (report0 (Some (Date 2019 7 4 12 0 0)) (Some (Date 2019 7 4 11 30 0))) =
  Ok ({| periodStart := Date 2019 7 4 12 0 0; periodEnd := Date 2019 7 4 11 30 0 |},
      report0 (Some (Date 2019 7 4 12 0 0)) (Some (Date 2019 7 4 11 30 0))).
Proof. vm_compute. reflexivity. Qed.
