(* ===== verification/Operator.v ===== *)
(** * Common parts of the operator's controllers: configuration, keys, the
    resources' metadata, finalizers, and the enqueue functions of
    src/pkg/operator/queues.go *)

From S2P Require Export Conditions.
Open Scope Z_scope.

(** ** Configuration ([operator.Config], the fields the controllers read) *)
Record Config := {
  OwnNamespace : string;
  AllNamespaces : bool;
  TargetNamespaces : list string;
  DisablePrometheusMetricsImporter : bool;
  EnableFinalizers : bool;
  cfg_QueryConfig : PrometheusQueryConfig;
  PrometheusDataSourceMaxQueryRangeDuration : Duration;
  PrometheusDataSourceMaxBackfillImportDuration : Duration;
  PrometheusDataSourceGlobalImportFromTime : option Time;
}.

Record TLSConfig := { UseTLS : bool; TLSCert : string; TLSKey : string }.

(** [TLSConfig.Valid]. *)
Definition Valid (cfg : TLSConfig) : outcome unit :=
  if UseTLS cfg then
    if String.eqb (TLSCert cfg) "" then Err (New "Must set TLS certificate if TLS is enabled")
    else if String.eqb (TLSKey cfg) "" then Err (New "Must set TLS private key if TLS is enabled")
    else Ok tt
  else Ok tt.

(** The namespace the informers watch ([operator.New]); all of them is [""]. *)
Definition informerNamespace (cfg : Config) : outcome string :=
  if AllNamespaces cfg then Ok ""
  else match TargetNamespaces cfg with
       | [ns] => Ok ns
       | _ :: _ :: _ =>
           Err (New "must set --all-namespaces if more than one namespace is passed to --target-namespaces")
       | [] => Ok (OwnNamespace cfg)
       end.

(** ** Keys *)

(** [cache.SplitMetaNamespaceKey]: one or two parts around slashes. *)
Definition SplitMetaNamespaceKey (key : string) : option (string * string) :=
  match SplitN2 key "/" with
  | [name] => Some ("", name)
  | [ns; name] => if Contains name "/" then None else Some (ns, name)
  | _ => None
  end.

(** ** Metadata *)
Definition set_meta (k : kind) : (ObjectMeta → ObjectMeta) → obj k → obj k :=
  match k with
  | KReport => λ f o, {| r_Meta := f (r_Meta o); r_Spec := r_Spec o; r_Status := r_Status o |}
  | KReportQuery => λ f o, {| q_Meta := f (q_Meta o); q_Spec := q_Spec o |}
  | KReportDataSource => λ f o,
      {| ds_Meta := f (ds_Meta o); ds_Spec := ds_Spec o; ds_Status := ds_Status o |}
  | KPrestoTable => λ f o,
      {| pt_Meta := f (pt_Meta o); pt_Unmanaged := pt_Unmanaged o; pt_Spec := pt_Spec o;
         pt_Status := pt_Status o |}
  | KHiveTable => λ f o,
      {| ht_Meta := f (ht_Meta o); ht_ManagePartitions := ht_ManagePartitions o; ht_Spec := ht_Spec o;
         ht_Status := ht_Status o |}
  | KStorageLocation => λ f o,
      {| sl_Meta := f (sl_Meta o); sl_Hive := sl_Hive o; sl_DatabaseName := sl_DatabaseName o;
         sl_Location := sl_Location o |}
  end.

Lemma meta_set_meta k f o : meta k (set_meta k f o) = f (meta k o).
Proof. by destruct k. Qed.

(** ** Finalizers *)
Definition reportFinalizer : string := GroupName +:+ "/report".
Definition reportDataSourceFinalizer : string := GroupName +:+ "/reportdatasource".
Definition prestoTableFinalizer : string := GroupName +:+ "/prestotable".
Definition hiveTableFinalizer : string := GroupName +:+ "/hivetable".
Definition storageLocationFinalizer : string := GroupName +:+ "/storagelocation".

(** [xNeedsFinalizer]: the same test for every kind. *)
Definition needsFinalizer (f : string) (m : ObjectMeta) : bool :=
  bool_decide (DeletionTimestamp m = None) && negb (ContainsString (Finalizers m) f None).

Definition append_finalizer (f : string) (m : ObjectMeta) : ObjectMeta :=
  set_Finalizers (Finalizers m ++ [f]) m.
Definition drop_finalizer (f : string) (m : ObjectMeta) : ObjectMeta :=
  set_Finalizers (RemoveString (Finalizers m) f None) m.

Section controllers.
Context {S : Type} `{!Env S}.

(** [addXFinalizer]: the object the server returns. *)
Definition addFinalizer (k : kind) (f : string) (o : obj k) : M S (obj k) :=
  Update k (set_meta k (append_finalizer f) o).

(** [removeXFinalizer]. *)
Definition removeFinalizer (k : kind) (f : string) (o : obj k) : M S (obj k) :=
  if negb (ContainsString (Finalizers (meta k o)) f None) then mret o
  else Update k (set_meta k (drop_finalizer f) o).

(** The client returns the zero object with an error, so a message built
    after a failed call names nothing. *)
Definition failed_name : string := "".

(** The first step of every handler. *)
Definition ensureFinalizer (cfg : Config) (k : kind) (f : string) (o : obj k) : M S (obj k) :=
  if EnableFinalizers cfg && needsFinalizer f (meta k o) then addFinalizer k f o else mret o.

(** The frame of every [syncX]: the object of the key is looked up in the
    cache; a malformed key or a missing object ends the sync. *)
Definition syncResource (k : kind) (key : string) (body : obj k → M S unit) : M S unit :=
  match SplitMetaNamespaceKey key with
  | None => mret tt
  | Some (namespace, name) =>
      r ← try (ListerGet k namespace name);
      match r with
      | inr err => if IsNotFound err then mret tt else fail err
      | inl o => body o
      end
  end.

(** The keys of stored objects are always computable, so the enqueue
    functions never take their error branch. *)
Definition enqueueReport : Report → M S unit := enqueue KReport.
Definition enqueueReportAfter : Report → Duration → M S unit := enqueueAfter KReport.
Definition enqueueReportDataSource : ReportDataSource → M S unit := enqueue KReportDataSource.
Definition enqueueReportDataSourceAfter : ReportDataSource → Duration → M S unit :=
  enqueueAfter KReportDataSource.
Definition enqueueReportQuery : ReportQuery → M S unit := enqueue KReportQuery.
Definition enqueuePrestoTable : PrestoTable → M S unit := enqueue KPrestoTable.
Definition enqueueHiveTable : HiveTable → M S unit := enqueue KHiveTable.
Definition enqueueStorageLocation : StorageLocation → M S unit := enqueue KStorageLocation.

(** [metav1.NewControllerRef(obj, gvk)] for a kind of this API group. *)
Definition GroupVersion : string := GroupName +:+ "/v1".
Definition NewControllerRef (m : ObjectMeta) (kindName : string) : OwnerReference :=
  {| or_APIVersion := GroupVersion; or_Kind := kindName; or_Name := Name m |}.
(** [%s] of a group-version-kind. *)
Definition gvk_string (kindName : string) : string := GroupVersion +:+ ", Kind=" +:+ kindName.

(** Metadata of a table resource created for [owner]. *)
Definition table_meta (cfg : Config) (owner : ObjectMeta) (kindName resourceName finalizer : string)
    : ObjectMeta :=
  {| Name := resourceName; Namespace := Namespace owner; ResourceVersion := "";
     Labels := Labels owner; Annotations := ∅;
     OwnerReferences := [NewControllerRef owner kindName];
     Finalizers := if EnableFinalizers cfg then [finalizer] else [];
     DeletionTimestamp := None |}.

(** [wait.Poll] on a condition: it is tried until it holds, fails or the
    time is up. *)
Fixpoint poll {A} (attempts : nat) (cond : M S (option A)) : M S A :=
  match attempts with
  | O => fail (MkError KWaitTimeout "timed out waiting for the condition")
  | Datatypes.S n =>
      r ← cond;
      match r with
      | Some a => mret a
      | None => poll n cond
      end
  end.
Definition Poll {A} (cond : M S (option A)) : M S A :=
  n ← read_pure poll_attempts;
  poll n cond.

(** A condition that gets a table and waits for it to be ready. *)
Definition table_ready (k : kind) (ready : obj k → bool) (namespace name : string)
    : M S (option (obj k)) :=
  r ← try (Get k namespace name);
  match r with
  | inr err => if IsNotFound err then mret None else fail err
  | inl o => mret (if ready o then Some o else None)
  end.
Definition on_timeout (msg : string) (e : error) : error :=
  if bool_decide (err_kind_of e = KWaitTimeout) then New msg else e.
End controllers.

(** ** Facts *)
Lemma needsFinalizer_append f m : needsFinalizer f (append_finalizer f m) = false.
Proof.
  unfold needsFinalizer. simpl. rewrite ContainsString_app. simpl. unfold matches.
  rewrite String.eqb_refl. simpl. by rewrite orb_true_r, andb_false_r.
Qed.

Lemma drop_append_finalizer f m :
  needsFinalizer f m = true → drop_finalizer f (append_finalizer f m) = m.
Proof.
  unfold needsFinalizer, drop_finalizer. simpl. intros [_ H%negb_true_iff]%andb_prop.
  rewrite RemoveString_append by done. by destruct m.
Qed.

(** The enqueue functions emit one event. *)
Ltac unfold_enqueue :=
  unfold enqueueReport, enqueueReportAfter, enqueueReportDataSource, enqueueReportDataSourceAfter,
    enqueueReportQuery, enqueuePrestoTable, enqueueHiveTable, enqueueStorageLocation.
