(* ===== verification/Storage.v ===== *)
(** * Storage locations
    (src/pkg/operator/storage.go, src/pkg/operator/storagelocations.go) *)

From S2P Require Export Operator Columns.
Open Scope Z_scope.

Definition set_sl_status (databaseName location : string) (s : StorageLocation) : StorageLocation :=
  {| sl_Meta := sl_Meta s; sl_Hive := sl_Hive s; sl_DatabaseName := databaseName;
     sl_Location := location |}.

Section storage.
Context {S : Type} `{!Env S} (cfg : Config) {UT : UnicodeTables}.

(** ** Choosing a storage location *)
Definition is_default (s : StorageLocation) : Prop :=
  Annotations (sl_Meta s) !! IsDefaultStorageLocationAnnotation = Some "true".

Definition getDefaultStorageLocation (namespace : string) : M S (option StorageLocation) :=
  storageLocations ← ListerList KStorageLocation namespace;
  match filter is_default storageLocations with
  | [] => mret None
  | [s] => mret (Some s)
  | defaults =>
      fail (Errorf "%d defaultStorageLocations were found" [FInt (Z.of_nat (length defaults))])
  end.

(** The last return of the function is unreachable. *)
Definition getStorage (storage : option StorageLocationRef) (namespace : string) : M S StorageLocation :=
  let name := match storage with Some r => StorageLocationName r | None => "" end in
  if String.eqb name "" then
    storageLocation ← getDefaultStorageLocation namespace;
    match storageLocation with
    | Some s => mret s
    | None => fail (Errorf "storage spec or storageLocationName not set and namespace %s has no default StorageLocation"
                      [FStr namespace])
    end
  else ListerGet KStorageLocation namespace name.

Definition getHiveStorage (storageRef : option StorageLocationRef) (namespace : string)
    : M S (StorageLocation * HiveStorage) :=
  storageLocation ← getStorage storageRef namespace;
  match sl_Hive storageLocation with
  | None => fail (New "incorrect storage configuration, has no Hive storage configuration")
  | Some hive => mret (storageLocation, hive)
  end.

(** ** Dependents *)

(** The storage is looked up; an error is collected, a match is enqueued. *)
Definition enqueue_if_stored_in (storageLocation : StorageLocation) (ref : option StorageLocationRef)
    (namespace : string) (enq : M S unit) (errs : list string) : M S (list string) :=
  r ← try (getStorage ref namespace);
  match r with
  | inr err => mret (errs ++ [Error err])
  | inl storage =>
      if String.eqb (Name (sl_Meta storage)) (Name (sl_Meta storageLocation)) then
        _ ← enq; mret errs
      else mret errs
  end.

Definition queue_datasource (storageLocation : StorageLocation) (ds : ReportDataSource)
    (errs : list string) : M S (list string) :=
  if negb (String.eqb (dst_TableRef (ds_Status ds)) "") then mret errs
  else match ds_PrometheusMetricsImporter (ds_Spec ds) with
       | Some p => enqueue_if_stored_in storageLocation (pm_Storage p) (Namespace (ds_Meta ds))
             (enqueueReportDataSource ds) errs
       | None =>
           match ds_AWSBilling (ds_Spec ds) with
           | Some a =>
               if String.eqb (aws_DatabaseName a) "" then
                 enqueue_if_stored_in storageLocation None (Namespace (ds_Meta ds))
                   (enqueueReportDataSource ds) errs
               else mret errs
           | None => mret errs
           end
       end.

Definition queue_report (storageLocation : StorageLocation) (report : Report) (errs : list string)
    : M S (list string) :=
  if negb (String.eqb (rst_TableRef (r_Status report)) "") then mret errs
  else enqueue_if_stored_in storageLocation (rs_Output (r_Spec report)) (Namespace (r_Meta report))
    (enqueueReport report) errs.

Fixpoint collect {A} (l : list A) (f : A → list string → M S (list string)) (errs : list string)
    : M S (list string) :=
  match l with
  | [] => mret errs
  | x :: l => errs ← f x errs; collect l f errs
  end.

Definition queueDependentsOfStorageLocation (storageLocation : StorageLocation) : M S unit :=
  reports ← ListerList KReport (Namespace (sl_Meta storageLocation));
  datasources ← ListerList KReportDataSource (Namespace (sl_Meta storageLocation));
  errs ← collect datasources (queue_datasource storageLocation) [];
  errs ← collect reports (queue_report storageLocation) errs;
  match errs with
  | [] => mret tt
  | _ => fail (Errorf "got errors queuing dependents of StorageLocation %s: %s"
                 [FStr (Name (sl_Meta storageLocation)); FStr (Join errs ", ")])
  end.

(** ** Handling *)

(** What the status becomes, and whether it changed. *)
Definition unmanaged_status (hive : HiveStorage) (s : StorageLocation) : StorageLocation * bool :=
  (set_sl_status (hs_DatabaseName hive) (hs_Location hive) s,
   negb (bool_decide (sl_DatabaseName s = hs_DatabaseName hive)) ||
   negb (bool_decide (sl_Location s = hs_Location hive))).

Definition managed_database (hive : HiveStorage) (s : StorageLocation) : M S (StorageLocation * bool) :=
  if String.eqb (hs_DatabaseName hive) "" then
    fail (New "spec.hive.databaseName is required if spec.hive is set")
  else if negb (IsValidSQLIdentifier (hs_DatabaseName hive)) then
    fail (Errorf "spec.hive.databaseName %s is invalid, must contain only alpha numeric values, underscores, and start with a letter or underscore"
            [FStr (hs_DatabaseName hive)])
  else if String.eqb (sl_DatabaseName s) "" then
    _ ← map_err (λ err, Errorf "error creating database %s: %s"
                   [FStr (hs_DatabaseName hive); FStr (Error err)])
      (exec (AHiveCreateDatabase {| hive.db_Name := hs_DatabaseName hive;
                                    hive.db_Location := hs_Location hive |}));
    mret (set_sl_status (hs_DatabaseName hive) (hs_Location hive) s, true)
  else mret (s, false).

Definition handleStorageLocation (storageLocation : StorageLocation) : M S unit :=
  storageLocation ← ensureFinalizer cfg KStorageLocation storageLocationFinalizer storageLocation;
  '(storageLocation, needsUpdate) ←
    match sl_Hive storageLocation with
    | Some hive =>
        if UnmanagedDatabase hive then mret (unmanaged_status hive storageLocation)
        else managed_database hive storageLocation
    | None => fail (New "only Hive storage is supported currently")
    end;
  if (needsUpdate : bool) then
    storageLocation ←
      map_err (λ err, Errorf "unable to update StorageLocation %s status: %s"
                 [FStr failed_name; FStr (Error err)])
        (Update KStorageLocation storageLocation);
    log_err (queueDependentsOfStorageLocation storageLocation)
  else mret tt.

Definition addStorageLocationFinalizer : StorageLocation → M S StorageLocation :=
  addFinalizer KStorageLocation storageLocationFinalizer.
Definition removeStorageLocationFinalizer : StorageLocation → M S StorageLocation :=
  removeFinalizer KStorageLocation storageLocationFinalizer.
Definition storageLocationNeedsFinalizer (s : StorageLocation) : bool :=
  needsFinalizer storageLocationFinalizer (sl_Meta s).

(** The database is dropped without CASCADE. *)
Definition deleteStorage (s : StorageLocation) : M S unit :=
  match sl_Hive s with
  | Some hive =>
      if negb (UnmanagedDatabase hive) && negb (String.eqb (sl_DatabaseName s) "")
      then exec (AHiveDropDatabase (sl_DatabaseName s) true false)
      else mret tt
  | None => mret tt
  end.

Definition syncStorageLocation (key : string) : M S unit :=
  syncResource KStorageLocation key (λ storage,
    match DeletionTimestamp (sl_Meta storage) with
    | Some _ =>
        _ ← deleteStorage storage;
        _ ← removeStorageLocationFinalizer storage;
        mret tt
    | None => handleStorageLocation storage
    end).
End storage.
