(* ===== verification/PrestoTables.v ===== *)
(** * Presto tables (src/pkg/operator/prestotables.go) *)

From S2P Require Export Operator Columns.
Open Scope Z_scope.

(** ** Spec to status *)
Definition with_pt_status (st : PrestoTableInfo) (t : PrestoTable) : PrestoTable :=
  {| pt_Meta := pt_Meta t; pt_Unmanaged := pt_Unmanaged t; pt_Spec := pt_Spec t; pt_Status := st |}.

(** A copy into a slice of the length of the status' columns; what the source
    does not fill stays zero. *)
Definition copy_columns (n : nat) (src : list presto.Column) : list presto.Column :=
  take n src ++ replicate (n - length src) (presto.MkColumn "" "").

(** Both sides of the comparison are copied from the spec. *)
Definition columns_changed (spec status : PrestoTableInfo) : bool :=
  negb (bool_decide (
    (* statusColCopy *)
    sort_by presto.col_Name (copy_columns (length (pt_Columns status)) (pt_Columns spec)) =
    (* specColCopy *)
    sort_by presto.col_Name (copy_columns (length (pt_Columns spec)) (pt_Columns spec)))).

Definition changed {A} `{EqDecision A} (a b : A) : bool := negb (bool_decide (a = b)).

Definition copyPrestoTableSpecToStatus (t : PrestoTable) : PrestoTable * bool :=
  let spec := pt_Spec t in let st := pt_Status t in
  (with_pt_status
     {| pt_Catalog := pt_Catalog spec; pt_Schema := pt_Schema spec; pt_TableName := pt_TableName spec;
        pt_Columns := if columns_changed spec st then pt_Columns spec else pt_Columns st;
        pt_Properties := pt_Properties spec; pt_Comment := pt_Comment spec; pt_View := pt_View spec;
        pt_CreateTableAs := pt_CreateTableAs spec; pt_Query := pt_Query spec |} t,
   changed (pt_Catalog st) (pt_Catalog spec) || changed (pt_Schema st) (pt_Schema spec) ||
   changed (pt_TableName st) (pt_TableName spec) || columns_changed spec st ||
   changed (pt_Properties st) (pt_Properties spec) || changed (pt_Comment st) (pt_Comment spec) ||
   changed (pt_View st) (pt_View spec) || changed (pt_CreateTableAs st) (pt_CreateTableAs spec) ||
   changed (pt_Query st) (pt_Query spec)).

Section presto_tables.
Context {S : Type} `{!Env S} (cfg : Config).

Definition addPrestoTableFinalizer : PrestoTable → M S PrestoTable :=
  addFinalizer KPrestoTable prestoTableFinalizer.
Definition removePrestoTableFinalizer : PrestoTable → M S PrestoTable :=
  removeFinalizer KPrestoTable prestoTableFinalizer.
Definition prestoTableNeedsFinalizer (t : PrestoTable) : bool :=
  needsFinalizer prestoTableFinalizer (pt_Meta t).

(** The last return of the function is unreachable. *)
Definition dropPrestoTable (t : PrestoTable) : M S unit :=
  if negb (pt_Unmanaged t) then
    let st := pt_Status t in
    if String.eqb (pt_TableName st) "" then mret tt
  else if pt_View st then exec (APrestoDropView (pt_Catalog st) (pt_Schema st) (pt_TableName st) true)
  else exec (APrestoDropTable (pt_Catalog st) (pt_Schema st) (pt_TableName st) true)
  else fail (New "cannot drop unmanaged PrestoTable").

Definition queueDependentsOfPrestoTable (t : PrestoTable) : M S unit :=
  reports ← ListerList KReport (Namespace (pt_Meta t));
  datasources ← ListerList KReportDataSource (Namespace (pt_Meta t));
  _ ← for_each datasources (λ ds,
    match ds_PrestoTable (ds_Spec ds) with
    | Some ref => if String.eqb ref (Name (pt_Meta t)) then enqueueReportDataSource ds else mret tt
    | None => mret tt
    end);
  for_each reports (λ report,
    if String.eqb (rst_TableRef (r_Status report)) (Name (pt_Meta t)) then enqueueReport report
    else mret tt).

(** The checks on the spec, in order. *)
Definition validatePrestoTable (t : PrestoTable) : outcome unit :=
  let spec := pt_Spec t in
  if String.eqb (pt_Catalog spec) "" then Err (New "spec.catalog must be set")
  else if String.eqb (pt_Schema spec) "" then Err (New "spec.schema must be set")
  else if String.eqb (pt_TableName spec) "" then Err (New "spec.tableName must be set")
  else if (length (pt_Columns spec) =? 0)%nat then Err (New "spec.columns must be non-empty")
  else if pt_CreateTableAs spec && pt_View spec then
    Err (New "spec.createTableAs and spec.view are mutually exclusive")
  else Ok tt.

(** The statement that creates the table or view. *)
Definition create_action (spec : PrestoTableInfo) : action :=
  if pt_View spec then
    APrestoCreateView (pt_Catalog spec) (pt_Schema spec) (pt_TableName spec) (pt_Query spec)
  else if negb (pt_CreateTableAs spec) then
    APrestoCreateTable (pt_Catalog spec) (pt_Schema spec) (pt_TableName spec) (pt_Columns spec)
      (pt_Comment spec) (pt_Properties spec) true
  else
    APrestoCreateTableAs (pt_Catalog spec) (pt_Schema spec) (pt_TableName spec) (pt_Columns spec)
      (pt_Comment spec) (pt_Properties spec) false (pt_Query spec).

Definition create_in_presto (t : PrestoTable) : M S unit :=
  let tableStr := if pt_View (pt_Spec t) then "view" else "table" in
  map_err (λ err, Errorf "error creating %s %s: %s"
             [FStr tableStr; FStr (pt_TableName (pt_Spec t)); FStr (Error err)])
    (exec (create_action (pt_Spec t))).

(** The status follows the spec; dependents are queued when it changed. *)
Definition record_status (t : PrestoTable) : M S unit :=
  let '(t, needsUpdate) := copyPrestoTableSpecToStatus t in
  if (needsUpdate : bool) then
    t ← map_err (λ err, Errorf "unable to update PrestoTable %s status: %s"
                   [FStr failed_name; FStr (Error err)])
      (Update KPrestoTable t);
    log_err (queueDependentsOfPrestoTable t)
  else mret tt.

Definition handlePrestoTable (t : PrestoTable) : M S unit :=
  t ← ensureFinalizer cfg KPrestoTable prestoTableFinalizer t;
  _ ← ret_out (validatePrestoTable t);
  if negb (String.eqb (pt_TableName (pt_Status t)) "") then mret tt
  else
    _ ← (if pt_Unmanaged t then mret tt else create_in_presto t);
    record_status t.

Definition syncPrestoTable (key : string) : M S unit :=
  syncResource KPrestoTable key (λ pt,
    match DeletionTimestamp (pt_Meta pt) with
    | Some _ =>
        _ ← (if negb (pt_Unmanaged pt) then dropPrestoTable pt else mret tt);
        _ ← removePrestoTableFinalizer pt;
        mret tt
    | None => handlePrestoTable pt
    end).

Definition createPrestoTableCR (owner : ObjectMeta) (kindName catalog schema tableName : string)
    (columns : list presto.Column) (unmanaged view : bool) (query : string) : M S PrestoTable :=
  let namespace := Namespace owner in
  let resourceName := TableResourceNameFromKind kindName namespace (Name owner) in
  let empty := {| pt_Catalog := ""; pt_Schema := ""; pt_TableName := ""; pt_Columns := [];
                  pt_Properties := None; pt_Comment := ""; pt_View := false;
                  pt_CreateTableAs := false; pt_Query := "" |} in
  let newPrestoTable :=
    {| pt_Meta := table_meta cfg owner kindName resourceName prestoTableFinalizer;
       pt_Unmanaged := unmanaged;
       pt_Spec := {| pt_Catalog := catalog; pt_Schema := schema; pt_TableName := tableName;
                     pt_Columns := columns; pt_Properties := None; pt_Comment := "";
                     pt_View := view; pt_CreateTableAs := false; pt_Query := query |};
       pt_Status := empty |} in
  r ← try (Create KPrestoTable newPrestoTable);
  match r with
  | inl prestoTable => mret prestoTable
  | inr err =>
      if IsAlreadyExists err then ListerGet KPrestoTable namespace resourceName
      else fail (Errorf "couldn't create PrestoTable resource for %s %s: %v"
                   [FStr (gvk_string kindName); FStr (Name owner); FStr (Error err)])
  end.

Definition waitForPrestoTable (namespace name : string) : M S PrestoTable :=
  map_err (on_timeout "timed out waiting for Hive table to be created")
    (Poll (table_ready KPrestoTable (λ t, negb (String.eqb (pt_TableName (pt_Status t)) ""))
             namespace name)).
End presto_tables.

(** ** Facts *)
#[global] Arguments copyPrestoTableSpecToStatus : simpl never.
Section presto_facts.
Context {S : Type} `{!Env S} (cfg : Config).

Definition presto_ddl (a : action) : bool :=
  match a with
  | APrestoCreateTable _ _ _ _ _ _ _ | APrestoCreateTableAs _ _ _ _ _ _ _ _
  | APrestoCreateView _ _ _ _ | APrestoDropTable _ _ _ _ | APrestoDropView _ _ _ _ => true
  | _ => false
  end.

Lemma validate_tableName t : validatePrestoTable t = Ok tt → "" ≠ pt_TableName (pt_Spec t).
Proof.
  unfold validatePrestoTable. intros H E. rewrite <- E in H. simpl in H.
  destruct (String.eqb (pt_Catalog (pt_Spec t)) ""); [done|].
  by destruct (String.eqb (pt_Schema (pt_Spec t)) "").
Qed.

Lemma queueDependentsOfPrestoTable_emits t :
  emits (λ e, ∃ k key, ev_action e = AEnqueue k key) (queueDependentsOfPrestoTable t : M S unit).
Proof.
  unfold queueDependentsOfPrestoTable, ListerList, enqueueReportDataSource, enqueueReport, enqueue.
  emits_tac; simpl; eauto.
Qed.

(** The part of the handler after the finalizer, on a table to create. *)
Definition create_run (t : PrestoTable) (r : outcome unit) (w w' : world S) : Prop :=
  let created := if pt_Unmanaged t then [] else [Ev (create_action (pt_Spec t)) true] in
  let updated ok := Ev (AUpdate KPrestoTable (copyPrestoTableSpecToStatus t).1) ok in
  (* the creation failed: nothing else happens *)
    (pt_Unmanaged t = false ∧ r ≠ Ok tt ∧
     trace w' = trace w ++ [Ev (create_action (pt_Spec t)) false]) ∨
  (* the status could not be written *)
    (r ≠ Ok tt ∧ trace w' = trace w ++ created ++ [updated false]) ∨
  (* the status was written, and then dependents are queued *)
    (∃ q, trace w' = trace w ++ created ++ [updated true] ++ q ∧
     Forall (λ e, ∃ k key, ev_action e = AEnqueue k key) q).

Lemma record_status_run t created r (w w0 w' : world S) :
  validatePrestoTable t = Ok tt → pt_TableName (pt_Status t) = "" →
  trace w0 = trace w ++ created → record_status t w0 = (r, w') →
  (r ≠ Ok tt ∧
   trace w' = trace w ++ created ++ [Ev (AUpdate KPrestoTable (copyPrestoTableSpecToStatus t).1) false]) ∨
  (∃ q, trace w' = trace w ++ created ++
   [Ev (AUpdate KPrestoTable (copyPrestoTableSpecToStatus t).1) true] ++ q ∧
   Forall (λ e, ∃ k key, ev_action e = AEnqueue k key) q).
Proof.
  intros Hvalid Hnew Hw0. unfold record_status.
  assert ((copyPrestoTableSpecToStatus t).2 = true) as Hupd.
  { unfold copyPrestoTableSpecToStatus. simpl. rewrite Hnew.
    assert (changed "" (pt_TableName (pt_Spec t)) = true) as ->; [|by rewrite !orb_true_r].
    unfold changed. rewrite bool_decide_false; [done|]. intros E. by apply (validate_tableName t). }
  destruct (copyPrestoTableSpecToStatus t) as [t1 upd]. simpl in *. subst upd. intros H.
  rewrite bind_run in H. unfold map_err in H.
  destruct (Update KPrestoTable t1 w0) as [o w1] eqn:E. apply effect_trace in E as [E _].
  rewrite Hw0, <- app_assoc in E. destruct o as [t2|e|p]; simpl in *.
  - right. pose proof (emits_log_err _ _ (queueDependentsOfPrestoTable_emits t2) w1) as (q & Hq & Hall).
    rewrite H in Hq. simpl in Hq. exists q. split; [|done]. by rewrite Hq, E, <- !app_assoc.
  - left. by simplify_eq.
  - left. by simplify_eq.
Qed.

(** a valid PrestoTable that has not been created yet is created by
    exactly one statement, the one of its kind, and not at all when it is
    unmanaged; the status is written only after that statement succeeded,
    as a copy of the spec, and dependents are queued only after the status
    is written. *)
Theorem handlePrestoTable_creates t w r w' :
  needsFinalizer prestoTableFinalizer (pt_Meta t) = false →
  validatePrestoTable t = Ok tt → pt_TableName (pt_Status t) = "" →
  handlePrestoTable cfg t w = (r, w') → create_run t r w w'.
Proof.
  intros Hfin Hvalid Hnew. unfold handlePrestoTable, ensureFinalizer. simpl.
  rewrite Hfin, andb_false_r. rewrite bind_run. simpl. rewrite bind_run.
  unfold ret_out at 1. rewrite Hvalid, Hnew. simpl. rewrite bind_run.
  unfold create_run. destruct (pt_Unmanaged t).
  { unfold mret at 1, M_ret at 1. intros H. right. by apply (record_status_run t [] r w) in H; [| |done|rewrite app_nil_r]. }
  unfold create_in_presto, map_err, exec.
  destruct (effect _ _ w) as [o w1] eqn:E. apply effect_trace in E as [E _].
  destruct o as [[]|e|p]; simpl in E.
  - intros H. right. by eapply record_status_run in H.
  - intros H. left. by simplify_eq.
  - intros H. left. by simplify_eq.
Qed.

(** the status' columns follow the spec's only when their number changes:
    the comparison copies both sides from the spec. *)
Theorem copyPrestoTableSpecToStatus_columns t :
  length (pt_Columns (pt_Status t)) = length (pt_Columns (pt_Spec t)) →
  pt_Columns (pt_Status (copyPrestoTableSpecToStatus t).1) = pt_Columns (pt_Status t).
Proof.
  intros Hlen. unfold copyPrestoTableSpecToStatus. simpl. unfold columns_changed. rewrite Hlen. by rewrite bool_decide_true.
Qed.
End presto_facts.

(** ** A concrete table *)
Definition info0 (name : string) (cols : list presto.Column) : PrestoTableInfo :=
  {| pt_Catalog := if String.eqb name "" then "" else "hive";
     pt_Schema := if String.eqb name "" then "" else "metering"; pt_TableName := name; pt_Columns := cols;
     pt_Properties := None; pt_Comment := ""; pt_View := false; pt_CreateTableAs := false; pt_Query := "" |}.
Definition presto0 : PrestoTable :=
  {| pt_Meta := meta_of "ns" "t"; pt_Unmanaged := false;
     pt_Spec := info0 "t" [presto.MkColumn "amount" "double"]; pt_Status := info0 "" [] |}.
Definition config0 (finalizers : bool) : Config :=
  {| OwnNamespace := "ns"; AllNamespaces := false; TargetNamespaces := [];
     DisablePrometheusMetricsImporter := false; EnableFinalizers := finalizers;
     cfg_QueryConfig := {| QueryInterval := Some (5 * Minute); StepSize := Some Minute;
                           ChunkSize := Some (5 * Minute) |};
     PrometheusDataSourceMaxQueryRangeDuration := 10 * Minute;
     PrometheusDataSourceMaxBackfillImportDuration := 2 * Hour;
     PrometheusDataSourceGlobalImportFromTime := None |}.

Definition presto1 : PrestoTable :=
  {| pt_Meta := set_Finalizers [prestoTableFinalizer] (pt_Meta presto0);
     pt_Unmanaged := false; pt_Spec := pt_Spec presto0; pt_Status := pt_Status presto0 |}.
Definition presto_world : world Mem := world0 (add_obj KPrestoTable presto0 mem0).

Lemma handlePrestoTable_creates_witness : ∃ w',
  handlePrestoTable (config0 false) presto1 presto_world = (Ok tt, w') ∧ length (trace w') = 2%nat ∧
  create_run presto1 (Ok tt) presto_world w'.
Proof.
  destruct (run_Ok (handlePrestoTable (config0 false) presto1 presto_world)
    (λ _ w', length (trace w') = 2%nat)) as ([] & w' & H & Hl); [vm_compute; reflexivity|].
  exists w'. split; [exact H|]. split; [exact Hl|].
  apply (handlePrestoTable_creates (config0 false)); [reflexivity..|exact H].
Defined.

Lemma copyPrestoTableSpecToStatus_columns_witness :
  let t := with_pt_status (info0 "t" [presto.MkColumn "old" "varchar"]) presto0 in
  pt_Columns (pt_Status (copyPrestoTableSpecToStatus t).1) = [presto.MkColumn "old" "varchar"].
Proof.
  apply (copyPrestoTableSpecToStatus_columns
           (with_pt_status (info0 "t" [presto.MkColumn "old" "varchar"]) presto0)). reflexivity.
Defined.
