(* ===== verification/HiveTables.v ===== *)
(** * Hive tables and their partitions (src/pkg/operator/hivetables.go) *)

From S2P Require Export PrestoTables.
Open Scope Z_scope.

(** ** Partition changes *)

(** [sets.String.UnsortedList]: the elements in an unspecified order. *)
Class SetOrder := {
  UnsortedList : gset string → list string;
  UnsortedList_perm s : UnsortedList s ≡ₚ elements s;
}.
#[export] Instance elements_order : SetOrder :=
  {| UnsortedList := elements; UnsortedList_perm := λ s, reflexivity _ |}.

Record partitionChanges := {
  toRemovePartitions : list hive.TablePartition;
  toAddPartitions : list hive.TablePartition;
  toUpdatePartitions : list hive.TablePartition;
}.

(** The identifier of a partition: its column values; a value missing from the
    spec reads as the empty string. *)
Definition setID (partitionColumns : list hive.Column) (p : hive.TablePartition) : string :=
  Join ((λ col, default "" (hive.tp_Spec p !! hive.col_Name col)) <$> partitionColumns) "-".

(** The map from identifiers back to partitions; later entries win. *)
Definition add_lookup (cols : list hive.Column) (ps : list hive.TablePartition)
    (m : gmap string hive.TablePartition) : gmap string hive.TablePartition :=
  fold_left (λ m p, <[setID cols p := p]> m) ps m.

Definition ids (cols : list hive.Column) (ps : list hive.TablePartition) : gset string :=
  list_to_set (setID cols <$> ps).

Definition getPartitionChanges `{!SetOrder} (partitionColumns : list hive.Column)
    (current desired : list hive.TablePartition) : partitionChanges :=
  let currSet := ids partitionColumns current in
  let desiredSet := ids partitionColumns desired in
  let lookup := add_lookup partitionColumns desired (add_lookup partitionColumns current ∅) in
  let toRemove := currSet ∖ desiredSet in
  let toAdd := desiredSet ∖ currSet in
  let toUpdate := currSet ∩ desiredSet in
  let pick (s : gset string) := omap (λ id, lookup !! id) (UnsortedList s) in
  {| toRemovePartitions := pick toRemove; toAddPartitions := pick toAdd;
     toUpdatePartitions := pick toUpdate |}.

(** ** Spec to status *)
Definition with_ht_status (st : HiveTableInfo) (t : HiveTable) : HiveTable :=
  {| ht_Meta := ht_Meta t; ht_ManagePartitions := ht_ManagePartitions t; ht_Spec := ht_Spec t;
     ht_Status := st |}.
Definition set_status_partitions (ps : list hive.TablePartition) (t : HiveTable) : HiveTable :=
  let st := ht_Status t in
  with_ht_status
    {| ht_DatabaseName := ht_DatabaseName st; ht_TableName := ht_TableName st;
       ht_Columns := ht_Columns st; ht_PartitionedBy := ht_PartitionedBy st;
       ht_ClusteredBy := ht_ClusteredBy st; ht_SortedBy := ht_SortedBy st;
       ht_NumBuckets := ht_NumBuckets st; ht_Location := ht_Location st;
       ht_RowFormat := ht_RowFormat st; ht_FileFormat := ht_FileFormat st;
       ht_TableProperties := ht_TableProperties st; ht_External := ht_External st;
       ht_Partitions := ps |} t.

Definition table_parameters (spec : HiveTableInfo) : hive.TableParameters :=
  {| hive.p_Database := ht_DatabaseName spec; hive.p_Name := ht_TableName spec;
     hive.p_Columns := ht_Columns spec; hive.p_PartitionedBy := ht_PartitionedBy spec;
     hive.p_ClusteredBy := ht_ClusteredBy spec; hive.p_SortedBy := ht_SortedBy spec;
     hive.p_NumBuckets := ht_NumBuckets spec; hive.p_Location := ht_Location spec;
     hive.p_RowFormat := ht_RowFormat spec; hive.p_FileFormat := ht_FileFormat spec;
     hive.p_TableProperties := ht_TableProperties spec; hive.p_External := ht_External spec |}.

Definition empty_table_info : HiveTableInfo :=
  {| ht_DatabaseName := ""; ht_TableName := ""; ht_Columns := []; ht_PartitionedBy := [];
     ht_ClusteredBy := []; ht_SortedBy := []; ht_NumBuckets := 0; ht_Location := "";
     ht_RowFormat := ""; ht_FileFormat := ""; ht_TableProperties := None; ht_External := false;
     ht_Partitions := [] |}.

Section hive_tables.
Context {S : Type} `{!Env S} (cfg : Config) {SO : SetOrder}.

Definition addHiveTableFinalizer : HiveTable → M S HiveTable :=
  addFinalizer KHiveTable hiveTableFinalizer.
Definition removeHiveTableFinalizer : HiveTable → M S HiveTable :=
  removeFinalizer KHiveTable hiveTableFinalizer.
Definition hiveTableNeedsFinalizer (t : HiveTable) : bool :=
  needsFinalizer hiveTableFinalizer (ht_Meta t).

Definition dropHiveTable (t : HiveTable) : M S unit :=
  let tableName := ht_TableName (ht_Status t) in
  let databaseName := ht_DatabaseName (ht_Status t) in
  if String.eqb tableName "" then mret tt
  else exec (AHiveDropTable databaseName tableName true).

(** The PrestoTable that mirrors a Hive table. *)
Definition presto_mirror (t : HiveTable) (prestoColumns : list presto.Column) : PrestoTable :=
  let empty := {| pt_Catalog := ""; pt_Schema := ""; pt_TableName := ""; pt_Columns := [];
                  pt_Properties := None; pt_Comment := ""; pt_View := false;
                  pt_CreateTableAs := false; pt_Query := "" |} in
  {| pt_Meta := {| Name := Name (ht_Meta t); Namespace := Namespace (ht_Meta t);
                   ResourceVersion := ""; Labels := Labels (ht_Meta t); Annotations := ∅;
                   OwnerReferences := [NewControllerRef (ht_Meta t) "HiveTable"];
                   Finalizers := []; DeletionTimestamp := None |};
     pt_Unmanaged := true;
     pt_Spec := {| pt_Catalog := "hive"; pt_Schema := ht_DatabaseName (ht_Status t);
                   pt_TableName := ht_TableName (ht_Status t); pt_Columns := prestoColumns;
                   pt_Properties := None; pt_Comment := ""; pt_View := false;
                   pt_CreateTableAs := false; pt_Query := "" |};
     pt_Status := empty |}.

(** Creating the table in Hive, recording it in the status, and creating the
    mirror.  With an error the client returns the zero PrestoTable, whose
    status has no table name, so an existing mirror is an error too. *)
Definition create_in_hive (t : HiveTable) : M S HiveTable :=
  let spec := ht_Spec t in
  _ ← map_err (λ err, Errorf "couldn't create table %s in Hive: %v"
                 [FStr (ht_TableName spec); FStr (Error err)])
    (exec (AHiveCreateTable (table_parameters spec) true));
  t ← Update KHiveTable (with_ht_status spec t);
  prestoColumns ←
    map_err (λ err, Errorf "unable to create PrestoTable %s, error converting Hive columns to Presto columns: %s"
               [FStr (Name (ht_Meta t)); FStr (Error err)])
      (ret_out (HiveColumnsToPrestoColumns (ht_Columns (ht_Spec t) ++ ht_PartitionedBy (ht_Spec t))));
  _ ← map_err (λ err, Errorf "couldn't create PrestoTable resource %s: %v"
                 [FStr (Name (ht_Meta t)); FStr (Error err)])
    (Create KPrestoTable (presto_mirror t prestoColumns));
  mret t.

Definition loc_str (p : hive.TablePartition) : string :=
  if String.eqb (hive.tp_Location p) "" then "" else "location " +:+ hive.tp_Location p.

Definition drop_partition (tableName : string) (cols : list hive.Column) (p : hive.TablePartition)
    : M S unit :=
  map_err (λ err, Errorf "failed to drop partition %s %s from Hive table %q: %s"
             [FStr (Hive.FmtPartitionSpec cols (hive.tp_Spec p)); FStr (loc_str p);
              FStr tableName; FStr (Error err)])
    (exec (AHiveDropPartition tableName cols p)).
Definition add_partition (tableName : string) (cols : list hive.Column) (p : hive.TablePartition)
    : M S unit :=
  map_err (λ err, Errorf "failed to add partition %s %s to Hive table %q: %s"
             [FStr (Hive.FmtPartitionSpec cols (hive.tp_Spec p)); FStr (loc_str p);
              FStr tableName; FStr (Error err)])
    (exec (AHiveAddPartition tableName cols p)).

(** A partition to update is dropped, then added back. *)
Definition manage_partitions (t : HiveTable) : M S unit :=
  let currentPartitions := ht_Partitions (ht_Status t) in
  let desiredPartitions := ht_Partitions (ht_Spec t) in
  let cols := ht_PartitionedBy (ht_Spec t) in
  let changes := getPartitionChanges cols currentPartitions desiredPartitions in
  let toRemove := toRemovePartitions changes ++ toUpdatePartitions changes in
  let toAdd := toAddPartitions changes ++ toUpdatePartitions changes in
  let tableName := ht_TableName (ht_Status t) in
  _ ← for_each toRemove (drop_partition tableName cols);
  _ ← for_each toAdd (add_partition tableName cols);
  _ ← Update KHiveTable (set_status_partitions desiredPartitions t);
  emit (ACounter HiveTablePartitions (Z.of_nat (length desiredPartitions))).

Definition handleHiveTable (t : HiveTable) : M S unit :=
  t ← ensureFinalizer cfg KHiveTable hiveTableFinalizer t;
  if String.eqb (ht_TableName (ht_Spec t)) "" then fail (New "spec.tableName must be set")
  else if (length (ht_Columns (ht_Spec t)) =? 0)%nat then fail (New "spec.columns must be non-empty")
  else
    t ← (if negb (String.eqb (ht_TableName (ht_Status t)) "") then mret t else create_in_hive t);
    if ht_ManagePartitions t then manage_partitions t else mret tt.

Definition syncHiveTable (key : string) : M S unit :=
  syncResource KHiveTable key (λ pt,
    match DeletionTimestamp (ht_Meta pt) with
    | Some _ =>
        _ ← dropHiveTable pt;
        _ ← removeHiveTableFinalizer pt;
        mret tt
    | None => handleHiveTable pt
    end).

(** [params.FileFormat] is not copied. *)
Definition createHiveTableCR (owner : ObjectMeta) (kindName : string) (params : hive.TableParameters)
    (managePartitions : bool) (partitions : list hive.TablePartition) : M S HiveTable :=
  let namespace := Namespace owner in
  let resourceName := TableResourceNameFromKind kindName namespace (Name owner) in
  let newHiveTable :=
    {| ht_Meta := table_meta cfg owner kindName resourceName hiveTableFinalizer;
       ht_ManagePartitions := managePartitions;
       ht_Spec := {| ht_DatabaseName := hive.p_Database params; ht_TableName := hive.p_Name params;
                     ht_Columns := hive.p_Columns params; ht_PartitionedBy := hive.p_PartitionedBy params;
                     ht_ClusteredBy := hive.p_ClusteredBy params; ht_SortedBy := hive.p_SortedBy params;
                     ht_NumBuckets := hive.p_NumBuckets params; ht_Location := hive.p_Location params;
                     ht_RowFormat := hive.p_RowFormat params; ht_FileFormat := "";
                     ht_TableProperties := hive.p_TableProperties params;
                     ht_External := hive.p_External params; ht_Partitions := partitions |};
       ht_Status := empty_table_info |} in
  r ← try (Create KHiveTable newHiveTable);
  match r with
  | inl hiveTable => mret hiveTable
  | inr err =>
      if IsAlreadyExists err then ListerGet KHiveTable namespace resourceName
      else fail (Errorf "couldn't create HiveTable resource for %s %s: %v"
                   [FStr (gvk_string kindName); FStr (Name owner); FStr (Error err)])
  end.

Definition waitForHiveTable (namespace name : string) : M S HiveTable :=
  map_err (on_timeout "timed out waiting for Hive table to be created")
    (Poll (table_ready KHiveTable (λ t, negb (String.eqb (ht_TableName (ht_Status t)) ""))
             namespace name)).
End hive_tables.

(** ** Partition changes against an abstract Hive

    A partitioned table of Hive holds one partition for each list of partition
    column values; ADD IF NOT EXISTS and DROP IF EXISTS act on it. *)
Definition part_values (cols : list hive.Column) (p : hive.TablePartition) : list string :=
  (λ col, default "" (hive.tp_Spec p !! hive.col_Name col)) <$> cols.

Abbreviation hive_table := (gmap (list string) hive.TablePartition).

Definition table_of (cols : list hive.Column) (ps : list hive.TablePartition) : hive_table :=
  fold_left (λ m p, <[part_values cols p := p]> m) ps ∅.

Definition hive_add (cols : list hive.Column) (m : hive_table) (p : hive.TablePartition) : hive_table :=
  match m !! part_values cols p with Some _ => m | None => <[part_values cols p := p]> m end.
Definition hive_drop (cols : list hive.Column) (m : hive_table) (p : hive.TablePartition) : hive_table :=
  delete (part_values cols p) m.

Definition hive_step (m : hive_table) (e : event) : hive_table :=
  match e with
  | Ev (AHiveAddPartition _ cols p) true => hive_add cols m p
  | Ev (AHiveDropPartition _ cols p) true => hive_drop cols m p
  | _ => m
  end.

(** The last element with a given key. *)
Definition last_with {K} `{EqDecision K} (key : hive.TablePartition → K) (k : K)
    (ps : list hive.TablePartition) : option hive.TablePartition :=
  last (filter (λ p, key p = k) ps).

Lemma last_with_Some {K} `{EqDecision K} (key : hive.TablePartition → K) k ps p :
  last_with key k ps = Some p → p ∈ ps ∧ key p = k.
Proof.
  unfold last_with. intros [l E]%last_Some.
  assert (p ∈ filter (λ p, key p = k) ps) as H by (rewrite E, elem_of_app; right; by left).
  by apply list_elem_of_filter in H as [??].
Qed.

Lemma last_with_is_Some {K} `{EqDecision K} (key : hive.TablePartition → K) k ps p :
  p ∈ ps → key p = k → is_Some (last_with key k ps).
Proof.
  intros Hp Hk. unfold last_with.
  assert (p ∈ filter (λ p, key p = k) ps) as Hin by by apply list_elem_of_filter.
  destruct (filter (λ p, key p = k) ps) as [|q l]; [by apply elem_of_nil in Hin|].
  destruct (last (q :: l)) eqn:E; [done|by apply last_None in E].
Qed.

Lemma fold_insert_lookup {K} `{Countable K} (key : hive.TablePartition → K) ps
    (m : gmap K hive.TablePartition) k :
  fold_left (λ m p, <[key p := p]> m) ps m !! k =
    match last_with key k ps with Some p => Some p | None => m !! k end.
Proof.
  unfold last_with. induction ps as [|p ps IH] using rev_ind; [done|].
  rewrite fold_left_app, filter_app. simpl. rewrite filter_cons, filter_nil.
  destruct (decide (key p = k)) as [<-|Hne].
  - rewrite lookup_insert, decide_True by done. by rewrite last_snoc.
  - rewrite lookup_insert_ne by done. by rewrite app_nil_r.
Qed.

Lemma last_with_ext {K1 K2} `{EqDecision K1, EqDecision K2} (key1 : hive.TablePartition → K1)
    (key2 : hive.TablePartition → K2) k1 k2 ps :
  (∀ p, p ∈ ps → key1 p = k1 ↔ key2 p = k2) → last_with key1 k1 ps = last_with key2 k2 ps.
Proof.
  intros H. unfold last_with. f_equal.
  induction ps as [|p ps IH]; [done|]. rewrite !filter_cons.
  assert (key1 p = k1 ↔ key2 p = k2) as Hp by (apply H; by left).
  rewrite IH by (intros q Hq; apply H; by right).
  destruct (decide (key1 p = k1)), (decide (key2 p = k2)); tauto.
Qed.

Section partition_changes.
Context {SO : SetOrder} (cols : list hive.Column) (current desired : list hive.TablePartition).

Definition lookup_map : gmap string hive.TablePartition :=
  add_lookup cols desired (add_lookup cols current ∅).

Lemma lookup_map_spec id :
  lookup_map !! id = match last_with (setID cols) id desired with
                     | Some p => Some p
                     | None => last_with (setID cols) id current
                     end.
Proof.
  unfold lookup_map, add_lookup. rewrite !fold_insert_lookup, lookup_empty.
  destruct (last_with _ id desired); [done|]. by destruct (last_with _ id current).
Qed.

Lemma lookup_map_id id p : lookup_map !! id = Some p → setID cols p = id.
Proof.
  rewrite lookup_map_spec. destruct (last_with (setID cols) id desired) eqn:E.
  - intros [= ->]. by apply last_with_Some in E as [_ ?].
  - intros [_ ?]%last_with_Some. done.
Qed.

Lemma elem_of_ids ps id : id ∈ ids cols ps ↔ ∃ p, p ∈ ps ∧ setID cols p = id.
Proof.
  unfold ids. rewrite elem_of_list_to_set, list_elem_of_fmap. naive_solver.
Qed.

Definition pick (s : gset string) : list hive.TablePartition :=
  omap (λ id, lookup_map !! id) (UnsortedList s).

Lemma elem_of_pick s p : p ∈ pick s ↔ setID cols p ∈ s ∧ lookup_map !! setID cols p = Some p.
Proof.
  unfold pick. rewrite list_elem_of_omap. split.
  - intros (id & Hid & Hp). rewrite UnsortedList_perm, elem_of_elements in Hid.
    pose proof (lookup_map_id id p Hp) as <-. done.
  - intros [Hs Hp]. exists (setID cols p). by rewrite UnsortedList_perm, elem_of_elements.
Qed.

Lemma pick_covers s id : id ∈ s → s ⊆ ids cols current ∪ ids cols desired →
  ∃ p, p ∈ pick s ∧ setID cols p = id.
Proof.
  intros Hid Hs. assert (is_Some (lookup_map !! id)) as [p Hp].
  { rewrite lookup_map_spec. destruct (last_with (setID cols) id desired) eqn:E; [done|].
    specialize (Hs id Hid). apply elem_of_union in Hs as [(p & Hp & Heq)%elem_of_ids|(p & Hp & Heq)%elem_of_ids].
    - by eapply last_with_is_Some.
    - destruct (last_with_is_Some (setID cols) id desired p Hp Heq) as [? E']. by rewrite E in E'. }
  exists p. pose proof (lookup_map_id id p Hp) as <-. by rewrite elem_of_pick.
Qed.

Lemma pick_NoDup s : NoDup (setID cols <$> pick s).
Proof.
  unfold pick. assert (NoDup (UnsortedList s)) as Hnd by (rewrite UnsortedList_perm; apply NoDup_elements).
  induction Hnd as [|id l Hid _ IH]; simpl; [constructor|].
  destruct (lookup_map !! id) as [p|] eqn:E; [|done]. simpl. constructor; [|done].
  rewrite (lookup_map_id id p E). intros (q & Hq & (id' & Hid' & Hq')%list_elem_of_omap)%list_elem_of_fmap.
  apply lookup_map_id in Hq'. congruence.
Qed.

(** the partition changes are exact: they add the partitions whose
    identifier is only desired, remove those whose identifier is only
    current, update those with an identifier in both; each identifier occurs
    once, and what is added or updated is the last desired partition with
    its identifier. *)
Theorem getPartitionChanges_spec :
  let ch := getPartitionChanges cols current desired in
  (∀ id, id ∈ setID cols <$> toAddPartitions ch ↔ id ∈ ids cols desired ∧ id ∉ ids cols current) ∧
  (∀ id, id ∈ setID cols <$> toRemovePartitions ch ↔ id ∈ ids cols current ∧ id ∉ ids cols desired) ∧
  (∀ id, id ∈ setID cols <$> toUpdatePartitions ch ↔ id ∈ ids cols current ∧ id ∈ ids cols desired) ∧
  NoDup (setID cols <$> toAddPartitions ch) ∧ NoDup (setID cols <$> toRemovePartitions ch) ∧
  NoDup (setID cols <$> toUpdatePartitions ch) ∧
  (∀ p, p ∈ toAddPartitions ch ++ toUpdatePartitions ch →
   last_with (setID cols) (setID cols p) desired = Some p) ∧
  (∀ p, p ∈ toRemovePartitions ch → p ∈ current).
Proof.
  assert (∀ s id, s ⊆ ids cols current ∪ ids cols desired → id ∈ setID cols <$> pick s ↔ id ∈ s) as Hpick.
  { intros s id Hs. rewrite list_elem_of_fmap. split.
    - by intros (p & -> & [Hp _]%elem_of_pick).
    - intros Hid. destruct (pick_covers s id Hid Hs) as (p & Hp & Heq). eauto. }
  unfold getPartitionChanges. simpl. fold lookup_map.
  fold (pick (ids cols desired ∖ ids cols current)) (pick (ids cols current ∖ ids cols desired))
    (pick (ids cols current ∩ ids cols desired)).
  assert (∀ p, setID cols p ∈ ids cols desired → lookup_map !! setID cols p = Some p →
          last_with (setID cols) (setID cols p) desired = Some p) as Hdes.
  { intros p (q & Hq & Heq)%elem_of_ids Hp. rewrite lookup_map_spec in Hp.
    destruct (last_with_is_Some _ _ _ _ Hq Heq) as [q' Hq']. by rewrite Hq' in Hp |- *. }
  split_and!; try apply pick_NoDup.
  - intros id. rewrite Hpick; set_solver.
  - intros id. rewrite Hpick; set_solver.
  - intros id. rewrite Hpick; set_solver.
  - intros p [[Hs Hp]%elem_of_pick|[Hs Hp]%elem_of_pick]%elem_of_app; apply Hdes; set_solver.
  - intros p [[Hc Hd]%elem_of_difference Hp]%elem_of_pick. rewrite lookup_map_spec in Hp.
    destruct (last_with (setID cols) (setID cols p) desired) eqn:E.
    + apply last_with_Some in E as [? E]. simplify_eq. destruct Hd. apply elem_of_ids. eauto.
    + by apply last_with_Some in Hp as [??].
Qed.
End partition_changes.

Lemma for_each_exec {S A} `{!Env S} (f : A → M S unit) (a : A → action) l (w w' : world S) :
  (∀ x w w', f x w = (Ok tt, w') → trace w' = trace w ++ [Ev (a x) true]) →
  for_each l f w = (Ok tt, w') → trace w' = trace w ++ ((λ x, Ev (a x) true) <$> l).
Proof.
  intros Hf. revert w. induction l as [|x l IH]; intros w; simpl.
  { intros [_ ->]%ret_inv. by rewrite app_nil_r. }
  intros ([] & w1 & H1%Hf & H2%IH)%bind_Ok_inv. by rewrite H2, H1, <- app_assoc.
Qed.

Lemma map_err_exec {S} `{!Env S} (g : error → error) a (w w' : world S) :
  map_err g (exec a) w = (Ok tt, w') → trace w' = trace w ++ [Ev a true].
Proof.
  unfold map_err, exec. destruct (effect a (db_exec a) w) as [o w1] eqn:E.
  apply effect_trace in E as [Htr _]. destruct o; intros; simplify_eq. done.
Qed.

Section apply_changes.
Context {S : Type} `{!Env S} {SO : SetOrder}.
Context (cols : list hive.Column).

Lemma fold_drop l m k :
  fold_left (hive_drop cols) l m !! k =
  if decide (k ∈ part_values cols <$> l) then None else m !! k.
Proof.
  revert m. induction l as [|p l IH]; intros m; simpl.
  { done. }
  rewrite IH. unfold hive_drop. destruct (decide (part_values cols p = k)) as [<-|Hne].
  - rewrite lookup_delete_eq. rewrite (decide_True (P := _ ∈ _ :: _)) by by left. by case_decide.
  - rewrite lookup_delete_ne by done. repeat case_decide; set_solver.
Qed.

(** Adding partitions of different keys to an empty table. *)
Lemma fold_add_other l m k :
  k ∉ part_values cols <$> l → fold_left (hive_add cols) l m !! k = m !! k.
Proof.
  revert m. induction l as [|p l IH]; intros m Hk; simpl; [done|].
  rewrite fmap_cons, not_elem_of_cons in Hk. destruct Hk as [Hne Hk].
  rewrite IH by done. unfold hive_add. destruct (m !! part_values cols p); [done|].
  by rewrite lookup_insert_ne.
Qed.
Lemma fold_add_present l m k q :
  m !! k = Some q → fold_left (hive_add cols) l m !! k = Some q.
Proof.
  revert m. induction l as [|p l IH]; intros m Hk; simpl; [done|].
  apply IH. unfold hive_add. destruct (m !! part_values cols p) eqn:E; [done|].
  rewrite lookup_insert_ne; congruence.
Qed.
Lemma fold_add_new l m p :
  NoDup (part_values cols <$> l) → p ∈ l → m !! part_values cols p = None →
  fold_left (hive_add cols) l m !! part_values cols p = Some p.
Proof.
  revert m. induction l as [|q l IH]; intros m Hnd Hp Hm; [by apply elem_of_nil in Hp|].
  rewrite fmap_cons, NoDup_cons in Hnd. destruct Hnd as [Hq Hnd]. simpl.
  apply elem_of_cons in Hp as [<-|Hp].
  - apply fold_add_present. unfold hive_add. by rewrite Hm, lookup_insert_eq.
  - apply IH; [done..|]. unfold hive_add. destruct (m !! part_values cols q); [done|].
    rewrite lookup_insert_ne; [done|]. intros E. apply Hq. rewrite E. by apply list_elem_of_fmap_2.
Qed.

Context (current desired : list hive.TablePartition).

(** The identifiers tell the partitions' column values apart. *)
Definition ids_faithful : Prop :=
  ∀ p q, p ∈ current ++ desired → q ∈ current ++ desired →
  setID cols p = setID cols q → part_values cols p = part_values cols q.

Lemma values_setID p q : part_values cols p = part_values cols q → setID cols p = setID cols q.
Proof. unfold setID, part_values. by intros ->. Qed.

Abbreviation picked := (pick cols current desired).
Abbreviation added := (picked (ids cols desired ∖ ids cols current) ++ picked (ids cols current ∩ ids cols desired)).

Lemma picked_in s p : p ∈ picked s → p ∈ current ++ desired.
Proof.
  intros [_ Hp]%elem_of_pick. rewrite lookup_map_spec in Hp. apply elem_of_app.
  destruct (last_with (setID cols) (setID cols p) desired) eqn:E;
    [right; apply last_with_Some in E as [? _]; congruence|left; by apply last_with_Some in Hp as [? _]].
Qed.

Lemma picked_covers p s : ids_faithful → p ∈ current ++ desired → setID cols p ∈ s →
  s ⊆ ids cols current ∪ ids cols desired → part_values cols p ∈ part_values cols <$> picked s.
Proof.
  intros Hfaith Hp Hid Hs. destruct (pick_covers cols current desired s _ Hid Hs) as (q & Hq & Heq).
  rewrite <- (Hfaith q p) by (done || by eapply picked_in). by apply list_elem_of_fmap_2.
Qed.

(** Every partition the table has is dropped. *)
Lemma dropped_all : ids_faithful →
  fold_left (hive_drop cols) (picked (ids cols current ∖ ids cols desired) ++ picked (ids cols current ∩ ids cols desired))
    (table_of cols current) = ∅.
Proof.
  intros Hfaith. apply map_eq. intros k. rewrite fold_drop, lookup_empty. case_decide as Hk; [done|].
  unfold table_of. rewrite fold_insert_lookup, lookup_empty.
  destruct (last_with (part_values cols) k current) as [p|] eqn:E; [|done].
  apply last_with_Some in E as [Hp <-]. destruct Hk. rewrite fmap_app, elem_of_app.
  assert (setID cols p ∈ ids cols current) as Hid by (apply elem_of_ids; eauto).
  destruct (decide (setID cols p ∈ ids cols desired));
    [right|left]; (apply picked_covers; [done|set_solver..|set_solver]).
Qed.

(** What is added is the last desired partition of its identifier, once. *)
Lemma added_last p : p ∈ added → last_with (setID cols) (setID cols p) desired = Some p.
Proof.
  intros Hp. assert (setID cols p ∈ ids cols desired ∧ lookup_map cols current desired !! setID cols p = Some p)
    as [Hid Hlk] by (apply elem_of_app in Hp as [[??]%elem_of_pick|[??]%elem_of_pick]; set_solver).
  apply elem_of_ids in Hid as (q & Hq & Heq). rewrite lookup_map_spec in Hlk.
  destruct (last_with_is_Some _ _ _ _ Hq Heq) as [q' Hq']. by rewrite Hq' in Hlk |- *.
Qed.

Lemma NoDup_setID L : NoDup (setID cols <$> L) → NoDup (part_values cols <$> L).
Proof.
  induction L as [|p L IH]; [constructor|]. rewrite !fmap_cons. intros [Hp HL]%NoDup_cons.
  apply NoDup_cons. split; [|by apply IH]. intros (q & Hq & Hin)%list_elem_of_fmap. apply Hp.
  apply values_setID in Hq. rewrite Hq. by apply list_elem_of_fmap_2.
Qed.

Lemma added_NoDup : NoDup (part_values cols <$> added).
Proof.
  apply NoDup_setID. rewrite fmap_app. apply NoDup_app. split_and!; [apply pick_NoDup| |apply pick_NoDup].
  intros id (p & -> & [Hp _]%elem_of_pick)%list_elem_of_fmap (q & Heq & [Hq _]%elem_of_pick)%list_elem_of_fmap.
  rewrite Heq in Hp. apply elem_of_difference in Hp as [_ Hp]. by apply elem_of_intersection in Hq as [Hq _].
Qed.

Lemma apply_changes_correct :
  ids_faithful →
  let ch := getPartitionChanges cols current desired in
  fold_left (hive_add cols) (toAddPartitions ch ++ toUpdatePartitions ch)
    (fold_left (hive_drop cols) (toRemovePartitions ch ++ toUpdatePartitions ch) (table_of cols current)) =
  table_of cols desired.
Proof.
  intros Hfaith. cbv zeta.
  change (getPartitionChanges cols current desired) with
    {| toRemovePartitions := picked (ids cols current ∖ ids cols desired);
       toAddPartitions := picked (ids cols desired ∖ ids cols current);
       toUpdatePartitions := picked (ids cols current ∩ ids cols desired) |}. simpl.
  rewrite dropped_all by done. apply map_eq. intros k.
  assert (∀ p, p ∈ desired → last_with (part_values cols) (part_values cols p) desired =
          last_with (setID cols) (setID cols p) desired) as Hsame.
  { intros p Hp. apply last_with_ext. intros q Hq. split; [by apply values_setID|].
    intros Heq. apply Hfaith; set_solver. }
  pose proof added_NoDup as Hnd. unfold table_of. rewrite fold_insert_lookup, lookup_empty.
  destruct (decide (k ∈ part_values cols <$> added)) as [(p & -> & Hp)%list_elem_of_fmap|Hk].
  - rewrite fold_add_new by (done || by rewrite lookup_empty).
    pose proof (added_last p Hp) as Hl. pose proof (last_with_Some _ _ _ _ Hl) as [Hd _].
    by rewrite (Hsame p Hd), Hl.
  - rewrite fold_add_other, lookup_empty by done.
    destruct (last_with (part_values cols) k desired) as [p|] eqn:E; [|done].
    apply last_with_Some in E as [Hp <-]. destruct Hk. rewrite fmap_app, elem_of_app.
    assert (setID cols p ∈ ids cols desired) by (apply elem_of_ids; eauto).
    destruct (decide (setID cols p ∈ ids cols current)); [right|left]; (apply picked_covers; [done|set_solver..|set_solver]).
Qed.
End apply_changes.

Section hive_facts.
Context {S : Type} `{!Env S} {SO : SetOrder} (cfg : Config).

Lemma hive_steps_drop tableName cols l m :
  fold_left hive_step ((λ p, Ev (AHiveDropPartition tableName cols p) true) <$> l) m =
  fold_left (hive_drop cols) l m.
Proof. revert m. induction l as [|p l IH]; intros m; [done|]. apply IH. Qed.
Lemma hive_steps_add tableName cols l m :
  fold_left hive_step ((λ p, Ev (AHiveAddPartition tableName cols p) true) <$> l) m =
  fold_left (hive_add cols) l m.
Proof. revert m. induction l as [|p l IH]; intros m; [done|]. apply IH. Qed.

(** What a successful partition management sends. *)
Lemma manage_partitions_trace t w w' :
  manage_partitions t w = (Ok tt, w') →
  let cols := ht_PartitionedBy (ht_Spec t) in
  let ch := getPartitionChanges cols (ht_Partitions (ht_Status t)) (ht_Partitions (ht_Spec t)) in
  let name := ht_TableName (ht_Status t) in
  trace w' = trace w ++
  ((λ p, Ev (AHiveDropPartition name cols p) true) <$> (toRemovePartitions ch ++ toUpdatePartitions ch)) ++
  ((λ p, Ev (AHiveAddPartition name cols p) true) <$> (toAddPartitions ch ++ toUpdatePartitions ch)) ++
  [Ev (AUpdate KHiveTable (set_status_partitions (ht_Partitions (ht_Spec t)) t)) true;
   Ev (ACounter HiveTablePartitions (Z.of_nat (length (ht_Partitions (ht_Spec t))))) true].
Proof.
  unfold manage_partitions. cbv zeta. intros H.
  apply bind_Ok_inv in H as ([] & w1 & H1 & H). apply bind_Ok_inv in H as ([] & w2 & H2 & H).
  apply bind_Ok_inv in H as (t' & w3 & H3 & H). apply emit_inv in H as [_ ->].
  eapply for_each_exec in H1; [|intros x v v' Hx; unfold drop_partition in Hx; eapply map_err_exec, Hx].
  eapply for_each_exec in H2; [|intros x v v' Hx; unfold add_partition in Hx; eapply map_err_exec, Hx].
  apply effect_trace in H3 as [H3 _]. simpl. rewrite H3, H2, H1. by rewrite <- !app_assoc.
Qed.

(** C7: partition management refines the abstract Hive table: if the table
    holds the partitions of the status when the partitions are managed, then
    after the statements sent it holds exactly the partitions of the spec,
    and the status written records them; provided the identifiers tell the
    partitions' column values apart. *)
Theorem manage_partitions_refines t w w' :
  ids_faithful (ht_PartitionedBy (ht_Spec t)) (ht_Partitions (ht_Status t)) (ht_Partitions (ht_Spec t)) →
  manage_partitions t w = (Ok tt, w') →
  ∃ tr, trace w' = trace w ++ tr ∧
  fold_left hive_step tr (table_of (ht_PartitionedBy (ht_Spec t)) (ht_Partitions (ht_Status t))) =
  table_of (ht_PartitionedBy (ht_Spec t)) (ht_Partitions (ht_Spec t)) ∧
  ∃ t', Ev (AUpdate KHiveTable t') true ∈ tr ∧
  ht_Partitions (ht_Status t') = ht_Partitions (ht_Spec t).
Proof.
  intros Hf H%manage_partitions_trace. eexists. split; [exact H|]. split.
  - rewrite !fold_left_app, hive_steps_drop, hive_steps_add. simpl. by apply apply_changes_correct.
  - eexists. rewrite !elem_of_app. split; [right; right; by left|done].
Qed.

(** a Hive table whose status names a table is never created again, and
    neither is the PrestoTable that mirrors it: when the creation of the
    mirror fails after the status was written, no later sync makes up for
    it. *)
Theorem handleHiveTable_no_mirror t :
  (∀ f o w o' w', Update KHiveTable (set_meta KHiveTable f o) w = (Ok o', w') →
   ht_Status o' = ht_Status o) →
  ht_TableName (ht_Status t) ≠ "" →
  emits (λ e, match ev_action e with
              | ACreate _ _ | AHiveCreateTable _ _ => False
              | _ => True
              end) (handleHiveTable cfg t).
Proof.
  intros Hupd Hname.
  assert (∀ t, ht_TableName (ht_Status t) ≠ "" → emits (λ e, match ev_action e with
                                                             | ACreate _ _ | AHiveCreateTable _ _ => False
                                                             | _ => True
                                                             end) (if String.eqb (ht_TableName (ht_Spec t)) "" then fail (New "spec.tableName must be set")
                                                                   else if (length (ht_Columns (ht_Spec t)) =? 0)%nat then fail (New "spec.columns must be non-empty")
                                                                   else
                                                                     t ← (if negb (String.eqb (ht_TableName (ht_Status t)) "") then mret t else create_in_hive t);
                                                                     if ht_ManagePartitions t then manage_partitions t else mret tt)) as Hrest.
  { intros t' Hn. rewrite (proj2 (String.eqb_neq _ _) Hn). simpl.
    unfold manage_partitions, drop_partition, add_partition, Update, exec. emits_tac. }
  intros w. unfold handleHiveTable, ensureFinalizer. rewrite bind_run.
  destruct (EnableFinalizers cfg && needsFinalizer _ _); [|apply (Hrest t Hname w)].
  unfold addFinalizer. destruct (Update KHiveTable _ w) as [o w1] eqn:E.
  pose proof E as E'. apply effect_trace in E' as [Htr _]. destruct o as [t'|e|p].
  - apply Hupd in E. destruct (Hrest t' ltac:(congruence) w1) as (tr & Htr' & Hall).
    eexists. split; [rewrite Htr', Htr, <- app_assoc; reflexivity|]. by constructor.
  - eexists. split; [exact Htr|]. by repeat constructor.
  - eexists. split; [exact Htr|]. by repeat constructor.
Qed.

(** the file format asked for is lost: whatever the parameters, the
    HiveTable the operator creates for a resource has no file format. *)
Theorem createHiveTableCR_drops_format owner kindName params manage parts :
  emits (λ e, match ev_action e with
              | ACreate KHiveTable t => ht_FileFormat (ht_Spec t) = "" ∧
                  ht_RowFormat (ht_Spec t) = hive.p_RowFormat params ∧
                  ht_Columns (ht_Spec t) = hive.p_Columns params
              | ACreate _ _ => False
              | _ => True
              end) (createHiveTableCR cfg owner kindName params manage parts).
Proof. unfold createHiveTableCR, Create, ListerGet. emits_tac. Qed.
End hive_facts.

(** ** Concrete tables *)
Definition partition0 (dt loc : string) : hive.TablePartition := hive.MkPartition loc (<["dt" := dt]> ∅).
Definition hive_info0 (name : string) (parts : list hive.TablePartition) : HiveTableInfo :=
  {| ht_DatabaseName := "metering"; ht_TableName := name;
     ht_Columns := [hive.MkColumn "amount" "double"]; ht_PartitionedBy := [hive.MkColumn "dt" "string"];
     ht_ClusteredBy := []; ht_SortedBy := []; ht_NumBuckets := 0; ht_Location := ""; ht_RowFormat := "";
     ht_FileFormat := ""; ht_TableProperties := None; ht_External := true; ht_Partitions := parts |}.
Definition hive0 : HiveTable :=
  {| ht_Meta := meta_of "ns" "t"; ht_ManagePartitions := true;
     ht_Spec := hive_info0 "t" [partition0 "2019-07-02" "b"; partition0 "2019-07-03" "c"];
     ht_Status := hive_info0 "t" [partition0 "2019-07-01" "a"; partition0 "2019-07-02" "b"] |}.
Definition hive_world : world Mem := world0 (add_obj KHiveTable hive0 mem0).

Lemma manage_partitions_refines_witness : ∃ w',
  manage_partitions hive0 hive_world = (Ok tt, w') ∧ length (trace w') = 6%nat ∧
  ∃ tr, trace w' = trace hive_world ++ tr ∧
    fold_left hive_step tr (table_of (ht_PartitionedBy (ht_Spec hive0)) (ht_Partitions (ht_Status hive0))) =
      table_of (ht_PartitionedBy (ht_Spec hive0)) (ht_Partitions (ht_Spec hive0)) ∧
    ∃ t', Ev (AUpdate KHiveTable t') true ∈ tr ∧
      ht_Partitions (ht_Status t') = ht_Partitions (ht_Spec hive0).
Proof.
  edestruct (run_Ok (manage_partitions hive0 hive_world) (λ _ w', length (trace w') = 6%nat))
    as ([] & w' & H & Hl); [vm_compute; reflexivity|].
  exists w'. split; [exact H|]. split; [exact Hl|].
  apply (manage_partitions_refines hive0); [|exact H].
  intros p q Hp Hq. simpl in Hp, Hq. rewrite !elem_of_cons, elem_of_nil in Hp, Hq.
  destruct_or! Hp; destruct_or! Hq; subst; try done; vm_compute; intros; simplify_eq; done.
Defined.

Lemma handleHiveTable_no_mirror_witness :
  emits (λ e, match ev_action e with ACreate _ _ | AHiveCreateTable _ _ => False | _ => True end)
    (handleHiveTable (config0 true) hive0 : M Mem unit).
Proof.
  apply (handleHiveTable_no_mirror (config0 true) hive0); [|discriminate].
  intros f o w o' w' H. apply effect_trace in H as [_ H]. simpl in H. unfold mem_update in H.
  simpl in H. case_match; simplify_eq; done.
Defined.
