(* ===== verification/Finalizers.v ===== *)
(** * Deletion of the resources that own something outside the cluster

    The sync functions of Hive tables, Presto tables and storage locations. *)

From S2P Require Export Storage HiveTables.
Open Scope Z_scope.

Inductive owner := OHive | OPresto | OStorage.

Definition owner_kind (o : owner) : kind :=
  match o with OHive => KHiveTable | OPresto => KPrestoTable | OStorage => KStorageLocation end.
Definition owner_finalizer (o : owner) : string :=
  match o with
  | OHive => hiveTableFinalizer | OPresto => prestoTableFinalizer | OStorage => storageLocationFinalizer
  end.

(** What must be dropped before the resource may go. *)
Definition owned (o : owner) : obj (owner_kind o) → option action :=
  match o with
  | OHive => λ t,
      if decide (ht_TableName (ht_Status t) = "") then None
      else Some (AHiveDropTable (ht_DatabaseName (ht_Status t)) (ht_TableName (ht_Status t)) true)
  | OPresto => λ t,
      if pt_Unmanaged t then None
      else if decide (pt_TableName (pt_Status t) = "") then None
      else Some ((if pt_View (pt_Status t) then APrestoDropView else APrestoDropTable)
                   (pt_Catalog (pt_Status t)) (pt_Schema (pt_Status t)) (pt_TableName (pt_Status t)) true)
  | OStorage => λ s,
      match sl_Hive s with
      | Some hive =>
          if UnmanagedDatabase hive then None
          else if decide (sl_DatabaseName s = "") then None
          else Some (AHiveDropDatabase (sl_DatabaseName s) true false)
      | None => None
      end
  end.

Section deletion.
Context {S : Type} `{!Env S} (cfg : Config) {UT : UnicodeTables} {SO : SetOrder}.

Definition sync (o : owner) : string → M S unit :=
  match o with
  | OHive => syncHiveTable cfg
  | OPresto => syncPrestoTable cfg
  | OStorage => syncStorageLocation cfg
  end.

Definition drop (o : owner) : obj (owner_kind o) → M S unit :=
  match o with
  | OHive => dropHiveTable
  | OPresto => λ t, if negb (pt_Unmanaged t) then dropPrestoTable t else mret tt
  | OStorage => deleteStorage
  end.

Lemma drop_owned o x :
  drop o x = match owned o x with Some a => exec a | None => mret tt end.
Proof.
  destruct o; simpl.
  - unfold dropHiveTable. destruct (String.eqb_spec (ht_TableName (ht_Status x)) "");
    [by rewrite decide_True|by rewrite decide_False].
  - unfold dropPrestoTable. destruct (pt_Unmanaged x); simpl; [done|].
    destruct (String.eqb_spec (pt_TableName (pt_Status x)) "");
      [by rewrite decide_True|rewrite decide_False by done]. by destruct (pt_View (pt_Status x)).
  - unfold deleteStorage. destruct (sl_Hive x) as [hive|]; [|done].
    destruct (UnmanagedDatabase hive); simpl; [done|].
    destruct (String.eqb_spec (sl_DatabaseName x) ""); [by rewrite decide_True|by rewrite decide_False].
Qed.

(** The sync of a resource marked for deletion. *)
Lemma sync_deleted o key ns name x w s1 :
  SplitMetaNamespaceKey key = Some (ns, name) →
  lister_get (owner_kind o) ns name (env w) = (Ok x, s1) →
  DeletionTimestamp (meta (owner_kind o) x) ≠ None →
  sync o key w =
  (_ ← drop o x; _ ← removeFinalizer (owner_kind o) (owner_finalizer o) x; mret tt) (World s1 (trace w)).
Proof.
  intros Hkey Hget Hdel.
  destruct o; simpl in *; unfold syncHiveTable, syncPrestoTable, syncStorageLocation, syncResource;
    rewrite Hkey, bind_run; unfold try, ListerGet, read; rewrite Hget; simpl;
    destruct (DeletionTimestamp _); done.
Qed.

End deletion.

Definition deleted_hive : HiveTable :=
  {| ht_Meta := {| Name := "t"; Namespace := "ns"; ResourceVersion := "1"; Labels := ∅; Annotations := ∅;
                   OwnerReferences := []; Finalizers := ["other"; hiveTableFinalizer];
                   DeletionTimestamp := Some 1 |};
     ht_ManagePartitions := true; ht_Spec := ht_Spec hive0; ht_Status := ht_Status hive0 |}.

