(* ===== verification/Templates.v ===== *)
(** * Rendering report queries and storing their results
    (src/pkg/operator/reporting/templates.go, report_generator.go,
    src/pkg/operator/prestostore/reports.go)

    The template engine (text/template with sprig's functions) is a class: it
    parses a query and executes it with the functions the operator registers.
    A template may render other queries, which the fuel bounds: it stands for
    the depth of calls the stack of a Go program allows. *)

From S2P Require Export MetricStore Deps.
Open Scope Z_scope.

(** ** Contexts *)
Record ReportQueryTemplateContext := {
  tc_Namespace : string;
  tc_Query : string;
  RequiredInputs : list string;
  tc_Reports : list Report;
  tc_ReportQueries : list ReportQuery;
  tc_ReportDataSources : list ReportDataSource;
  tc_PrestoTables : list PrestoTable;
}.

Record TemplateContext := {
  ReportingStart : option Time;
  ReportingEnd : option Time;
  Inputs : gmap string InputValue;
}.

(** ** Timestamps

    The types a template may pass; another value by its [%#v] form. *)
Inductive template_arg :=
  | ArgTime (t : ZonedTime) | ArgTimePtr (t : option ZonedTime) | ArgString (s : string) | ArgOther (repr : string).

(** The message of a failed [time.Parse] is not modelled. *)
Definition TimestampFormat (input : template_arg) (layout : list chunk) : outcome string :=
  match input with
  | ArgTime t | ArgTimePtr (Some t) => Ok (FormatIn t layout)
  | ArgTimePtr None => Err (New "got nil timestamp")
  | ArgString s =>
      match parse_RFC3339_zone (String.list_ascii_of_string s) with
      | Some t => Ok (FormatIn t layout)
      | None => Err (New "parsing time")
      end
  | ArgOther repr => Err (Errorf "couldn't convert %s to a Presto timestamp" [FStr repr])
  end.

Definition PrometheusMetricPartitionFormat (input : template_arg) : outcome string :=
  TimestampFormat input PrometheusMetricTimestampPartitionFormat.
Definition PrestoTimestamp (input : template_arg) : outcome string :=
  TimestampFormat input MetricStore.TimestampFormat.

(** ** Tables of the resources a query names *)
Definition first_named {A} (name : A → string) (n : string) (l : list A) : option A :=
  snd <$> list_find (λ x, name x = n) l.

Definition ref_table (tables : list PrestoTable) (resource ref : string) : outcome string :=
  if String.eqb ref "" then Err (Errorf "%s tableRef is empty" [FStr resource])
  else match first_named (λ t, Name (pt_Meta t)) ref tables with
       | Some prestoTable => FullyQualifiedTableName prestoTable
       | None => Err (Errorf "tableRef PrestoTable %s not found" [FStr ref])
       end.

Definition dataSourceTableName (ctx : ReportQueryTemplateContext) (name : string) : outcome string :=
  match first_named (λ ds, Name (ds_Meta ds)) name (tc_ReportDataSources ctx) with
  | Some ds => ref_table (tc_PrestoTables ctx) (Name (ds_Meta ds)) (dst_TableRef (ds_Status ds))
  | None => Err (Errorf "ReportDataSource %s dependency not found" [FStr name])
  end.

Definition reportTableName (ctx : ReportQueryTemplateContext) (name : string) : outcome string :=
  match first_named (λ r, Name (r_Meta r)) name (tc_Reports ctx) with
  | Some r => ref_table (tc_PrestoTables ctx) (Name (r_Meta r)) (rst_TableRef (r_Status r))
  | None => Err (Errorf "Report %s dependency not found" [FStr name])
  end.

(** ** The template engine *)

(** The functions the operator registers. *)
Record FuncMap := {
  fn_prestoTimestamp : template_arg → outcome string;
  fn_billingPeriodTimestamp : Time → string;
  fn_prometheusMetricPartitionFormat : template_arg → outcome string;
  fn_reportTableName : string → outcome string;
  fn_dataSourceTableName : string → outcome string;
  fn_renderReportQuery : string → TemplateContext → outcome string;
}.

Class TemplateEngine := {
  Template : Type;
  Parse : string → outcome Template;
  Execute : Template → FuncMap → TemplateContext → outcome string;
  go_stack : nat;
}.

Section render.
Context {TE : TemplateEngine}.

Section step.
(** [RenderQuery] one call deeper. *)
Context (rec : ReportQueryTemplateContext → TemplateContext → outcome string).

Definition renderReportQuery (ctx : ReportQueryTemplateContext) (name : string)
    (tmplCtx : TemplateContext) : outcome string :=
  match first_named (λ q, Name (q_Meta q)) name (tc_ReportQueries ctx) with
  | None => Err (Errorf "unknown ReportQuery %s" [FStr name])
  | Some reportQuery =>
      let newCtx :=
        {| tc_Namespace := tc_Namespace ctx; tc_Query := qs_Query (q_Spec reportQuery);
           RequiredInputs := ConvertInputDefinitionsIntoInputList (qs_Inputs (q_Spec reportQuery));
           tc_Reports := tc_Reports ctx; tc_ReportQueries := tc_ReportQueries ctx;
           tc_ReportDataSources := tc_ReportDataSources ctx; tc_PrestoTables := tc_PrestoTables ctx |} in
      match rec newCtx tmplCtx with
      | Ok renderedQuery => Ok renderedQuery
      | Err err => Err (Errorf "unable to render query %s, err: %v" [FStr name; FStr (Error err)])
      | Panic p => Panic p
      end
  end.

Definition templateFuncMap (ctx : ReportQueryTemplateContext) : FuncMap :=
  {| fn_prestoTimestamp := PrestoTimestamp;
     fn_billingPeriodTimestamp := AWSBillingPeriodTimestamp;
     fn_prometheusMetricPartitionFormat := PrometheusMetricPartitionFormat;
     fn_reportTableName := reportTableName ctx;
     fn_dataSourceTableName := dataSourceTableName ctx;
     fn_renderReportQuery := renderReportQuery ctx |}.

Definition newQueryTemplate (ctx : ReportQueryTemplateContext) : outcome Template :=
  match Parse (tc_Query ctx) with
  | Err err => Err (Errorf "error parsing query: %v" [FStr (Error err)])
  | o => o
  end.

Definition renderTemplate (ctx : ReportQueryTemplateContext) (tmpl : Template) (tmplCtx : TemplateContext)
    : outcome string :=
  match Execute tmpl (templateFuncMap ctx) tmplCtx with
  | Err err => Err (Errorf "error executing template: %v" [FStr (Error err)])
  | o => o
  end.

(** The required inputs that are not given, sorted. *)
Definition missingInputs (ctx : ReportQueryTemplateContext) (tmplCtx : TemplateContext) : list string :=
  sort_strings (elements (list_to_set (RequiredInputs ctx) ∖ dom (Inputs tmplCtx) : gset string)).

Definition render_step (ctx : ReportQueryTemplateContext) (tmplCtx : TemplateContext) : outcome string :=
  match missingInputs ctx tmplCtx with
  | [] =>
      tmpl ← newQueryTemplate ctx;
      renderTemplate ctx tmpl tmplCtx
  | missing => Err (Errorf "missing inputs: %s" [FStr (Join missing ", ")])
  end.
End step.

Fixpoint render_query (fuel : nat) (ctx : ReportQueryTemplateContext) (tmplCtx : TemplateContext)
    : outcome string :=
  match fuel with
  | O => Panic "stack overflow"
  | Datatypes.S fuel => render_step (render_query fuel) ctx tmplCtx
  end.
Definition RenderQuery : ReportQueryTemplateContext → TemplateContext → outcome string :=
  render_query go_stack.
End render.

(** ** Generating a report *)
Section generator.
Context {S : Type} `{!Env S} {MO : MapOrder}.

Definition GetReportResults (tableName : string) (columns : list presto.Column) : M S (list Row) :=
  Presto.GetRows tableName columns.
Definition StoreReportResults (tableName query : string) : M S unit := Presto.InsertInto tableName query.
Definition DeleteReportResults (tableName : string) : M S unit := Presto.DeleteFrom tableName.

Definition GenerateReport (tableName query : string) (deleteExistingData : bool) : M S unit :=
  if String.eqb tableName "" then fail (New "tableName cannot be empty")
  else
    _ ← (if deleteExistingData then
           map_err (λ err, Errorf "couldn't empty table %s of preexisting rows: %v"
                      [FStr tableName; FStr (Error err)])
             (DeleteReportResults tableName)
         else mret tt);
    map_err (λ err, Errorf "Failed to execute query for Report table %s: %v"
               [FStr tableName; FStr (Error err)])
      (StoreReportResults tableName query).
End generator.

(** ** Facts *)
Section facts.
Context {S : Type} `{!Env S} {MO : MapOrder} {TE : TemplateEngine}.

(** a query is not rendered without its required inputs: if some are not
    given, rendering fails before the template is even parsed, and the error
    names exactly the missing ones, each once. *)
Theorem RenderQuery_missing_inputs ctx tmplCtx i :
  go_stack ≠ 0%nat → i ∈ RequiredInputs ctx → Inputs tmplCtx !! i = None →
  ∃ missing, RenderQuery ctx tmplCtx = Err (Errorf "missing inputs: %s" [FStr (Join missing ", ")]) ∧
  NoDup missing ∧ ∀ j, j ∈ missing ↔ j ∈ RequiredInputs ctx ∧ Inputs tmplCtx !! j = None.
Proof.
  intros Hstack Hreq Hgiven. exists (missingInputs ctx tmplCtx).
  assert (missingInputs ctx tmplCtx ≡ₚ
            elements (list_to_set (RequiredInputs ctx) ∖ dom (Inputs tmplCtx) : gset string)) as Hperm
    by apply merge_sort_Permutation.
  assert (∀ j, j ∈ missingInputs ctx tmplCtx ↔ j ∈ RequiredInputs ctx ∧ Inputs tmplCtx !! j = None) as Hel.
  { intros j. rewrite Hperm, elem_of_elements, elem_of_difference, elem_of_list_to_set, not_elem_of_dom. done. }
  split_and!; [|rewrite Hperm; apply NoDup_elements|done].
  unfold RenderQuery. destruct go_stack as [|n]; [done|]. simpl. unfold render_step.
  destruct (missingInputs ctx tmplCtx) as [|m l] eqn:E; [|done].
  exfalso. apply (not_elem_of_nil i). by apply Hel.
Qed.

(** a failed DELETE goes unnoticed: Presto reports the failure of a statement
    when its rows are fetched, which only the INSERT does.  A report that
    overwrites its data therefore succeeds, with the old rows still there. *)
Theorem GenerateReport_ignores_failed_delete tableName query w rows rows' err s1 s2 :
  tableName ≠ "" →
  presto_query (Sprintf "DELETE FROM %s" [FStr tableName]) (env w) = (Ok rows, s1) →
  rows_Err rows = Some err →
  presto_query (Presto.FormatInsertQuery tableName query) s1 = (Ok rows', s2) → rows_Err rows' = None →
  GenerateReport (S := S) tableName query true w =
  (Ok tt, World s2 (trace w ++ [Ev (APrestoQuery (Sprintf "DELETE FROM %s" [FStr tableName])) true;
                                Ev (APrestoQuery (Presto.FormatInsertQuery tableName query)) true])).
Proof.
  intros Hne Hdel _ Hins Hok. unfold GenerateReport. rewrite (proj2 (String.eqb_neq _ _) Hne).
  unfold DeleteReportResults, Presto.DeleteFrom, StoreReportResults, Presto.InsertInto, Presto.execQuery,
    Presto.Query, map_err, mbind, M_bind, effect. rewrite Hdel. simpl. rewrite Hins. simpl. rewrite Hok.
  unfold mret, M_ret. simpl. by rewrite <- app_assoc.
Qed.
End facts.

(** Templates without actions. *)
#[export] Instance verbatim_engine : TemplateEngine :=
  {| Template := string; Parse := Ok; Execute t _ _ := Ok t; go_stack := 10%nat |}.

Lemma RenderQuery_missing_inputs_witness :
  let ctx := {| tc_Namespace := "ns"; tc_Query := "SELECT 1"; RequiredInputs := ["B"; "A"]; tc_Reports := [];
                tc_ReportQueries := []; tc_ReportDataSources := []; tc_PrestoTables := [] |} in
  let t := {| ReportingStart := None; ReportingEnd := None; Inputs := ∅ |} in
  ∃ missing, RenderQuery ctx t = Err (Errorf "missing inputs: %s" [FStr (Join missing ", ")]) ∧
    NoDup missing ∧ ∀ j, j ∈ missing ↔ j ∈ ["B"; "A"] ∧ (∅ : gmap string InputValue) !! j = None.
Proof. intros ctx t. apply (RenderQuery_missing_inputs ctx t "A"); [done|set_solver|done]. Defined.

(** A Presto that refuses every DELETE once its rows are fetched. *)
Definition failing_delete : Env () :=
  let E := frozen_env mem0 in
  {| client_get := @client_get _ E; client_list := @client_list _ E; client_create := @client_create _ E;
     client_update := @client_update _ E; lister_get := @lister_get _ E; lister_list := @lister_list _ E;
     clock_now := @clock_now _ E; wait_jitter := @wait_jitter _ E; poll_attempts := @poll_attempts _ E;
     cron_Parse := @cron_Parse _ E; cron_ParseStandard := @cron_ParseStandard _ E; db_exec := @db_exec _ E;
     presto_query := λ sql _,
       (Ok {| rows_Columns := Ok []; rows_Scan := [];
              rows_Err := if HasPrefix sql "DELETE" then Some (New "Access Denied") else None |}, ());
     prom_query := @prom_query _ E; ctx_err := @ctx_err _ E; last_timestamp := @last_timestamp _ E |}.

Lemma GenerateReport_ignores_failed_delete_witness :
  @GenerateReport () failing_delete "t" "SELECT 1" true (World () []) =
    (Ok tt, World () [Ev (APrestoQuery "DELETE FROM t") true; Ev (APrestoQuery "INSERT INTO t SELECT 1") true]).
Proof.
  apply (@GenerateReport_ignores_failed_delete () failing_delete "t" "SELECT 1" (World () [])
    {| rows_Columns := Ok []; rows_Scan := []; rows_Err := Some (New "Access Denied") |}
    {| rows_Columns := Ok []; rows_Scan := []; rows_Err := None |} (New "Access Denied") () ());
    [done|reflexivity..].
Defined.
