(* ===== verification/Reports.v ===== *)
(** * The report controller (src/pkg/operator/reports.go)

    [runReport] is split where its phases begin: validation, the reporting
    period (Schedule.v), the report's table, the decision whether to run, and
    the run itself.  A phase that ends the sync returns [None]. *)

From S2P Require Export Schedule Storage HiveTables Templates.
Open Scope Z_scope.

Definition with_r_status (st : ReportStatus) (r : Report) : Report :=
  {| r_Meta := r_Meta r; r_Spec := r_Spec r; r_Status := st |}.
Definition set_report_TableRef (name : string) (r : Report) : Report :=
  let st := r_Status r in
  with_r_status {| Conditions := Conditions st; LastReportTime := LastReportTime st;
                   NextReportTime := NextReportTime st; rst_TableRef := name |} r.
Definition with_condition (cond : ReportCondition) (r : Report) : Report :=
  with_r_status (SetReportCondition (r_Status r) cond) r.

(** ** Data sources that do not cover the period

    The three lists are slices over one store: the code appends to one of
    them and assigns the result to another. *)
Record unmet := {
  u_heap : heap string;
  unmetDataStart : slice;
  unmetDataEnd : slice;
  unstarted : slice;
}.
Definition unmet_empty : unmet :=
  {| u_heap := heap_empty; unmetDataStart := slice_nil; unmetDataEnd := slice_nil; unstarted := slice_nil |}.

Definition starts_late (rp : reportPeriod) (st : PrometheusMetricsImportStatus) : bool :=
  match ImportDataStartTime st with Some t => Before (periodStart rp) t | None => true end.
Definition ends_early (rp : reportPeriod) (st : PrometheusMetricsImportStatus) : bool :=
  match ImportDataEndTime st with Some t => After (periodEnd rp) t | None => true end.

(** One data source: the lists after it, and whether it is queued. *)
Definition unmet_step (rp : reportPeriod) (dataSource : ReportDataSource) (u : unmet) : unmet * bool :=
  match ds_PrometheusMetricsImporter (ds_Spec dataSource) with
  | None => (u, false)
  | Some _ =>
      let name := Name (ds_Meta dataSource) in
      match dst_ImportStatus (ds_Status dataSource) with
      | None =>
          let '(h, s) := slice_append (u_heap u) (unmetDataStart u) name in
          ({| u_heap := h; unmetDataStart := unmetDataStart u; unmetDataEnd := unmetDataEnd u;
              unstarted := s |}, true)
      | Some st =>
          let u1 :=
            if starts_late rp st then
              let '(h, s) := slice_append (u_heap u) (unmetDataStart u) name in
              {| u_heap := h; unmetDataStart := s; unmetDataEnd := unmetDataEnd u;
                 unstarted := unstarted u |}
            else u in
          let u2 :=
            if ends_early rp st then
              let '(h, s) := slice_append (u_heap u1) (unmetDataEnd u1) name in
              {| u_heap := h; unmetDataStart := unmetDataStart u1; unmetDataEnd := s;
                 unstarted := unstarted u1 |}
            else u1 in
          (u2, starts_late rp st || ends_early rp st)
      end
  end.

Definition nonempty (s : slice) : bool := negb (s_len s =? 0)%nat.
Definition any_unmet (u : unmet) : bool :=
  nonempty (unstarted u) || nonempty (unmetDataStart u) || nonempty (unmetDataEnd u).

(** A sorted list and its message, if the list is not empty; sorting writes
    the store. *)
Definition sorted_msg (h : heap string) (s : slice) (msg : string → string) : heap string * list string :=
  if nonempty s then
    let h := slice_sort h s in (h, [msg (Join (slice_elems h s) ", ")])
  else (h, []).

Definition datasources_msg (rp : reportPeriod) (u : unmet) : string :=
  let '(h1, m1) := sorted_msg (u_heap u) (unstarted u) (λ names, Sprintf "no data: [%s]" [FStr names]) in
  let '(h2, m2) := sorted_msg h1 (unmetDataStart u) (λ names,
    Sprintf "periodStart %s is before importDataStartTime of [%s]" [FTime (periodStart rp); FStr names]) in
  let '(_, m3) := sorted_msg h2 (unmetDataEnd u) (λ names,
    Sprintf "periodEnd %s is after importDataEndTime of [%s]" [FTime (periodEnd rp); FStr names]) in
  Join (m1 ++ m2 ++ m3) ", ".

Definition unmet_message (rp : reportPeriod) (u : unmet) (unmetReports : list string) : string :=
  "The following Report dependencies do not have data currently available for the current reportPeriod being processed:"
  +:+ (if any_unmet u then Sprintf " ReportDataSources: %s" [FStr (datasources_msg rp u)] else "")
  +:+ (if decide (unmetReports = []) then "" else
         Sprintf " Reports: lastReportTime not prior to periodEnd %s: [%s]"
           [FTime (periodEnd rp); FStr (Join (sort_strings unmetReports) ", ")]).

Section reports.
Context {S : Type} `{!Env S} (cfg : Config) {UT : UnicodeTables} {MO : MapOrder} {TE : TemplateEngine}.

(** ** Status updates *)
Definition addReportFinalizer : Report → M S Report := addFinalizer KReport reportFinalizer.
Definition removeReportFinalizer : Report → M S Report := removeFinalizer KReport reportFinalizer.
Definition reportNeedsFinalizer (report : Report) : bool := needsFinalizer reportFinalizer (r_Meta report).

Definition updateReportStatus (report : Report) (cond : ReportCondition) : M S Report :=
  Update KReport (with_condition cond report).

(** A new Running condition, stored. *)
Definition set_running (report : Report) (status : ConditionStatus) (reason msg : string) : M S Report :=
  cond ← NewReportCondition ReportRunning status reason msg;
  updateReportStatus report cond.

(** The Running condition is exactly this one already. *)
Definition has_running (status : ReportStatus) (st : ConditionStatus) (reason : string) (msg : option string)
    : bool :=
  match GetReportCondition status ReportRunning with
  | Some c => bool_decide (c_Status c = st) && String.eqb (c_Reason c) reason &&
      match msg with Some m => String.eqb (c_Message c) m | None => true end
  | None => false
  end.

Definition setReportStatusInvalidReport (report : Report) (msg : string) : M S unit :=
  if has_running (r_Status report) ConditionFalse InvalidReportReason (Some msg) then mret tt
  else _ ← set_running report ConditionFalse InvalidReportReason msg; mret tt.

(** ** Dependencies *)
Definition getQueryDependencies (namespace name : string) (inputVals : list ReportQueryInputValue)
    : M S ReportQueryDependencies :=
  query ← NewReportQueryListerGetter namespace name;
  result ← ResolveDependencies listerResolver (Namespace (q_Meta query)) (qs_Inputs (q_Spec query)) inputVals;
  mret (fst result).

Definition getReportDependencies (report : Report) : M S ReportQueryDependencies :=
  getQueryDependencies (Namespace (r_Meta report)) (rs_QueryName (r_Spec report)) (rs_Inputs (r_Spec report)).

Definition depends_on_report (deps : ReportQueryDependencies) (name : string) : bool :=
  existsb (λ dep, String.eqb (Name (r_Meta dep)) name) (Reports deps).

Definition queueDependentReportsForReport (report : Report) : M S unit :=
  reports ← ListerList KReport (Namespace (r_Meta report));
  for_each reports (λ otherReport,
    deps ← getReportDependencies otherReport;
    if depends_on_report deps (Name (r_Meta report)) then enqueueReport otherReport else mret tt).

Definition queueDependentReportQueriesForReport (report : Report) : M S unit :=
  queries ← List KReportQuery (Namespace (r_Meta report));
  for_each queries (λ query,
    deps ← getQueryDependencies (Namespace (q_Meta query)) (Name (q_Meta query)) [];
    if depends_on_report deps (Name (r_Meta report)) then enqueueReportQuery query else mret tt).

Definition queue_dependents (report : Report) : M S unit :=
  _ ← log_err (queueDependentReportQueriesForReport report);
  log_err (queueDependentReportsForReport report).

Definition uninitialiedDependendenciesHandler : option (ReportDataSource → M S unit) :=
  Some enqueueReportDataSource.

(** ** Validation *)
Definition GetReportQueryForReport (report : Report) : M S ReportQuery :=
  NewReportQueryListerGetter (Namespace (r_Meta report)) (rs_QueryName (r_Spec report)).

(** The checks on the spec alone. *)
Definition validate_spec (spec : ReportSpec) : outcome unit :=
  if String.eqb (rs_QueryName spec) "" then Err (New "must set spec.query")
  else
    _ ← match rs_ReportingStart spec, rs_ReportingEnd spec with
        | Some s, Some e =>
            if After s e || Equal s e then
              Err (Errorf "spec.reportingEnd (%s) must be after spec.reportingStart (%s)" [FTime e; FTime s])
            else Ok tt
        | _, _ => Ok tt
        end;
    match rs_ReportingEnd spec with
    | None =>
        if rs_RunImmediately spec then
          Err (New "spec.reportingEnd must be set if report.spec.runImmediately is true")
        else Ok tt
    | Some _ => Ok tt
    end.

Definition validateReport (report : Report)
    : M S (ReportQuery * (ReportQueryDependencies * gmap string InputValue)) :=
  _ ← ret_out (validate_spec (r_Spec report));
  query ← map_err (λ err, if IsNotFound err
                   then Errorf "ReportQuery (%s) does not exist" [FStr (rs_QueryName (r_Spec report))]
                   else New "failed to get report report query")
    (GetReportQueryForReport report);
  dependencyResult ←
    map_err (λ err, Errorf "failed to resolve ReportQuery dependencies %s: %v"
               [FStr (Name (q_Meta query)); FStr (Error err)])
      (ResolveDependencies listerResolver (Namespace (q_Meta query)) (qs_Inputs (q_Spec query))
         (rs_Inputs (r_Spec report)));
  _ ← map_err (λ err, Errorf "failed to validate ReportQuery dependencies %s: %v"
                 [FStr (Name (q_Meta query)); FStr (Error err)])
    (ValidateQueryDependencies (fst dependencyResult) uninitialiedDependendenciesHandler);
  mret (query, dependencyResult).

(** ** The report's table *)
Definition err_for (f : string) (name : string) (err : error) : error :=
  Errorf f [FStr name; FStr (Error err)].

(** The table parameters of a new report table. *)
Definition report_table_params (hive : HiveStorage) (database tableName : string) (cols : list hive.Column)
    : hive.TableParameters :=
  let '(rowFormat, fileFormat) := default ("", "") (DefaultTableProperties hive) in
  {| hive.p_Database := database; hive.p_Name := tableName; hive.p_Columns := cols;
     hive.p_PartitionedBy := []; hive.p_ClusteredBy := []; hive.p_SortedBy := []; hive.p_NumBuckets := 0;
     hive.p_Location := ""; hive.p_RowFormat := rowFormat; hive.p_FileFormat := fileFormat;
     hive.p_TableProperties := None; hive.p_External := false |}.

(** The data source that makes the report's table available to queries. *)
Definition report_datasource (report : Report) (prestoTable : PrestoTable) : ReportDataSource :=
  let m := pt_Meta prestoTable in
  {| ds_Meta := {| Name := Sprintf "report-%s" [FStr (Name (r_Meta report))]; Namespace := Namespace m;
                   ResourceVersion := ""; Labels := Labels m; Annotations := ∅;
                   OwnerReferences := [NewControllerRef m "PrestoTable"]; Finalizers := [];
                   DeletionTimestamp := None |};
     ds_Spec := {| ds_PrometheusMetricsImporter := None; ds_AWSBilling := None;
                   ds_PrestoTable := Some (Name m); ds_ReportQueryView := None |};
     ds_Status := {| dst_TableRef := ""; dst_ImportStatus := None |} |}.

(** The storage of a table to create; its database must exist already. *)
Definition storage_database (what name : string) (ref : option StorageLocationRef) (namespace : string)
    : M S (StorageLocation * HiveStorage) :=
  '(storage, hive) ←
    map_err (λ err, Errorf "storage incorrectly configured for %s %s, err: %v"
               [FStr what; FStr name; FStr (Error err)]) (getHiveStorage ref namespace);
  if String.eqb (sl_DatabaseName storage) "" then
    fail (Errorf "StorageLocation %s Hive database %s does not exist yet"
            [FStr (Name (sl_Meta storage)); FStr (hs_DatabaseName hive)])
  else mret (storage, hive).

(** Create the Hive table's resource and wait for it and its mirror. *)
Definition create_and_wait (what : string) (owner : ObjectMeta) (kindName : string)
    (params : hive.TableParameters) : M S (HiveTable * PrestoTable) :=
  let wrap {A} : M S A → M S A := map_err (λ err,
    Errorf "error creating table for %s %s: %s" [FStr what; FStr (Name owner); FStr (Error err)]) in
  hiveTable ← wrap (createHiveTableCR cfg owner kindName params false []);
  hiveTable ← wrap (waitForHiveTable (Namespace (ht_Meta hiveTable)) (Name (ht_Meta hiveTable)));
  prestoTable ← wrap (waitForPrestoTable (Namespace (ht_Meta hiveTable)) (Name (ht_Meta hiveTable)));
  mret (hiveTable, prestoTable).

(** The table a status refers to. *)
Definition existing_table (what name namespace ref : string) : M S PrestoTable :=
  prestoTable ← map_err (λ err, Errorf "unable to get PrestoTable %s for %s %s, %s"
                           [FStr ("{" +:+ ref +:+ "}"); FStr what; FStr name; FStr (Error err)])
    (ListerGet KPrestoTable namespace ref);
  _ ← ret_out (FullyQualifiedTableName prestoTable);
  mret prestoTable.

Definition create_report_table (report : Report) (reportQuery : ReportQuery) : M S (PrestoTable * Report) :=
  let name := Name (r_Meta report) in let namespace := Namespace (r_Meta report) in
  '(storage, hive) ← storage_database "Report" name (rs_Output (r_Spec report)) namespace;
  cols ← map_err (λ err, Errorf "unable to convert Presto columns to Hive columns: %s" [FStr (Error err)])
    (ret_out (PrestoColumnsToHiveColumns (GeneratePrestoColumns reportQuery)));
  '(hiveTable, prestoTable) ←
    create_and_wait "Report" (r_Meta report) "Report"
      (report_table_params hive (sl_DatabaseName storage) (ReportTableName namespace name) cols);
  _ ← ret_out (FullyQualifiedTableName prestoTable);
  let newReportDataSource := report_datasource report prestoTable in
  r ← try (Create KReportDataSource newReportDataSource);
  _ ← match r with
      | inr err =>
          if IsAlreadyExists err then mret tt
          else fail (Errorf "error creating PrestoTable ReportDataSource %s: %s"
                       [FStr (Name (ds_Meta newReportDataSource)); FStr (Error err)])
      | inl _ => mret tt
      end;
  report ← Update KReport (set_report_TableRef (Name (ht_Meta hiveTable)) report);
  _ ← queue_dependents report;
  mret (prestoTable, report).

Definition report_table (report : Report) (reportQuery : ReportQuery) : M S (PrestoTable * Report) :=
  let ref := rst_TableRef (r_Status report) in
  if negb (String.eqb ref "") then
    prestoTable ← existing_table "Report" (Name (r_Meta report)) (Namespace (r_Meta report)) ref;
    mret (prestoTable, report)
  else create_report_table report reportQuery.

(** ** Deciding whether to run *)
Definition bypass_msg (report : Report) (rp : reportPeriod) : string :=
  Sprintf "Report %s scheduled: runImmediately=true bypassing reporting period [%s to %s]."
    [FStr (Name (r_Meta report)); FTime (periodStart rp); FTime (periodEnd rp)].
Definition scheduled_msg (report : Report) (rp : reportPeriod) : string :=
  Sprintf "Report %s scheduled: reached end of reporting period [%s to %s]."
    [FStr (Name (r_Meta report)); FTime (periodStart rp); FTime (periodEnd rp)].
Definition wait_msg (rp : reportPeriod) (next : Time) : string :=
  Sprintf "Next scheduled report period is [%s to %s]. next run time is %s."
    [FTime (periodStart rp); FTime (periodEnd rp); FTime next].

(** The period is not over: the report is queued for when it is. *)
Definition wait_for_period (report : Report) (rp : reportPeriod) (now : Time) : M S unit :=
  let waitTime := Sub (periodEnd rp) now in
  if has_running (r_Status report) ConditionTrue ReportingPeriodWaitingReason None then
    enqueueReportAfter report waitTime
  else
    report ← set_running report ConditionFalse ReportingPeriodWaitingReason (wait_msg rp (periodEnd rp));
    enqueueReportAfter report waitTime.

Fixpoint check_datasources (rp : reportPeriod) (dss : list ReportDataSource) (u : unmet) : M S unmet :=
  match dss with
  | [] => mret u
  | ds :: dss =>
      let '(u, queue) := unmet_step rp ds u in
      _ ← (if (queue : bool) then enqueueReportDataSource ds else mret tt);
      check_datasources rp dss u
  end.

(** A sub-report that never reported is not looked at. *)
Definition report_behind (rp : reportPeriod) (subReport : Report) : bool :=
  match LastReportTime (r_Status subReport) with Some l => Before l (periodEnd rp) | None => false end.

Fixpoint check_reports (rp : reportPeriod) (reports : list Report) (unmetReports : list string)
    : M S (list string) :=
  match reports with
  | [] => mret unmetReports
  | subReport :: reports =>
      if report_behind rp subReport then
        _ ← enqueueReport subReport;
        check_reports rp reports (unmetReports ++ [Name (r_Meta subReport)])
      else check_reports rp reports unmetReports
  end.

(** [status] is the report's status when the sync began. *)
Definition check_dependencies (status : ReportStatus) (report : Report) (rp : reportPeriod)
    (deps : ReportQueryDependencies) : M S bool :=
  u ← check_datasources rp (ReportDataSources deps) unmet_empty;
  unmetReports ← check_reports rp (Reports deps) [];
  if any_unmet u || negb (bool_decide (unmetReports = [])) then
    let unmetMsg := unmet_message rp u unmetReports in
    if has_running status ConditionFalse ReportingPeriodUnmetDependenciesReason (Some unmetMsg)
    then mret false
  else
    _ ← set_running report ConditionFalse ReportingPeriodUnmetDependenciesReason unmetMsg;
    mret false
  else mret true.

(** The reason and the message of the run, or nothing to do now. *)
Definition decide_run (status : ReportStatus) (report : Report) (rp : reportPeriod) (now : Time)
    (deps : ReportQueryDependencies) : M S (option (string * string)) :=
  if rs_RunImmediately (r_Spec report) then mret (Some (RunImmediatelyReason, bypass_msg report rp))
  else if After (periodEnd rp) now then _ ← wait_for_period report rp now; mret None
  else
    ready ← check_dependencies status report rp deps;
    mret (if (ready : bool) then Some (ScheduledReason, scheduled_msg report rp) else None).

(** ** Running *)
Definition render_report (report : Report) (reportQuery : ReportQuery) (rp : reportPeriod)
    (inputs : gmap string InputValue) : M S string :=
  let namespace := Namespace (r_Meta report) in
  prestoTables ← ListerList KPrestoTable namespace;
  reports ← ListerList KReport namespace;
  datasources ← ListerList KReportDataSource namespace;
  queries ← ListerList KReportQuery namespace;
  ret_out (RenderQuery
             {| tc_Namespace := namespace; tc_Query := qs_Query (q_Spec reportQuery);
                RequiredInputs := ConvertInputDefinitionsIntoInputList (qs_Inputs (q_Spec reportQuery));
                tc_Reports := reports; tc_ReportQueries := queries; tc_ReportDataSources := datasources;
                tc_PrestoTables := prestoTables |}
             {| ReportingStart := Some (periodStart rp); ReportingEnd := Some (periodEnd rp); Inputs := inputs |}).

(** After a successful run: the report is finished, or waits for its next
    period. *)
Definition next_status (report : Report) (rp : reportPeriod) : M S Report :=
  let report := set_LastReportTime (periodEnd rp) report in
  let finished :=
    match rs_ReportingEnd (r_Spec report) with Some e => Equal (periodEnd rp) e | None => false end in
  if finished then
    cond ← NewReportCondition ReportRunning ConditionFalse ReportFinishedReason
      (Sprintf "Report has finished reporting. Report has reached the configured spec.reportingEnd: %s"
         [FTime (periodEnd rp)]);
    mret (with_condition cond report)
  else match rs_Schedule (r_Spec report) with
       | Some spec =>
           reportSchedule ← ret_out (getSchedule spec);
           let nextRunTime := periodEnd (getNextReportPeriod reportSchedule (Period spec) (periodEnd rp)) in
           let report := set_NextReportTime nextRunTime report in
           now ← Now;
           cond ← NewReportCondition ReportRunning ConditionFalse ReportingPeriodWaitingReason
             (wait_msg rp nextRunTime);
           let report := with_condition cond report in
           _ ← enqueueReportAfter report (Sub nextRunTime now);
           mret report
       | None => mret report
       end.

Definition record_report (report : Report) (rp : reportPeriod) : M S unit :=
  report ← next_status report rp;
  report ← Update KReport report;
  queue_dependents report.

(** A failed generation is recorded, then returned. *)
Definition generation_failed (report : Report) (err : error) : M S unit :=
  _ ← Inc GenerateReportFailed;
  _ ← set_running report ConditionFalse GenerateReportFailedReason
    (Sprintf "error occurred while generating report: %s" [FStr (Error err)]);
  fail (Errorf "failed to generateReport for Report %s, err: %v"
          [FStr (Name (r_Meta report)); FStr (Error err)]).

Definition execute_report (report : Report) (reportQuery : ReportQuery) (rp : reportPeriod)
    (inputs : gmap string InputValue) (prestoTable : PrestoTable) (reason msg : string) : M S unit :=
  report ← set_running report ConditionTrue reason msg;
  query ← render_report report reportQuery rp inputs;
  tableName ← ret_out (FullyQualifiedTableName prestoTable);
  _ ← Inc GenerateReportTotal;
  _ ← Now;
  r ← try (GenerateReport tableName query (rs_OverwriteExistingData (r_Spec report)));
  _ ← Now;
  match r with
  | inr err => generation_failed report err
  | inl _ => record_report report rp
  end.

Definition runReport (report : Report) : M S unit :=
  if isReportFinished report then mret tt
  else
    let status := r_Status report in
    r ← try (validateReport report);
    match r with
    | inr err => setReportStatusInvalidReport report (Error err)
    | inl (reportQuery, (deps, inputs)) =>
        now ← Now;
        '(rp, report) ← ret_out (getReportPeriod now report);
        '(prestoTable, report) ← report_table report reportQuery;
        run ← decide_run status report rp now deps;
        match run with
        | None => mret tt
        | Some (reason, msg) => execute_report report reportQuery rp inputs prestoTable reason msg
        end
    end.

Definition handleReport (report : Report) : M S unit :=
  report ← ensureFinalizer cfg KReport reportFinalizer report;
  runReport report.

Definition syncReport (key : string) : M S unit :=
  syncResource KReport key (λ report,
    match DeletionTimestamp (r_Meta report) with
    | Some _ => _ ← removeReportFinalizer report; mret tt
    | None => handleReport report
    end).
End reports.
