(* ===== verification/ReportRuns.v ===== *)
(** * What a sync of a report does (theorems about Reports.v) *)

From S2P Require Export Reports.
Open Scope Z_scope.

(** ** Effects of the phases *)

(** A report whose [P] survives the operator's own edits and the server. *)
Class Stable {S} `{!Env S} (P : Report → Prop) := {
  stable_condition r c : P r → P (with_condition c r);
  stable_table r n : P r → P (set_report_TableRef n r);
  stable_next r t : P r → P (set_NextReportTime t r);
  stable_update r s r' s' : client_update KReport r s = (Ok r', s') → P r → P r';
}.

(** The server stores a report as it was sent, under the same key. *)
Class FaithfulServer {S} `{!Env S} : Prop :=
  stored_as_sent r s r' s' : client_update KReport r s = (Ok r', s') →
    r_Spec r' = r_Spec r ∧ r_Status r' = r_Status r ∧
    MetaNamespaceKey (r_Meta r') = MetaNamespaceKey (r_Meta r).

(** Everything but a query of Presto; updated reports satisfy [P]. *)
Definition bookkeeping (P : Report → Prop) (e : event) : Prop :=
  match ev_action e with
  | AUpdate KReport r => P r
  | ACreate _ _ | AEnqueue _ _ | AEnqueueAfter _ _ _ | ACounter _ _ => True
  | _ => False
  end.

(** Effects of parts that touch no report. *)
Definition aside (e : event) : Prop :=
  match ev_action e with
  | ACreate _ _ | AEnqueue _ _ | AEnqueueAfter _ _ _ | ACounter _ _ => True
  | _ => False
  end.

Section effects.
Context {S : Type} `{!Env S} (cfg : Config) {UT : UnicodeTables} {MO : MapOrder} {TE : TemplateEngine}.

Lemma aside_bookkeeping P e : aside e → bookkeeping P e.
Proof. by destruct e as [[] ok]. Qed.

Lemma emits_poll {A} P n (cond : M S (option A)) : emits P cond → emits P (poll n cond).
Proof. intros Hc. induction n as [|n IH]; simpl; emits_tac. Qed.

(** Resolving dependencies only reads. *)
Lemma emits_resolveDependencies P fuel ns ctx defs vals :
  emits P (resolveDependencies (S := S) listerResolver fuel ns ctx defs vals).
Proof.
  revert ns ctx defs vals. induction fuel as [|fuel IH]; intros ns ctx defs vals; simpl; [emits_tac|].
  assert (∀ ctx name, emits P (resolveQuery listerResolver (resolveDependencies listerResolver fuel) ns ctx name))
    as HQ by (intros; unfold resolveQuery; simpl; unfold NewReportQueryListerGetter; emits_tac; first [apply IH|apply emits_read]).
  assert (∀ ctx name, emits P (resolveDataSource listerResolver (resolveDependencies listerResolver fuel) ns ctx name))
    as HD by (intros; unfold resolveDataSource; emits_tac; first [apply HQ|apply emits_read]).
  assert (∀ ctx name, emits P (resolveReport listerResolver (resolveDependencies listerResolver fuel) ns ctx name))
    as HR by (intros; unfold resolveReport; emits_tac; first [apply HQ|apply emits_read]).
  emits_tac. revert ctx. induction defs as [|def defs IHd]; intros ctx; simpl; emits_tac; try apply IHd.
  unfold resolve_value, unmarshal, not_valid. emits_tac; auto.
Qed.

Lemma emits_ResolveDependencies P ns defs vals :
  emits P (ResolveDependencies (S := S) listerResolver ns defs vals).
Proof. unfold ResolveDependencies. emits_tac. apply emits_resolveDependencies. Qed.

Lemma emits_getQueryDependencies P ns name vals : emits P (getQueryDependencies (S := S) ns name vals).
Proof. unfold getQueryDependencies, NewReportQueryListerGetter. emits_tac. apply emits_ResolveDependencies. Qed.

Lemma emits_queue_dependents r : emits aside (queue_dependents (S := S) r).
Proof.
  unfold queue_dependents, queueDependentReportQueriesForReport, queueDependentReportsForReport,
    getReportDependencies, getReportDependencies; unfold_enqueue. emits_tac; apply emits_getQueryDependencies.
Qed.

Lemma emits_validateReport r : emits aside (validateReport (S := S) r).
Proof.
  unfold validateReport, ValidateQueryDependencies, GetReportQueryForReport, NewReportQueryListerGetter,
    uninitialiedDependendenciesHandler; unfold_enqueue. emits_tac; try apply emits_ResolveDependencies.
Qed.

Lemma emits_getHiveStorage P ref ns : emits P (getHiveStorage (S := S) ref ns).
Proof. unfold getHiveStorage, getStorage, getDefaultStorageLocation. emits_tac. Qed.

Lemma emits_storage_database P what name ref ns : emits P (storage_database (S := S) what name ref ns).
Proof. unfold storage_database. emits_tac. apply emits_getHiveStorage. Qed.

Lemma emits_create_and_wait what owner k params :
  emits aside (create_and_wait (S := S) cfg what owner k params).
Proof.
  unfold create_and_wait, createHiveTableCR, waitForHiveTable, waitForPrestoTable, Poll, table_ready.
  emits_tac; apply emits_poll; emits_tac.
Qed.

Lemma emits_existing_table P what name ns ref : emits P (existing_table (S := S) what name ns ref).
Proof. unfold existing_table. emits_tac. Qed.

Lemma emits_check_datasources rp dss u : emits aside (check_datasources (S := S) rp dss u).
Proof.
  revert u. induction dss as [|ds dss IH]; intros u; simpl; unfold_enqueue; [emits_tac|].
  destruct (unmet_step rp ds u) as [u' q]. emits_tac; apply IH.
Qed.

Lemma emits_check_reports rp rs l : emits aside (check_reports (S := S) rp rs l).
Proof.
  revert l. induction rs as [|r rs IH]; intros l; simpl; unfold_enqueue; emits_tac; apply IH.
Qed.

Lemma emits_render_report P r q rp inputs : emits P (render_report (S := S) r q rp inputs).
Proof. unfold render_report. emits_tac. Qed.

(** *** Parts that update the report *)
Lemma performs_aside P {A} (m : M S A) : emits aside m → performs (bookkeeping P) (λ _, True) m.
Proof. intros. apply performs_any. eapply emits_weaken; [apply aside_bookkeeping|done]. Qed.

Section stable.
Context (P : Report → Prop) {ST : Stable P}.
Set Default Proof Using "Type + ST".

Lemma performs_update r : P r → performs (bookkeeping P) P (Update KReport r : M S Report).
Proof. intros Hr. apply performs_effect; [done|]. intros s x s' H. by eapply stable_update. Qed.

Lemma performs_set_running r st reason msg :
  P r → performs (bookkeeping P) P (set_running (S := S) r st reason msg).
Proof.
  intros Hr. unfold set_running, updateReportStatus. eapply performs_bind.
  - apply performs_aside. unfold NewReportCondition. emits_tac.
  - intros c _. by apply performs_update, stable_condition.
Qed.

Lemma performs_report_table r q :
  P r → performs (bookkeeping P) (λ x, P (snd x)) (report_table (S := S) cfg r q).
Proof.
  intros Hr. unfold report_table. destruct (negb _).
  { eapply performs_bind; [apply performs_any, emits_existing_table|].
    intros pt _. by apply performs_ret. }
  unfold create_report_table. eapply performs_bind; [apply performs_any, emits_storage_database|].
  intros [storage hive] _. eapply performs_bind; [apply performs_any; emits_tac|]. intros cols _.
  eapply performs_bind; [apply performs_aside, emits_create_and_wait|]. intros [ht pt] _.
  eapply performs_bind; [apply performs_any; emits_tac|]. intros tbl _.
  eapply performs_bind; [apply performs_aside; emits_tac|]. intros x _.
  eapply performs_bind; [apply performs_aside; destruct x; emits_tac|]. intros _ _.
  eapply performs_bind; [by apply performs_update, stable_table|]. intros r' Hr'.
  eapply performs_bind; [apply performs_aside, emits_queue_dependents|]. intros _ _.
  by apply performs_ret.
Qed.

Lemma performs_decide_run st r rp now deps :
  P r → performs (bookkeeping P) (λ _, True) (decide_run (S := S) st r rp now deps).
Proof.
  intros Hr. unfold decide_run. destruct (rs_RunImmediately _); [by apply performs_ret|].
  destruct (After _ _).
  - eapply (performs_bind _ (λ _, True)); [|intros; by apply performs_ret].
    unfold wait_for_period. destruct (has_running _ _ _ _); [apply performs_aside; unfold_enqueue; emits_tac|].
    eapply performs_bind; [by apply performs_set_running|]. intros r' _. apply performs_aside. unfold_enqueue. emits_tac.
  - eapply (performs_bind _ (λ _, True)); [|intros; by apply performs_ret].
    unfold check_dependencies. eapply performs_bind; [apply performs_aside, emits_check_datasources|].
    intros u _. eapply performs_bind; [apply performs_aside, emits_check_reports|]. intros l _. cbv zeta.
    destruct (_ || _); [|by apply performs_ret]. destruct (has_running _ _ _ _); [by apply performs_ret|].
    eapply performs_bind; [by apply performs_set_running|]. intros; by apply performs_ret.
Qed.

Lemma performs_invalid r msg :
  P r → performs (bookkeeping P) (λ _, True) (setReportStatusInvalidReport (S := S) r msg).
Proof.
  intros Hr. unfold setReportStatusInvalidReport. destruct (has_running _ _ _ _); [by apply performs_ret|].
  eapply performs_bind; [by apply performs_set_running|]. intros; by apply performs_ret.
Qed.
End stable.
Set Default Proof Using "Type".
End effects.

(** ** When a report runs *)

(** The imported data of a data source covers the period. *)
Definition covers (rp : reportPeriod) (ds : ReportDataSource) : Prop :=
  ds_PrometheusMetricsImporter (ds_Spec ds) ≠ None →
  ∃ st s e, dst_ImportStatus (ds_Status ds) = Some st ∧ ImportDataStartTime st = Some s ∧
    ImportDataEndTime st = Some e ∧ s ≤ periodStart rp ∧ periodEnd rp ≤ e.

(** A sub-report has reported the period, if it reported at all. *)
Definition up_to_date (rp : reportPeriod) (sub : Report) : Prop :=
  ∀ l, LastReportTime (r_Status sub) = Some l → periodEnd rp ≤ l.

Section decision.
Context {S : Type} `{!Env S}.

Lemma append_nonempty (h : heap string) s x : nonempty (slice_append h s x).2 = true.
Proof. unfold slice_append. by destruct (_ <? _)%nat. Qed.

(** A data source that is not covered leaves a list non-empty, and what is
    not empty stays so. *)
Lemma unmet_step_any rp ds u :
  any_unmet (unmet_step rp ds u).1 = (any_unmet u || (unmet_step rp ds u).2).
Proof.
  unfold unmet_step. destruct (ds_PrometheusMetricsImporter _); [|by rewrite orb_false_r].
  destruct (dst_ImportStatus _) as [st|].
  - destruct (starts_late rp st), (ends_early rp st); simpl;
    repeat match goal with |- context [slice_append ?h ?s ?x] =>
               pose proof (append_nonempty h s x); destruct (slice_append h s x) end;
    unfold any_unmet in *; simpl in *; rewrite ?orb_true_r, ?orb_false_r; try done;
    repeat match goal with H : nonempty _ = true |- _ => rewrite H end; by rewrite ?orb_true_r.
  - pose proof (append_nonempty (u_heap u) (unmetDataStart u) (Name (ds_Meta ds))) as H.
    destruct (slice_append _ _ _). unfold any_unmet. simpl in *. by rewrite H, orb_true_r.
Qed.

Lemma unmet_step_covers rp ds u : (unmet_step rp ds u).2 = false → covers rp ds.
Proof.
  unfold unmet_step, covers. destruct (ds_PrometheusMetricsImporter _); [|done].
  destruct (dst_ImportStatus _) as [st|]; [|by destruct (slice_append _ _ _)].
  simpl. unfold starts_late, ends_early, Before, After. intros [Hs He]%orb_false_iff _.
  repeat case_match; try done. eexists st, _, _. split_and!; try done; lia.
Qed.

Lemma check_datasources_covers rp dss u w u' w' :
  check_datasources (S := S) rp dss u w = (Ok u', w') → any_unmet u' = false →
  any_unmet u = false ∧ Forall (covers rp) dss.
Proof.
  revert u w. induction dss as [|ds dss IH]; intros u w; simpl.
  { intros [[= ->] _]%ret_inv. by split. }
  pose proof (unmet_step_any rp ds u) as Hany. pose proof (unmet_step_covers rp ds u) as Hcov.
  destruct (unmet_step rp ds u) as [u1 q]. simpl in *.
  intros (? & w1 & _ & Hrest)%bind_Ok_inv Hu'.
  destruct (IH _ _ Hrest Hu') as [Hu1 Hall]. rewrite Hany in Hu1.
  apply orb_false_iff in Hu1 as [Hu Hq]. split; [done|]. constructor; auto.
Qed.

Lemma check_reports_up_to_date rp rs l w w' :
  check_reports (S := S) rp rs l w = (Ok [], w') → l = [] ∧ Forall (up_to_date rp) rs.
Proof.
  revert l w. induction rs as [|r rs IH]; intros l w; simpl.
  { intros [[= ->] _]%ret_inv. by split. }
  unfold report_behind, Before. destruct (LastReportTime (r_Status r)) as [t|] eqn:Ht.
  - destruct (t <? periodEnd rp) eqn:Hlt.
    + intros (? & w1 & _ & Hrest)%bind_Ok_inv. apply IH in Hrest as [Hl _]. by destruct l.
    + intros [-> Hall]%IH. split; [done|]. constructor; [|done]. intros x Hx. simplify_eq. lia.
  - intros [-> Hall]%IH. split; [done|]. constructor; [|done]. intros x Hx. congruence.
Qed.

(** What holds when the decision is to run. *)
Definition due (report : Report) (rp : reportPeriod) (now : Time) (deps : ReportQueryDependencies) : Prop :=
  rs_RunImmediately (r_Spec report) = true ∨
  (periodEnd rp ≤ now ∧ Forall (covers rp) (ReportDataSources deps) ∧
   Forall (up_to_date rp) (Reports deps)).

Lemma decide_run_due st r rp now deps w x w' :
  decide_run (S := S) st r rp now deps w = (Ok (Some x), w') → due r rp now deps.
Proof.
  unfold decide_run, due. destruct (rs_RunImmediately (r_Spec r)); [by left|]. intros H. right.
  destruct (After (periodEnd rp) now) eqn:Hnow.
  { by apply bind_Ok_inv in H as (? & ? & _ & [[=] _]%ret_inv). }
  unfold After in Hnow. apply bind_Ok_inv in H as (ready & w1 & Hc & [[= Hready] _]%ret_inv).
  destruct ready; [|done]. unfold check_dependencies in Hc.
  apply bind_Ok_inv in Hc as (u & w2 & Hds & Hc). apply bind_Ok_inv in Hc as (l & w3 & Hrs & Hc).
  destruct (any_unmet u) eqn:Hu; simpl in Hc.
  { destruct (has_running _ _ _ _); [by apply ret_inv in Hc as [[=] _]|].
    by apply bind_Ok_inv in Hc as (? & ? & _ & [[=] _]%ret_inv). }
  case_bool_decide as Hl; simpl in Hc.
  2:{ destruct (has_running _ _ _ _); [by apply ret_inv in Hc as [[=] _]|].
      by apply bind_Ok_inv in Hc as (? & ? & _ & [[=] _]%ret_inv). }
  subst l. apply check_reports_up_to_date in Hrs as [_ Hrs].
  destruct (check_datasources_covers _ _ _ _ _ _ Hds Hu) as [_ Hds']. split_and!; [lia|done|done].
Qed.
End decision.

(** ** Runs *)
Section runs.
Context {S : Type} `{!Env S} (cfg : Config) {UT : UnicodeTables} {MO : MapOrder} {TE : TemplateEngine}.

Lemma getReportPeriod_stable P `{!Stable P} now report rp report' :
  getReportPeriod now report = Ok (rp, report') → P report → P report'.
Proof.
  unfold getReportPeriod. intros H HP.
  match type of H with (?m ≫= _) = _ => destruct m as [[rp0 r0]|e|p] eqn:E end; simpl in H; [|done..].
  assert (P r0).
  { clear H. revert E. destruct (rs_Schedule _) as [spec|].
    - destruct (getSchedule spec) as [sched|e|p]; simpl; [|done..].
      unfold scheduledPeriod. intros E. repeat case_match; simplify_eq; first [done|by apply stable_next].
    - destruct (getRunOnceReportPeriod report) as [x|e|p]; simpl; [|done..]. intros E. by simplify_eq. }
  repeat case_match; by simplify_eq.
Qed.

(** The queries of a generation. *)
Definition generation (tbl query : string) (overwrite : bool) (e : event) : Prop :=
  ev_action e = APrestoQuery (Presto.FormatInsertQuery tbl query) ∨
  (overwrite = true ∧ ev_action e = APrestoQuery (Sprintf "DELETE FROM %s" [FStr tbl])).

Lemma emits_GenerateReport tbl query overwrite :
  emits (generation tbl query overwrite) (GenerateReport (S := S) tbl query overwrite).
Proof.
  unfold GenerateReport, DeleteReportResults, StoreReportResults, Presto.DeleteFrom, Presto.InsertInto,
    Presto.execQuery, Presto.Query, generation. emits_tac; simpl; auto.
Qed.

Lemma performs_next_status Q `{!Stable Q} report rp :
  Q (set_LastReportTime (periodEnd rp) report) →
  performs (bookkeeping Q) Q (next_status (S := S) report rp).
Proof.
  intros HQ. unfold next_status. cbv zeta.
  match goal with |- performs _ _ (if ?b then _ else _) => destruct b end.
  { eapply performs_bind; [apply performs_aside; unfold NewReportCondition; emits_tac|].
    intros c _. by apply performs_ret, stable_condition. }
  destruct (rs_Schedule _) as [spec|]; [|by apply performs_ret].
  eapply performs_bind; [apply performs_any; emits_tac|]. intros sched _. cbv zeta.
  eapply performs_bind; [apply performs_aside; emits_tac|]. intros now _.
  eapply performs_bind; [apply performs_aside; unfold NewReportCondition; emits_tac|]. intros c _. cbv zeta.
  eapply performs_bind; [apply performs_aside; unfold_enqueue; emits_tac|]. intros _ _.
  by apply performs_ret, stable_condition, stable_next.
Qed.

Lemma performs_record_report Q `{!Stable Q} report rp :
  Q (set_LastReportTime (periodEnd rp) report) →
  performs (bookkeeping Q) (λ _, True) (record_report (S := S) report rp).
Proof.
  intros HQ. unfold record_report. eapply performs_bind; [by apply performs_next_status|].
  intros r Hr. eapply performs_bind; [by apply performs_update|]. intros r' _.
  apply performs_aside, emits_queue_dependents.
Qed.

Lemma performs_generation_failed P `{!Stable P} report err :
  P report → performs (bookkeeping P) (λ _, True) (generation_failed (S := S) report err).
Proof.
  intros HP. unfold generation_failed. eapply performs_bind; [apply performs_aside; emits_tac|]. intros _ _.
  eapply performs_bind; [by apply performs_set_running|]. intros _ _. by apply performs_fail.
Qed.

(** The steps of a run up to the generation. *)
Definition prepare (report : Report) (reportQuery : ReportQuery) (rp : reportPeriod)
    (inputs : gmap string InputValue) (prestoTable : PrestoTable) (reason msg : string)
    : M S (Report * string * string) :=
  report ← set_running report ConditionTrue reason msg;
  query ← render_report report reportQuery rp inputs;
  tableName ← ret_out (FullyQualifiedTableName prestoTable);
  _ ← Inc GenerateReportTotal;
  _ ← Now;
  mret (report, query, tableName).

Definition conclude (report : Report) (rp : reportPeriod) (r : unit + error) : M S unit :=
  _ ← Now;
  match r with
  | inr err => generation_failed report err
  | inl _ => record_report report rp
  end.

Lemma performs_conclude P `{!Stable P} report rp r :
  match r with inl _ => P (set_LastReportTime (periodEnd rp) report) | inr _ => P report end →
  performs (bookkeeping P) (λ _, True) (conclude report rp r).
Proof.
  intros HP. unfold conclude. eapply performs_bind; [apply performs_aside; emits_tac|]. intros _ _.
  destruct r; [by apply performs_record_report|by apply performs_generation_failed].
Qed.

Lemma execute_report_eq report q rp inputs pt reason msg w :
  execute_report report q rp inputs pt reason msg w =
  ('(report, query, tableName) ← prepare report q rp inputs pt reason msg;
   r ← try (GenerateReport tableName query (rs_OverwriteExistingData (r_Spec report)));
   conclude report rp r) w.
Proof.
  unfold execute_report, prepare, conclude, mbind, M_bind.
  destruct (set_running _ _ _ _ w) as [[r|e|p] w1]; [|done..].
  destruct (render_report _ _ _ _ w1) as [[sql|e|p] w2]; [|done..].
  unfold ret_out, Inc, emit, Now, read_pure. simpl.
  destruct (FullyQualifiedTableName pt) as [t|e|p]; [|done..]. simpl. by destruct (clock_now _).
Qed.

(** The query text is rendered for exactly the period. *)
Definition rendered (rp : reportPeriod) (query : string) : Prop :=
  ∃ ctx inputs, RenderQuery ctx {| ReportingStart := Some (periodStart rp);
                                   ReportingEnd := Some (periodEnd rp); Inputs := inputs |} = Ok query.

Lemma returns_render_report report q rp inputs :
  returns (rendered rp) (render_report (S := S) report q rp inputs).
Proof.
  unfold render_report. repeat (eapply returns_bind; [apply returns_any|intros ? _]).
  apply returns_ret_out. intros sql Hsql. by eexists _, _.
Qed.

Lemma performs_prepare P `{!Stable P} report q rp inputs pt reason msg :
  P report →
  performs (bookkeeping P) (λ x, P x.1.1 ∧ rendered rp x.1.2) (prepare report q rp inputs pt reason msg).
Proof.
  intros HP. unfold prepare. eapply performs_bind; [by apply performs_set_running|]. intros r Hr.
  eapply performs_bind; [apply performs_emits; [apply emits_render_report|apply returns_render_report]|].
  intros sql Hsql. eapply performs_bind; [apply performs_any; emits_tac|]. intros t _.
  eapply performs_bind; [apply performs_aside; emits_tac|]. intros _ _.
  eapply performs_bind; [apply performs_aside; emits_tac|]. intros _ _. by apply performs_ret.
Qed.

(** The outcome of a run: nothing but bookkeeping, or a generation between
    two stretches of it, the second of which may record the period only if
    the generation succeeded. *)
Inductive run_trace (P Q : Report → Prop) (rp : reportPeriod) : list event → Prop :=
  | run_idle tr : Forall (bookkeeping P) tr → run_trace P Q rp tr
  | run_generates tr1 tr2 tr3 report tbl query wa og wb :
      Forall (bookkeeping P) tr1 → P report → rendered rp query →
      GenerateReport tbl query (rs_OverwriteExistingData (r_Spec report)) wa = (og, wb) →
      trace wb = trace wa ++ tr2 →
      Forall (generation tbl query (rs_OverwriteExistingData (r_Spec report))) tr2 →
      Forall (bookkeeping (λ r, P r ∨ (og = Ok tt ∧ Q r))) tr3 →
      run_trace P Q rp (tr1 ++ tr2 ++ tr3).

Lemma bookkeeping_impl (P Q : Report → Prop) e : (∀ r, P r → Q r) → bookkeeping P e → bookkeeping Q e.
Proof.
  intros H. unfold bookkeeping. destruct (ev_action e) as [k o|k o| | | | | | | | | | | | | | | | | |]; try done.
  destruct k; [apply H|done..].
Qed.

Lemma execute_report_trace P Q `{!Stable P, !Stable Q} report q rp inputs pt reason msg w o w' :
  (∀ r, P r → Q (set_LastReportTime (periodEnd rp) r)) → P report →
  execute_report report q rp inputs pt reason msg w = (o, w') →
  ∃ tr, trace w' = trace w ++ tr ∧ run_trace P Q rp tr.
Proof.
  intros HPQ HP. rewrite execute_report_eq, bind_run.
  destruct (prepare _ _ _ _ _ _ _ w) as [op w1] eqn:E1.
  destruct (performs_prepare P _ _ _ _ _ _ _ HP _ _ _ E1) as (tr1 & Htr1 & HP1 & Hres).
  destruct op as [[[r query] tbl]|e|p].
  2,3: intros [= <- <-]; exists tr1; split; [done|by apply run_idle].
  destruct (Hres _ eq_refl) as [Hr Hq]. simpl in Hr, Hq. rewrite bind_run. unfold try.
  destruct (GenerateReport tbl query _ w1) as [og w2] eqn:E2. intros Hrest.
  destruct (emits_GenerateReport tbl query (rs_OverwriteExistingData (r_Spec r)) w1) as (tr2 & Htr2 & HG).
  rewrite E2 in Htr2. simpl in Htr2.
  assert (∃ tr3, trace w' = trace w2 ++ tr3 ∧
          Forall (bookkeeping (λ r, P r ∨ (og = Ok tt ∧ Q r))) tr3) as (tr3 & Htr3 & H3).
  { destruct og as [[]|e|p].
    - destruct (performs_conclude Q r rp (inl tt) (HPQ r Hr) w2 o w' Hrest) as (tr3 & Htr3 & H3 & _).
      exists tr3. split; [done|]. eapply Forall_impl; [exact H3|]. intros e.
      apply bookkeeping_impl. auto.
    - destruct (performs_conclude P r rp (inr e) Hr w2 o w' Hrest) as (tr3 & Htr3 & H3 & _).
      exists tr3. split; [done|]. eapply Forall_impl; [exact H3|]. intros x.
      apply bookkeeping_impl. auto.
    - simplify_eq. exists []. by rewrite app_nil_r. }
  exists (tr1 ++ tr2 ++ tr3). split; [by rewrite Htr3, Htr2, Htr1, <- !app_assoc|].
  by eapply run_generates.
Qed.

(** A whole sync of a report. *)
Lemma runReport_trace P (Q : reportPeriod → Report → Prop) `{!Stable P, !∀ rp, Stable (Q rp)} report w o w' :
  (∀ rp r, P r → Q rp (set_LastReportTime (periodEnd rp) r)) → P report →
  runReport cfg report w = (o, w') →
  ∃ tr, trace w' = trace w ++ tr ∧
  (Forall (bookkeeping P) tr ∨
   ∃ q deps inputs w0 now s1 rp report1 report2 tr1 tr2,
     validateReport report w = (Ok (q, (deps, inputs)), w0) ∧ clock_now (env w0) = (now, s1) ∧
   getReportPeriod now report = Ok (rp, report1) ∧ P report2 ∧ due report2 rp now deps ∧
   tr = tr1 ++ tr2 ∧ Forall (bookkeeping P) tr1 ∧ run_trace P (Q rp) rp tr2).
Proof.
  intros HPQ HP. unfold runReport. destruct (isReportFinished report).
  { intros [-> ->]%ret_inv. exists []. rewrite app_nil_r. split; [done|]. by left. }
  rewrite bind_run. unfold try.
  destruct (validateReport report w) as [ov w0] eqn:Ev.
  destruct (performs_aside P _ (emits_validateReport report) _ _ _ Ev) as (tr0 & Htr0 & H0 & _).
  destruct ov as [[q [deps inputs]]|err|p]; simpl.
  2:{ intros Hrest. destruct (performs_invalid P report (Error err) HP _ _ _ Hrest) as (tr1 & Htr1 & H1 & _).
      exists (tr0 ++ tr1). rewrite Htr1, Htr0, app_assoc. split; [done|left]. by apply Forall_app. }
  2:{ intros. simplify_eq. exists tr0. split; [done|by left]. }
  rewrite bind_run. unfold Now, read_pure. destruct (clock_now (env w0)) as [now s1] eqn:Enow.
  rewrite bind_run. unfold ret_out at 1. destruct (getReportPeriod now report) as [[rp report1]|e|p] eqn:Erp.
  2,3: intros; simplify_eq; exists tr0; split; [done|by left].
  rewrite bind_run. destruct (report_table cfg report1 q _) as [ot w2] eqn:Et.
  destruct (performs_report_table cfg P _ q (getReportPeriod_stable P _ _ _ _ Erp HP) _ _ _ Et)
    as (tr1 & Htr1 & H1 & Hres1). simpl in Htr1.
  destruct ot as [[pt report2]|e|p].
  2,3: intros; simplify_eq; exists (tr0 ++ tr1); rewrite Htr1, Htr0, app_assoc;
    split; [done|left; by apply Forall_app].
  pose proof (Hres1 _ eq_refl) as HP2. simpl in HP2.
  rewrite bind_run. destruct (decide_run _ report2 rp now deps w2) as [od w3] eqn:Ed.
  destruct (performs_decide_run P (r_Status report) report2 rp now deps HP2 _ _ _ Ed)
    as (tr2 & Htr2 & H2 & _).
  assert (trace w3 = trace w ++ (tr0 ++ tr1 ++ tr2)) as Htr
    by (by rewrite Htr2, Htr1, Htr0, !app_assoc).
  assert (Forall (bookkeeping P) (tr0 ++ tr1 ++ tr2)) as Hall by (by rewrite !Forall_app).
  destruct od as [[[reason msg]|]|e|p].
  2-4: intros Hrest; first [apply ret_inv in Hrest as [? ?]|idtac]; simplify_eq; eauto.
  intros Hrest.
  destruct (execute_report_trace P (Q rp) _ _ _ _ _ _ _ _ _ _ (HPQ rp) HP2 Hrest) as (tr3 & Htr3 & H3).
  exists ((tr0 ++ tr1 ++ tr2) ++ tr3). split; [by rewrite Htr3, Htr, <- app_assoc|]. right.
  eexists q, deps, inputs, w0, now, s1, rp, report1, report2, _, tr3.
  split_and!; try done. by eapply decide_run_due.
Qed.

(** One event of a sync. *)
Lemma runReport_event P (Q : reportPeriod → Report → Prop) `{!Stable P, !∀ rp, Stable (Q rp)}
    report w o w' tr e :
  (∀ rp r, P r → Q rp (set_LastReportTime (periodEnd rp) r)) → P report →
  runReport cfg report w = (o, w') → trace w' = trace w ++ tr → e ∈ tr →
  bookkeeping P e ∨
  ∃ q deps inputs w0 now s1 rp report1 report2 r tbl query wa wb og tr1 tr2 tr3,
    (validateReport report w = (Ok (q, (deps, inputs)), w0) ∧ clock_now (env w0) = (now, s1) ∧
     getReportPeriod now report = Ok (rp, report1) ∧ P report2 ∧ due report2 rp now deps) ∧
  (rendered rp query ∧ P r ∧
   GenerateReport tbl query (rs_OverwriteExistingData (r_Spec r)) wa = (og, wb) ∧
   trace wb = trace wa ++ tr2 ∧ tr = tr1 ++ tr2 ++ tr3) ∧
  (generation tbl query (rs_OverwriteExistingData (r_Spec r)) e ∨
   (e ∈ tr3 ∧ bookkeeping (λ r, P r ∨ (og = Ok tt ∧ Q rp r)) e)).
Proof.
  intros HPQ HP Hrun Htr Hin.
  destruct (runReport_trace P Q report w o w' HPQ HP Hrun) as (tr' & Htr' & Hcases).
  rewrite Htr in Htr'. apply app_inv_head in Htr' as <-.
  assert (∀ (R : event → Prop) l, Forall R l → e ∈ l → R e) as Hel
    by (intros R l Hl; by apply (proj1 (Forall_forall _ _) Hl)).
  destruct Hcases as [Hall|(q & deps & inputs & w0 & now & s1 & rp & report1 & report2 & tr1 & tr2 &
                            Hv & Hnow & Hrp & HP2 & Hdue & -> & H1 & H2)]; [left; by eapply Hel|].
  apply elem_of_app in Hin as [Hin|Hin]; [left; by eapply Hel|].
  destruct H2 as [tr2 H2|tr2 tr3 tr4 r tbl query wa og wb HF HPr Hren HG Htrb Hgen HF'];
    [left; by eapply Hel|].
  apply elem_of_app in Hin as [Hin|Hin]; [left; by eapply Hel|]. right.
  eexists q, deps, inputs, w0, now, s1, rp, report1, report2, r, tbl, query, wa, wb, og, (tr1 ++ tr2), tr3, tr4.
  split; [done|]. split; [split_and!; try done; by rewrite <- app_assoc|].
  apply elem_of_app in Hin as [Hin|Hin]; [left; by eapply Hel|right; split; [done|by eapply Hel]].
Qed.

(** *** What survives the operator's edits *)
Context {FS : FaithfulServer}.

#[export] Instance stable_spec (P : ReportSpec → Prop) : Stable (λ r, P (r_Spec r)).
Proof using FS. split; try done. by intros r s r' s' (-> & _ & _)%stored_as_sent. Qed.
#[export] Instance stable_last (P : option Time → Prop) : Stable (λ r, P (LastReportTime (r_Status r))).
Proof using FS.
  split; try done.
  - intros r c. unfold with_condition, SetReportCondition. simpl. by destruct (_ && _).
  - by intros r s r' s' (_ & -> & _)%stored_as_sent.
Qed.
#[export] Instance stable_one_per_type : Stable (λ r, one_per_type (r_Status r)).
Proof using FS.
  split; try done.
  - intros r c. apply set_condition_one_per_type.
  - by intros r s r' s' (_ & -> & _)%stored_as_sent.
Qed.
#[export] Instance stable_and P Q `{!Stable P, !Stable Q} : Stable (λ r, P r ∧ Q r).
Proof.
  split.
  - intros r c [? ?]. split; by apply stable_condition.
  - intros r n [? ?]. split; by apply stable_table.
  - intros r t [? ?]. split; by apply stable_next.
  - intros r s r' s' H [? ?]. split; by eapply stable_update.
Qed.

(** *** Theorems *)


(** C5: a period counts as reported only once it is: a sync of a report never
    sends an update with a new last report time, unless that time is the end
    of the current period, the query sent was rendered for exactly this
    period, and its generation succeeded before the update. *)
Theorem runReport_records report w o w' tr r ok :
  runReport cfg report w = (o, w') → trace w' = trace w ++ tr → Ev (AUpdate KReport r) ok ∈ tr →
  LastReportTime (r_Status r) = LastReportTime (r_Status report) ∨
  ∃ now rp report1 tbl query wa wb tr1 tr2 tr3,
    getReportPeriod now report = Ok (rp, report1) ∧ LastReportTime (r_Status r) = Some (periodEnd rp) ∧
  rendered rp query ∧
  GenerateReport tbl query (rs_OverwriteExistingData (r_Spec report)) wa = (Ok tt, wb) ∧
  trace wb = trace wa ++ tr2 ∧ tr = tr1 ++ tr2 ++ tr3 ∧ Ev (AUpdate KReport r) ok ∈ tr3.
Proof using FS.
  intros Hrun Htr Hin.
  set (P := λ r, r_Spec r = r_Spec report ∧ LastReportTime (r_Status r) = LastReportTime (r_Status report)).
  assert (Stable P) by (apply stable_and; [apply (stable_spec (λ s, s = r_Spec report))|
                                           apply (stable_last (λ t, t = LastReportTime (r_Status report)))]).
  set (Q := λ rp r, LastReportTime (r_Status r) = Some (periodEnd rp)).
  assert (∀ rp, Stable (Q rp)) by (intros rp; apply (stable_last (λ t, t = Some (periodEnd rp)))).
  destruct (runReport_event P Q report w o w' tr _ (λ rp r _, eq_refl) (conj eq_refl eq_refl) Hrun Htr Hin)
    as [[_ Hb]|(q & deps & inputs & w0 & now & s1 & rp & report1 & report2 & r' & tbl & query & wa & wb & og & tr1 &
                tr2 & tr3 & (Hv & Hnow & Hrp & HP2 & Hdue) & (Hren & [HP _] & HG & Htrb & ->) & Hcases)]; [by left|].
  destruct Hcases as [[?|[_ ?]]|[Hin3 [[_ ?]|[-> HQ]]]]; [done|done|by left|right].
  rewrite HP in HG. exists now, rp, report1, tbl, query, wa, wb, tr1, tr2, tr3. by split_and!.
Qed.

(** C16: the conditions of a report stay well formed: if a report has at most one
    condition of each type, so has every version of it a sync sends to the
    server, whatever the services answer. *)
Theorem runReport_conditions report w o w' tr r ok :
  one_per_type (r_Status report) → runReport cfg report w = (o, w') → trace w' = trace w ++ tr →
  Ev (AUpdate KReport r) ok ∈ tr → one_per_type (r_Status r).
Proof using FS.
  intros Hone Hrun Htr Hin. set (P := λ r, one_per_type (r_Status r)).
  destruct (runReport_event P (λ _, P) report w o w' tr _ (λ rp r H, H) Hone Hrun Htr Hin)
    as [Hb|(q & deps & inputs & w0 & now & s1 & rp & report1 & report2 & r' & tbl & query & wa & wb & og & tr1 &
            tr2 & tr3 & _ & _ & Hcases)]; [done|].
  by destruct Hcases as [[?|[_ ?]]|[_ [?|[_ ?]]]].
Qed.
End runs.

(** ** Reports that do not run yet *)
Section progress.
Context {S : Type} `{!Env S}.

Definition enq (k : kind) (o : obj k) : event := Ev (AEnqueue k (MetaNamespaceKey (meta k o))) true.

(** A data source that does not cover the period. *)
Definition needs_import (rp : reportPeriod) (ds : ReportDataSource) : bool :=
  match ds_PrometheusMetricsImporter (ds_Spec ds), dst_ImportStatus (ds_Status ds) with
  | None, _ => false
  | Some _, None => true
  | Some _, Some st => starts_late rp st || ends_early rp st
  end.

Lemma unmet_step_queue rp ds u : (unmet_step rp ds u).2 = needs_import rp ds.
Proof.
  unfold unmet_step, needs_import. destruct (ds_PrometheusMetricsImporter _); [|done].
  destruct (dst_ImportStatus _); [done|]. by destruct (slice_append _ _ _).
Qed.

Lemma check_datasources_run rp dss u (w : world S) : ∃ u',
  check_datasources rp dss u w =
  (Ok u', World (env w) (trace w ++ (enq KReportDataSource <$> List.filter (needs_import rp) dss))) ∧
  any_unmet u' = (any_unmet u || existsb (needs_import rp) dss).
Proof.
  revert u w. induction dss as [|ds dss IH]; intros u w; simpl.
  { exists u. rewrite app_nil_r, orb_false_r. by destruct w. }
  pose proof (unmet_step_any rp ds u) as Hany. pose proof (unmet_step_queue rp ds u) as Hq.
  destruct (unmet_step rp ds u) as [u1 q]. simpl in *. subst q. rewrite bind_run.
  destruct (needs_import rp ds); simpl.
  - unfold enqueueReportDataSource, enqueue, emit. simpl.
    match goal with |- context [check_datasources _ _ _ ?w1] => destruct (IH u1 w1) as (u' & -> & Hu') end.
    exists u'. simpl. rewrite <- app_assoc, Hu', Hany. split; [done|]. by rewrite !orb_true_r.
  - destruct (IH u1 w) as (u' & -> & Hu'). exists u'. by rewrite Hu', Hany, orb_false_r.
Qed.

Lemma check_reports_run rp rs l (w : world S) :
  check_reports rp rs l w =
  (Ok (l ++ ((λ r, Name (r_Meta r)) <$> List.filter (report_behind rp) rs)),
   World (env w) (trace w ++ (enq KReport <$> List.filter (report_behind rp) rs))).
Proof.
  revert l w. induction rs as [|r rs IH]; intros l w; simpl.
  { rewrite !app_nil_r. by destruct w. }
  destruct (report_behind rp r); [|apply IH]. rewrite bind_run. unfold enqueueReport, enqueue, emit. simpl.
  rewrite IH. simpl. by rewrite <- !app_assoc.
Qed.

Lemma set_running_trace (report : Report) st reason msg (w : world S) o w' :
  set_running report st reason msg w = (o, w') → ∃ tr, trace w' = trace w ++ tr.
Proof.
  intros H. assert (emits (λ _, True) (set_running (S := S) report st reason msg)) as He.
  { unfold set_running, NewReportCondition, updateReportStatus. emits_tac. }
  destruct (He w) as (tr & Htr & _). rewrite H in Htr. eauto.
Qed.

(** C14: a report that does not run yet is not forgotten: when a sync decides not
    to run a valid report, either the period is not over, and the report is
    queued again for exactly the moment it will be; or the period is over,
    some data source among its dependencies does not cover it or some report
    among them is behind, and all of these are queued. *)
Theorem decide_run_progress {FS : FaithfulServer} status report rp now deps w w' :
  decide_run (S := S) status report rp now deps w = (Ok None, w') →
  let sources := List.filter (needs_import rp) (ReportDataSources deps) in
  let behind := List.filter (report_behind rp) (Reports deps) in
  ∃ tr, trace w' = trace w ++ tr ∧
  ((now < periodEnd rp ∧
    Ev (AEnqueueAfter KReport (MetaNamespaceKey (r_Meta report)) (Sub (periodEnd rp) now)) true ∈ tr) ∨
   (periodEnd rp ≤ now ∧ (sources ≠ [] ∨ behind ≠ []) ∧
    (enq KReportDataSource <$> sources) ++ (enq KReport <$> behind) `prefix_of` tr)).
Proof.
  intros Hrun sources behind. unfold decide_run in Hrun. destruct (rs_RunImmediately _).
  { by apply ret_inv in Hrun as [[=] _]. }
  unfold After in Hrun. destruct (now <? periodEnd rp) eqn:Hnow.
  - apply bind_Ok_inv in Hrun as ([] & w1 & Hw & [_ <-]%ret_inv). unfold wait_for_period in Hw.
    destruct (has_running _ _ _ _).
    { apply emit_inv in Hw as [_ ->]. eexists. split; [done|]. left. split; [lia|]. by left. }
    apply bind_Ok_inv in Hw as (r & w2 & Hset & [_ ->]%emit_inv).
    destruct (set_running_trace _ _ _ _ _ _ _ Hset) as (tr & Htr).
    eexists. simpl. rewrite Htr, <- app_assoc. split; [done|]. left. split; [lia|].
    unfold set_running, updateReportStatus in Hset. apply bind_Ok_inv in Hset as (c & w3 & _ & Hu).
    apply effect_trace in Hu as [_ (_ & _ & Hkey)%stored_as_sent].
    simpl in Hkey. rewrite <- Hkey. apply elem_of_app. right. by left.
  - apply bind_Ok_inv in Hrun as (ready & w1 & Hc & [[= Hready] ->]%ret_inv). destruct ready; [done|].
    unfold check_dependencies in Hc. rewrite bind_run in Hc.
    destruct (check_datasources_run rp (ReportDataSources deps) unmet_empty w) as (u & Hu & Hany).
    rewrite Hu, bind_run, check_reports_run in Hc. simpl in Hc, Hany.
    rewrite <- app_assoc in Hc. fold sources behind in Hc.
    assert (any_unmet u = true → sources ≠ []) as Hs.
    { rewrite Hany. intros (ds & Hin & Hn)%existsb_exists Hnil. fold sources in Hnil.
      assert (In ds sources) as Hf by by apply filter_In. by rewrite Hnil in Hf. }
    assert (∃ tr, trace w1 = (trace w ++ (enq KReportDataSource <$> sources) ++ (enq KReport <$> behind)) ++ tr ∧
            (sources ≠ [] ∨ behind ≠ [])) as (tr & Htr & Hne).
    { destruct (any_unmet u || _) eqn:Hb; [|by apply ret_inv in Hc as [[=] _]].
      assert (sources ≠ [] ∨ behind ≠ []) as Hne.
      { apply orb_prop in Hb as [Hb|Hb]; [left; by apply Hs|right]. intros E. rewrite E in Hb. done. }
      destruct (has_running _ _ _ _).
      { apply ret_inv in Hc as [_ ->]. exists []. simpl. by rewrite app_nil_r. }
      apply bind_Ok_inv in Hc as (r & w2 & Hset & [_ ->]%ret_inv).
      destruct (set_running_trace _ _ _ _ _ _ _ Hset) as (tr & Htr). exists tr. by rewrite Htr. }
    eexists. rewrite Htr, <- app_assoc. split; [done|]. right. split; [lia|]. split; [done|].
    by exists tr.
Qed.
End progress.

(** ** Concrete syncs *)

#[export] Instance mem_faithful : FaithfulServer (S := Mem).
Proof.
  intros r s r' s'. simpl. unfold mem_update. by case_match; intros; simplify_eq.
Qed.

Definition july4 (h : Z) : Time := Date 2019 7 4 h 0 0.

Definition imported (name : string) (st : option (Time * Time)) : ReportDataSource :=
  {| ds_Meta := meta_of "ns" name;
     ds_Spec := {| ds_PrometheusMetricsImporter := Some {| pm_Query := "up"; pm_QueryConfig := None;
                     pm_Storage := None; pm_PrometheusURL := None |};
                   ds_AWSBilling := None; ds_PrestoTable := None; ds_ReportQueryView := None |};
     ds_Status := {| dst_TableRef := name;
       dst_ImportStatus := (λ '(s, e), {| LastImportTime := None; ImportDataStartTime := Some s;
         ImportDataEndTime := Some e; EarliestImportedMetricTime := None;
         NewestImportedMetricTime := None |}) <$> st |} |}.

(** An hourly report of [q], which reads [cpu], with its table. *)
Definition report1 : Report := set_report_TableRef "t" (report0 (Some (july4 11)) None).
Definition report_mem : Mem :=
  add_obj KReport report1
  (add_obj KReportQuery (query0 "q" [input0 "Cpu" "ReportDataSource" "cpu"])
  (add_obj KReportDataSource (imported "cpu" (Some (july4 10, july4 13)))
  (add_obj KPrestoTable (with_pt_status (pt_Spec presto0)
     {| pt_Meta := meta_of "ns" "t"; pt_Unmanaged := false; pt_Spec := pt_Spec presto0;
        pt_Status := pt_Spec presto0 |}) mem0))).
Definition report_sql : string := "INSERT INTO hive.metering.t SELECT 1".

Lemma report_update (e : option event) (P : Report → Prop) :
  match e with Some (Ev (AUpdate KReport r) true) => P r | _ => False end →
  ∃ r, e = Some (Ev (AUpdate KReport r) true) ∧ P r.
Proof.
  destruct e as [[a b]|]; [|done]. destruct a; try done. destruct k; try done. destruct b; [|done]. by eauto.
Qed.

(** The sync of [report1] at noon: the query is the third effect, the record
    of the period the fifth. *)
Lemma report1_run : ∃ w' r,
  runReport (config0 false) report1 (world0 report_mem) = (Ok tt, w') ∧
  trace w' !! 2%nat = Some (Ev (APrestoQuery report_sql) true) ∧
  trace w' !! 4%nat = Some (Ev (AUpdate KReport r) true) ∧
  LastReportTime (r_Status r) = Some (july4 12).
Proof.
  destruct (run_Ok (runReport (config0 false) report1 (world0 report_mem))
    (λ _ w', trace w' !! 2%nat = Some (Ev (APrestoQuery report_sql) true) ∧
       match trace w' !! 4%nat with
       | Some (Ev (AUpdate KReport r) true) => LastReportTime (r_Status r) = Some (july4 12)
       | _ => False
       end)) as ([] & w' & Hrun & H2 & H4); [vm_compute; by split|].
  apply report_update in H4 as (r & H4 & Hl). exists w', r. exact (conj Hrun (conj H2 (conj H4 Hl))).
Qed.


Lemma runReport_records_witness : ∃ w' r,
  runReport (config0 false) report1 (world0 report_mem) = (Ok tt, w') ∧
  LastReportTime (r_Status r) = Some (july4 12) ∧
  (LastReportTime (r_Status r) = LastReportTime (r_Status report1) ∨
   ∃ now rp report2 tbl query wa wb tr1 tr2 tr3,
    getReportPeriod now report1 = Ok (rp, report2) ∧ LastReportTime (r_Status r) = Some (periodEnd rp) ∧
    rendered rp query ∧ GenerateReport tbl query false wa = (Ok tt, wb) ∧
    trace wb = trace wa ++ tr2 ∧ trace w' = tr1 ++ tr2 ++ tr3 ∧ Ev (AUpdate KReport r) true ∈ tr3).
Proof.
  destruct report1_run as (w' & r & Hrun & _ & H4 & Hl). exists w', r. split; [exact Hrun|]. split; [exact Hl|].
  eapply (runReport_records (config0 false) report1 (world0 report_mem) _ w' (trace w') r true).
  - exact Hrun.
  - reflexivity.
  - by eapply list_elem_of_lookup_2.
Defined.

Lemma runReport_conditions_witness : ∃ w' r,
  runReport (config0 false) report1 (world0 report_mem) = (Ok tt, w') ∧ one_per_type (r_Status r).
Proof.
  destruct report1_run as (w' & r & Hrun & _ & H4 & Hl). exists w', r. split; [exact Hrun|].
  eapply (runReport_conditions (config0 false) report1 (world0 report_mem) _ w' (trace w') r true).
  - apply NoDup_nil_2.
  - exact Hrun.
  - reflexivity.
  - by eapply list_elem_of_lookup_2.
Defined.

Definition due_at (h : Z) : reportPeriod := {| periodStart := july4 11; periodEnd := july4 h |}.

Lemma decide_run_progress_witness :
  let deps := {| ReportQueries := []; ReportDataSources := [imported "cpu" None]; Reports := [] |} in
  ∃ w', decide_run (r_Status report1) report1 (due_at 12) (july4 12) deps (world0 report_mem) = (Ok None, w') ∧
  ∃ tr, trace w' = [] ++ tr ∧
    ((july4 12 < july4 12 ∧ Ev (AEnqueueAfter KReport "ns/hourly-report" (Sub (july4 12) (july4 12))) true ∈ tr) ∨
     (july4 12 ≤ july4 12 ∧ ([imported "cpu" None] ≠ [] ∨ [] ≠ @nil Report) ∧
      [Ev (AEnqueue KReportDataSource "ns/cpu") true] `prefix_of` tr)).
Proof.
  intros deps.
  destruct (run_Ok (decide_run (r_Status report1) report1 (due_at 12) (july4 12) deps (world0 report_mem))
    (λ x _, x = None)) as (x & w' & Hrun & ->); [vm_compute; reflexivity|].
  exists w'. split; [exact Hrun|].
  exact (decide_run_progress (r_Status report1) report1 (due_at 12) (july4 12) deps (world0 report_mem) w' Hrun).
Defined.

(** the message about unmet dependencies misreports them: the names of data
    sources without imported data are appended to the list of those that
    start late.  Of two data sources without data only the last is named; a
    data source that starts late is named as one without data; and the name
    of one without data is overwritten by the next that starts late. *)
Theorem unmet_message_misreports :
  let late name := imported name (Some (july4 12, july4 13)) in
  let none name := imported name None in
  let start := "periodStart 2019-07-04 11:00:00 +0000 UTC is before importDataStartTime of " in
  let reports dss msg := ∃ u w', check_datasources (due_at 12) dss unmet_empty (world0 mem0) = (Ok u, w') ∧
    length (trace w') = length dss ∧ datasources_msg (due_at 12) u = msg in
  reports [none "a"; none "b"] "no data: [b]" ∧
  reports [late "a"; none "b"] ("no data: [a, b], " +:+ start +:+ "[a]") ∧
  reports [late "a"; late "b"; late "c"; none "d"; late "e"]
    ("no data: [a, b, c, e], " +:+ start +:+ "[a, b, c, e]").
Proof.
  intros late none start reports.
  assert (∀ dss msg, match check_datasources (due_at 12) dss unmet_empty (world0 mem0) with
    | (Ok u, w') => length (trace w') = length dss ∧ datasources_msg (due_at 12) u = msg
    | _ => False
    end → reports dss msg) as H by (intros dss msg; apply (run_Ok (check_datasources _ dss _ _))).
  split_and!; apply H; vm_compute; by split.
Qed.

(** A report among the dependencies that never reported is not waited for. *)
Example never_reported_ignored :
  fst (decide_run (r_Status report1) report1 (due_at 12) (july4 12)
    {| ReportQueries := []; ReportDataSources := []; Reports := [report0 None None] |} (world0 report_mem)) =
  Ok (Some (ScheduledReason, scheduled_msg report1 (due_at 12))).
Proof. vm_compute. reflexivity. Qed.
