(* ===== verification/WorkQueue.v ===== *)
(** * The work queues and their workers
    (the worker half of src/pkg/operator/queues.go, over the rate limited
    queue of src/vendor/k8s.io/client-go/util/workqueue)

    A queue is shared by several worker goroutines, the informers' event
    handlers and the timers of delayed additions.  Each call takes the queue's
    lock, so an execution is a sequence of the steps of [step]. *)

From S2P Require Export PrestoTables.
Open Scope Z_scope.

(** ** The queue *)

(** Items are [interface{}] values: a key, or something that is not a string. *)
Abbreviation item := (string + string)%type.

Record queue := MkQueue {
  q_queue : list item;
  q_dirty : gset item;
  q_processing : gset item;
  shuttingDown : bool;
  (* the rate limiter *)
  failures : gmap item Z;
  (* delayed additions whose time has not come; how long they wait is left open *)
  q_waiting : list item;
}.

Definition q_New : queue :=
  {| q_queue := []; q_dirty := ∅; q_processing := ∅; shuttingDown := false; failures := ∅; q_waiting := [] |}.

Definition q_Add (x : item) (q : queue) : queue :=
  if shuttingDown q then q
  else if decide (x ∈ q_dirty q) then q
  else
    {| q_queue := if decide (x ∈ q_processing q) then q_queue q else q_queue q ++ [x];
       q_dirty := {[x]} ∪ q_dirty q; q_processing := q_processing q; shuttingDown := shuttingDown q;
       failures := failures q; q_waiting := q_waiting q |}.

(** [Get] blocks while the queue is empty and not shutting down ([None]);
    [Some (None, _)] is the shutdown signal. *)
Definition q_Get (q : queue) : option (option item * queue) :=
  match q_queue q with
  | [] => if shuttingDown q then Some (None, q) else None
  | x :: rest =>
      Some (Some x, {| q_queue := rest; q_dirty := q_dirty q ∖ {[x]};
                       q_processing := {[x]} ∪ q_processing q; shuttingDown := shuttingDown q;
                       failures := failures q; q_waiting := q_waiting q |})
  end.

Definition q_Done (x : item) (q : queue) : queue :=
  {| q_queue := if decide (x ∈ q_dirty q) then q_queue q ++ [x] else q_queue q;
     q_dirty := q_dirty q; q_processing := q_processing q ∖ {[x]}; shuttingDown := shuttingDown q;
     failures := failures q; q_waiting := q_waiting q |}.

Definition q_ShutDown (q : queue) : queue :=
  {| q_queue := q_queue q; q_dirty := q_dirty q; q_processing := q_processing q; shuttingDown := true;
     failures := failures q; q_waiting := q_waiting q |}.

Definition set_failures (f : gmap item Z) (wt : list item) (q : queue) : queue :=
  {| q_queue := q_queue q; q_dirty := q_dirty q; q_processing := q_processing q;
     shuttingDown := shuttingDown q; failures := f; q_waiting := wt |}.

Definition q_AddAfter (x : item) (q : queue) : queue :=
  if shuttingDown q then q else set_failures (failures q) (q_waiting q ++ [x]) q.

Definition NumRequeues (x : item) (q : queue) : Z := default 0 (failures q !! x).
Definition q_Forget (x : item) (q : queue) : queue := set_failures (delete x (failures q)) (q_waiting q) q.
Definition q_AddRateLimited (x : item) (q : queue) : queue :=
  q_AddAfter x (set_failures (<[x := NumRequeues x q + 1]> (failures q)) (q_waiting q) q).

(** [op.shutdownQueues]. *)
Definition shutdownQueues (queueList : list queue) : list queue := q_ShutDown <$> queueList.

(** ** Workers *)
Definition getKeyFromQueueObj (x : item) (q : queue) : option string * queue :=
  match x with
  | inl key => (Some key, q)
  | inr _ => (None, q_Forget x q)
  end.

Definition handleErr (err : option error) (x : item) (maxRequeues : Z) (q : queue) : queue :=
  match err with
  | None => q_Forget x q
  | Some _ =>
      if (maxRequeues =? -1) || (NumRequeues x q <? maxRequeues) then q_AddRateLimited x q
      else q_Forget x q
  end.

Section worker.
Context {S : Type} `{!Env S}.

Definition runHandler (handlerFunc : string → M S unit) (x : item) (maxRequeues : Z) (q : queue) : M S queue :=
  match getKeyFromQueueObj x q with
  | (Some key, q) =>
      r ← try (handlerFunc key);
      mret (handleErr (match r with inl _ => None | inr err => Some err end) x maxRequeues q)
  | (None, q) => mret q
  end.

(** [None]: still blocked in [Get]; otherwise whether the worker goes on. *)
Definition processResource (handlerFunc : string → M S unit) (maxRequeues : Z) (q : queue)
    : option (M S (bool * queue)) :=
  match q_Get q with
  | None => None
  | Some (None, q) => Some (mret (false, q))
  | Some (Some x, q) => Some (q ← runHandler handlerFunc x maxRequeues q; mret (true, q_Done x q))
  end.

(** The loop body written out for Presto tables, which nothing calls any more. *)
Definition processPrestoTable (cfg : Config) (q : queue) : option (M S (bool * queue)) :=
  match q_Get q with
  | None => None
  | Some (None, q) => Some (mret (false, q))
  | Some (Some obj, q) => Some (
    q ← match getKeyFromQueueObj obj q with
        | (Some key, q) =>
            err ← try (syncPrestoTable cfg key);
            mret (handleErr (match err with inl _ => None | inr e => Some e end) (inl key) 10 q)
        | (None, q) => mret q
        end;
    mret (true, q_Done obj q))
  end.
End worker.

(** [maxRequeues] of each worker, and how many workers there are. *)
Definition report_maxRequeues : Z := 5.
Definition reportDataSource_maxRequeues : Z := 20.
Definition reportQuery_maxRequeues : Z := 10.
Definition storageLocation_maxRequeues : Z := -1.
Definition hiveTable_maxRequeues : Z := 10.
Definition prestoTable_maxRequeues : Z := 10.

(** ** Executions *)
Inductive worker := Handling (x : item) | Finishing (x : item).
Definition worker_item (w : worker) : item := match w with Handling x | Finishing x => x end.

Record pool := Pool { p_queue : queue; p_workers : gmap nat worker }.

Inductive step (maxRequeues : Z) : pool → pool → Prop :=
  (* an informer, a sync or the API server adds an item *)
  | step_add x q ws : step maxRequeues (Pool q ws) (Pool (q_Add x q) ws)
  | step_add_after x q ws : step maxRequeues (Pool q ws) (Pool (q_AddAfter x q) ws)
  (* the time of a delayed addition has come *)
  | step_timer x l1 l2 q ws :
      q_waiting q = l1 ++ x :: l2 →
      step maxRequeues (Pool q ws) (Pool (q_Add x (set_failures (failures q) (l1 ++ l2) q)) ws)
  (* an idle worker gets an item *)
  | step_get i x q q' ws :
      ws !! i = None → q_Get q = Some (Some x, q') →
      step maxRequeues (Pool q ws) (Pool q' (<[i := Handling x]> ws))
  (* its handler returns *)
  | step_handled i key err q ws :
      ws !! i = Some (Handling (inl key)) →
      step maxRequeues (Pool q ws)
        (Pool (handleErr err (inl key) maxRequeues q) (<[i := Finishing (inl key)]> ws))
  | step_not_a_key i s q ws :
      ws !! i = Some (Handling (inr s)) →
      step maxRequeues (Pool q ws) (Pool (q_Forget (inr s) q) (<[i := Finishing (inr s)]> ws))
  (* its deferred [Done] *)
  | step_done i x q ws :
      ws !! i = Some (Finishing x) →
      step maxRequeues (Pool q ws) (Pool (q_Done x q) (delete i ws))
  | step_shutdown q ws : step maxRequeues (Pool q ws) (Pool (q_ShutDown q) ws).

(** States reachable from an empty queue and idle workers. *)
Inductive reachable (maxRequeues : Z) : pool → Prop :=
  | reachable_init : reachable maxRequeues (Pool q_New ∅)
  | reachable_step s s' : reachable maxRequeues s → step maxRequeues s s' → reachable maxRequeues s'.

(** ** The invariant *)
Record queue_ok (q : queue) : Prop := {
  ok_NoDup : NoDup (q_queue q);
  (* what is queued is exactly what is dirty and not being processed *)
  ok_queue x : x ∈ q_queue q ↔ x ∈ q_dirty q ∧ x ∉ q_processing q;
}.

Record pool_ok (maxRequeues : Z) (p : pool) : Prop := {
  ok_q : queue_ok (p_queue p);
  (* exactly the items of the busy workers are being processed *)
  ok_processing x : x ∈ q_processing (p_queue p) ↔ ∃ i w, p_workers p !! i = Some w ∧ worker_item w = x;
  ok_exclusive i j v w :
    p_workers p !! i = Some v → p_workers p !! j = Some w → worker_item v = worker_item w → i = j;
  ok_failures x : maxRequeues ≠ -1 → 0 ≤ NumRequeues x (p_queue p) ≤ Z.max 0 maxRequeues;
}.

Lemma queue_ok_add x q : queue_ok q → queue_ok (q_Add x q).
Proof.
  intros [Hnd Hq]. unfold q_Add. destruct (shuttingDown q); [done|].
  destruct (decide (x ∈ q_dirty q)) as [|Hx]; [done|].
  destruct (decide (x ∈ q_processing q)) as [Hp|Hp]; split; simpl.
  - done.
  - intros y. rewrite Hq. set_solver.
  - apply NoDup_app. split_and!; [done| |apply NoDup_singleton].
    intros y Hy%Hq Hyx%list_elem_of_singleton. set_solver.
  - intros y. rewrite elem_of_app, Hq, list_elem_of_singleton. set_solver.
Qed.

Lemma queue_ok_get q x q' : queue_ok q → q_Get q = Some (Some x, q') →
  queue_ok q' ∧ x ∉ q_processing q ∧ q_processing q' = {[x]} ∪ q_processing q ∧ failures q' = failures q.
Proof.
  intros [Hnd Hq]. unfold q_Get. destruct (q_queue q) as [|y l] eqn:E; [by destruct (shuttingDown q)|].
  intros [= <- <-]. apply NoDup_cons in Hnd as [Hy Hnd].
  assert (y ∈ q_dirty q ∧ y ∉ q_processing q) as [Hyd Hyp] by (apply Hq; left).
  split_and!; [split; simpl|..]; try done.
  intros z. specialize (Hq z). rewrite elem_of_cons in Hq.
  destruct (decide (z = y)) as [->|Hz]; [set_solver|].
  rewrite elem_of_difference, elem_of_union, elem_of_singleton. tauto.
Qed.

Lemma queue_ok_done x q : queue_ok q → x ∈ q_processing q → queue_ok (q_Done x q).
Proof.
  intros [Hnd Hq] Hx. unfold q_Done. destruct (decide (x ∈ q_dirty q)) as [Hd|Hd]; split; simpl.
  - apply NoDup_app. split_and!; [done| |apply NoDup_singleton].
    intros y Hy%Hq ->%list_elem_of_singleton. by destruct Hy.
  - intros y. rewrite elem_of_app, Hq, list_elem_of_singleton, elem_of_difference, elem_of_singleton.
    destruct (decide (y = x)) as [->|]; tauto.
  - done.
  - intros y. rewrite Hq, elem_of_difference, elem_of_singleton. destruct (decide (y = x)) as [->|]; tauto.
Qed.

Lemma queue_ok_limiter f wt q : queue_ok q → queue_ok (set_failures f wt q).
Proof. by intros [? ?]. Qed.

(** The parts of the queue that bookkeeping of failures leaves alone. *)
Lemma handleErr_frame err x m q :
  (queue_ok q → queue_ok (handleErr err x m q)) ∧ q_processing (handleErr err x m q) = q_processing q.
Proof.
  unfold handleErr, q_AddRateLimited, q_AddAfter. destruct err as [e|]; [destruct (_ || _)|];
    simpl; try destruct (shuttingDown q); split; try done; intros; repeat apply queue_ok_limiter; done.
Qed.

Lemma NumRequeues_forget x y q : NumRequeues y (q_Forget x q) = if decide (x = y) then 0 else NumRequeues y q.
Proof.
  unfold NumRequeues, q_Forget. simpl. destruct (decide (x = y)) as [->|].
  - by rewrite lookup_delete_eq.
  - by rewrite lookup_delete_ne.
Qed.
Lemma NumRequeues_limited x y q :
  NumRequeues y (q_AddRateLimited x q) = if decide (x = y) then NumRequeues x q + 1 else NumRequeues y q.
Proof.
  unfold NumRequeues, q_AddRateLimited, q_AddAfter, set_failures. simpl.
  destruct (shuttingDown q), (decide (x = y)) as [->|]; simpl;
    by rewrite ?lookup_insert_eq, ?lookup_insert_ne.
Qed.
Lemma NumRequeues_add x y q : NumRequeues y (q_Add x q) = NumRequeues y q.
Proof. unfold q_Add. destruct (shuttingDown q); [done|]. by destruct (decide _). Qed.

Lemma NumRequeues_handleErr err x y m q :
  NumRequeues y (handleErr err x m q) =
    if decide (x = y) then
      match err with
      | Some _ => if (m =? -1) || (NumRequeues x q <? m) then NumRequeues x q + 1 else 0
      | None => 0
      end
    else NumRequeues y q.
Proof.
  unfold handleErr. destruct err as [e|]; [destruct (_ || _)|];
    by rewrite ?NumRequeues_forget, ?NumRequeues_limited; destruct (decide _).
Qed.

Lemma set_worker_item (ws : gmap nat worker) i (v w : worker) x :
  ws !! i = Some v → worker_item v = worker_item w →
  (∃ j u, <[i := w]> ws !! j = Some u ∧ worker_item u = x) ↔ (∃ j u, ws !! j = Some u ∧ worker_item u = x).
Proof.
  intros Hi Hvw. split; intros (j & u & Hj & Hu); destruct (decide (j = i)) as [->|Hne].
  - rewrite lookup_insert_eq in Hj. simplify_eq. exists i, v. by split.
  - rewrite lookup_insert_ne in Hj by done. by exists j, u.
  - simplify_eq. exists i, w. rewrite lookup_insert_eq. by split.
  - exists j, u. by rewrite lookup_insert_ne.
Qed.

Lemma set_worker_exclusive (ws : gmap nat worker) i (v w : worker) :
  ws !! i = Some v → worker_item v = worker_item w →
  (∀ j k u t, ws !! j = Some u → ws !! k = Some t → worker_item u = worker_item t → j = k) →
  ∀ j k u t, <[i := w]> ws !! j = Some u → <[i := w]> ws !! k = Some t →
    worker_item u = worker_item t → j = k.
Proof.
  intros Hi Hvw H j k u t Hj Hk Hut.
  assert (∀ l s, <[i := w]> ws !! l = Some s → ∃ s', ws !! l = Some s' ∧ worker_item s' = worker_item s)
    as Hold.
  { intros l s Hl. destruct (decide (l = i)) as [->|]; [rewrite lookup_insert_eq in Hl; simplify_eq; eauto|].
    rewrite lookup_insert_ne in Hl by done. eauto. }
  destruct (Hold _ _ Hj) as (u' & Hu' & Eu), (Hold _ _ Hk) as (t' & Ht' & Et).
  eapply H; [done..|congruence].
Qed.

(** The worker's own bookkeeping, its item unchanged. *)
Lemma pool_ok_handled m q q' ws i v w :
  pool_ok m (Pool q ws) → ws !! i = Some v → worker_item v = worker_item w →
  queue_ok q' → q_processing q' = q_processing q →
  (∀ x, m ≠ -1 → 0 ≤ NumRequeues x q' ≤ Z.max 0 m) →
  pool_ok m (Pool q' (<[i := w]> ws)).
Proof.
  intros [Hq Hp He Hf] Hi Hvw Hq' Hpr Hf'. split; simpl in *; [done| |by eapply set_worker_exclusive|done].
  intros x. by rewrite Hpr, Hp, set_worker_item.
Qed.

Lemma pool_ok_get m i x q q' ws : ws !! i = None → q_Get q = Some (Some x, q') →
  pool_ok m (Pool q ws) → pool_ok m (Pool q' (<[i := Handling x]> ws)).
Proof.
  intros Hi Hget [Hq Hp He Hf]. simpl in *. destruct (queue_ok_get _ _ _ Hq Hget) as (Hq' & Hx & Hpr & Hfa).
  assert (∀ j u, ws !! j = Some u → worker_item u ≠ x) as Hfree.
  { intros j u Hj Hu. apply Hx, Hp. eauto. }
  split; simpl; [done| | |intros y; unfold NumRequeues; rewrite Hfa; apply Hf].
  + intros y. rewrite Hpr, elem_of_union, elem_of_singleton, Hp. split.
    * intros [->|(j & u & Hj & Hu)]; [exists i, (Handling x); rewrite lookup_insert_eq; done|].
      exists j, u. rewrite lookup_insert_ne by (intros ->; congruence). done.
    * intros (j & u & Hj & Hu). destruct (decide (j = i)) as [->|].
      -- rewrite lookup_insert_eq in Hj. simplify_eq. by left.
      -- rewrite lookup_insert_ne in Hj by done. right. eauto.
  + intros j k u v Hj Hk Huv.
    destruct (decide (j = i)) as [->|Hji], (decide (k = i)) as [->|Hki]; [done|..].
    * rewrite lookup_insert_eq in Hj. rewrite lookup_insert_ne in Hk by done. simplify_eq.
      by apply Hfree in Hk.
    * rewrite lookup_insert_eq in Hk. rewrite lookup_insert_ne in Hj by done. simplify_eq.
      by apply Hfree in Hj.
    * rewrite lookup_insert_ne in Hj, Hk by done. by eapply He.
Qed.

Lemma step_ok m s s' : step m s s' → pool_ok m s → pool_ok m s'.
Proof.
  destruct 1 as [x q ws|x q ws|x l1 l2 q ws Hw|i x q q' ws Hi Hget|i key err q ws Hi|i str q ws Hi
    |i x q ws Hi|q ws]; intros Hok; pose proof Hok as [Hq Hp He Hf]; simpl in *.
  - split; simpl; [by apply queue_ok_add| |done|intros y; rewrite NumRequeues_add; apply Hf].
    intros y. rewrite <- Hp. unfold q_Add. destruct (shuttingDown q); [done|]. by destruct (decide _).
  - unfold q_AddAfter. destruct (shuttingDown q); [done|]. split; simpl; try done. by apply queue_ok_limiter.
  - split; simpl; [by apply queue_ok_add, queue_ok_limiter| |done|].
    + intros y. rewrite <- Hp. unfold q_Add. simpl. destruct (shuttingDown q); [done|]. by destruct (decide _).
    + intros y. rewrite NumRequeues_add. apply Hf.
  - by eapply pool_ok_get.
  - destruct (handleErr_frame err (inl key) m q) as [Hframe Hpr].
    eapply pool_ok_handled; [done|done|done|by apply Hframe|done|].
    intros y Hm. rewrite NumRequeues_handleErr. specialize (Hf (inl key) Hm) as Hfk. specialize (Hf y Hm).
    destruct (decide _); [|done]. destruct err; [|lia]. destruct ((m =? -1) || _) eqn:E; [|lia]. lia.
  - eapply pool_ok_handled; [done|done|done|by apply queue_ok_limiter|done|].
    intros y Hm. rewrite NumRequeues_forget. specialize (Hf y Hm). destruct (decide _); lia.
  - assert (x ∈ q_processing q) as Hx by (apply Hp; exists i, (Finishing x); done).
    split; simpl; [by apply queue_ok_done| | |done].
    + intros y. rewrite elem_of_difference, elem_of_singleton, Hp. split.
      * intros [(j & u & Hj & Hu) Hne]. exists j, u. rewrite lookup_delete_ne; [done|]. intros ->. simplify_eq.
      * intros (j & u & Hj & Hu). destruct (decide (i = j)) as [->|]; [by rewrite lookup_delete_eq in Hj|].
        rewrite lookup_delete_ne in Hj by done. split; [by eauto|]. intros ->.
        by apply (He j i u (Finishing x)) in Hj.
    + intros j k u v Hj Hk.
      destruct (decide (i = j)) as [->|]; [by rewrite lookup_delete_eq in Hj|].
      destruct (decide (i = k)) as [->|]; [by rewrite lookup_delete_eq in Hk|].
      rewrite lookup_delete_ne in Hj, Hk by done. by apply (He j k u v).
  - split; simpl; [destruct Hq; by split|done..].
Qed.

Lemma reachable_ok m s : reachable m s → pool_ok m s.
Proof.
  induction 1; [|by eapply step_ok].
  split; simpl; [split; simpl; [constructor|set_solver]| | |].
  - intros x. split; [set_solver|]. intros (i & w & Hi & _). by rewrite lookup_empty in Hi.
  - intros i j v w Hi. by rewrite lookup_empty in Hi.
  - intros x _. unfold NumRequeues. simpl. rewrite lookup_empty. simpl. lia.
Qed.

(** ** Theorems *)


(** C20: retries are bounded: from a clean slate a key whose handler keeps failing
    is scheduled again after each of its first [maxRequeues] failures, and
    after the next one it is dropped and its slate is clean again; a worker
    with [maxRequeues = -1] retries forever. *)
Theorem handleErr_retries err x maxRequeues q :
  0 ≤ maxRequeues ∨ maxRequeues = -1 → NumRequeues x q = 0 → shuttingDown q = false →
  let after n := Nat.iter n (handleErr (Some err) x maxRequeues) q in
  (∀ n : nat, maxRequeues = -1 ∨ Z.of_nat n ≤ maxRequeues →
     NumRequeues x (after n) = Z.of_nat n ∧ q_waiting (after n) = q_waiting q ++ replicate n x) ∧
  (0 ≤ maxRequeues →
     NumRequeues x (after (Datatypes.S (Z.to_nat maxRequeues))) = 0 ∧
     q_waiting (after (Datatypes.S (Z.to_nat maxRequeues))) = q_waiting (after (Z.to_nat maxRequeues))).
Proof.
  intros Hm H0 Hs after.
  assert (∀ n : nat, maxRequeues = -1 ∨ Z.of_nat n ≤ maxRequeues →
     NumRequeues x (after n) = Z.of_nat n ∧ q_waiting (after n) = q_waiting q ++ replicate n x ∧
     shuttingDown (after n) = false) as Hn.
  { intros n Hle. unfold after. induction n as [|n IH]; [by rewrite app_nil_r|].
    destruct IH as (IHn & IHw & IHs); [lia|]. rewrite !Nat.iter_succ.
    set (q1 := Nat.iter n (handleErr (Some err) x maxRequeues) q) in *.
    assert ((maxRequeues =? -1) || (NumRequeues x q1 <? maxRequeues) = true) as Hb by lia.
    rewrite NumRequeues_handleErr, decide_True, Hb by done. split; [lia|].
    unfold handleErr. rewrite Hb. unfold q_AddRateLimited, q_AddAfter. simpl. rewrite IHs. simpl.
    split; [|done]. rewrite IHw, <- app_assoc. by rewrite <- replicate_S_end. }
  split; [intros n Hle; by destruct (Hn n Hle) as (? & ? & _)|]. intros Hpos.
  destruct (Hn (Z.to_nat maxRequeues)) as (Hc & _ & _); [lia|]. unfold after in *. rewrite !Nat.iter_succ.
  set (q1 := Nat.iter (Z.to_nat maxRequeues) _ q) in *.
  assert ((maxRequeues =? -1) || (NumRequeues x q1 <? maxRequeues) = false) as Hb by lia.
  rewrite NumRequeues_handleErr, decide_True, Hb by done. split; [done|].
  unfold handleErr. by rewrite Hb.
Qed.

(** the loop body of the Presto table worker and the generic one agree. *)
Theorem processPrestoTable_processResource {S} `{!Env S} cfg q :
  option_relation (λ m m', ∀ w : world S, m w = m' w) (λ _, False) (λ _, False)
    (processPrestoTable cfg q) (processResource (syncPrestoTable cfg) prestoTable_maxRequeues q).
Proof.
  unfold processPrestoTable, processResource, runHandler. destruct (q_Get q) as [[[[key|s]|] q']|]; done.
Qed.

(** An item is added, a worker takes it, and it is added again meanwhile. *)
Definition queued_a : queue := q_Add (inl "ns/a") q_New.
Definition taken_a : queue := match q_Get queued_a with Some (_, q) => q | None => queued_a end.
Definition pool_a : pool := Pool (q_Add (inl "ns/a") taken_a) (<[0%nat := Handling (inl "ns/a")]> ∅).

Lemma pool_a_reachable : reachable 5 pool_a.
Proof.
  apply (reachable_step 5 (Pool taken_a (<[0%nat := Handling (inl "ns/a")]> ∅))); [|apply step_add].
  apply (reachable_step 5 (Pool queued_a ∅)); [|by apply step_get].
  apply (reachable_step 5 (Pool q_New ∅)); [apply reachable_init|apply step_add].
Qed.


Lemma handleErr_retries_witness :
  let after n := Nat.iter n (handleErr (Some (New "boom")) (inl "ns/a") 2) q_New in
  (∀ n : nat, 2 = -1 ∨ Z.of_nat n ≤ 2 →
     NumRequeues (inl "ns/a") (after n) = Z.of_nat n ∧ q_waiting (after n) = [] ++ replicate n (inl "ns/a")) ∧
  (0 ≤ 2 → NumRequeues (inl "ns/a") (after 3%nat) = 0 ∧ q_waiting (after 3%nat) = q_waiting (after 2%nat)).
Proof. apply (handleErr_retries (New "boom") (inl "ns/a") 2 q_New); [by left|reflexivity|reflexivity]. Defined.
