(* ===== verification/Handlers.v ===== *)
(** * Event handlers of the informers (src/pkg/operator/queues.go, and their
    registration in src/pkg/operator/operator.go)

    An informer hands an event handler the cached object, or a tombstone of an
    object whose deletion was missed. *)

From S2P Require Export Finalizers ReportRuns.
Open Scope Z_scope.

(** ** What a handler is handed

    A pointer to an object of the informer's kind, a tombstone (holding such
    an object or something else), or another value, with its namespace if it
    is an API object. *)
Inductive delivered (k : kind) :=
  | Obj (o : obj k)
  | Tombstone (o : option (obj k))
  | Foreign (namespace : option string).
Arguments Obj {k} o.
Arguments Tombstone {k} o.
Arguments Foreign {k} namespace.

Section handlers.
Context {S : Type} `{!Env S} (cfg : Config).

(** [obj.( *T)]. *)
Definition assert_type {k} (d : delivered k) : M S (obj k) :=
  match d with
  | Obj o => mret o
  | _ => panic "interface conversion"
  end.

(** The object of a deletion.  Where there is none the handler logs the name
    of a nil object. *)
Definition deleted_object {k} (d : delivered k) : M S (obj k) :=
  match d with
  | Obj o | Tombstone (Some o) => mret o
  | _ => panic "invalid memory address or nil pointer dereference"
  end.

(** ** Reports *)
Definition deleteReport (obj : delivered KReport) : M S unit :=
  report ← deleted_object obj;
  enqueue KReport report.

Definition addReport (obj : delivered KReport) : M S unit :=
  report ← assert_type obj;
  match DeletionTimestamp (r_Meta report) with
  | Some _ => deleteReport (Obj (k := KReport) report)
  | None => enqueueReport report
  end.

Definition updateReport (prev cur : delivered KReport) : M S unit :=
  prevReport ← assert_type prev;
  curReport ← assert_type cur;
  match DeletionTimestamp (r_Meta curReport) with
  | Some _ => deleteReport (Obj (k := KReport) curReport)
  | None =>
      if String.eqb (ResourceVersion (r_Meta curReport)) (ResourceVersion (r_Meta prevReport)) then mret tt
      else if decide (r_Spec prevReport = r_Spec curReport) then mret tt
      else enqueueReport curReport
  end.

(** ** Data sources *)
Definition deleteReportDataSource (obj : delivered KReportDataSource) : M S unit :=
  dataSource ← deleted_object obj;
  enqueue KReportDataSource dataSource.

Definition addReportDataSource (obj : delivered KReportDataSource) : M S unit :=
  ds ← assert_type obj;
  match DeletionTimestamp (ds_Meta ds) with
  | Some _ => deleteReportDataSource (Obj (k := KReportDataSource) ds)
  | None => enqueueReportDataSource ds
  end.

(** Only an import status that changed alone is skipped. *)
Definition only_import_status (prev cur : ReportDataSource) : bool :=
  bool_decide (ds_PrometheusMetricsImporter (ds_Spec cur) ≠ None) &&
  bool_decide (ds_Spec cur = ds_Spec prev) &&
  negb (bool_decide (dst_ImportStatus (ds_Status cur) = dst_ImportStatus (ds_Status prev))).

Definition updateReportDataSource (prev cur : delivered KReportDataSource) : M S unit :=
  curReportDataSource ← assert_type cur;
  prevReportDataSource ← assert_type prev;
  match DeletionTimestamp (ds_Meta curReportDataSource) with
  | Some _ => deleteReportDataSource (Obj (k := KReportDataSource) curReportDataSource)
  | None =>
      if only_import_status prevReportDataSource curReportDataSource then mret tt
      else enqueueReportDataSource curReportDataSource
  end.

(** ** Queries *)
Definition addReportQuery (obj : delivered KReportQuery) : M S unit :=
  query ← assert_type obj;
  enqueueReportQuery query.

Definition updateReportQuery (prev cur : delivered KReportQuery) : M S unit :=
  curReportQuery ← assert_type cur;
  prevReportQuery ← assert_type prev;
  if String.eqb (ResourceVersion (q_Meta curReportQuery)) (ResourceVersion (q_Meta prevReportQuery)) then mret tt
  else if decide (q_Spec prevReportQuery = q_Spec curReportQuery) then mret tt
  else enqueueReportQuery curReportQuery.

(** ** Tables and storage locations

    Without finalizers the table or database is dropped at once; an error is
    logged and ends the handler. *)
Definition eager_cleanup (k : kind) (drop : obj k → M S unit) (removeFinalizer : obj k → M S (obj k)) (o : obj k)
    : M S unit :=
  if negb (EnableFinalizers cfg) then
    r ← try (drop o);
    match r with
    | inr _ => mret tt
    | inl _ =>
        r ← try (removeFinalizer o);
        match r with
        | inr _ => mret tt
        | inl _ => enqueue k o
        end
    end
  else enqueue k o.

Definition deletePrestoTable (obj : delivered KPrestoTable) : M S unit :=
  prestoTable ← deleted_object obj;
  eager_cleanup KPrestoTable dropPrestoTable removePrestoTableFinalizer prestoTable.
Definition addPrestoTable (obj : delivered KPrestoTable) : M S unit :=
  table ← assert_type obj;
  match DeletionTimestamp (pt_Meta table) with
  | Some _ => deletePrestoTable (Obj (k := KPrestoTable) table)
  | None => enqueuePrestoTable table
  end.
Definition updatePrestoTable (_ cur : delivered KPrestoTable) : M S unit := addPrestoTable cur.

Definition deleteHiveTable (obj : delivered KHiveTable) : M S unit :=
  hiveTable ← deleted_object obj;
  eager_cleanup KHiveTable dropHiveTable removeHiveTableFinalizer hiveTable.
Definition addHiveTable (obj : delivered KHiveTable) : M S unit :=
  table ← assert_type obj;
  match DeletionTimestamp (ht_Meta table) with
  | Some _ => deleteHiveTable (Obj (k := KHiveTable) table)
  | None => enqueueHiveTable table
  end.
Definition updateHiveTable (_ cur : delivered KHiveTable) : M S unit := addHiveTable cur.

Definition deleteStorageLocation (obj : delivered KStorageLocation) : M S unit :=
  storageLocation ← deleted_object obj;
  eager_cleanup KStorageLocation deleteStorage removeStorageLocationFinalizer storageLocation.
Definition addStorageLocation (obj : delivered KStorageLocation) : M S unit :=
  storageLocation ← assert_type obj;
  match DeletionTimestamp (sl_Meta storageLocation) with
  | Some _ => deleteStorageLocation (Obj (k := KStorageLocation) storageLocation)
  | None => enqueueStorageLocation storageLocation
  end.
Definition updateStorageLocation (_ cur : delivered KStorageLocation) : M S unit := addStorageLocation cur.

(** ** Handlers and their registration *)
Record ResourceEventHandler (k : kind) := {
  OnAdd : delivered k → M S unit;
  OnUpdate : delivered k → delivered k → M S unit;
  OnDelete : delivered k → M S unit;
}.
#[local] Arguments OnAdd {k} _ _.
#[local] Arguments OnUpdate {k} _ _ _.
#[local] Arguments OnDelete {k} _ _.

(** A tombstone is not an API object. *)
Definition GetNamespace {k} (d : delivered k) : option string :=
  match d with
  | Obj o => Some (Namespace (meta k o))
  | Tombstone _ => None
  | Foreign ns => ns
  end.

Definition inTargetNamespace {k} (targetNamespaces : list string) (d : delivered k) : bool :=
  match GetNamespace d with
  | None => false
  | Some ns => existsb (λ targetNS, String.eqb ns targetNS) targetNamespaces
  end.

Definition newInTargetNamespaceEventHandler {k} (handler : ResourceEventHandler k)
    (targetNamespaces : list string) : ResourceEventHandler k :=
  match targetNamespaces with
  | [] => handler
  | _ =>
      let inTarget := inTargetNamespace targetNamespaces in
      {| OnAdd obj := if inTarget obj then OnAdd handler obj else mret tt;
         OnUpdate oldObj newObj :=
         if inTarget oldObj && inTarget newObj then OnUpdate handler oldObj newObj else mret tt;
         OnDelete obj := if inTarget obj then OnDelete handler obj else mret tt |}
  end.

(** The functions [newReportingOperator] registers; a missing one does nothing. *)
Definition event_handler_funcs (k : kind) : ResourceEventHandler k :=
  match k with
  | KReport => {| OnAdd := addReport; OnUpdate := updateReport; OnDelete := deleteReport |}
  | KReportDataSource =>
      {| OnAdd := addReportDataSource; OnUpdate := updateReportDataSource; OnDelete := deleteReportDataSource |}
  | KReportQuery => {| OnAdd := addReportQuery; OnUpdate := updateReportQuery; OnDelete := λ _, mret tt |}
  | KPrestoTable =>
      {| OnAdd := addPrestoTable; OnUpdate := updatePrestoTable; OnDelete := deletePrestoTable |}
  | KHiveTable => {| OnAdd := addHiveTable; OnUpdate := updateHiveTable; OnDelete := deleteHiveTable |}
  | KStorageLocation =>
      {| OnAdd := addStorageLocation; OnUpdate := updateStorageLocation; OnDelete := deleteStorageLocation |}
  end.

Definition event_handler (k : kind) : ResourceEventHandler k :=
  newInTargetNamespaceEventHandler (event_handler_funcs k) (TargetNamespaces cfg).
End handlers.
Arguments OnAdd {S k} _ _.
Arguments OnUpdate {S k} _ _ _.
Arguments OnDelete {S k} _ _.

(** ** Theorems *)
Section theorems.
Context {S : Type} `{!Env S} (cfg : Config) {UT : UnicodeTables} {MO : MapOrder} {SO : SetOrder}
    {TE : TemplateEngine} {FS : FaithfulServer}.


(** handlers keep to the target namespaces: with target namespaces
    configured, an event for an object elsewhere has no effect, an event for
    an object in one of them is handled as without the filter, and a
    tombstone, which has no namespace, is always dropped: a deletion the
    informer missed is never handled. *)
Theorem event_handler_namespaces k (d prev : delivered k) w :
  TargetNamespaces cfg ≠ [] →
  let h := event_handler cfg k in
  match GetNamespace d with
  | Some ns =>
      (ns ∈ TargetNamespaces cfg →
       OnAdd h d w = OnAdd (event_handler_funcs cfg k) d w ∧
       OnDelete h d w = OnDelete (event_handler_funcs cfg k) d w) ∧
      (ns ∉ TargetNamespaces cfg →
       OnAdd h d w = (Ok tt, w) ∧ OnUpdate h prev d w = (Ok tt, w) ∧ OnDelete h d w = (Ok tt, w))
  | None => OnAdd h d w = (Ok tt, w) ∧ OnUpdate h prev d w = (Ok tt, w) ∧ OnDelete h d w = (Ok tt, w)
  end.
Proof.
  intros Hne h. subst h. unfold event_handler, newInTargetNamespaceEventHandler.
  destruct (TargetNamespaces cfg) as [|t l] eqn:E; [done|]. rewrite <- E in *. simpl.
  unfold inTargetNamespace at 1 3 4 6. unfold inTargetNamespace.
  destruct (GetNamespace d) as [ns|]; [|by rewrite andb_false_r].
  assert (existsb (λ targetNS, String.eqb ns targetNS) (TargetNamespaces cfg) = true
          ↔ ns ∈ TargetNamespaces cfg) as Hin.
  { rewrite existsb_exists. setoid_rewrite <- list_elem_of_In. setoid_rewrite String.eqb_eq. naive_solver. }
  destruct (existsb _ (TargetNamespaces cfg)) eqn:Ex; split; intros H.
  - done.
  - exfalso. by apply H, Hin.
  - exfalso. apply Hin in H. congruence.
  - by rewrite andb_false_r.
Qed.

(** What [eager_cleanup] adds to a cleanup. *)
Definition then_enqueue (k : kind) (x : obj k) (r : outcome unit * world S) : outcome unit * world S :=
  match r with
  | (Ok _, w) => enqueue k x w
  | (Err _, w) => (Ok tt, w)
  | (Panic p, w) => (Panic p, w)
  end.

Definition unmanaged (o : owner) : obj (owner_kind o) → bool :=
  match o with OPresto => pt_Unmanaged | _ => λ _, false end.

(** C29: without finalizers the delete handlers of tables and storage locations do
    the sync's work at once: their effects are those of a sync of the deleted
    object, followed, if it succeeded, by queueing the key; a failure is lost.
    Only an unmanaged Presto table is different: the sync would remove its
    finalizer, the handler does nothing at all. *)
Theorem eager_deletion_as_sync o key ns name x w s1 :
  EnableFinalizers cfg = false → SplitMetaNamespaceKey key = Some (ns, name) →
  lister_get (owner_kind o) ns name (env w) = (Ok x, s1) →
  DeletionTimestamp (meta (owner_kind o) x) ≠ None →
  OnDelete (event_handler_funcs cfg (owner_kind o)) (Obj x) (World s1 (trace w)) =
  if unmanaged o x then (Ok tt, World s1 (trace w)) else then_enqueue (owner_kind o) x (sync cfg o key w).
Proof.
  intros Hfin Hkey Hget Hdel. rewrite (sync_deleted cfg o key ns name x w s1 Hkey Hget Hdel).
  assert (∀ k (d : obj k → M S unit) (rm : obj k → M S (obj k)) (y : obj k) w1,
          eager_cleanup cfg k d rm y w1 = then_enqueue k y ((_ ← d y; _ ← rm y; mret tt) w1)) as Heq.
  { intros k d rm y w1. unfold eager_cleanup. rewrite Hfin. simpl. rewrite !bind_run. unfold try.
    destruct (d y w1) as [[[]|e|p] w2]; simpl; [|done..]. rewrite !bind_run.
    by destruct (rm y w2) as [[a|e|p] w3]. }
  destruct o; simpl; unfold deleteHiveTable, deletePrestoTable, deleteStorageLocation;
    rewrite bind_run; simpl; rewrite Heq; [done| |done].
  destruct (pt_Unmanaged x) eqn:Hu; [|done]. unfold dropPrestoTable. by rewrite Hu.
Qed.

(** A deletion of something else than the informer's kind. *)
Lemma delete_foreign_panics k (d : delivered k) w :
  k ≠ KReportQuery → (d = Tombstone None ∨ ∃ ns, d = Foreign ns) →
  OnDelete (event_handler_funcs cfg k) d w = (Panic "invalid memory address or nil pointer dereference", w).
Proof. intros Hk [->|[ns ->]]; by destruct k. Qed.
End theorems.

(** ** Concrete events *)
Definition targets0 : Config :=
  {| OwnNamespace := "ns"; AllNamespaces := true; TargetNamespaces := ["ns"; "other"];
     DisablePrometheusMetricsImporter := false; EnableFinalizers := false;
     cfg_QueryConfig := cfg_QueryConfig (config0 false);
     PrometheusDataSourceMaxQueryRangeDuration := 10 * Minute;
     PrometheusDataSourceMaxBackfillImportDuration := 2 * Hour;
     PrometheusDataSourceGlobalImportFromTime := None |}.

(** The record of the period, as the informer sees it. *)
Definition seen (r : Report) : Report :=
  {| r_Meta := meta_of "ns" "r"; r_Spec := r_Spec r; r_Status := r_Status r |}.


Lemma event_handler_namespaces_witness :
  let h := event_handler targets0 KPrestoTable in
  OnDelete h (Tombstone (k := KPrestoTable) (Some presto0)) presto_world = (Ok tt, presto_world).
Proof.
  apply (event_handler_namespaces targets0 KPrestoTable (Tombstone (k := KPrestoTable) (Some presto0)) (Tombstone None) presto_world).
  discriminate.
Defined.

Lemma eager_deletion_as_sync_witness :
  let w := world0 (add_obj KHiveTable deleted_hive mem0) in
  OnDelete (event_handler_funcs (config0 false) KHiveTable) (Obj (k := KHiveTable) deleted_hive) w =
    then_enqueue KHiveTable deleted_hive (sync (config0 false) OHive "ns/t" w).
Proof.
  intros w.
  apply (eager_deletion_as_sync (config0 false) OHive "ns/t" "ns" "t" deleted_hive w (env w));
    [reflexivity|reflexivity|vm_compute; reflexivity|discriminate].
Defined.
