(* ===== verification/AwsUsage.v ===== *)
(** * AWS billing data (src/pkg/aws/manifest.go, src/pkg/aws/client.go,
    src/pkg/operator/aws_usage_hive.go, [S3Location] of src/pkg/hive/table.go)

    S3 and the decoding of a manifest's JSON are a class, as is the
    normalisation of a URL by net/url; [path] is modelled. *)

From S2P Require Export Storage HiveTables Reports.
Open Scope Z_scope.

(** ** Package path *)
Definition slash : ascii := "/".

Fixpoint segments (s : string) : list string :=
  match s with
  | "" => [""]
  | String c s =>
      if Ascii.eqb c slash then "" :: segments s
      else match segments s with
           | seg :: l => String c seg :: l
           | [] => [String c ""]
           end
  end.

(** The segments of a cleaned path, last first. *)
Definition clean_step (rooted : bool) (out : list string) (seg : string) : list string :=
  if String.eqb seg "" || String.eqb seg "." then out
  else if String.eqb seg ".." then
    match out with
    | top :: rest => if String.eqb top ".." then ".." :: out else rest
    | [] => if rooted then [] else [".."]
    end
  else seg :: out.

Definition Clean (p : string) : string :=
  let rooted := HasPrefix p "/" in
  let l := rev (fold_left (clean_step rooted) (segments p) []) in
  if rooted then "/" +:+ Join l "/"
  else match l with [] => "." | _ => Join l "/" end.

(** [path.Join]: leading empty elements are skipped. *)
Fixpoint path_Join (elem : list string) : string :=
  match elem with
  | [] => ""
  | e :: rest => if String.eqb e "" then path_Join rest else Clean (Join elem "/")
  end.

(** [path.Split]: up to and including the last slash, and the rest. *)
Definition Split (p : string) : string * string :=
  match rev (segments p) with
  | file :: dirs => (match dirs with [] => "" | _ => Join (rev dirs) "/" +:+ "/" end, file)
  | [] => ("", p)
  end.
Definition Dir (p : string) : string := Clean (fst (Split p)).

Definition ends_with_slash (s : string) : bool := HasSuffix s "/".

(** ** Manifests *)
Module aws.
Record Column := { Category : string; col_Name : string }.
Record BillingPeriod := { bp_Start : Time; bp_End : Time }.
Record Manifest := {
  AssemblyID : string;
  m_Account : string;
  Columns : list Column;
  Charset : string;
  Compression : string;
  ContentType : string;
  ReportID : string;
  ReportName : string;
  m_BillingPeriod : BillingPeriod;
  m_Bucket : string;
  ReportKeys : list string;
  AdditionalArtifactKeys : list string;
}.
End aws.

(** The directories of the report keys, each once, in order. *)
Definition paths (m : aws.Manifest) : list string :=
  (fold_left (λ '(seen, ps) key,
     let dirPath := Dir key in
     if decide (dirPath ∈ seen) then (seen, ps) else ({[dirPath]} ∪ seen, ps ++ [dirPath]))
   (aws.ReportKeys m) (∅ : gset string, [])).2.

(** More than one directory is only logged. *)
Definition DataDirectory (m : aws.Manifest) : string := default "" (head (paths m)).

(** ** Times of a manifest: layout [20060102T000000.000Z] *)
Definition layout_manifestTime : list chunk :=
  [CYear; CMonth; CDay; CLit "T000000"; CFrac0 3; CLit "Z"].
Definition manifest_time_String (t : Time) : string := Format t layout_manifestTime.

Fixpoint lits (s : string) : parser unit := λ l,
  match s with
  | "" => Some (tt, l)
  | String c s => '(_, l) ← lit c l; lits s l
  end.

(** [time.Parse] with that layout. *)
Definition parse_manifest_time (l : list ascii) : option Time :=
  '(y, l) ← fixed_num 4 0 l;
  '(mo, l) ← fixed_num 2 0 l;
  '(d, l) ← fixed_num 2 0 l;
  '(_, l) ← lits "T000000." l;
  '(ms, l) ← fixed_num 3 0 l;
  '(_, l) ← lits "Z" l;
  match l with
  | [] =>
      if (1 <=? mo) && (mo <=? 12) && (1 <=? d) && (d <=? days_in mo y)
      then Some (Date y mo d 0 0 0 + ms * Millisecond) else None
  | _ :: _ => None
  end.

(** [Time.UnmarshalJSON]: the quotes are cut off, whatever they are. *)
Definition manifest_time_UnmarshalJSON (b : string) : outcome (option Time) :=
  match slice_str b 1 (Z.of_nat (String.length b) - 1) with
  | Ok s => Ok (parse_manifest_time (String.list_ascii_of_string s))
  | Err e => Err e
  | Panic p => Panic p
  end.

(** ** The services *)
Class Aws (S : Type) := {
  (* the pages of keys in a bucket under a prefix, and the error that ended the listing *)
  s3_ListObjectsV2Pages : string → string → S → list (list string) * option error * S;
  s3_GetObject : string → string → S → outcome string * S;
  (* decoding of a manifest's text *)
  json_Decode : string → outcome aws.Manifest;
  (* parse a URL and print it again *)
  url_Parse_String : string → outcome string;
}.

(** [hive.S3Location]. *)
Definition S3Location {S} `{!Aws S} (bucket prefix : string) : outcome string :=
  let bucket := path_Join [bucket; prefix] in
  if String.eqb bucket "" then Panic "runtime error: index out of range [-1]"
  else
    let bucket := if ends_with_slash bucket then bucket else bucket +:+ "/" in
    url_Parse_String ("s3a://" +:+ bucket).

(** *** Retrieving the manifests *)
Definition ManifestSuffix : string := ".json".

Definition manifest_prefix (prefix : string) : string :=
  if String.eqb prefix "" then "/"
  else if ends_with_slash prefix then prefix else prefix +:+ "/".

(** A manifest directly in a directory of the prefix. *)
Definition top_level (prefix key : string) : bool :=
  HasSuffix key ManifestSuffix && String.eqb (fst (Split (Dir (TrimPrefix key prefix)))) "".

Definition filterObjects (prefix : string) (objects : list string) : list string :=
  filter (λ key, Is_true (top_level prefix key)) objects.

Section aws_ops.
Context {S : Type} `{!Env S, !Aws S} (cfg : Config) {UT : UnicodeTables}.

Definition retrieveManifest (bucket key : string) : M S aws.Manifest :=
  obj ← read (s3_GetObject bucket key);
  ret_out (json_Decode obj).

(** The keys of a page in order; [inr] is the error that stops the listing. *)
Fixpoint retrieve_page (bucket : string) (keys : list string) (manifests : list aws.Manifest)
    : M S (list aws.Manifest + error) :=
  match keys with
  | [] => mret (inl manifests)
  | key :: keys =>
      r ← try (retrieveManifest bucket key);
      match r with
      | inr err => mret (inr (Errorf "can't get manifest from bucket '%s' with key '%s': %v"
                                [FStr bucket; FStr key; FStr (Error err)]))
      | inl manifest => retrieve_page bucket keys (manifests ++ [manifest])
      end
  end.

Fixpoint retrieve_pages (bucket prefix : string) (pages : list (list string)) (listErr : option error)
    (manifests : list aws.Manifest) : M S (list aws.Manifest) :=
  match pages with
  | [] =>
      match listErr with
      | Some err => fail (Errorf "could not list retrieve AWS billing report keys: %v" [FStr (Error err)])
      | None => mret manifests
      end
  | page :: pages =>
      r ← retrieve_page bucket (filterObjects prefix page) manifests;
      match r with
      | inr manifestErr => fail manifestErr
      | inl manifests => retrieve_pages bucket prefix pages listErr manifests
      end
  end.

Definition RetrieveManifests (bucket prefix : string) : M S (list aws.Manifest) :=
  let prefix := manifest_prefix prefix in
  '(pages, listErr) ← read_pure (λ s, let '(p, e, s) := s3_ListObjectsV2Pages bucket prefix s in ((p, e), s));
  retrieve_pages bucket prefix pages listErr [].

(** ** The Hive table of the billing data *)
Definition AWSUsageHiveRowFormat : string :=
  let nl := String (ascii_of_nat 10) "" in
  let q s := dquote +:+ s +:+ dquote in
  nl +:+ "SERDE 'org.apache.hadoop.hive.serde2.lazy.LazySimpleSerDe'" +:+ nl +:+
  "WITH SERDEPROPERTIES (" +:+ nl +:+
  "    " +:+ q "serialization.format" +:+ " = " +:+ q "," +:+ "," +:+ nl +:+
  "    " +:+ q "field.delim" +:+ "          = " +:+ q "," +:+ "," +:+ nl +:+
  "    " +:+ q "collection.delim" +:+ "     = " +:+ q "undefined" +:+ "," +:+ nl +:+
  "    " +:+ q "mapkey.delim" +:+ "         = " +:+ q "undefined" +:+ "," +:+ nl +:+
  "    " +:+ q "timestamp.formats" +:+ "    = " +:+ q "yyyy-MM-dd'T'HH:mm:ssZ" +:+ nl +:+
  ")" +:+ nl.

Definition AWSUsageHivePartitions : list hive.Column :=
  [hive.MkColumn "billing_period_start" "string"; hive.MkColumn "billing_period_end" "string"].

Definition SanetizeAWSColumnForHive (col : aws.Column) : string :=
  let name := Sprintf "%s_%s" [FStr (TrimSpace (aws.Category col)); FStr (TrimSpace (aws.col_Name col))] in
  ToLower (replace_byte "." "_" (replace_byte ":" "_" name)).

Definition AWSColumnToHiveColumnType (c : aws.Column) : string :=
  let name := SanetizeAWSColumnForHive c in
  if String.eqb name "lineitem_usagestartdate" || String.eqb name "lineitem_usageenddate" then "timestamp"
  else if String.eqb name "lineitem_blendedcost" then "double"
  else "string".

(** The columns of all manifests, each name once. *)
Definition add_aws_column (acc : gset string * list hive.Column) (c : aws.Column)
    : gset string * list hive.Column :=
  let '(seen, columns) := acc in
  let name := SanetizeAWSColumnForHive c in
  if decide (name ∈ seen) then acc
  else ({[name]} ∪ seen, columns ++ [hive.MkColumn name (AWSColumnToHiveColumnType c)]).
Definition aws_columns (manifests : list aws.Manifest) : list hive.Column :=
  (fold_left add_aws_column (mjoin (aws.Columns <$> manifests)) (∅, [])).2.

(** The database: the check is on the storage's spec, the value is its status'. *)
Definition aws_database (dataSource : ReportDataSource) (databaseName : string) : M S string :=
  if String.eqb databaseName "" then
    '(hiveStorage, hive) ←
      map_err (λ err, Errorf "storage incorrectly configured for ReportDataSource %s, err: %s"
                 [FStr (Name (ds_Meta dataSource)); FStr (Error err)])
        (getHiveStorage None (Namespace (ds_Meta dataSource)));
    if String.eqb (hs_DatabaseName hive) "" then
      fail (Errorf "StorageLocation %s Hive database %s does not exist yet"
              [FStr (Name (sl_Meta hiveStorage)); FStr (hs_DatabaseName hive)])
    else mret (sl_DatabaseName hiveStorage)
  else mret databaseName.

Definition createAWSUsageHiveTableCR (dataSource : ReportDataSource) (databaseName tableName bucket prefix : string)
    (manifests : list aws.Manifest) : M S HiveTable :=
  let wrap {A} (f : string) : M S A → M S A := map_err (λ err,
    Errorf f [FStr (Name (ds_Meta dataSource)); FStr (Error err)]) in
  location ← ret_out (S3Location bucket prefix);
  let columns := aws_columns manifests in
  dbName ← aws_database dataSource databaseName;
  if String.eqb dbName "" then
    panic (Sprintf "unable to get dbName for ReportDataSource: %s: should properly return error when database cannot be determined"
             [FStr (Name (ds_Meta dataSource))])
  else
    let params :=
      {| hive.p_Database := dbName; hive.p_Name := tableName; hive.p_Columns := columns;
         hive.p_PartitionedBy := AWSUsageHivePartitions; hive.p_ClusteredBy := []; hive.p_SortedBy := [];
         hive.p_NumBuckets := 0; hive.p_Location := location; hive.p_RowFormat := AWSUsageHiveRowFormat;
         hive.p_FileFormat := "textfile"; hive.p_TableProperties := None; hive.p_External := true |} in
    hiveTable ← wrap "error creating Hive table for ReportDataSource %s: %s"
      (createHiveTableCR cfg (ds_Meta dataSource) "ReportDataSource" params true []);
    hiveTable ← wrap "error creating Hive table for ReportDataSource %s: %s"
      (waitForHiveTable (Namespace (ht_Meta hiveTable)) (Name (ht_Meta hiveTable)));
    _ ← wrap "error creating table for ReportDataSource %s: %s"
      (waitForPrestoTable (Namespace (ht_Meta hiveTable)) (Name (ht_Meta hiveTable)));
    mret hiveTable.

(** ** Partitions *)
Definition desired_partition (bucket : string) (manifest : aws.Manifest) : outcome hive.TablePartition :=
  location ← S3Location bucket (DataDirectory manifest);
  let start := AWSBillingPeriodTimestamp (aws.bp_Start (aws.m_BillingPeriod manifest)) in
  let end_ := AWSBillingPeriodTimestamp (aws.bp_End (aws.m_BillingPeriod manifest)) in
  Ok (hive.MkPartition location (<["start" := start]> (<["end" := end_]> ∅))).

Fixpoint getDesiredPartitions (bucket : string) (manifests : list aws.Manifest)
    : outcome (list hive.TablePartition) :=
  match manifests with
  | [] => Ok []
  | manifest :: manifests =>
      p ← desired_partition bucket manifest;
      ps ← getDesiredPartitions bucket manifests;
      Ok (p :: ps)
  end.

Definition set_spec_partitions (ps : list hive.TablePartition) (t : HiveTable) : HiveTable :=
  let sp := ht_Spec t in
  {| ht_Meta := ht_Meta t; ht_ManagePartitions := ht_ManagePartitions t;
     ht_Spec := {| ht_DatabaseName := ht_DatabaseName sp; ht_TableName := ht_TableName sp;
                   ht_Columns := ht_Columns sp; ht_PartitionedBy := ht_PartitionedBy sp;
                   ht_ClusteredBy := ht_ClusteredBy sp; ht_SortedBy := ht_SortedBy sp;
                   ht_NumBuckets := ht_NumBuckets sp; ht_Location := ht_Location sp;
                   ht_RowFormat := ht_RowFormat sp; ht_FileFormat := ht_FileFormat sp;
                   ht_TableProperties := ht_TableProperties sp; ht_External := ht_External sp;
                   ht_Partitions := ps |};
     ht_Status := ht_Status t |}.

Definition updateAWSBillingPartitions (source : S3Bucket) (hiveTable : HiveTable)
    (manifests : list aws.Manifest) : M S unit :=
  match manifests with
  | [] => mret tt
  | _ =>
      partitions ← ret_out (getDesiredPartitions (Bucket source) manifests);
      _ ← Update KHiveTable (set_spec_partitions partitions hiveTable);
      mret tt
  end.
End aws_ops.

(** ** Facts about paths *)
Lemma substring_app_r (s t : string) : String.substring (String.length s) (String.length t) (s +:+ t) = t.
Proof.
  induction s as [|c s IH]; [|exact IH].
  change (String.substring 0 (String.length t) t = t). induction t as [|c t IH]; [done|].
  simpl. by rewrite IH.
Qed.

Lemma HasPrefix_app s t : HasPrefix (s +:+ t) s = true.
Proof.
  unfold HasPrefix. induction s as [|c s IH]; [by destruct t|]. simpl. by destruct (ascii_dec c c).
Qed.

Lemma TrimPrefix_app s t : TrimPrefix (s +:+ t) s = t.
Proof.
  unfold TrimPrefix. rewrite HasPrefix_app, str_length_app.
  replace (String.length s + String.length t - String.length s)%nat with (String.length t) by lia.
  apply substring_app_r.
Qed.

Lemma HasSuffix_app s t : HasSuffix (s +:+ t) t = true.
Proof.
  unfold HasSuffix. rewrite str_length_app.
  replace (String.length s + String.length t - String.length t)%nat with (String.length s) by lia.
  rewrite substring_app_r, String.eqb_refl, andb_true_r. apply Nat.leb_le. lia.
Qed.

Lemma segments_ne s : segments s ≠ [].
Proof. destruct s as [|c s]; simpl; [done|]. destruct (Ascii.eqb c slash); [done|]. by destruct (segments s). Qed.

Lemma segments_slash s t : segments (s +:+ "/" +:+ t) = segments s ++ segments t.
Proof.
  induction s as [|c s IH]; [done|]. change (String c s +:+ "/" +:+ t) with (String c (s +:+ "/" +:+ t)).
  simpl. rewrite IH. destruct (Ascii.eqb c slash); [done|].
  destruct (segments s) as [|seg l] eqn:E; [by apply segments_ne in E|done].
Qed.

(** A name: not empty, not special, and without slashes. *)
Record is_name (s : string) : Prop := {
  name_segment : segments s = [s];
  name_plain : s ≠ "" ∧ s ≠ "." ∧ s ≠ "..";
}.

Lemma clean_step_name rooted out s : is_name s → clean_step rooted out s = s :: out.
Proof.
  intros [_ (H1 & H2 & H3)]. unfold clean_step.
  by rewrite (proj2 (String.eqb_neq _ _) H1), (proj2 (String.eqb_neq _ _) H2), (proj2 (String.eqb_neq _ _) H3).
Qed.

Lemma name_not_rooted s t : is_name s → HasPrefix (s +:+ t) "/" = false.
Proof.
  intros [Hs [H1 _]]. destruct s as [|c s]; [done|].
  destruct c as [[] [] [] [] [] [] [] []]; try reflexivity. done.
Qed.

Lemma Clean_name_slash d : is_name d → Clean (d +:+ "/") = d.
Proof.
  intros Hd. unfold Clean. rewrite name_not_rooted by done.
  pose proof (segments_slash d "") as E. rewrite str_app_nil in E. rewrite E, (name_segment _ Hd).
  simpl. by rewrite (clean_step_name _ _ _ Hd).
Qed.

Lemma Clean_names_slash d a : is_name d → is_name a → Clean ((d +:+ "/" +:+ a) +:+ "/") = d +:+ "/" +:+ a.
Proof.
  intros Hd Ha. unfold Clean. rewrite str_app_assoc, name_not_rooted, <- str_app_assoc by done.
  pose proof (segments_slash (d +:+ "/" +:+ a) "") as E. rewrite str_app_nil in E.
  rewrite E, segments_slash, (name_segment _ Hd), (name_segment _ Ha). simpl.
  by rewrite (clean_step_name _ _ _ Hd), (clean_step_name _ _ _ Ha).
Qed.

(** only the top-level manifests count: under the prefix a manifest in a
    directory of its own is retrieved, its copy one assembly directory
    deeper is not, and no file without the suffix is. *)
Theorem filterObjects_top_level prefix d a f :
  is_name d → is_name a → is_name (f +:+ ManifestSuffix) →
  let top := prefix +:+ d +:+ "/" +:+ f +:+ ManifestSuffix in
  let copy := prefix +:+ d +:+ "/" +:+ a +:+ "/" +:+ f +:+ ManifestSuffix in
  (∀ objects, top ∈ filterObjects prefix objects ↔ top ∈ objects) ∧
  (∀ objects, copy ∉ filterObjects prefix objects) ∧
  (∀ objects key, key ∈ filterObjects prefix objects → HasSuffix key ManifestSuffix = true).
Proof.
  intros Hd Ha Hf top copy.
  assert (top_level prefix top = true) as Htop.
  { unfold top_level, top. rewrite TrimPrefix_app.
    replace (prefix +:+ d +:+ "/" +:+ f +:+ ManifestSuffix) with ((prefix +:+ d +:+ "/" +:+ f) +:+ ManifestSuffix)
      by (by rewrite !str_app_assoc).
    rewrite HasSuffix_app. unfold Dir, Split at 2.
    rewrite segments_slash, (name_segment _ Hd), (name_segment _ Hf). simpl.
    rewrite Clean_name_slash by done. unfold Split. by rewrite (name_segment _ Hd). }
  assert (top_level prefix copy = false) as Hcopy.
  { unfold top_level, copy. rewrite TrimPrefix_app. apply andb_false_iff. right. unfold Dir, Split at 2.
    rewrite !segments_slash, (name_segment _ Hd), (name_segment _ Ha), (name_segment _ Hf). simpl.
    rewrite Clean_names_slash by done. unfold Split.
    rewrite segments_slash, (name_segment _ Hd), (name_segment _ Ha). simpl.
    destruct d; [by destruct Hd as [_ [? _]]|done]. }
  unfold filterObjects. split_and!.
  - intros objects. rewrite list_elem_of_filter, Htop. simpl. tauto.
  - intros objects. rewrite list_elem_of_filter, Hcopy. simpl. tauto.
  - intros objects key. rewrite list_elem_of_filter. unfold top_level.
    destruct (HasSuffix key ManifestSuffix); simpl; tauto.
Qed.

(** ** Columns *)
Lemma aws_columns_fold cols seen columns :
  NoDup (hive.col_Name <$> columns) → (∀ n, n ∈ seen ↔ n ∈ hive.col_Name <$> columns) →
  let r := (fold_left add_aws_column cols (seen, columns)).2 in
  NoDup (hive.col_Name <$> r) ∧ columns `prefix_of` r ∧
  (∀ n, n ∈ hive.col_Name <$> r ↔ n ∈ hive.col_Name <$> columns ∨ n ∈ SanetizeAWSColumnForHive <$> cols) ∧
  (∀ c, c ∈ r → c ∈ columns ∨ ∃ a, a ∈ cols ∧
     c = hive.MkColumn (SanetizeAWSColumnForHive a) (AWSColumnToHiveColumnType a)).
Proof.
  revert seen columns. induction cols as [|a cols IH]; intros seen columns Hnd Hseen; simpl.
  { split_and!; [done|done| |by left]. intros n. rewrite elem_of_nil. tauto. }
  destruct (decide (SanetizeAWSColumnForHive a ∈ seen)) as [Hin|Hin].
  - destruct (IH seen columns Hnd Hseen) as (H1 & H2 & H3 & H4). split_and!; [done|done| |].
    + intros n. rewrite H3, elem_of_cons. apply Hseen in Hin. split; [naive_solver|].
      intros [?|[->|?]]; auto.
    + intros c [?|(b & Hb & ->)]%H4; [by left|right]. exists b. by split; [right|].
  - destruct (IH ({[SanetizeAWSColumnForHive a]} ∪ seen)
      (columns ++ [hive.MkColumn (SanetizeAWSColumnForHive a) (AWSColumnToHiveColumnType a)]))
      as (H1 & H2 & H3 & H4).
    + rewrite fmap_app. apply NoDup_app. split_and!; [done| |apply NoDup_singleton].
      intros n Hn ->%list_elem_of_singleton. by apply Hin, Hseen.
    + intros n. rewrite elem_of_union, elem_of_singleton, fmap_app, elem_of_app, Hseen. simpl.
      rewrite list_elem_of_singleton. tauto.
    + split_and!; [done|by etrans; [apply prefix_app_r|]| |].
      * intros n. rewrite H3, fmap_app, elem_of_app, elem_of_cons. simpl. rewrite list_elem_of_singleton. tauto.
      * intros c [Hc|(b & Hb & ->)]%H4.
        -- apply elem_of_app in Hc as [Hc|Hc%list_elem_of_singleton]; [by left|right].
           subst c. exists a. by split; [left|].
        -- right. exists b. by split; [right|].
Qed.

(** the columns of the billing table: every column of every manifest has
    exactly one column of its sanitised name, and there are no others, each
    with the type of that name. *)
Theorem aws_columns_spec manifests :
  NoDup (hive.col_Name <$> aws_columns manifests) ∧
  (∀ n, n ∈ hive.col_Name <$> aws_columns manifests ↔
     ∃ m a, m ∈ manifests ∧ a ∈ aws.Columns m ∧ n = SanetizeAWSColumnForHive a) ∧
  (∀ c, c ∈ aws_columns manifests → ∃ a,
     c = hive.MkColumn (SanetizeAWSColumnForHive a) (AWSColumnToHiveColumnType a)).
Proof.
  destruct (aws_columns_fold (mjoin (aws.Columns <$> manifests)) ∅ [])
    as (H1 & _ & H3 & H4); [apply NoDup_nil_2|set_solver|].
  unfold aws_columns. split_and!; [done| |].
  - intros n. rewrite H3. simpl. rewrite elem_of_nil, list_elem_of_fmap. setoid_rewrite list_elem_of_join.
    setoid_rewrite list_elem_of_fmap. naive_solver.
  - intros c [?%elem_of_nil|(a & _ & ->)]%H4; [done|]. by exists a.
Qed.

(** ** Partitions *)
Section partitions.
Context {S : Type} `{!Aws S} {SO : SetOrder}.

Lemma desired_partition_id bucket m p :
  desired_partition bucket m = Ok p → setID AWSUsageHivePartitions p = "-".
Proof.
  unfold desired_partition. destruct (S3Location _ _); simpl; intros; simplify_eq.
  unfold setID. simpl. by rewrite !lookup_insert_ne, !lookup_empty by done.
Qed.

Lemma getDesiredPartitions_ids bucket ms ps :
  getDesiredPartitions bucket ms = Ok ps →
  length ps = length ms ∧ Forall (λ p, setID AWSUsageHivePartitions p = "-") ps.
Proof.
  revert ps. induction ms as [|m ms IH]; intros ps; simpl; [by intros [= <-]|].
  destruct (desired_partition bucket m) as [p|e|e] eqn:E; simpl; [|done..].
  destruct (getDesiredPartitions bucket ms) as [l|e|e]; simpl; [|done..]. intros [= <-].
  destruct (IH l eq_refl) as [Hl Hall]. split; [simpl; lia|]. constructor; [by eapply desired_partition_id|done].
Qed.

(** the billing data of only one month is ever reachable: the partition specs
    of the manifests use other keys than the partition columns, so all
    desired partitions have the same identifier; whatever partitions the
    table has, of all of them only the last one is added or updated. *)
Theorem aws_partitions_collapse bucket manifests desired current :
  getDesiredPartitions bucket manifests = Ok desired → manifests ≠ [] →
  let ch := getPartitionChanges AWSUsageHivePartitions current desired in
  ∃ p, last desired = Some p ∧ length desired = length manifests ∧
  toAddPartitions ch ++ toUpdatePartitions ch = [p].
Proof.
  intros [Hlen Hall]%getDesiredPartitions_ids Hne ch.
  assert (∃ p, last desired = Some p) as [p Hp].
  { destruct (last desired) as [p|] eqn:E; [by exists p|]. apply last_None in E as ->.
    by destruct manifests. }
  exists p. split_and!; [done|done|].
  assert (ids AWSUsageHivePartitions desired = {["-"]}) as Hids.
  { apply set_eq. intros id. rewrite elem_of_ids, elem_of_singleton. rewrite Forall_forall in Hall. split.
    - intros (q & Hq & <-). by apply Hall.
    - intros ->. apply last_Some_elem_of in Hp. exists p. by split; [|apply Hall]. }
  assert (∀ s, s = {["-"]} → pick AWSUsageHivePartitions current desired s = [p]) as Hone.
  { intros s ->. unfold pick.
    assert (UnsortedList {["-"]} = ["-"]) as ->.
    { apply Permutation_singleton_r. by rewrite UnsortedList_perm, elements_singleton. }
    simpl. rewrite lookup_map_spec. unfold last_with. by rewrite filter_id, Hp by done. }
  assert (∀ s, s = ∅ → pick AWSUsageHivePartitions current desired s = []) as Hnone.
  { intros s ->. unfold pick. assert (UnsortedList ∅ = []) as ->; [|done].
    apply Permutation_nil_r. by rewrite UnsortedList_perm, elements_empty. }
  subst ch. unfold getPartitionChanges. simpl. fold (lookup_map AWSUsageHivePartitions current desired).
  fold (pick AWSUsageHivePartitions current desired
          (ids AWSUsageHivePartitions desired ∖ ids AWSUsageHivePartitions current)).
  fold (pick AWSUsageHivePartitions current desired
          (ids AWSUsageHivePartitions current ∩ ids AWSUsageHivePartitions desired)).
  rewrite Hids. destruct (decide ("-" ∈ ids AWSUsageHivePartitions current)).
  - rewrite Hnone, Hone by set_solver. done.
  - rewrite Hone, Hnone by set_solver. done.
Qed.
End partitions.

(** ** Concrete manifests *)
Definition manifest0 (month : Z) : aws.Manifest :=
  {| aws.AssemblyID := "ea74f90b"; aws.m_Account := "8265"; aws.Columns :=
       [{| aws.Category := "lineItem"; aws.col_Name := "BlendedCost" |}]; aws.Charset := "UTF-8";
     aws.Compression := "GZIP"; aws.ContentType := "text/csv"; aws.ReportID := "4941";
     aws.ReportName := "sample-report";
     aws.m_BillingPeriod := {| aws.bp_Start := Date 2017 month 1 0 0 0; aws.bp_End := Date 2017 (month + 1) 1 0 0 0 |};
     aws.m_Bucket := "billing-bucket"; aws.ReportKeys := ["path/2017" +:+ pretty month +:+ "/ea74f90b/1.csv.gz"];
     aws.AdditionalArtifactKeys := [] |}.

(** A bucket with two manifests. *)
#[export] Instance aws_mem : Aws Mem := {|
  s3_ListObjectsV2Pages _ _ m := ([["reports/r/20170701-20170801/r-Manifest.json"];
                                   ["reports/r/20170801-20170901/r-Manifest.json"]], None, m);
  s3_GetObject _ key m := (Ok (if Contains key "20170801-" then "8" else "7"), m);
  json_Decode text := Ok (manifest0 (if String.eqb text "8" then 8 else 7));
  url_Parse_String := Ok;
|}.

Lemma filterObjects_top_level_witness :
  let top := "reports/r/" +:+ "20170701-20170801" +:+ "/" +:+ "r-Manifest" +:+ ManifestSuffix in
  let copy := "reports/r/" +:+ "20170701-20170801" +:+ "/" +:+ "ea74f90b" +:+ "/" +:+ "r-Manifest" +:+ ManifestSuffix in
  (∀ objects, top ∈ filterObjects "reports/r/" objects ↔ top ∈ objects) ∧
  (∀ objects, copy ∉ filterObjects "reports/r/" objects) ∧
  (∀ objects key, key ∈ filterObjects "reports/r/" objects → HasSuffix key ManifestSuffix = true).
Proof. apply (filterObjects_top_level "reports/r/" "20170701-20170801" "ea74f90b" "r-Manifest"); by split. Defined.

Definition partitions0 : list hive.TablePartition :=
  match getDesiredPartitions "billing-bucket" [manifest0 7; manifest0 8] with Ok l => l | _ => [] end.

Lemma aws_partitions_collapse_witness :
  let ch := getPartitionChanges AWSUsageHivePartitions [] partitions0 in
  ∃ p, last partitions0 = Some p ∧ length partitions0 = 2%nat ∧
    toAddPartitions ch ++ toUpdatePartitions ch = [p].
Proof.
  apply (aws_partitions_collapse (S := Mem) "billing-bucket" [manifest0 7; manifest0 8] partitions0 []);
    [vm_compute; reflexivity|discriminate].
Defined.
