(* ===== verification/DataSources.v ===== *)
(** * The data source and query controllers (src/pkg/operator/datasources.go,
    reportquery.go, and the configuration of imports in promsum.go) *)

From S2P Require Export Reports Importer AwsUsage.
Open Scope Z_scope.

(** ** State the operator keeps

    [op.importers], by the name of the data source: each with the Prometheus
    connection it was created with ([None]: the operator's own); and the
    informer's cache, whose objects the code may write to. *)
Class OperatorState (S : Type) := {
  importers : string → S → option (PrometheusImporter * option string);
  set_importers : string → PrometheusImporter * option string → S → S;
  cache_write : ReportDataSource → S → S;
  (* a connection to the Prometheus at a URL; queries go through one *)
  newPrometheusConnFromURL : string → S → outcome unit * S;
  prom_query_at : option string → string → Range → S → outcome PromValue * S;
}.

(** The environment an importer sees: its queries go to its own connection. *)
Definition with_conn {S} `{E : !Env S, !OperatorState S} (conn : option string) : Env S :=
  {| client_get := @client_get S E; client_list := @client_list S E; client_create := @client_create S E;
     client_update := @client_update S E; lister_get := @lister_get S E; lister_list := @lister_list S E;
     clock_now := @clock_now S E; wait_jitter := @wait_jitter S E; poll_attempts := @poll_attempts S E;
     cron_Parse := @cron_Parse S E; cron_ParseStandard := @cron_ParseStandard S E; db_exec := @db_exec S E;
     presto_query := @presto_query S E; prom_query := prom_query_at conn; ctx_err := @ctx_err S E;
     last_timestamp := @last_timestamp S E |}.

(** ** Import configuration *)
Definition deref {A} (o : option A) : outcome A :=
  match o with
  | Some a => Ok a
  | None => Panic "invalid memory address or nil pointer dereference"
  end.

Definition getQueryIntervalForReportDataSource (cfg : Operator.Config) (p : PrometheusMetricsImporterDataSource)
  : outcome Duration :=
  queryInterval ← deref (QueryInterval (cfg_QueryConfig cfg));
  Ok (default queryInterval (queryConf ← pm_QueryConfig p; QueryInterval queryConf)).

(** Chunk and step size are rounded to seconds; the number of time ranges is
    how many chunks fit the longest query. *)
Definition newPromImporterCfg (cfg : Operator.Config) (p : PrometheusMetricsImporterDataSource)
    (query : string) (prestoTable : PrestoTable) : outcome Importer.Config :=
  chunkSize ← deref (ChunkSize (cfg_QueryConfig cfg));
  stepSize ← deref (StepSize (cfg_QueryConfig cfg));
  let chunkSize := DurTruncate (default chunkSize (c ← pm_QueryConfig p; ChunkSize c)) Second in
  let stepSize := DurTruncate (default stepSize (c ← pm_QueryConfig p; StepSize c)) Second in
  if chunkSize =? 0 then Panic "runtime error: integer divide by zero"
  else
    let defaultMaxPromTimeRanges := int64 (Z.quot (PrometheusDataSourceMaxQueryRangeDuration cfg) chunkSize) in
    tableName ← FullyQualifiedTableName prestoTable;
    Ok {| cfg_PrometheusQuery := query; cfg_PrestoTableName := tableName; cfg_ChunkSize := chunkSize;
          cfg_StepSize := stepSize; cfg_MaxTimeRanges := defaultMaxPromTimeRanges;
          cfg_MaxQueryRangeDuration := PrometheusDataSourceMaxQueryRangeDuration cfg;
          cfg_ImportFromTime := PrometheusDataSourceGlobalImportFromTime cfg;
          cfg_MaxBackfillImportDuration := PrometheusDataSourceMaxBackfillImportDuration cfg |}.

(** [time.Duration(1.5*chunkSize.Seconds()) * time.Second]: a chunk size is a
    whole number of seconds, so the product with 1.5 is exact. *)
Definition backlogDetectionDuration (chunkSize : Duration) : Duration :=
  int64 (Z.quot (3 * Z.quot chunkSize Second) 2 * Second).

(** ** The import status *)
Definition no_import_status : PrometheusMetricsImportStatus :=
  {| LastImportTime := None; ImportDataStartTime := None; ImportDataEndTime := None;
     EarliestImportedMetricTime := None; NewestImportedMetricTime := None |}.

Definition set_LastImportTime (now : Time) (st : PrometheusMetricsImportStatus) : PrometheusMetricsImportStatus :=
  {| LastImportTime := Some now; ImportDataStartTime := ImportDataStartTime st;
     ImportDataEndTime := ImportDataEndTime st; EarliestImportedMetricTime := EarliestImportedMetricTime st;
     NewestImportedMetricTime := NewestImportedMetricTime st |}.

(** What was attempted: the status' window grows to the ranges processed. *)
Definition record_ranges (firstTimeRange lastTimeRange : Range) (st : PrometheusMetricsImportStatus)
  : PrometheusMetricsImportStatus :=
  {| LastImportTime := LastImportTime st;
     ImportDataStartTime :=
       match ImportDataStartTime st with
       | Some t => if Before (r_Start firstTimeRange) t then Some (r_Start firstTimeRange) else Some t
       | None => Some (r_Start firstTimeRange)
       end;
     ImportDataEndTime :=
       match ImportDataEndTime st with
       | Some t => if Before t (r_End lastTimeRange) then Some (r_End lastTimeRange) else Some t
       | None => Some (r_End lastTimeRange)
       end;
     EarliestImportedMetricTime := EarliestImportedMetricTime st;
     NewestImportedMetricTime := NewestImportedMetricTime st |}.

(** What was imported; [None] when it is older than everything before. *)
Definition record_metrics (firstMetric lastMetric : PrometheusMetric) (st : PrometheusMetricsImportStatus)
  : option PrometheusMetricsImportStatus :=
  let newest :=
    match NewestImportedMetricTime st with
    | Some t => if After (pm_Timestamp lastMetric) t then Some (pm_Timestamp lastMetric) else Some t
    | None => Some (pm_Timestamp lastMetric)
    end in
  let with_earliest e :=
    {| LastImportTime := LastImportTime st; ImportDataStartTime := ImportDataStartTime st;
       ImportDataEndTime := ImportDataEndTime st; EarliestImportedMetricTime := e;
       NewestImportedMetricTime := newest |} in
  match EarliestImportedMetricTime st with
  | None => Some (with_earliest (Some (pm_Timestamp firstMetric)))
  | Some t => if After t (pm_Timestamp firstMetric) then None else Some (with_earliest (Some t))
  end.

Definition set_ds_status (st : ReportDataSourceStatus) (ds : ReportDataSource) : ReportDataSource :=
  {| ds_Meta := ds_Meta ds; ds_Spec := ds_Spec ds; ds_Status := st |}.
Definition set_ds_TableRef (name : string) (ds : ReportDataSource) : ReportDataSource :=
  set_ds_status {| dst_TableRef := name; dst_ImportStatus := dst_ImportStatus (ds_Status ds) |} ds.
Definition set_ds_ImportStatus (st : PrometheusMetricsImportStatus) (ds : ReportDataSource) : ReportDataSource :=
  set_ds_status {| dst_TableRef := dst_TableRef (ds_Status ds); dst_ImportStatus := Some st |} ds.

Section datasources.
Context {S : Type} `{!Env S, !OperatorState S, !Aws S} (cfg : Operator.Config) {UT : UnicodeTables}
    {MO : MapOrder} {TE : TemplateEngine}.

(** ** Finalizers *)
Definition addReportDataSourceFinalizer : ReportDataSource → M S ReportDataSource :=
  addFinalizer KReportDataSource reportDataSourceFinalizer.
Definition reportDataSourceNeedsFinalizer (ds : ReportDataSource) : bool :=
  needsFinalizer reportDataSourceFinalizer (ds_Meta ds).

(** The object is the cache's own: the finalizer is gone from the cache
    whatever the server answers. *)
Definition removeReportDataSourceFinalizer (ds : ReportDataSource) : M S ReportDataSource :=
  if negb (ContainsString (Finalizers (ds_Meta ds)) reportDataSourceFinalizer None) then mret ds
  else
    let ds := set_meta KReportDataSource (drop_finalizer reportDataSourceFinalizer) ds in
    _ ← read_pure (λ s, (tt, cache_write ds s));
    Update KReportDataSource ds.

(** ** Updates *)

(** [retry.RetryOnConflict]: [steps] attempts, repeated on conflicts. *)
Fixpoint RetryOnConflict {A} (steps : nat) (fn : M S A) : M S A :=
  r ← try fn;
  match r with
  | inl a => mret a
  | inr err =>
      if IsConflict err then
        match steps with
        | O | Datatypes.S O => fail err
        | Datatypes.S n => RetryOnConflict n fn
        end
      else fail err
  end.
Definition DefaultBackoff_Steps : nat := 4.

Definition updateReportDataSource (namespace dsName : string) (updateFunc : ReportDataSource → ReportDataSource)
    : M S ReportDataSource :=
  RetryOnConflict DefaultBackoff_Steps (
    newDS ← Get KReportDataSource namespace dsName;
    Update KReportDataSource (updateFunc newDS)).

(** ** Dependents *)
Definition depends_on_datasource (deps : ReportQueryDependencies) (name : string) : bool :=
  existsb (λ dep, String.eqb (Name (ds_Meta dep)) name) (ReportDataSources deps).

(** The dependencies are those of the query with the data source's own name. *)
Definition queueDependentReportDataSourcesForDataSource (dataSource : ReportDataSource) : M S unit :=
  reportDataSources ← ListerList KReportDataSource (Namespace (ds_Meta dataSource));
  for_each reportDataSources (λ ds,
    match ds_ReportQueryView (ds_Spec ds) with
    | None => mret tt
    | Some view =>
        deps ← map_err (λ err, Errorf "unable to get dependencies for ReportQueryView ReportDataSource %s: %s"
                          [FStr (Name (ds_Meta ds)); FStr (Error err)])
          (getQueryDependencies (Namespace (ds_Meta ds)) (Name (ds_Meta ds)) (rv_Inputs view));
        if depends_on_datasource deps (Name (ds_Meta dataSource)) then enqueueReportDataSource ds else mret tt
    end).

Definition queueDependentReportsForDataSource (dataSource : ReportDataSource) : M S unit :=
  reports ← ListerList KReport (Namespace (ds_Meta dataSource));
  for_each reports (λ report,
    deps ← getReportDependencies report;
    if depends_on_datasource deps (Name (ds_Meta dataSource)) then enqueueReport report else mret tt).

Definition queue_datasource_dependents (dataSource : ReportDataSource) : M S unit :=
  _ ← log_err (queueDependentReportsForDataSource dataSource);
  log_err (queueDependentReportDataSourcesForDataSource dataSource).

(** ** Prometheus data sources *)

(** A new data source: its table is created, and the first import delayed. *)
Definition create_metrics_table (dataSource : ReportDataSource) (p : PrometheusMetricsImporterDataSource)
    : M S unit :=
  let name := Name (ds_Meta dataSource) in let namespace := Namespace (ds_Meta dataSource) in
  let tableName := DataSourceTableName namespace name in
  '(storage, hive) ← storage_database "ReportDataSource" name (pm_Storage p) namespace;
  let '(rowFormat, fileFormat) := default ("", "") (DefaultTableProperties hive) in
  let params :=
    {| hive.p_Database := sl_DatabaseName storage; hive.p_Name := tableName;
       hive.p_Columns := PrometheusMetricHiveTableColumns;
       hive.p_PartitionedBy := PrometheusMetricHivePartitionColumns; hive.p_ClusteredBy := [];
       hive.p_SortedBy := []; hive.p_NumBuckets := 0; hive.p_Location := ""; hive.p_RowFormat := rowFormat;
       hive.p_FileFormat := fileFormat; hive.p_TableProperties := None; hive.p_External := false |} in
  '(hiveTable, _) ← create_and_wait cfg "ReportDataSource" (ds_Meta dataSource) "ReportDataSource" params;
  dataSource ← updateReportDataSource namespace name (set_ds_TableRef (Name (ht_Meta hiveTable)));
  _ ← queue_datasource_dependents dataSource;
  delay ← Jitter (2 * Second);
  enqueueReportDataSourceAfter dataSource delay.

(** The connection a new importer gets. *)
Definition newPromImporter (p : PrometheusMetricsImporterDataSource) (importerCfg : Importer.Config)
    : M S (PrometheusImporter * option string) :=
  match pm_PrometheusURL p with
  | Some url =>
      if String.eqb url "" then mret (NewPrometheusImporter importerCfg, None)
      else
        _ ← read (newPrometheusConnFromURL url);
        mret (NewPrometheusImporter importerCfg, Some url)
  | None => mret (NewPrometheusImporter importerCfg, None)
  end.

(** The importer of a data source, under the lock of [op.importers]. *)
Definition get_importer (name : string) (p : PrometheusMetricsImporterDataSource)
    (importerCfg : Importer.Config) : M S (PrometheusImporter * option string) :=
  found ← read_pure (λ s, (importers name s, s));
  importer ← match found with
             | Some (importer, conn) => mret (UpdateConfig importerCfg importer, conn)
             | None => newPromImporter p importerCfg
             end;
  _ ← read_pure (λ s, (tt, set_importers name importer s));
  mret importer.

(** [importer.ImportFromLastTimestamp], and the importer it leaves. *)
Definition run_import (name : string) (importer : PrometheusImporter * option string)
    : M S PrometheusImportResults :=
  let '(imp, conn) := importer in
  '(imp, (results, err)) ← ImportFromLastTimestamp (Env0 := with_conn conn) imp true;
  _ ← read_pure (λ s, (tt, set_importers name (imp, conn) s));
  match err with
  | Some err => fail (Errorf "ImportFromLastTimestamp errored: %v" [FStr (Error err)])
  | None => ret_out (deref results)
  end.

(** A delay shorter than the usual one when the import is behind. *)
Definition import_delay (importerCfg : Importer.Config) (st : PrometheusMetricsImportStatus)
    (importDelay : Duration) : M S Duration :=
  now ← Now;
  match ImportDataEndTime st with
  | None => panic "invalid memory address or nil pointer dereference"
  | Some end_ =>
      if backlogDetectionDuration (cfg_ChunkSize importerCfg) <? Sub now end_
      then Jitter (5 * Second) else mret importDelay
  end.

(** The metrics of an import are recorded and dependents queued; [None] when
    older data turned up. *)
Definition metrics_status (dataSource : ReportDataSource) (metrics : list PrometheusMetric)
    (st : PrometheusMetricsImportStatus) : M S (option PrometheusMetricsImportStatus) :=
  match metrics with
  | [] => mret (Some st)
  | firstMetric :: _ =>
      match record_metrics firstMetric (List.last metrics firstMetric) st with
      | None => mret None
      | Some st => _ ← queue_datasource_dependents dataSource; mret (Some st)
      end
  end.

(** The status after an import, sent to the server. *)
Definition record_import (dataSource : ReportDataSource) (importerCfg : Importer.Config)
    (importStatus : PrometheusMetricsImportStatus) (results : PrometheusImportResults) (importDelay : Duration)
    : M S (option (ReportDataSource * Duration)) :=
  match ProcessedTimeRanges results with
  | [] => mret (Some (dataSource, importDelay))
  | firstTimeRange :: _ =>
      let importStatus :=
        record_ranges firstTimeRange (List.last (ProcessedTimeRanges results) firstTimeRange) importStatus in
      importDelay ← import_delay importerCfg importStatus importDelay;
      r ← metrics_status dataSource (Metrics results) importStatus;
      match r with
      | None => mret None
      | Some importStatus =>
          r ← try (updateReportDataSource (Namespace (ds_Meta dataSource)) (Name (ds_Meta dataSource))
                     (set_ds_ImportStatus importStatus));
          match r with
          | inl dataSource => mret (Some (dataSource, importDelay))
              (* the message names [dataSource], which the failed update left nil *)
          | inr _ => panic "invalid memory address or nil pointer dereference"
          end
      end
  end.

(** One import of a data source that has its table. *)
Definition import_metrics (dataSource : ReportDataSource) (p : PrometheusMetricsImporterDataSource)
    (prestoTable : PrestoTable) : M S unit :=
  let name := Name (ds_Meta dataSource) in
  _ ← ret_out (FullyQualifiedTableName prestoTable);
  importerCfg ← ret_out (newPromImporterCfg cfg p (pm_Query p) prestoTable);
  importer ← get_importer name p importerCfg;
  now ← Now;
  let importStatus :=
    set_LastImportTime now (default no_import_status (dst_ImportStatus (ds_Status dataSource))) in
  results ← run_import name importer;
  importDelay ← ret_out (getQueryIntervalForReportDataSource cfg p);
  r ← record_import dataSource importerCfg importStatus results importDelay;
  match r with
  | None => mret tt
  | Some (dataSource, importDelay) =>
      _ ← Now;
      enqueueReportDataSourceAfter dataSource importDelay
  end.

Definition handlePrometheusMetricsDataSource (dataSource : ReportDataSource) : M S unit :=
  match ds_PrometheusMetricsImporter (ds_Spec dataSource) with
  | None => fail (Errorf "%s is not a PrometheusMetricsImporter ReportDataSource" [FStr (Name (ds_Meta dataSource))])
  | Some p =>
      let ref := dst_TableRef (ds_Status dataSource) in
      if negb (String.eqb ref "") then
        prestoTable ← existing_table "ReportDataSource" (Name (ds_Meta dataSource)) (Namespace (ds_Meta dataSource)) ref;
        if DisablePrometheusMetricsImporter cfg then mret tt
      else import_metrics dataSource p prestoTable
      else create_metrics_table dataSource p
  end.

(** ** AWS billing *)
Definition partitionUpdateInterval : Duration := 30 * Minute.

(** The Presto table behind a Hive table. *)
Definition mirror_of (hiveTable : HiveTable) : M S PrestoTable :=
  prestoTable ← map_err (λ err, Errorf "unable to get PrestoTable %s for HiveTable %s, %s"
                           [FStr (Name (ht_Meta hiveTable)); FStr (Name (ht_Meta hiveTable)); FStr (Error err)])
    (ListerGet KPrestoTable (Namespace (ht_Meta hiveTable)) (Name (ht_Meta hiveTable)));
  _ ← ret_out (FullyQualifiedTableName prestoTable);
  mret prestoTable.

Definition aws_table (dataSource : ReportDataSource) (databaseName : string) (source : S3Bucket)
    (manifests : list aws.Manifest) : M S (HiveTable * ReportDataSource) :=
  let name := Name (ds_Meta dataSource) in let namespace := Namespace (ds_Meta dataSource) in
  if String.eqb (dst_TableRef (ds_Status dataSource)) "" then
    let tableName := DataSourceTableName namespace name in
    hiveTable ← createAWSUsageHiveTableCR cfg dataSource databaseName tableName (Bucket source) (Prefix source)
      manifests;
    _ ← mirror_of hiveTable;
    dataSource ← updateReportDataSource namespace name (set_ds_TableRef (Name (ht_Meta hiveTable)));
    mret (hiveTable, dataSource)
  else
    let resourceName := TableResourceNameFromKind "ReportDataSource" namespace name in
    r ← try (ListerGet KHiveTable namespace resourceName);
    hiveTable ← match r with
                | inl t => mret t
                | inr err => if IsNotFound err then Get KHiveTable namespace resourceName else fail err
                end;
    _ ← mirror_of hiveTable;
    mret (hiveTable, dataSource).

Definition handleAWSBillingDataSource (dataSource : ReportDataSource) : M S unit :=
  billing ← ret_out (deref (ds_AWSBilling (ds_Spec dataSource)));
  match aws_Source billing with
  | None => fail (Errorf "ReportDataSource %q: improperly configured datasource, source is empty"
                    [FStr (Name (ds_Meta dataSource))])
  | Some source =>
      manifests ← RetrieveManifests (Bucket source) (Prefix source);
      match manifests with
      | [] => mret tt
      | _ =>
          '(hiveTable, dataSource) ← aws_table dataSource (aws_DatabaseName billing) source manifests;
          _ ← map_err (λ err, Errorf "error updating AWS billing partitions for ReportDataSource %s: %v"
                         [FStr (Name (ds_Meta dataSource)); FStr (Error err)])
            (updateAWSBillingPartitions source hiveTable manifests);
          _ ← Now;
          _ ← enqueueReportDataSourceAfter dataSource partitionUpdateInterval;
          queue_datasource_dependents dataSource
      end
  end.

(** ** Presto tables *)
Definition handlePrestoTableDataSource (dataSource : ReportDataSource) : M S unit :=
  let name := Name (ds_Meta dataSource) in let namespace := Namespace (ds_Meta dataSource) in
  match ds_PrestoTable (ds_Spec dataSource) with
  | None => fail (Errorf "%s is not a PrestoTable ReportDataSource" [FStr name])
  | Some tableRef =>
      if String.eqb tableRef "" then
        fail (Errorf "invalid PrestoTable ReportDataSource %s, spec.prestoTable.tableRef.name must be set" [FStr name])
      else
        let ref := dst_TableRef (ds_Status dataSource) in
        if negb (String.eqb ref "") then
          _ ← existing_table "ReportDataSource" name namespace ref;
          mret tt
        else
          prestoTable ← map_err (λ err, Errorf "error creating table for ReportDataSource %s: %s"
                                   [FStr name; FStr (Error err)])
            (waitForPrestoTable namespace tableRef);
          _ ← updateReportDataSource namespace name (set_ds_TableRef (Name (pt_Meta prestoTable)));
          mret tt
  end.

(** ** Views of queries *)

(** The dependencies of the query, with its defaults for inputs; [None] when
    there is nothing to do until they change. *)
Definition view_dependencies (query : ReportQuery)
    : M S (option (ReportQueryDependencies * gmap string InputValue)) :=
  dependencyResult ← ResolveDependencies listerResolver (Namespace (q_Meta query)) (qs_Inputs (q_Spec query)) [];
  r ← try (ValidateQueryDependencies (fst dependencyResult) uninitialiedDependendenciesHandler);
  match r with
  | inl _ => mret (Some dependencyResult)
  | inr err =>
      if IsUninitializedDependencyError err then mret None
      else if IsInvalidDependencyError err then mret None
      else fail (Errorf "unable to get or validate ReportQuery dependencies %s: %v"
                   [FStr (Name (q_Meta query)); FStr (Error err)])
  end.

Definition create_view (dataSource : ReportDataSource) (query : ReportQuery) (viewName : string)
    (deps : ReportQueryDependencies) (inputs : gmap string InputValue) : M S ReportDataSource :=
  let name := Name (ds_Meta dataSource) in let namespace := Namespace (ds_Meta dataSource) in
  '(storage, hive) ← storage_database "ReportDataSource" name None namespace;
  prestoTables ← ListerList KPrestoTable namespace;
  let queryCtx :=
    {| tc_Namespace := namespace; tc_Query := qs_Query (q_Spec query);
       RequiredInputs := ConvertInputDefinitionsIntoInputList (qs_Inputs (q_Spec query));
       tc_Reports := Deps.Reports deps; tc_ReportQueries := ReportQueries deps;
       tc_ReportDataSources := ReportDataSources deps; tc_PrestoTables := prestoTables |} in
  renderedQuery ← ret_out (RenderQuery queryCtx {| ReportingStart := None; ReportingEnd := None; Inputs := inputs |});
  let columns := GeneratePrestoColumns query in
  prestoTable ← map_err (λ err, Errorf "error creating view %s for ReportDataSource %s: %v"
                           [FStr viewName; FStr name; FStr (Error err)])
    (createPrestoTableCR cfg (ds_Meta dataSource) "ReportDataSource" "hive" (sl_DatabaseName storage)
         viewName columns false true renderedQuery);
  prestoTable ← map_err (λ err, Errorf "error creating table for ReportDataSource %s: %s"
                           [FStr name; FStr (Error err)])
    (waitForPrestoTable (Namespace (pt_Meta prestoTable)) (Name (pt_Meta prestoTable)));
  updateReportDataSource namespace name (set_ds_TableRef (Name (pt_Meta prestoTable))).

Definition handleReportQueryViewDataSource (dataSource : ReportDataSource) : M S unit :=
  let name := Name (ds_Meta dataSource) in let namespace := Namespace (ds_Meta dataSource) in
  match ds_ReportQueryView (ds_Spec dataSource) with
  | None => fail (Errorf "%s is not a ReportQueryView ReportDataSource" [FStr name])
  | Some view =>
      if String.eqb (rv_QueryName view) "" then
        fail (Errorf "invalid ReportQueryView ReportDataSource %s, spec.reportQueryView.queryName must be set" [FStr name])
      else
        query ← map_err (λ err, Errorf "unable to get ReportQuery %s for ReportQueryView ReportDataSource %s: %s"
                           [FStr (rv_QueryName view); FStr name; FStr (Error err)])
          (ListerGet KReportQuery namespace (rv_QueryName view));
        let ref := dst_TableRef (ds_Status dataSource) in
        let createView := String.eqb ref "" in
        viewName ← (if createView then mret (DataSourceTableName namespace name)
                    else prestoTable ← existing_table "ReportDataSource" name namespace ref;
                    ret_out (FullyQualifiedTableName prestoTable));
        r ← view_dependencies query;
        match r with
        | None => mret tt
        | Some (deps, inputs) =>
            dataSource ← (if createView then create_view dataSource query viewName deps inputs else mret dataSource);
            queue_datasource_dependents dataSource
        end
  end.

(** ** The controller *)
Definition handleReportDataSource (dataSource : ReportDataSource) : M S unit :=
  dataSource ← ensureFinalizer cfg KReportDataSource reportDataSourceFinalizer dataSource;
  let spec := ds_Spec dataSource in
  match ds_PrometheusMetricsImporter spec, ds_AWSBilling spec, ds_PrestoTable spec, ds_ReportQueryView spec with
  | Some _, _, _, _ => handlePrometheusMetricsDataSource dataSource
  | None, Some _, _, _ => handleAWSBillingDataSource dataSource
  | None, None, Some _, _ => handlePrestoTableDataSource dataSource
  | None, None, None, Some _ => handleReportQueryViewDataSource dataSource
  | None, None, None, None =>
      fail (Errorf "ReportDataSource %s: improperly configured missing prometheusMetricsImporter, awsBilling, reportQueryView or prestoTable configuration"
              [FStr (Name (ds_Meta dataSource))])
  end.

Definition syncReportDataSource (key : string) : M S unit :=
  syncResource KReportDataSource key (λ ds,
    match DeletionTimestamp (ds_Meta ds) with
    | Some _ => _ ← removeReportDataSourceFinalizer ds; mret tt
    | None => handleReportDataSource ds
    end).

(** ** Queries *)
Definition queueDependentReportDataSourcesForQuery (query : ReportQuery) : M S unit :=
  reportDataSources ← List KReportDataSource (Namespace (q_Meta query));
  for_each reportDataSources (λ ds,
    match ds_ReportQueryView (ds_Spec ds) with
    | Some view =>
        if String.eqb (rv_QueryName view) (Name (q_Meta query)) then enqueueReportDataSource ds else mret tt
    | None => mret tt
    end).
Definition handleReportQuery (query : ReportQuery) : M S unit := queueDependentReportDataSourcesForQuery query.
Definition syncReportQuery (key : string) : M S unit := syncResource KReportQuery key handleReportQuery.
End datasources.
