(* ===== verification/ImportRuns.v ===== *)
(** * What a sync of a data source does (theorems about DataSources.v) *)

From S2P Require Export DataSources ReportRuns.
Open Scope Z_scope.

(** ** Import configuration *)

(** C35: chunk and step size of an import are whole seconds and the configured
    number of queries fits the longest query range; but a chunk size below
    one second crashes the operator, and a chunk size beyond the longest
    range yields zero, which the import takes as no limit at all. *)
Theorem newPromImporterCfg_spec cfg p query pt chunk step :
  ChunkSize (cfg_QueryConfig cfg) = Some chunk → StepSize (cfg_QueryConfig cfg) = Some step →
  let chunk := default chunk (c ← pm_QueryConfig p; ChunkSize c) in
  let step := default step (c ← pm_QueryConfig p; StepSize c) in
  let max := PrometheusDataSourceMaxQueryRangeDuration cfg in
  0 ≤ chunk → 0 ≤ max ≤ int64_max →
  (chunk < Second → newPromImporterCfg cfg p query pt = Panic "runtime error: integer divide by zero") ∧
  (∀ c, newPromImporterCfg cfg p query pt = Ok c →
     cfg_ChunkSize c = chunk - chunk mod Second ∧ cfg_StepSize c = DurTruncate step Second ∧
     0 < cfg_ChunkSize c ∧ cfg_MaxTimeRanges c * cfg_ChunkSize c ≤ max < (cfg_MaxTimeRanges c + 1) * cfg_ChunkSize c ∧
     (cfg_MaxTimeRanges c = 0 ↔ max < cfg_ChunkSize c)).
Proof.
  intros Hc Hs ch st mx Hch Hmx. unfold newPromImporterCfg. rewrite Hc, Hs. simpl. fold ch st mx. clearbody ch st mx.
  assert (DurTruncate ch Second = ch - ch mod Second) as ->.
  { unfold DurTruncate. simpl. rewrite Z.rem_mod_nonneg by (unfold Second, Millisecond; lia). done. }
  assert (0 < Second) as Hsec by (unfold Second, Millisecond; lia).
  pose proof (Z.mod_pos_bound ch Second Hsec). pose proof (Z.div_mod ch Second ltac:(lia)) as Hdm.
  split.
  - intros Hlt. rewrite Z.mod_small by lia. by rewrite Z.sub_diag.
  - intros c. destruct (ch - ch mod Second =? 0) eqn:E; [done|]. apply Z.eqb_neq in E.
    destruct (FullyQualifiedTableName pt) as [n|e|e]; simpl; intros; simplify_eq. simpl.
    set (k := ch - ch mod Second) in *. assert (0 < k) as Hk by (subst k; pose proof (Z.mod_le ch Second ltac:(lia) Hsec); lia).
    rewrite Z.quot_div_nonneg by lia.
    assert (0 ≤ mx / k ≤ mx) as Hq.
    { split; [apply Z.div_pos; lia|]. apply Z.div_le_upper_bound; nia. }
    rewrite int64_id by (unfold int64_min, int64_max in *; lia).
    pose proof (Z.div_mod mx k ltac:(lia)). pose proof (Z.mod_pos_bound mx k Hk).
    split_and!; [done|done|done|nia|nia|]. rewrite Z.div_small_iff by lia. lia.
Qed.

(** ** The import status only grows *)
Definition opt_le (a b : option Time) : Prop :=
  match a with Some x => ∃ y, b = Some y ∧ x ≤ y | None => True end.
Definition opt_ge (a b : option Time) : Prop :=
  match a with Some x => ∃ y, b = Some y ∧ y ≤ x | None => True end.

Record widens (old new : PrometheusMetricsImportStatus) : Prop := {
  w_start : opt_ge (ImportDataStartTime old) (ImportDataStartTime new);
  w_end : opt_le (ImportDataEndTime old) (ImportDataEndTime new);
  w_earliest : ∀ t, EarliestImportedMetricTime old = Some t → EarliestImportedMetricTime new = Some t;
  w_newest : opt_le (NewestImportedMetricTime old) (NewestImportedMetricTime new);
}.

Lemma opt_le_refl a : opt_le a a.
Proof. destruct a; simpl; eauto with lia. Qed.
Lemma opt_ge_refl a : opt_ge a a.
Proof. destruct a; simpl; eauto with lia. Qed.

Lemma widens_ranges r1 r2 now st : widens st (record_ranges r1 r2 (set_LastImportTime now st)).
Proof.
  split; simpl; [| |done|apply opt_le_refl].
  - destruct (ImportDataStartTime st); simpl; [|done]. unfold Before. case_match; eauto with lia.
  - destruct (ImportDataEndTime st); simpl; [|done]. unfold Before. case_match; eauto with lia.
Qed.

Lemma widens_metrics m1 m2 st st1 st2 :
  widens st st1 → record_metrics m1 m2 st1 = Some st2 → widens st st2.
Proof.
  intros [Hs He Hea Hn]. unfold record_metrics, After.
  destruct (EarliestImportedMetricTime st1) as [t|] eqn:E1; [destruct (_ <? t); [done|]|];
    intros; simplify_eq; split; simpl; try done.
  2: intros t Ht; by specialize (Hea t Ht).
  all: destruct (NewestImportedMetricTime st) as [n|]; simpl in *; [|done];
    destruct Hn as (n' & Hn' & Hle); rewrite Hn'; case_match; eauto with lia.
Qed.

Section runs.
Context {S : Type} `{!Env S, !OperatorState S, !Aws S} (cfg : Operator.Config) {UT : UnicodeTables}
    {MO : MapOrder} {TE : TemplateEngine}.

(** Effects that are no updates. *)
Definition no_update (e : event) : Prop := match ev_action e with AUpdate _ _ => False | _ => True end.

Lemma aside_no_update e : aside e → no_update e.
Proof. unfold aside, no_update. destruct (ev_action e); done. Qed.

Lemma emits_aside {A} (m : M S A) : emits aside m → emits no_update m.
Proof. apply emits_weaken, aside_no_update. Qed.

(** Effects of an import. *)
Definition importing (e : event) : Prop :=
  match ev_action e with APromQuery _ _ | AStoreMetrics _ _ | ACounter _ _ => True | _ => False end.
Lemma importing_no_update e : importing e → no_update e.
Proof. unfold importing, no_update. destruct (ev_action e); done. Qed.

Lemma emits_ImportFromTimeRange (E : Env S) startTime endTime icfg inc :
  emits importing (ImportFromTimeRange (S := S) startTime endTime icfg inc).
Proof.
  assert (∀ l res, emits importing (import_ranges (S := S) icfg l res)) as Hloop.
  { intros l. induction l as [|r l IH]; intros res; simpl; unfold cancelled; [emits_tac|].
    unfold store_range, exec. emits_tac; try apply IH. }
  unfold ImportFromTimeRange. emits_tac; apply Hloop.
Qed.

Lemma emits_ImportFromLastTimestamp (E : Env S) imp inc :
  emits importing (ImportFromLastTimestamp (S := S) imp inc).
Proof. unfold ImportFromLastTimestamp. emits_tac; apply emits_ImportFromTimeRange. Qed.

Lemma emits_queue_datasource_dependents ds : emits aside (queue_datasource_dependents (S := S) ds).
Proof.
  unfold queue_datasource_dependents, queueDependentReportsForDataSource,
    queueDependentReportDataSourcesForDataSource, getReportDependencies; unfold_enqueue.
  emits_tac; apply emits_getQueryDependencies.
Qed.

Lemma emits_get_importer P name p icfg : emits P (get_importer (S := S) name p icfg).
Proof. unfold get_importer, newPromImporter. emits_tac. Qed.
Lemma emits_run_import name i : emits importing (run_import (S := S) name i).
Proof. unfold run_import. destruct i as [imp conn]. emits_tac. apply emits_ImportFromLastTimestamp. Qed.
Lemma emits_import_delay P icfg st d : emits P (import_delay (S := S) icfg st d).
Proof. unfold import_delay. emits_tac. Qed.
Lemma emits_metrics_status ds ms st : emits aside (metrics_status (S := S) ds ms st).
Proof. unfold metrics_status. emits_tac. apply emits_queue_datasource_dependents. Qed.

(** The only updates of [m] are those of a data source, which satisfy [P]. *)
Definition updates_only (P : ReportDataSource → Prop) (e : event) : Prop :=
  match ev_action e with AUpdate KReportDataSource ds => P ds | AUpdate _ _ => False | _ => True end.

Lemma no_update_only P e : no_update e → updates_only P e.
Proof. unfold no_update, updates_only. destruct (ev_action e); done. Qed.
Lemma emits_only P {A} (m : M S A) : emits no_update m → emits (updates_only P) m.
Proof. apply emits_weaken, no_update_only. Qed.
Lemma emits_only_aside P {A} (m : M S A) : emits aside m → emits (updates_only P) m.
Proof. intros. by apply emits_only, emits_aside. Qed.

Lemma emits_RetryOnConflict P {A} n (fn : M S A) : emits P fn → emits P (RetryOnConflict n fn).
Proof. intros H. induction n as [|n IH]; simpl; emits_tac. Qed.

Lemma emits_updateReportDataSource (P : ReportDataSource → Prop) ns name f :
  (∀ ds, P (f ds)) → emits (updates_only P) (updateReportDataSource (S := S) ns name f).
Proof. intros H. unfold updateReportDataSource. apply emits_RetryOnConflict. emits_tac. apply H. Qed.

(** *** One import *)
Definition key_of (ds : ReportDataSource) : string * string := (Namespace (ds_Meta ds), Name (ds_Meta ds)).

(** The server keeps an object's name. *)
Class NamesKept : Prop := {
  get_key ns n s ds s' : client_get KReportDataSource ns n s = (Ok ds, s') → key_of ds = (ns, n);
  update_key ds s ds' s' : client_update KReportDataSource ds s = (Ok ds', s') → key_of ds' = key_of ds;
}.

Lemma returns_updateReportDataSource {NK : NamesKept} ns name f :
  (∀ ds, key_of (f ds) = key_of ds) →
  returns (λ ds, key_of ds = (ns, name)) (updateReportDataSource (S := S) ns name f).
Proof.
  intros Hf. unfold updateReportDataSource. generalize DefaultBackoff_Steps. intros n.
  assert (returns (λ ds, key_of ds = (ns, name))
            (newDS ← Get KReportDataSource ns name; Update KReportDataSource (f newDS) : M S ReportDataSource)) as Hone.
  { eapply returns_bind with (P := λ ds, key_of ds = (ns, name)).
    - intros w a w' [_ Hg]%read_trace. by eapply get_key.
    - intros ds Hds w a w' [_ Hu]%effect_trace. apply update_key in Hu. by rewrite Hu, Hf. }
  induction n as [|n IH]; simpl; intros w a w' (r & w1 & Hr & Hrest)%bind_Ok_inv; apply try_inv in Hr;
    (destruct r as [x|e]; [apply ret_inv in Hrest as [[= ->] ->]; by eapply Hone|]);
    destruct (IsConflict e); try done. destruct n; [done|]. by eapply IH.
Qed.

(** The data an import found is older than what was imported before. *)
Definition older_data (ds : ReportDataSource) (w w' : world S) : Prop :=
  ∃ i w1 w2 results m rest st t,
    run_import (Name (ds_Meta ds)) i w1 = (Ok results, w2) ∧ Metrics results = m :: rest ∧
  dst_ImportStatus (ds_Status ds) = Some st ∧ EarliestImportedMetricTime st = Some t ∧ pm_Timestamp m < t ∧
  trace w1 = trace w ∧ trace w' = trace w2.

Definition requeued (ds : ReportDataSource) (tr : list event) : Prop :=
  ∃ tr0 d, tr = tr0 ++ [Ev (AEnqueueAfter KReportDataSource (MetaNamespaceKey (ds_Meta ds)) d) true].

Lemma same_key ds ds' : key_of ds' = key_of ds → MetaNamespaceKey (ds_Meta ds') = MetaNamespaceKey (ds_Meta ds).
Proof. unfold key_of, MetaNamespaceKey. by intros [= -> ->]. Qed.

(** The updates of an import. *)
Lemma returns_metrics_status (old : PrometheusMetricsImportStatus) ds ms st :
  widens old st →
  returns (λ r, ∀ st2, r = Some st2 → widens old st2) (metrics_status (S := S) ds ms st).
Proof.
  intros Hw. unfold metrics_status. destruct ms as [|m ms]; [apply returns_ret; by intros ? [= <-]|].
  destruct (record_metrics _ _ st) as [st2|] eqn:E; [|by apply returns_ret].
  eapply returns_bind; [apply returns_any|]. intros ? _. apply returns_ret. intros ? [= <-].
  by eapply widens_metrics.
Qed.

Lemma emits_record_import (P : ReportDataSource → Prop) ds icfg old now results d :
  (∀ st newDS, widens old st → P (set_ds_ImportStatus st newDS)) →
  emits (updates_only P) (record_import (S := S) ds icfg (set_LastImportTime now old) results d).
Proof.
  intros HP. unfold record_import. destruct (ProcessedTimeRanges results) as [|r0 l0]; [emits_tac|].
  apply emits_bind; [apply emits_import_delay|intros delay].
  eapply (emits_performs _ (λ _, True)), (performs_bind _ (λ r, ∀ st2, r = Some st2 → widens old st2)).
  - apply performs_emits; [apply emits_only_aside, emits_metrics_status|].
    apply returns_metrics_status, widens_ranges.
  - intros r Hr. apply performs_any. destruct r as [st2|]; [|emits_tac].
    apply emits_bind; [apply emits_try, emits_updateReportDataSource|intros; emits_tac].
    intros newDS. by apply HP, Hr.
Qed.

(** How a computation that neither updates nor succeeds ends. *)
Definition fails_quietly {A} (o : outcome A) (w w' : world S) : Prop :=
  match o with
  | Err _ => ∃ tr, trace w' = trace w ++ tr ∧ Forall no_update tr
  | _ => True
  end.

Lemma emits_quietly {A B} (m : M S A) (w w' : world S) o (o' : outcome B) :
  emits no_update m → m w = (o, w') → fails_quietly o' w w'.
Proof. intros H E. destruct o'; try done. specialize (H w). by rewrite E in H. Qed.

Lemma fails_quietly_trans {A} (o : outcome A) (w w1 w' : world S) tr :
  trace w1 = trace w ++ tr → Forall no_update tr → fails_quietly o w1 w' → fails_quietly o w w'.
Proof.
  intros H1 Htr. destruct o; simpl; try done. intros (tr' & H2 & Htr'). exists (tr ++ tr').
  rewrite H2, H1, app_assoc. split; [done|by apply Forall_app].
Qed.

(** An error comes before any update. *)
Definition quiet {A} (m : M S A) : Prop := ∀ w o w', m w = (o, w') → fails_quietly o w w'.

Lemma quiet_emits {A} (m : M S A) : emits no_update m → quiet m.
Proof. intros H w o w' E. by eapply emits_quietly. Qed.
Lemma quiet_bind {A B} (m : M S A) (f : A → M S B) :
  emits no_update m → (∀ a, quiet (f a)) → quiet (x ← m; f x).
Proof.
  intros Hm Hf w o w'. rewrite bind_run. destruct (m w) as [[a|e|p] w1] eqn:E; intros H.
  - specialize (Hm w) as (tr & Htr & Hall). rewrite E in Htr. by eapply fails_quietly_trans, Hf.
  - simplify_eq. by eapply (emits_quietly m).
  - by simplify_eq.
Qed.
(** Updates may precede a part that cannot fail. *)
Lemma quiet_bind_last {A B} (m : M S A) (f : A → M S B) :
  quiet m → (∀ a w e, (f a w).1 ≠ Err e) → quiet (x ← m; f x).
Proof.
  intros Hm Hf w o w'. rewrite bind_run. destruct (m w) as [[a|e|p] w1] eqn:E; intros H.
  - destruct o as [|e|]; try done. destruct (Hf a w1 e). by rewrite H.
  - simplify_eq. by apply (Hm w _ _ E).
  - by simplify_eq.
Qed.

Lemma record_import_run {NK : NamesKept} ds icfg st results d w o w' :
  record_import ds icfg st results d w = (o, w') →
  match o with
  | Ok (Some (ds', _)) => key_of ds' = key_of ds
  | Ok None => trace w' = trace w ∧ ∃ m rest t, Metrics results = m :: rest ∧
      EarliestImportedMetricTime st = Some t ∧ pm_Timestamp m < t
  | _ => fails_quietly o w w'
  end.
Proof.
  unfold record_import. destruct (ProcessedTimeRanges results) as [|r l].
  { by intros [-> ->]%ret_inv. }
  cbv zeta. set (st1 := record_ranges _ _ _). intros H.
  apply bind_cases in H as [(d1 & w1 & H1 & H)|(o1 & H1 & _ & Ho)].
  2: { destruct o; try done. by eapply emits_quietly; [apply emits_import_delay|]. }
  pose proof (emits_import_delay (λ _, False) icfg st1 d w) as (tr1 & Htr1 & Hnil). rewrite H1 in Htr1.
  assert (tr1 = []) as -> by (destruct Hnil; done). rewrite app_nil_r in Htr1. simpl in Htr1.
  apply bind_cases in H as [(r1 & w2 & H2 & H)|(o1 & H2 & _ & Ho)].
  2: { destruct o as [|e|]; try done. apply (fails_quietly_trans _ w w1 w' []); [by rewrite app_nil_r|constructor|].
       by eapply emits_quietly; [eapply emits_weaken, emits_metrics_status; apply aside_no_update|]. }
  destruct r1 as [st2|].
  2: { apply ret_inv in H as [-> ->]. unfold metrics_status in H2. destruct (Metrics results) as [|m ms] eqn:Em.
       { by apply ret_inv in H2 as [? ?]. }
       destruct (record_metrics m _ st1) eqn:Er.
       { apply bind_Ok_inv in H2 as (? & ? & _ & H2). by apply ret_inv in H2 as [? ?]. }
       apply ret_inv in H2 as [_ ->]. split; [done|]. unfold record_metrics in Er. simpl in Er.
       destruct (EarliestImportedMetricTime st) as [t|] eqn:Ee; [|done].
       destruct (After t _) eqn:Ea; [|done]. exists m, ms, t. unfold After in Ea. split_and!; [done..|lia]. }
  rewrite bind_run in H. unfold try in H.
  destruct (updateReportDataSource _ _ _ w2) as [[ds'|e|p] w3] eqn:H3.
  - apply ret_inv in H as [-> ->]. by eapply returns_updateReportDataSource in H3.
  - unfold panic in H. by simplify_eq.
  - by simplify_eq.
Qed.

Lemma import_metrics_quiet {NK : NamesKept} ds p pt : quiet (import_metrics cfg ds p pt).
Proof.
  unfold import_metrics. cbv zeta.
  apply quiet_bind; [apply emits_ret_out|intros tbl]. apply quiet_bind; [apply emits_ret_out|intros icfg].
  apply quiet_bind; [apply emits_get_importer|intros i]. apply quiet_bind; [apply emits_read_pure|intros now].
  apply quiet_bind; [eapply emits_weaken, emits_run_import; apply importing_no_update|intros results].
  apply quiet_bind; [apply emits_ret_out|intros delay]. apply quiet_bind_last.
  - intros w o w' H%record_import_run. by destruct o as [[[]|]| |].
  - intros [[ds' d]|] w e; [|done]. rewrite bind_run. unfold Now, read_pure.
    by destruct (clock_now (env w)).
Qed.

(** A computation without effects. *)
Lemma emits_none {A} (m : M S A) w o w' : emits (λ _, False) m → m w = (o, w') → trace w' = trace w.
Proof.
  intros H E. destruct (H w) as (tr & Htr & Hnil). rewrite E in Htr. simpl in Htr.
  destruct Hnil; [by rewrite app_nil_r in Htr|done].
Qed.

Lemma import_metrics_Ok {NK : NamesKept} ds p pt w w' :
  import_metrics cfg ds p pt w = (Ok tt, w') →
  (∃ tr, trace w' = trace w ++ tr ∧ requeued ds tr) ∨ older_data ds w w'.
Proof.
  unfold import_metrics. cbv zeta.
  intros (tbl & w1 & H1 & (icfg & w2 & H2 & (i & w3 & H3 & (now & w4 & H4 & (results & w5 & H5 &
                                                                             (delay & w6 & H6 & (r & w7 & H7 & H)%bind_Ok_inv)%bind_Ok_inv)%bind_Ok_inv)%bind_Ok_inv)
                             %bind_Ok_inv)%bind_Ok_inv)%bind_Ok_inv.
  assert (trace w4 = trace w) as Htr.
  { apply (emits_none _ _ _ _ (emits_ret_out _ _)) in H1, H2. apply (emits_none _ _ _ _ (emits_get_importer _ _ _ _)) in H3.
    apply (emits_none _ _ _ _ (emits_read_pure _ _)) in H4. congruence. }
  apply (emits_none _ _ _ _ (emits_ret_out _ _)) in H6.
  pose proof H7 as Hrec. apply record_import_run in H7. destruct r as [[ds' d]|].
  - left. apply bind_Ok_inv in H as (now' & w8 & Hnow & H).
    apply (emits_none _ _ _ _ (emits_read_pure _ _)) in Hnow. apply emit_inv in H as [_ ->]. simpl.
    assert (∃ tr, trace w7 = trace w ++ tr) as [tr Htr7].
    { destruct (emits_run_import (Name (ds_Meta ds)) i w4) as (t1 & Ht1 & _). rewrite H5 in Ht1.
      destruct (emits_record_import (λ _, True) ds icfg
                  (default no_import_status (dst_ImportStatus (ds_Status ds))) now results delay (λ _ _ _, I) w6) as (t2 & Ht2 & _).
      rewrite Hrec in Ht2. simpl in *. exists (t1 ++ t2). rewrite Ht2, H6, Ht1, Htr. by rewrite app_assoc. }
    exists (tr ++ [Ev (AEnqueueAfter KReportDataSource (MetaNamespaceKey (ds_Meta ds')) d) true]).
    rewrite Hnow, Htr7, app_assoc. split; [done|]. exists tr, d. by rewrite (same_key ds ds').
  - right. apply ret_inv in H as [_ ->]. destruct H7 as (Ht & m & rest & t & Hm & He & Hlt).
    destruct (dst_ImportStatus (ds_Status ds)) as [st|] eqn:Est; [|done].
    exists i, w4, w5, results, m, rest, st, t. split_and!; try done. by rewrite Ht, H6.
Qed.

Lemma emits_create_metrics_table (P : ReportDataSource → Prop) ds p :
  (∀ n newDS, P (set_ds_TableRef n newDS)) →
  emits (updates_only P) (create_metrics_table (S := S) cfg ds p).
Proof.
  intros HP. unfold create_metrics_table. cbv zeta.
  apply emits_bind; [apply emits_storage_database|]. intros [storage hive].
  destruct (default _ _) as [rf ff]. apply emits_bind; [apply emits_only_aside, emits_create_and_wait|].
  intros [ht pt]. apply emits_bind; [apply emits_updateReportDataSource; by intros|]. intros ds'.
  apply emits_bind; [apply emits_only_aside, emits_queue_datasource_dependents|]. intros [].
  unfold_enqueue. emits_tac.
Qed.

(** *** Theorems *)


(** C22: imports keep going: unless importing is disabled, every sync of a
    Prometheus data source that succeeds ends by queueing the same data source
    again after a delay; with one exception: when the import found data older
    than what was imported before, the sync succeeds with nothing queued and
    nothing recorded, and imports stop until something else queues the data
    source. *)
Theorem imports_keep_going {NK : NamesKept} ds p w w' :
  ds_PrometheusMetricsImporter (ds_Spec ds) = Some p → DisablePrometheusMetricsImporter cfg = false →
  handlePrometheusMetricsDataSource cfg ds w = (Ok tt, w') →
  (∃ tr, trace w' = trace w ++ tr ∧ requeued ds tr) ∨ older_data ds w w'.
Proof.
  unfold handlePrometheusMetricsDataSource. intros -> Hdis. rewrite Hdis. cbv zeta. destruct (negb _).
  - intros (pt & w1 & H1 & H)%bind_Ok_inv.
    apply (emits_none _ _ _ _ (emits_existing_table _ _ _ _ _)) in H1.
    apply import_metrics_Ok in H as [(tr & Htr & Hre)|Hold].
    + left. exists tr. by rewrite Htr, H1.
    + right. destruct Hold as (i & w2 & w3 & results & m & rest & st & t & Hr & Hm & Hst & He & Hlt & Ht & Ht').
      exists i, w2, w3, results, m, rest, st, t. split_and!; try done. congruence.
  - intros H. left. unfold create_metrics_table in H. cbv zeta in H.
    apply bind_Ok_inv in H as ([storage hive] & w1 & H1 & H). destruct (default _ _) as [rf ff].
    apply bind_Ok_inv in H as ([ht pt] & w2 & H2 & H). apply bind_Ok_inv in H as (ds' & w3 & H3 & H).
    apply bind_Ok_inv in H as ([] & w4 & H4 & H). apply bind_Ok_inv in H as (d & w5 & H5 & H).
    pose proof (emits_storage_database (λ _, True) "ReportDataSource" (Name (ds_Meta ds)) (pm_Storage p)
                  (Namespace (ds_Meta ds)) w) as (t1 & Ht1 & _). rewrite H1 in Ht1.
    match type of H2 with create_and_wait ?c ?a ?b ?k ?q _ = _ =>
        destruct (emits_create_and_wait c a b k q w1) as (t2 & Ht2 & _) end. rewrite H2 in Ht2.
    match type of H3 with updateReportDataSource ?a ?b ?f _ = _ =>
        destruct (emits_updateReportDataSource (λ _, True) a b f (λ _, I) w2) as (t3 & Ht3 & _) end. rewrite H3 in Ht3.
    destruct (emits_queue_datasource_dependents ds' w3) as (t4 & Ht4 & _). rewrite H4 in Ht4.
    apply (emits_none _ _ _ _ (emits_read_pure _ _)) in H5. apply emit_inv in H as [_ ->]. simpl in *.
    eapply returns_updateReportDataSource in H3; [|done].
    eexists. rewrite H5, Ht4, Ht3, Ht2, Ht1, <- !app_assoc. split; [done|].
    eexists (t1 ++ t2 ++ t3 ++ t4), d. rewrite <- !app_assoc. by rewrite (same_key ds ds').
Qed.

(** a failed status update is fatal: if the last effect of an import is an
    update of the data source that the server refused, the operator
    crashes, because the error message is built from the object the failed
    update did not return. *)
Theorem failed_status_update_panics {NK : NamesKept} ds p pt w o w' tr ds' :
  import_metrics cfg ds p pt w = (o, w') →
  trace w' = trace w ++ tr ++ [Ev (AUpdate KReportDataSource ds') false] → ∃ msg, o = Panic msg.
Proof.
  intros H Htr. pose proof (import_metrics_quiet ds p pt w o w' H) as Hq.
  destruct o as [[]|e|msg]; [| |by eauto]; exfalso.
  - apply import_metrics_Ok in H as [(tr' & Htr' & tr0 & d & ->)|Hold].
    + rewrite Htr, app_assoc in Htr'. rewrite <- app_assoc in Htr'. apply app_inv_head in Htr'.
      by apply app_inj_tail in Htr' as [_ ?].
    + destruct Hold as (i & w1 & w2 & results & m & rest & st & t & Hr & _ & _ & _ & _ & Ht & Ht').
      destruct (emits_run_import (Name (ds_Meta ds)) i w1) as (tr1 & Htr1 & Hall). rewrite Hr in Htr1.
      simpl in Htr1. rewrite <- Ht', Ht, Htr in Htr1. apply app_inv_head in Htr1 as <-.
      apply Forall_app in Hall as [_ Hall]. by inversion Hall.
  - destruct Hq as (tr' & Htr' & Hall). rewrite Htr in Htr'. apply app_inv_head in Htr' as <-.
    apply Forall_app in Hall as [_ Hall]. by inversion Hall.
Qed.

(** *** Shared importers *)
Class LawfulImporters : Prop :=
  importers_set name i s : importers name (set_importers name i s) = Some i.

Lemma ImportFromLastTimestamp_last (E : Env S) imp inc w imp' results w' r :
  ImportFromLastTimestamp (S := S) imp inc w = (Ok (imp', (Some results, None)), w') →
  last (ProcessedTimeRanges results) = Some r → lastTimestamp imp' = Some (r_End r).
Proof.
  unfold ImportFromLastTimestamp. cbv zeta. intros (now & w1 & _ & H)%bind_Ok_inv Hr.
  apply bind_Ok_inv in H as (l & w2 & _ & H). destruct l as [l|e]; [|by apply ret_inv in H as [? ?]].
  destruct (import_window _ _ _) as [[a b]|].
  - apply bind_Ok_inv in H as ([res err] & w3 & _ & H). destruct err; apply ret_inv in H as [? ?]; [done|].
    simplify_eq. simpl. by rewrite Hr.
  - apply ret_inv in H as [? ?]. by simplify_eq.
Qed.

(** importers are shared by name: after an import of one data source, every
    data source of the same name, in whatever namespace, gets the same
    importer: its Prometheus connection, although it may name another URL,
    and its position, so that its next import begins after the other's last
    range and its own table is never asked how far it is. *)
Theorem importers_shared {LI : LawfulImporters} ds1 ds2 p2 c2 i w1 results w2 r :
  Name (ds_Meta ds2) = Name (ds_Meta ds1) →
  run_import (Name (ds_Meta ds1)) i w1 = (Ok results, w2) →
  last (ProcessedTimeRanges results) = Some r →
  ∃ imp w3, get_importer (Name (ds_Meta ds2)) p2 c2 w2 = (Ok (imp, snd i), w3) ∧
  imp_cfg imp = c2 ∧ lastTimestamp imp = Some (r_End r) ∧
  ∀ now, import_start c2 (lastTimestamp imp) now = Add (r_End r) (cfg_StepSize c2).
Proof.
  intros Hname Hrun Hr. rewrite Hname. unfold run_import in Hrun. destruct i as [imp conn].
  apply bind_Ok_inv in Hrun as ([imp' [res err]] & w0 & Himp & H).
  apply bind_Ok_inv in H as ([] & w4 & Hset & H). destruct err; [done|].
  unfold ret_out, deref in H. destruct res as [res|]; [|done]. simplify_eq.
  eapply ImportFromLastTimestamp_last in Himp; [|done].
  assert (importers (Name (ds_Meta ds1)) (env w2) = Some (imp', conn)) as Hget.
  { unfold read_pure in Hset. simplify_eq. simpl. by rewrite importers_set. }
  unfold get_importer. rewrite bind_run. unfold read_pure at 1. rewrite Hget. rewrite bind_run. simpl.
  eexists _, _. split; [done|]. simpl. rewrite Himp. by split_and!.
Qed.

(** *** The cache *)
Class CacheLaws : Prop := {
  cache_read ds s :
  lister_get KReportDataSource (Namespace (ds_Meta ds)) (Name (ds_Meta ds)) (cache_write ds s) =
  (Ok ds, cache_write ds s);
  (* a refused update leaves the cache alone *)
    refused_update ds s e s' ns name : client_update KReportDataSource ds s = (Err e, s') →
  lister_get KReportDataSource ns name s' = ((lister_get KReportDataSource ns name s).1, s');
}.

(** a failed deletion is not retried: a sync that cannot remove the finalizer
    of a deleted data source returns the error to be retried, but the
    finalizer is already gone from the cached object; the retry finds nothing
    to remove and succeeds without any effect, and the data source stays. *)
Theorem finalizer_removal_lost {CL : CacheLaws} key ds w e w1 :
  SplitMetaNamespaceKey key = Some (key_of ds) →
  (lister_get KReportDataSource (Namespace (ds_Meta ds)) (Name (ds_Meta ds)) (env w)).1 = Ok ds →
  DeletionTimestamp (ds_Meta ds) ≠ None →
  ContainsString (Finalizers (ds_Meta ds)) reportDataSourceFinalizer None = true →
  syncReportDataSource cfg key w = (Err e, w1) →
  ∃ w2, syncReportDataSource cfg key w1 = (Ok tt, w2) ∧ trace w2 = trace w1.
Proof.
  intros Hkey Hget Hdel Hfin. unfold syncReportDataSource, syncResource. rewrite Hkey. simpl.
  destruct (DeletionTimestamp (ds_Meta ds)) as [t|] eqn:Ht; [|done].
  rewrite bind_run. unfold try at 1, ListerGet at 1, read at 1.
  destruct (lister_get _ _ _ (env w)) as [o s1]. simpl in Hget. subst o. simpl. rewrite Ht.
  rewrite bind_run. unfold removeReportDataSourceFinalizer at 1. rewrite Hfin. simpl. rewrite bind_run.
  unfold read_pure. simpl. set (ds1 := {| ds_Meta := _ |}). unfold Update, effect. simpl.
  destruct (client_update KReportDataSource ds1 (cache_write ds1 s1)) as [[x|e'|msg] s2] eqn:Eu; intros H; simplify_eq.
  rewrite bind_run. unfold try, ListerGet, read. simpl. rewrite (refused_update _ _ _ _ _ _ Eu).
  pose proof (cache_read ds1 s1) as Hread. simpl in Hread. rewrite Hread. simpl. rewrite Ht. rewrite bind_run.
  unfold removeReportDataSourceFinalizer. simpl. rewrite RemoveString_ContainsString. simpl. by eexists.
Qed.

(** *** Dependents *)
Lemma for_each_stops {A} (f : A → M S unit) (Q : A → event → Prop) l1 x l2 w r w' :
  (∀ y, emits (Q y) (f y)) → (∀ w, is_Ok (f x w).1 = false ∧ trace (f x w).2 = trace w) →
  for_each (l1 ++ x :: l2) f w = (r, w') →
  is_Ok r = false ∧ ∃ tr, trace w' = trace w ++ tr ∧ Forall (λ e, ∃ y, y ∈ l1 ∧ Q y e) tr.
Proof.
  intros Hf Hfail. revert w. induction l1 as [|y l1 IH]; intros w; simpl; rewrite bind_run.
  - specialize (Hfail w) as [Hfail Htr].
    destruct (f x w) as [[[]|e|p] w1]; simpl in *; intros; simplify_eq; try done;
      (split; [done|]; exists []; rewrite app_nil_r; by split).
  - specialize (Hf y w) as (tr & Htr & Hall). destruct (f y w) as [o w1] eqn:E. simpl in Htr.
    assert (Forall (λ e, ∃ z, z ∈ y :: l1 ∧ Q z e) tr) as Hall'.
    { eapply Forall_impl; [done|]. intros e He. exists y. by split; [left|]. }
    destruct o as [[]|e|p]; intros H; [|simplify_eq; split; [done|]; by exists tr..].
    apply IH in H as [Hr (tr' & Htr' & Ht')]. split; [done|]. exists (tr ++ tr').
    rewrite Htr', Htr, app_assoc. split; [done|]. apply Forall_app. split; [done|].
    eapply Forall_impl; [done|]. intros e (z & Hz & He). exists z. by split; [right|].
Qed.

(** dependent views are looked up under the wrong name: when a data source
    has new data, the dependencies of a view are taken from the query named
    like the view's data source, not from its query; if there is no query of
    that name the queueing fails there, and no view after it is queued. *)
Theorem view_dependents_wrong_query ds l1 view v l2 w s1 r w' :
  lister_list KReportDataSource (Namespace (ds_Meta ds)) (env w) = (Ok (l1 ++ view :: l2), s1) →
  ds_ReportQueryView (ds_Spec view) = Some v →
  (∀ s, is_Ok (lister_get KReportQuery (Namespace (ds_Meta view)) (Name (ds_Meta view)) s).1 = false) →
  queueDependentReportDataSourcesForDataSource ds w = (r, w') →
  r ≠ Ok tt ∧ ∃ tr, trace w' = trace w ++ tr ∧
  Forall (λ e, ∃ y, y ∈ l1 ∧ e = enq KReportDataSource y) tr.
Proof.
  intros Hlist Hview Hmiss. unfold queueDependentReportDataSourcesForDataSource. rewrite bind_run.
  unfold ListerList, read. rewrite Hlist. intros H.
  eapply (for_each_stops _ (λ y e, e = enq KReportDataSource y)) in H as [Hr Htr].
  - split; [by intros ->|exact Htr].
  - intros y. unfold_enqueue. emits_tac. apply emits_getQueryDependencies.
  - intros w1. rewrite Hview. unfold getQueryDependencies, NewReportQueryListerGetter, ListerGet, read, map_err.
    rewrite !bind_run. specialize (Hmiss (env w1)). by destruct (lister_get _ _ _ (env w1)) as [[] s2].
Qed.

(** *** Views *)
Definition initialized (deps : ReportQueryDependencies) : Prop :=
  Forall (λ d, dst_TableRef (ds_Status d) ≠ "") (ReportDataSources deps) ∧
  Forall (λ r, rst_TableRef (r_Status r) ≠ "") (Deps.Reports deps).

Lemma filter_nil_Forall {A} (P : A → Prop) `{∀ x, Decision (P x)} l : filter P l = [] → Forall (λ x, ¬ P x) l.
Proof.
  intros Hf. apply Forall_forall. intros x Hx HP.
  assert (x ∈ filter P l) as Hin by (by apply list_elem_of_filter). rewrite Hf in Hin. by apply elem_of_nil in Hin.
Qed.

Lemma ValidateQueryDependencies_initialized deps h (w w' : world S) :
  ValidateQueryDependencies deps h w = (Ok tt, w') → initialized deps.
Proof.
  unfold ValidateQueryDependencies. intros (? & w1 & _ & H)%bind_Ok_inv.
  destruct (decide _) as [[Hd Hr]|]; [|done]. apply fmap_nil_inv in Hd, Hr.
  split; [exact (filter_nil_Forall no_datasource_table _ Hd)|exact (filter_nil_Forall no_report_table _ Hr)].
Qed.

Lemma returns_view_dependencies query :
  returns (λ r, ∀ deps inputs, r = Some (deps, inputs) → initialized deps) (view_dependencies (S := S) query).
Proof.
  intros w r w' (res & w1 & _ & H)%bind_Ok_inv deps inputs ->. apply bind_Ok_inv in H as (v & w2 & Hv & H).
  apply try_inv in Hv. destruct v as [[]|e].
  - apply ret_inv in H as [[= <-] _]. by eapply ValidateQueryDependencies_initialized in Hv.
  - destruct (IsUninitializedDependencyError e); [by apply ret_inv in H as [? ?]|].
    destruct (IsInvalidDependencyError e); [by apply ret_inv in H as [? ?]|done].
Qed.

(** The table resources a computation creates. *)
Definition creates_only (P : PrestoTable → Prop) (e : event) : Prop :=
  match ev_action e with ACreate KPrestoTable t => P t | ACreate _ _ => False | _ => True end.

(** The view of a data source, rendered from a query. *)
Definition view_of (ds : ReportDataSource) (t : PrestoTable) : Prop :=
  let namespace := Namespace (ds_Meta ds) in
  dst_TableRef (ds_Status ds) = "" ∧ pt_View (pt_Spec t) = true ∧
  pt_TableName (pt_Spec t) = DataSourceTableName namespace (Name (ds_Meta ds)) ∧
  ∃ query deps inputs tables,
    initialized deps ∧ pt_Columns (pt_Spec t) = GeneratePrestoColumns query ∧
  RenderQuery
    {| tc_Namespace := namespace; tc_Query := qs_Query (q_Spec query);
       RequiredInputs := ConvertInputDefinitionsIntoInputList (qs_Inputs (q_Spec query));
       tc_Reports := Deps.Reports deps; tc_ReportQueries := ReportQueries deps;
       tc_ReportDataSources := ReportDataSources deps; tc_PrestoTables := tables |}
    {| ReportingStart := None; ReportingEnd := None; Inputs := inputs |} = Ok (pt_Query (pt_Spec t)).

(** Effects of parts that create nothing. *)
Definition no_create (e : event) : Prop := match ev_action e with ACreate _ _ => False | _ => True end.

Lemma emits_creates P {A} (m : M S A) : emits no_create m → emits (creates_only P) m.
Proof.
  apply emits_weaken. intros e. unfold no_create, creates_only. by destruct (ev_action e).
Qed.

Lemma emits_dependents_no_create ds : emits no_create (queue_datasource_dependents (S := S) ds).
Proof.
  unfold queue_datasource_dependents, queueDependentReportsForDataSource,
    queueDependentReportDataSourcesForDataSource, getReportDependencies; unfold_enqueue.
  emits_tac; apply emits_getQueryDependencies.
Qed.

Lemma emits_create_view ds query deps inputs :
  dst_TableRef (ds_Status ds) = "" → initialized deps →
  emits (creates_only (view_of ds))
    (create_view (S := S) cfg ds query (DataSourceTableName (Namespace (ds_Meta ds)) (Name (ds_Meta ds))) deps inputs).
Proof.
  intros Href Hdeps. unfold create_view. cbv zeta.
  apply emits_bind; [apply emits_storage_database|intros [storage hive]].
  apply emits_bind; [apply emits_read|intros tables].
  eapply (emits_performs _ (λ _, True)), performs_bind; [apply performs_ret_out; intros q Hq; exact Hq|].
  intros q Hq. apply performs_any.
  apply emits_bind; [|intros pt].
  - apply emits_map_err. unfold createPrestoTableCR. cbv zeta. emits_tac. unfold creates_only, view_of. simpl.
    split_and!; try done. by exists query, deps, inputs, tables.
  - apply emits_bind; [|intros pt'].
    + unfold waitForPrestoTable, Poll, table_ready. emits_tac. apply emits_poll. emits_tac.
    + unfold updateReportDataSource. apply emits_RetryOnConflict. emits_tac.
Qed.

(** a view is created once, and only when it can work: if a sync of a query
    view creates a table resource, the data source had no table yet, every
    data source and report its query depends on has one, and the resource is
    the view of the query's columns and of its text rendered with these
    dependencies and the inputs' defaults; later changes of the query leave
    the view as it is. *)
Theorem query_view_created ds w o w' tr k (t : obj k) ok :
  handleReportQueryViewDataSource cfg ds w = (o, w') → trace w' = trace w ++ tr →
  Ev (ACreate k t) ok ∈ tr →
  match k return obj k → Prop with KPrestoTable => view_of ds | _ => λ _, False end t.
Proof.
  intros H Htr Hin.
  assert (emits (creates_only (view_of ds)) (handleReportQueryViewDataSource (S := S) cfg ds)) as Hem.
  { unfold handleReportQueryViewDataSource. cbv zeta.
    destruct (ds_ReportQueryView (ds_Spec ds)) as [v|]; [|emits_tac].
    destruct (String.eqb (rv_QueryName v) ""); [emits_tac|].
    apply emits_bind; [emits_tac|intros query].
    assert (emits no_create (view_dependencies (S := S) query)) as Hdeps.
    { unfold view_dependencies, ValidateQueryDependencies, uninitialiedDependendenciesHandler. unfold_enqueue.
      emits_tac. apply emits_ResolveDependencies. }
    eapply (emits_performs _ (λ _, True)), (performs_bind _ (λ name, dst_TableRef (ds_Status ds) = "" →
                                                             name = DataSourceTableName (Namespace (ds_Meta ds)) (Name (ds_Meta ds)))).
    { destruct (String.eqb_spec (dst_TableRef (ds_Status ds)) "") as [Href|Href]; [by apply performs_ret|].
      apply performs_emits; [|by intros w0 a w1 _ ?].
      apply emits_bind; [apply emits_existing_table|]. intros pt. emits_tac. }
    intros name Hname. eapply performs_bind;
      [apply performs_emits; [by apply emits_creates|apply returns_view_dependencies]|].
    intros [[deps inputs]|] Hinit; [|by apply performs_ret]. apply performs_any.
    apply emits_bind; [|intros ds'; apply emits_creates, emits_dependents_no_create].
    destruct (String.eqb_spec (dst_TableRef (ds_Status ds)) "") as [Href|Href]; [|emits_tac].
    rewrite (Hname Href). apply emits_create_view; [done|by eapply Hinit]. }
  destruct (Hem w) as (tr' & Htr' & Hall). rewrite H in Htr'. simpl in Htr'. rewrite Htr in Htr'.
  apply app_inv_head in Htr' as <-. apply (proj1 (Forall_forall _ _) Hall) in Hin. by destruct k.
Qed.
End runs.

(** ** A concrete operator

    The API server, a cache that lags behind it, and the importers; the server
    may refuse updates. *)
Record OpState := MkOp {
  server : Mem;
  cached : Mem;
  o_importers : gmap string (PrometheusImporter * option string);
  refuses : option error;
}.
Definition set_server (m : Mem) (s : OpState) : OpState := MkOp m (cached s) (o_importers s) (refuses s).
Definition on_server {A} (f : Mem → A * Mem) (s : OpState) : A * OpState :=
  let '(a, m) := f (server s) in (a, set_server m s).
Definition from_cache {A} (f : Mem → A * Mem) (s : OpState) : A * OpState := ((f (cached s)).1, s).

#[export] Instance op_env : Env OpState := {|
  client_get k ns n := on_server (mem_get k ns n); client_list k ns := on_server (mem_list k ns);
  client_create k o := on_server (mem_create k o);
  client_update k o s := match refuses s with Some e => (Err e, s) | None => on_server (mem_update k o) s end;
  lister_get k ns n := from_cache (mem_get k ns n); lister_list k ns := from_cache (mem_list k ns);
  clock_now s := (m_now (server s), s); wait_jitter d s := (d, s); poll_attempts s := (20%nat, s);
  cron_Parse _ := Ok hourly; cron_ParseStandard _ := Ok hourly;
  db_exec a s := (m_db (server s) a, s);
  presto_query _ s := (Ok {| rows_Columns := Ok []; rows_Scan := []; rows_Err := None |}, s);
  prom_query q r s := (m_prom (server s) q r, s); ctx_err s := (None, s);
  last_timestamp _ s := (Ok (m_last (server s)), s);
|}.

#[export] Instance op_state : OperatorState OpState := {|
  importers name s := o_importers s !! name;
  set_importers name i s := MkOp (server s) (cached s) (<[name := i]> (o_importers s)) (refuses s);
  cache_write ds s := MkOp (server s) (add_obj KReportDataSource ds (cached s)) (o_importers s) (refuses s);
  newPrometheusConnFromURL _ s := (Ok tt, s);
  prom_query_at _ q r s := (m_prom (server s) q r, s);
|}.
#[export] Instance aws_op : Aws OpState := {|
  s3_ListObjectsV2Pages _ _ s := ([], None, s); s3_GetObject _ _ s := (Ok "", s);
  json_Decode _ := Err (New "EOF"); url_Parse_String := Ok;
|}.

#[export] Instance op_importers : LawfulImporters (S := OpState).
Proof. intros name i s. simpl. by rewrite lookup_insert_eq. Qed.

Lemma mem_get_add k o m :
  mem_get k (Namespace (meta k o)) (Name (meta k o)) (add_obj k o m) = (Ok o, add_obj k o m).
Proof.
  unfold mem_get, add_obj at 1, set_objs. cbn [m_objs]. rewrite (decide_True_pi (eq_refl k)). simpl.
  unfold obj_key. by rewrite lookup_insert_eq, decide_True.
Qed.

#[export] Instance op_names : NamesKept (S := OpState).
Proof.
  split.
  - intros ns n s ds s'. simpl. unfold on_server. destruct (mem_get _ ns n (server s)) as [o m] eqn:E.
    intros [= -> _]. by apply mem_get_key in E.
  - intros ds s ds' s'. simpl. destruct (refuses s); [done|]. unfold on_server, mem_update.
    by destruct (m_objs _ _ !! _); intros; simplify_eq.
Qed.

#[export] Instance op_cache : CacheLaws (S := OpState).
Proof.
  split.
  - intros ds s. change (from_cache (mem_get KReportDataSource (Namespace (meta KReportDataSource ds))
      (Name (meta KReportDataSource ds))) (cache_write ds s) = (Ok ds, cache_write ds s)).
    unfold from_cache. change (cached (cache_write ds s)) with (add_obj KReportDataSource ds (cached s)).
    by rewrite mem_get_add.
  - intros ds s e s' ns name. simpl. destruct (refuses s); [by intros [= <- <-]|]. unfold on_server, mem_update.
    destruct (m_objs _ _ !! _); intros; simplify_eq. done.
Qed.

(** A data source [cpu] with its table, known to server and cache, and a view
    [usage] of the query [q]. *)
Definition cpu (ns : string) (st : option (Time * Time)) : ReportDataSource :=
  let ds := imported "cpu" st in
  {| ds_Meta := meta_of ns "cpu"; ds_Spec := ds_Spec ds;
     ds_Status := {| dst_TableRef := "t"; dst_ImportStatus := dst_ImportStatus (ds_Status ds) |} |}.
Definition usage (ref : string) : ReportDataSource :=
  {| ds_Meta := meta_of "ns" "usage";
     ds_Spec := {| ds_PrometheusMetricsImporter := None; ds_AWSBilling := None; ds_PrestoTable := None;
                   ds_ReportQueryView := Some {| rv_QueryName := "q"; rv_Inputs := []; rv_Storage := None |} |};
     ds_Status := {| dst_TableRef := ref; dst_ImportStatus := None |} |}.
Definition metrics_table : PrestoTable :=
  {| pt_Meta := meta_of "ns" "t"; pt_Unmanaged := false; pt_Spec := pt_Spec presto0; pt_Status := pt_Spec presto0 |}.
Definition op_mem (ds : ReportDataSource) : Mem :=
  add_obj KReportDataSource ds (add_obj KPrestoTable metrics_table mem0).
Definition op_world (ds : ReportDataSource) (refuse : option error) : world OpState :=
  World (MkOp (op_mem ds) (op_mem ds) ∅ refuse) [].

(** The import of [cpu] and its update, whatever the server says. *)
Definition import_cpu (refuse : option error) : outcome unit * world OpState :=
  handlePrometheusMetricsDataSource (config0 false) (cpu "ns" (Some (july4 10, july4 11)))
    (op_world (cpu "ns" (Some (july4 10, july4 11))) refuse).

Lemma newPromImporterCfg_spec_witness :
  let cfg := config0 false in
  let p := {| pm_Query := "up"; pm_QueryConfig := Some {| QueryInterval := None; StepSize := None;
                ChunkSize := Some (Second - 1) |}; pm_Storage := None; pm_PrometheusURL := None |} in
  newPromImporterCfg cfg p "up" metrics_table = Panic "runtime error: integer divide by zero".
Proof.
  intros cfg p. apply (newPromImporterCfg_spec cfg p "up" metrics_table (5 * Minute) Minute);
    [reflexivity|reflexivity|zconst|zconst|reflexivity].
Defined.

(** The last effect of a run. *)
Definition last_update (w : world OpState) : option (ReportDataSource * bool) :=
  match last (trace w) with Some (Ev (AUpdate KReportDataSource ds) ok) => Some (ds, ok) | _ => None end.
Lemma last_update_Some w ds ok :
  last_update w = Some (ds, ok) → ∃ tr, trace w = tr ++ [Ev (AUpdate KReportDataSource ds) ok].
Proof.
  unfold last_update. destruct (last (trace w)) as [[a b]|] eqn:E; [|done]. destruct a as [| [] | | | | | | | | | | | | | | | | | |]; try done.
  intros [= <- <-]. by apply last_Some in E.
Qed.

Lemma event_update (e : option event) :
  match e with Some (Ev (AUpdate KReportDataSource _) true) => True | _ => False end →
  ∃ ds, e = Some (Ev (AUpdate KReportDataSource ds) true).
Proof.
  destruct e as [[a b]|]; [|done]. destruct a as [| [] ds | | | | | | | | | | | | | | | | | |]; try done.
  destruct b; [|done]. by exists ds.
Qed.

Lemma failed_status_update_panics_witness : ∃ w',
  import_metrics (config0 false) (cpu "ns" None) {| pm_Query := "up"; pm_QueryConfig := None;
    pm_Storage := None; pm_PrometheusURL := None |} metrics_table
    (op_world (cpu "ns" None) (Some (New "etcdserver: request timed out"))) = (Panic
      "invalid memory address or nil pointer dereference", w') ∧
  ∃ msg, Panic "invalid memory address or nil pointer dereference" = Panic (A := ()) msg.
Proof.
  set (r := import_metrics _ _ _ _ _). assert (∃ ds, last_update r.2 = Some (ds, false)) as (ds & Hds).
  { assert (match last_update r.2 with Some (_, false) => True | _ => False end) as H by (vm_compute; exact I).
    destruct (last_update r.2) as [[ds []]|]; [done|by exists ds|done]. }
  assert (r.1 = Panic "invalid memory address or nil pointer dereference") as H1 by (vm_compute; reflexivity).
  destruct (last_update_Some _ _ _ Hds) as (tr & Htr). exists r.2.
  assert (r = (Panic "invalid memory address or nil pointer dereference", r.2)) as Hr
    by (rewrite <- H1; apply surjective_pairing).
  split; [exact Hr|]. eapply (failed_status_update_panics (config0 false)); [exact Hr|exact Htr].
Defined.

Lemma imports_keep_going_witness : ∃ w',
  import_cpu None = (Ok tt, w') ∧
  ((∃ tr, trace w' = [] ++ tr ∧ requeued (cpu "ns" (Some (july4 10, july4 11))) tr) ∨
   older_data (cpu "ns" (Some (july4 10, july4 11))) (op_world (cpu "ns" (Some (july4 10, july4 11))) None) w').
Proof.
  destruct (run_Ok (import_cpu None) (λ _ _, True)) as ([] & w' & H & _); [vm_compute; exact I|].
  exists w'. split; [exact H|].
  exact (imports_keep_going (config0 false) (cpu "ns" (Some (july4 10, july4 11))) _
           (op_world (cpu "ns" (Some (july4 10, july4 11))) None) w' eq_refl eq_refl H).
Defined.


Lemma importers_shared_witness : ∃ results w2 r,
  run_import "cpu" (NewPrometheusImporter Importer.cfg0, None) (op_world (cpu "a" None) None) = (Ok results, w2) ∧
  last (ProcessedTimeRanges results) = Some r ∧
  ∃ imp w3, get_importer "cpu" {| pm_Query := "up"; pm_QueryConfig := None; pm_Storage := None;
      pm_PrometheusURL := Some "https://other" |} Importer.cfg0 w2 = (Ok (imp, None), w3) ∧
    imp_cfg imp = Importer.cfg0 ∧ lastTimestamp imp = Some (r_End r) ∧
    ∀ now, import_start Importer.cfg0 (lastTimestamp imp) now = Add (r_End r) Minute.
Proof.
  destruct (run_Ok (run_import "cpu" (NewPrometheusImporter Importer.cfg0, None) (op_world (cpu "a" None) None))
    (λ res _, is_Some (last (ProcessedTimeRanges res)))) as (results & w2 & H & [r E]);
    [vm_compute; eexists; reflexivity|]. exists results, w2, r. split; [exact H|]. split; [exact E|].
  apply (importers_shared (cpu "a" None) (cpu "b" None) _ Importer.cfg0 (NewPrometheusImporter Importer.cfg0, None)
    _ _ _ _ eq_refl H E).
Defined.

Definition deleted_cpu : ReportDataSource :=
  set_meta KReportDataSource (λ m, {| Name := "cpu"; Namespace := "ns"; ResourceVersion := "1"; Labels := ∅;
    Annotations := ∅; OwnerReferences := []; Finalizers := [reportDataSourceFinalizer];
    DeletionTimestamp := Some 1 |}) (cpu "ns" None).

Lemma finalizer_removal_lost_witness : ∃ w1 w2,
  syncReportDataSource (config0 true) "ns/cpu"
    (op_world deleted_cpu (Some (MkError KConflict "object has been modified"))) =
    (Err (MkError KConflict "object has been modified"), w1) ∧
  syncReportDataSource (config0 true) "ns/cpu" w1 = (Ok tt, w2) ∧ trace w2 = trace w1.
Proof.
  set (r := syncReportDataSource _ _ _). exists r.2.
  assert (r = (Err (MkError KConflict "object has been modified"), r.2)) as Hr.
  { assert (r.1 = Err (MkError KConflict "object has been modified")) as H1 by (vm_compute; reflexivity).
    rewrite <- H1. apply surjective_pairing. }
  destruct (finalizer_removal_lost (config0 true) "ns/cpu" deleted_cpu
    (op_world deleted_cpu (Some (MkError KConflict "object has been modified")))
    (MkError KConflict "object has been modified") r.2) as (w2 & H2);
    [reflexivity|vm_compute; reflexivity|discriminate|reflexivity|exact Hr|].
  exists w2. split; [exact Hr|exact H2].
Defined.

(** Two views of [q], which has the name of neither; the first one in the way
    of the second. *)
Definition usage_mem : Mem :=
  add_obj KReportDataSource (usage "") (add_obj KReportQuery (query0 "q" [input0 "Cpu" "ReportDataSource" "cpu"]) mem0).

Lemma view_dependents_wrong_query_witness : ∃ r w',
  queueDependentReportDataSourcesForDataSource (Env0 := frozen_env usage_mem) (cpu "ns" None) (World () []) = (r, w') ∧
  r ≠ Ok tt ∧ ∃ tr, trace w' = [] ++ tr ∧ Forall (λ e, ∃ y, y ∈ [] ∧ e = enq KReportDataSource y) tr.
Proof.
  eexists _, _. split; [apply surjective_pairing|].
  apply (view_dependents_wrong_query (Env0 := frozen_env usage_mem) (cpu "ns" None) [] (usage "")
           {| rv_QueryName := "q"; rv_Inputs := []; rv_Storage := None |} [] (World () []) ()).
  - vm_compute. reflexivity.
  - reflexivity.
  - intros []. vm_compute. reflexivity.
  - apply surjective_pairing.
Defined.

(** The view [usage] of [q], which reads [cpu]. *)
Definition view_mem : Mem :=
  add_obj KReportDataSource (usage "")
  (add_obj KReportDataSource (cpu "ns" None)
  (add_obj KReportQuery (query0 "q" [input0 "Cpu" "ReportDataSource" "cpu"])
  (add_obj KStorageLocation
     {| sl_Meta := {| Name := "default"; Namespace := "ns"; ResourceVersion := "1"; Labels := ∅;
                      Annotations := <[IsDefaultStorageLocationAnnotation := "true"]> ∅;
                      OwnerReferences := []; Finalizers := []; DeletionTimestamp := None |};
        sl_Hive := Some {| UnmanagedDatabase := false; hs_DatabaseName := "metering"; hs_Location := "";
                           DefaultTableProperties := None |};
        sl_DatabaseName := "metering"; sl_Location := "" |} mem0))).

Lemma event_create (e : option event) :
  match e with Some (Ev (ACreate KPrestoTable _) true) => True | _ => False end →
  ∃ t : PrestoTable, e = Some (Ev (ACreate KPrestoTable t) true).
Proof.
  destruct e as [[a b]|]; [|done]. destruct a as [[] t| | | | | | | | | | | | | | | | | | |]; try done.
  destruct b; [|done]. by exists t.
Qed.

Lemma query_view_created_witness : ∃ o w' t,
  handleReportQueryViewDataSource (config0 false) (usage "") (world0 view_mem) = (o, w') ∧
  trace w' !! 0%nat = Some (Ev (ACreate KPrestoTable t) true) ∧ view_of (usage "") t.
Proof.
  destruct (run_any (handleReportQueryViewDataSource (config0 false) (usage "") (world0 view_mem)) (λ w',
    match trace w' !! 0%nat with Some (Ev (ACreate KPrestoTable _) true) => True | _ => False end))
    as (o & w' & H & Hl); [vm_compute; exact I|].
  destruct (event_create _ Hl) as (t & E). exists o, w', t. split; [exact H|]. split; [exact E|].
  exact (query_view_created (config0 false) (usage "") (world0 view_mem) o w' (trace w') KPrestoTable t true
           H eq_refl (list_elem_of_lookup_2 _ _ _ E)).
Defined.
