(* ===== verification/Collect.v ===== *)
(** * On-demand imports (src/pkg/operator/promsum.go,
    [importPrometheusForTimeRange])

    One import of a given time range for every Prometheus data source of a
    namespace, or for one of them.  Each import is a goroutine of an error
    group; the order they get through in is any. *)

From S2P Require Export ImportRuns.
Open Scope Z_scope.

Record prometheusImportResults := {
  res_ReportDataSource : string;
  res_Namespace : string;
  res_MetricsImportedCount : Z;
}.

(** ** Choosing the data sources *)
Definition wants (dsName : string) (ds : ReportDataSource) : bool :=
  match ds_PrometheusMetricsImporter (ds_Spec ds) with
  | None => false
  | Some _ => String.eqb dsName "" || String.eqb dsName (Name (ds_Meta ds))
  end.

Fixpoint to_import (dsName : string) (items : list ReportDataSource) : outcome (list ReportDataSource) :=
  match items with
  | [] => Ok []
  | ds :: items =>
      if wants dsName ds then
        if String.eqb (dst_TableRef (ds_Status ds)) "" then
          Err (Errorf "ReportDataSource %s has no table created yet" [FStr (Name (ds_Meta ds))])
        else rest ← to_import dsName items; Ok (ds :: rest)
      else to_import dsName items
  end.

(** ** One import *)

(** An on-demand import has no global start. *)
Definition no_ImportFrom (c : Importer.Config) : Importer.Config :=
  {| cfg_PrometheusQuery := cfg_PrometheusQuery c; cfg_PrestoTableName := cfg_PrestoTableName c;
     cfg_ChunkSize := cfg_ChunkSize c; cfg_StepSize := cfg_StepSize c;
     cfg_MaxTimeRanges := cfg_MaxTimeRanges c; cfg_MaxQueryRangeDuration := cfg_MaxQueryRangeDuration c;
     cfg_ImportFromTime := None; cfg_MaxBackfillImportDuration := cfg_MaxBackfillImportDuration c |}.

(** The group's context, as the importer sees it. *)
Definition with_ctx {S} (E : Env S) (ctx : S → option error * S) : Env S :=
  {| client_get := @client_get S E; client_list := @client_list S E; client_create := @client_create S E;
     client_update := @client_update S E; lister_get := @lister_get S E; lister_list := @lister_list S E;
     clock_now := @clock_now S E; wait_jitter := @wait_jitter S E; poll_attempts := @poll_attempts S E;
     cron_Parse := @cron_Parse S E; cron_ParseStandard := @cron_ParseStandard S E; db_exec := @db_exec S E;
     presto_query := @presto_query S E; prom_query := @prom_query S E; ctx_err := ctx;
     last_timestamp := @last_timestamp S E |}.

Section collect.
Context {S : Type} `{!Env S, !OperatorState S} (cfg : Operator.Config).

(** The Prometheus connection of the import. *)
Definition import_conn (p : PrometheusMetricsImporterDataSource) : M S (option string) :=
  match pm_PrometheusURL p with
  | Some url => if String.eqb url "" then mret None else _ ← read (newPrometheusConnFromURL url); mret (Some url)
  | None => mret None
  end.

(** The body of the goroutine; the semaphore only delays it. *)
Definition import_job (ctx : S → option error * S) (start end' : Time) (ds : ReportDataSource)
    : M S prometheusImportResults :=
  let name := Name (ds_Meta ds) in
  prestoTable ← map_err (λ err, Errorf "unable to get PrestoTable %s for ReportDataSource %s, %s"
                           [FStr ("{" +:+ dst_TableRef (ds_Status ds) +:+ "}"); FStr name; FStr (Error err)])
    (ListerGet KPrestoTable (Namespace (ds_Meta ds)) (dst_TableRef (ds_Status ds)));
  p ← ret_out (deref (ds_PrometheusMetricsImporter (ds_Spec ds)));
  importCfg ← ret_out (newPromImporterCfg cfg p (pm_Query p) prestoTable);
  let importCfg := no_ImportFrom importCfg in
  conn ← import_conn p;
  '(importResults, err) ← ImportFromTimeRange (Env0 := with_ctx (with_conn conn) ctx) start end' importCfg true;
  match err with
  | Some err => fail (Errorf "error importing Prometheus data for ReportDataSource %s: %v" [FStr name; FStr (Error err)])
  | None => mret {| res_ReportDataSource := name; res_Namespace := Namespace (ds_Meta ds);
                    res_MetricsImportedCount := Z.of_nat (length (Metrics importResults)) |}
  end.

Definition live (s : S) : option error * S := (None, s).

(** The group: the jobs left, the first error, the results in the order the
    channel delivers them.  The first error cancels the context: a job that
    waits for the semaphore gives up then, a job under way sees the
    cancellation at some later point. *)
Inductive group (start end' : Time) : list ReportDataSource → option error → world S →
    list prometheusImportResults → option error → world S → Prop :=
  | group_done err w : group start end' [] err w [] err w
  | group_result l1 ds l2 w r w1 rs err w' :
      import_job live start end' ds w = (Ok r, w1) →
      group start end' (l1 ++ l2) None w1 rs err w' →
      group start end' (l1 ++ ds :: l2) None w (r :: rs) err w'
  | group_error l1 ds l2 w e w1 rs err w' :
      import_job live start end' ds w = (Err e, w1) →
      group start end' (l1 ++ l2) (Some e) w1 rs err w' →
      group start end' (l1 ++ ds :: l2) None w rs err w'
  | group_gives_up l1 ds l2 e w rs err w' :
      group start end' (l1 ++ l2) (Some e) w rs err w' →
      group start end' (l1 ++ ds :: l2) (Some e) w rs err w'
  | group_late_result l1 ds l2 e ctx w r w1 rs err w' :
      import_job ctx start end' ds w = (Ok r, w1) →
      group start end' (l1 ++ l2) (Some e) w1 rs err w' →
      group start end' (l1 ++ ds :: l2) (Some e) w (r :: rs) err w'
  | group_late_error l1 ds l2 e ctx w e1 w1 rs err w' :
      import_job ctx start end' ds w = (Err e1, w1) →
      group start end' (l1 ++ l2) (Some e) w1 rs err w' →
      group start end' (l1 ++ ds :: l2) (Some e) w rs err w'.

(** [importPrometheusForTimeRange]: the results come back with the error. *)
Inductive importPrometheusForTimeRange (namespace dsName : string) (start end' : Time) (w : world S)
    : list prometheusImportResults → option error → world S → Prop :=
  | collect_no_list e w1 :
      List KReportDataSource namespace w = (Err e, w1) →
      importPrometheusForTimeRange namespace dsName start end' w [] (Some e) w1
  | collect_not_ready items e w1 :
      List KReportDataSource namespace w = (Ok items, w1) → to_import dsName items = Err e →
      importPrometheusForTimeRange namespace dsName start end' w [] (Some e) w1
  | collect_runs items dss w1 rs err w' :
      List KReportDataSource namespace w = (Ok items, w1) → to_import dsName items = Ok dss →
      group start end' dss None w1 rs err w' →
      importPrometheusForTimeRange namespace dsName start end' w rs err w'.

(** ** Facts *)
Definition job_name (ds : ReportDataSource) : string * string := (Namespace (ds_Meta ds), Name (ds_Meta ds)).
Definition result_name (r : prometheusImportResults) : string * string :=
  (res_Namespace r, res_ReportDataSource r).

Lemma to_import_spec dsName items dss : to_import dsName items = Ok dss → dss = filter (λ ds, wants dsName ds) items.
Proof.
  revert dss. induction items as [|ds items IH]; intros dss H; simpl in *; [by simplify_eq|].
  rewrite filter_cons. destruct (wants dsName ds) eqn:E; simpl; [|by apply IH].
  case_match; [done|]. destruct (to_import dsName items) as [rest|e|p]; simplify_eq/=. by rewrite (IH rest).
Qed.

Lemma emits_import_job ctx start end' ds : emits importing (import_job ctx start end' ds).
Proof. unfold import_job, import_conn. emits_tac. apply emits_ImportFromTimeRange. Qed.

(** What a job reports is what it stored. *)
Lemma import_job_result ctx start end' ds w r w' :
  import_job ctx start end' ds w = (Ok r, w') →
  result_name r = job_name ds ∧
  ∃ t, trace w' = trace w ++ t ∧ res_MetricsImportedCount r = Z.of_nat (length (stored t)).
Proof.
  unfold import_job. cbv zeta. intros (pt & w1 & H1 & H)%bind_Ok_inv.
  apply bind_Ok_inv in H as (p & w2 & H2 & H). apply bind_Ok_inv in H as (icfg & w3 & H3 & H).
  apply bind_Ok_inv in H as (conn & w4 & H4 & H). apply bind_Ok_inv in H as ([res err] & w5 & H5 & H).
  destruct err as [err|]; [done|]. apply ret_inv in H as [Hr ->]. injection Hr as ->.
  split; [done|].
  assert (trace w4 = trace w) as E4.
  { assert (emits (λ _, False) (import_conn p)) as Hconn by (unfold import_conn; emits_tac).
    assert (emits (λ _, False) (map_err (λ err, Errorf "unable to get PrestoTable %s for ReportDataSource %s, %s"
                                           [FStr ("{" +:+ dst_TableRef (ds_Status ds) +:+ "}"); FStr (Name (ds_Meta ds)); FStr (Error err)])
                                  (ListerGet KPrestoTable (Namespace (ds_Meta ds)) (dst_TableRef (ds_Status ds))))) as Hget by emits_tac.
    specialize (Hconn w3). specialize (Hget w). rewrite H4 in Hconn. rewrite H1 in Hget.
    destruct Hconn as (t1 & E1 & F1), Hget as (t2 & E2 & F2). simpl in *.
    destruct t1 as [|e1 t1]; [|by inversion F1]. destruct t2 as [|e2 t2]; [|by inversion F2].
    rewrite app_nil_r in *. unfold ret_out in *. simplify_eq. congruence. }
  apply ImportFromTimeRange_run in H5 as (l & t & k & _ & Ht & _ & _ & Hacc).
  eexists. split; [rewrite Ht, E4; reflexivity|]. rewrite !stored_app, (acc_stored _ _ Hacc).
  cbn [res_MetricsImportedCount]. unfold stored. simpl. by rewrite app_nil_r.
Qed.

Definition total_count (rs : list prometheusImportResults) : Z :=
  foldr (λ r z, res_MetricsImportedCount r + z) 0 rs.

(** What a group of jobs reports, of those left when the first error is [e]. *)
Definition group_reports (l : list ReportDataSource) (e : option error) (w : world S)
    (rs : list prometheusImportResults) (err : option error) (w' : world S) : Prop :=
  (is_Some e → is_Some err) ∧
  result_name <$> rs ⊆+ job_name <$> l ∧
  (err = None → length rs = length l) ∧
  ∃ t, trace w' = trace w ++ t ∧ total_count rs ≤ Z.of_nat (length (stored t)) ∧
  (err = None → total_count rs = Z.of_nat (length (stored t))).

Lemma group_reports_step l1 ds l2 e e' w w1 (o : option prometheusImportResults) rs err w' t1 :
  trace w1 = trace w ++ t1 → (is_Some e → is_Some e') →
  match o with
  | Some r => result_name r = job_name ds ∧ res_MetricsImportedCount r = Z.of_nat (length (stored t1))
  | None => is_Some e'
  end →
  group_reports (l1 ++ l2) e' w1 rs err w' → group_reports (l1 ++ ds :: l2) e w (option_list o ++ rs) err w'.
Proof.
  intros Ht1 He Ho (Herr & Hsub & Hlen & t & Ht & Hle & Heq).
  assert (job_name <$> l1 ++ ds :: l2 ≡ₚ job_name ds :: (job_name <$> l1 ++ l2)) as Hperm
    by (by rewrite <- Permutation_middle).
  assert (length (l1 ++ ds :: l2) = Datatypes.S (length (l1 ++ l2))) as Hl by (rewrite !length_app; simpl; lia).
  split_and!; [auto| |rewrite Hl|exists (t1 ++ t); rewrite Ht, Ht1, app_assoc, stored_app, length_app].
  - rewrite Hperm. destruct o as [r|]; simpl; [destruct Ho as [-> _]; by apply submseteq_skip|by apply submseteq_cons].
  - intros E. destruct o as [r|]; simpl; [by rewrite Hlen|]. destruct (Herr Ho). congruence.
  - destruct o as [r|]; simpl; [destruct Ho as [_ ->]|]; split_and!; [done|lia|intros E; rewrite (Heq E); lia
                                                                      |done|lia|intros E; destruct (Herr Ho); congruence].
Qed.

Lemma job_trace ctx start end' ds w o w1 :
  import_job ctx start end' ds w = (o, w1) → ∃ t, trace w1 = trace w ++ t.
Proof. intros E. destruct (emits_import_job ctx start end' ds w) as (t & Ht & _). rewrite E in Ht. by exists t. Qed.

Lemma group_run start end' l e w rs err w' : group start end' l e w rs err w' → group_reports l e w rs err w'.
Proof.
  induction 1 as [err w|l1 ds l2 w r w1 rs err w' Hjob _ IH|l1 ds l2 w e w1 rs err w' Hjob _ IH
                  |l1 ds l2 e w rs err w' _ IH|l1 ds l2 e ctx w r w1 rs err w' Hjob _ IH|l1 ds l2 e ctx w e1 w1 rs err w' Hjob _ IH].
  - split_and!; [done|done|done|]. exists []. rewrite app_nil_r. by split_and!.
  - apply import_job_result in Hjob as (Hn & t & Ht & Hc).
    by apply (group_reports_step l1 ds l2 None None w w1 (Some r) rs err w' t).
  - destruct (job_trace _ _ _ _ _ _ _ Hjob) as [t Ht].
    by apply (group_reports_step l1 ds l2 None (Some e) w w1 None rs err w' t).
  - apply (group_reports_step l1 ds l2 (Some e) (Some e) w w None rs err w' []); by rewrite ?app_nil_r.
  - apply import_job_result in Hjob as (Hn & t & Ht & Hc).
    by apply (group_reports_step l1 ds l2 (Some e) (Some e) w w1 (Some r) rs err w' t).
  - destruct (job_trace _ _ _ _ _ _ _ Hjob) as [t Ht].
    by apply (group_reports_step l1 ds l2 (Some e) (Some e) w w1 None rs err w' t).
Qed.

(** C24: an on-demand import loses no data source and counts right, in whatever
    order its goroutines get through and whichever of them fail: each result
    is one of the Prometheus data sources asked for, none comes twice, and
    together they count no more metrics than were stored; when there is no
    error each of them has its result, and they count exactly the metrics
    stored. *)
Theorem import_reports_all namespace dsName start end' w items w1 rs err w' :
  List KReportDataSource namespace w = (Ok items, w1) →
  importPrometheusForTimeRange namespace dsName start end' w rs err w' →
  result_name <$> rs ⊆+ job_name <$> filter (λ ds, wants dsName ds) items ∧
  ∃ t, trace w' = trace w ++ t ∧ total_count rs ≤ Z.of_nat (length (stored t)) ∧
  (err = None → total_count rs = Z.of_nat (length (stored t)) ∧
   result_name <$> rs ≡ₚ job_name <$> filter (λ ds, wants dsName ds) items).
Proof.
  intros Hlist Hrun. assert (trace w1 = trace w) as Ew.
  { revert Hlist. unfold List, read. destruct (client_list _ _ _). by intros [= _ <-]. }
  inversion Hrun as [e w1' E|items' e w1' E Ht|items' dss w1' rs' err' w'' E Ht Hg]; subst;
    rewrite Hlist in E; simplify_eq.
  { rewrite Ew. split; [apply submseteq_nil_l|]. exists []. by rewrite app_nil_r. }
  apply to_import_spec in Ht as ->. apply group_run in Hg as (_ & Hsub & Hlen & t & Htr & Hle & Heq).
  split; [done|]. exists t. rewrite Htr, Ew. split_and!; [done|done|]. intros E.
  split; [auto|]. apply submseteq_length_Permutation; [done|]. rewrite !length_fmap, Hlen; done.
Qed.
End collect.

(** ** A concrete run: two data sources, the second gets through first. *)
Definition named (n : string) : ReportDataSource :=
  {| ds_Meta := meta_of "ns" n; ds_Spec := ds_Spec (cpu "ns" None); ds_Status := ds_Status (cpu "ns" None) |}.
Definition two_sources : world OpState :=
  let m := add_obj KReportDataSource (named "memory") (add_obj KReportDataSource (named "cpu")
             (add_obj KPrestoTable metrics_table mem0)) in
  World (MkOp m m ∅ None) [].
Definition job : ReportDataSource → M OpState prometheusImportResults :=
  import_job (config0 false) live (july4 10) (july4 11).
Definition ready (ds : ReportDataSource) : bool :=
  wants "" ds && negb (String.eqb (dst_TableRef (ds_Status ds)) "").

Lemma to_import_ready a b : ready a = true → ready b = true → to_import "" [a; b] = Ok [a; b].
Proof.
  unfold ready. intros [Ha Ha']%andb_prop [Hb Hb']%andb_prop. apply negb_true_iff in Ha', Hb'.
  simpl. by rewrite Ha, Ha', Hb, Hb'.
Qed.

Lemma import_reports_all_witness :
  ∃ items w1 r1 r2 w',
    List KReportDataSource "ns" two_sources = (Ok items, w1) ∧
    importPrometheusForTimeRange (config0 false) "ns" "" (july4 10) (july4 11) two_sources [r2; r1] None w' ∧
    result_name <$> [r2; r1] ≡ₚ job_name <$> filter (λ ds, wants "" ds) items.
Proof.
  destruct (run_Ok (List KReportDataSource "ns" two_sources) (λ items w,
    match items with
    | [a; b] =>
        match job b w with
        | (Ok _, w2) => match job a w2 with (Ok _, _) => ready a && ready b = true | _ => False end
        | _ => False
        end
    | _ => False
    end)) as (items & w1 & Hlist & Hjobs); [vm_compute; reflexivity|].
  destruct items as [|a [|b [|c items]]]; [destruct Hjobs|destruct Hjobs| |destruct Hjobs].
  destruct (job b w1) as [[r2|e|p] w2] eqn:E2; [|destruct Hjobs|destruct Hjobs].
  destruct (job a w2) as [[r1|e|p] w3] eqn:E1; [|destruct Hjobs|destruct Hjobs].
  apply andb_prop in Hjobs as [Ha Hb].
  assert (importPrometheusForTimeRange (config0 false) "ns" "" (july4 10) (july4 11) two_sources [r2; r1] None w3)
    as Hrun.
  { eapply collect_runs; [exact Hlist|exact (to_import_ready a b Ha Hb)|].
    apply (group_result _ _ _ [a] b [] w1 r2 w2 [r1] None w3 E2).
    apply (group_result _ _ _ [] a [] w2 r1 w3 [] None w3 E1). apply group_done. }
  exists [a; b], w1, r1, r2, w3. split; [exact Hlist|]. split; [exact Hrun|].
  destruct (import_reports_all (config0 false) "ns" "" (july4 10) (july4 11) two_sources
    [a; b] w1 [r2; r1] None w3 Hlist Hrun) as (_ & t & _ & _ & H).
  exact (proj2 (H eq_refl)).
Defined.
