(* ===== verification/Csv.v ===== *)
(** * encoding/csv and bufio, as src/pkg/operator/http.go uses them

    Records are encoded into a 4096-byte buffer in front of the writer.  The
    theorem of the file is a lemma for Http: reading back what was encoded, by
    the rules of RFC 4180, gives the records. *)

From S2P Require Export Json MetricStore.
Open Scope Z_scope.

Module Csv.
Definition quote : ascii := quote_char.
Definition LF : ascii := ascii_of_nat 10.
Definition CR : ascii := ascii_of_nat 13.
Abbreviation of_bytes := String.string_of_list_ascii.

(** ** Encoding *)

(** The characters [unicode.IsSpace] accepts, in UTF-8. *)
Definition unicode_spaces : list Z :=
  [9; 10; 11; 12; 13; 32; 0x85; 0xA0; 0x1680; 0x2000; 0x2001; 0x2002; 0x2003; 0x2004; 0x2005; 0x2006;
   0x2007; 0x2008; 0x2009; 0x200A; 0x2028; 0x2029; 0x202F; 0x205F; 0x3000].
Definition starts_with_space (field : string) : bool :=
  existsb (λ r, HasPrefix field (of_bytes (utf8 r))) unicode_spaces.

Fixpoint any_byte (p : ascii → bool) (s : string) : bool :=
  match s with
  | "" => false
  | String c s => p c || any_byte p s
  end.

Definition special (comma c : ascii) : bool :=
  Ascii.eqb c comma || Ascii.eqb c quote || Ascii.eqb c CR || Ascii.eqb c LF.

(** [Writer.fieldNeedsQuotes]; a field holding only a backslash and a dot ends
    a PostgreSQL copy, so it is quoted too. *)
Definition fieldNeedsQuotes (comma : ascii) (field : string) : bool :=
  if String.eqb field "" then false
  else String.eqb field "\." || any_byte (special comma) field || starts_with_space field.

(** A quote is doubled; line ends stay ([UseCRLF] is not set). *)
Fixpoint escape (s : string) : string :=
  match s with
  | "" => ""
  | String c s => if Ascii.eqb c quote then String quote (String quote (escape s)) else String c (escape s)
  end.

Definition encode_field (comma : ascii) (field : string) : string :=
  if fieldNeedsQuotes comma field then String quote (escape field +:+ String quote "") else field.

Fixpoint encode_fields (comma : ascii) (fields : list string) : string :=
  match fields with
  | [] => ""
  | [f] => encode_field comma f
  | f :: fs => encode_field comma f +:+ String comma (encode_fields comma fs)
  end.

(** [Writer.Write]. *)
Definition Write (comma : ascii) (record : list string) : string :=
  encode_fields comma record +:+ String LF "".

(** ** The buffer

    A byte written to a full buffer first sends it on; [WriteString] fills the
    buffer the same way. *)
Record BufWriter := MkBuf { bw_out : list string; bw_buf : string }.
Definition NewWriter : BufWriter := MkBuf [] "".
Definition bufferSize : Z := 4096.
Definition write_byte (b : BufWriter) (c : ascii) : BufWriter :=
  if bufferSize <=? strlen (bw_buf b) then MkBuf (bw_out b ++ [bw_buf b]) (String c "")
  else MkBuf (bw_out b) (bw_buf b +:+ String c "").
Fixpoint write_string (b : BufWriter) (s : string) : BufWriter :=
  match s with
  | "" => b
  | String c s => write_string (write_byte b c) s
  end.
Definition Flush (b : BufWriter) : list string :=
  bw_out b ++ (if String.eqb (bw_buf b) "" then [] else [bw_buf b]).

(** All that was written, sent on or not. *)
Definition contents (b : BufWriter) : string := String.concat "" (bw_out b) +:+ bw_buf b.

(** ** Reading back (RFC 4180, with [comma] as separator and [LF] line ends) *)
Inductive state := Start | Plain | Quoted | AfterQuote.
Fixpoint read (comma : ascii) (st : state) (field : string) (record : list string) (s : string)
    : option (list (list string)) :=
  match s with
  | "" => match st, record with Start, [] => Some [] | _, _ => None end
  | String c s =>
      let end_field := read comma Start "" (record ++ [field]) s in
      let end_record := cons (record ++ [field]) <$> read comma Start "" [] s in
      let more st := read comma st (field +:+ String c "") record s in
      match st with
      | Quoted => if Ascii.eqb c quote then read comma AfterQuote field record s else more Quoted
      | AfterQuote =>
          if Ascii.eqb c quote then more Quoted
          else if Ascii.eqb c comma then end_field
          else if Ascii.eqb c LF then end_record
          else None
      | Start =>
          if Ascii.eqb c quote then read comma Quoted "" record s
          else if Ascii.eqb c comma then end_field
          else if Ascii.eqb c LF then end_record
          else more Plain
      | Plain =>
          if Ascii.eqb c quote then None
          else if Ascii.eqb c comma then end_field
          else if Ascii.eqb c LF then end_record
          else more Plain
      end
  end.
Definition ReadAll (comma : ascii) (s : string) : option (list (list string)) := read comma Start "" [] s.

(** ** Facts *)
Lemma app_cons_r (a b : string) c : (a +:+ String c "") +:+ b = a +:+ String c b.
Proof. by rewrite str_app_assoc. Qed.

Section reading.
Context (comma : ascii).
Hypotheses (Hq : comma ≠ quote) (Hl : comma ≠ LF).

(** What the reader does after a field that ends at [sep]. *)
Definition ends_with (sep : ascii) (record : list string) (s : string) : option (list (list string)) :=
  if Ascii.eqb sep comma then read comma Start "" record s
  else cons record <$> read comma Start "" [] s.
Definition separator (sep : ascii) : Prop := sep = comma ∨ sep = LF.

Lemma read_sep sep st field record s :
  separator sep → st = Plain ∨ st = Start ∨ st = AfterQuote →
  read comma st field record (String sep s) = ends_with sep (record ++ [field]) s.
Proof using Hq Hl.
  unfold ends_with. intros [->| ->] [->|[->| ->]]; simpl.
  all: rewrite ?(proj2 (Ascii.eqb_neq comma quote)), ?Ascii.eqb_refl, ?(proj2 (Ascii.eqb_neq LF comma))
    by congruence; done.
Qed.

Lemma any_byte_cons p c s : any_byte p (String c s) = p c || any_byte p s.
Proof. done. Qed.

Lemma read_plain s sep field record rest :
  any_byte (special comma) s = false → separator sep →
  read comma Plain field record (s +:+ String sep rest) = ends_with sep (record ++ [field +:+ s]) rest.
Proof using Hq Hl.
  intros Hs Hsep. revert field Hs. induction s as [|c s IH]; intros field Hs.
  { rewrite str_app_nil. apply (read_sep sep Plain); auto. }
  rewrite any_byte_cons in Hs. apply orb_false_iff in Hs as [Hc Hs].
  unfold special in Hc. rewrite !orb_false_iff in Hc. destruct Hc as [[[Hc1 Hc2] _] Hc3].
  simpl. rewrite Hc1, Hc2, Hc3, IH by done. by rewrite app_cons_r.
Qed.

Lemma read_escaped s field record rest :
  read comma Quoted field record (escape s +:+ rest) = read comma Quoted (field +:+ s) record rest.
Proof.
  revert field. induction s as [|c s IH]; intros field; simpl; [by rewrite str_app_nil|].
  destruct (Ascii.eqb c quote) eqn:E; simpl; rewrite ?E, IH, app_cons_r; [|done].
  by apply Ascii.eqb_eq in E as ->.
Qed.

Lemma read_field f sep record rest :
  separator sep →
  read comma Start "" record (encode_field comma f +:+ String sep rest) = ends_with sep (record ++ [f]) rest.
Proof using Hq Hl.
  intros Hsep. unfold encode_field. destruct (fieldNeedsQuotes comma f) eqn:E.
  - simpl. rewrite str_app_assoc, read_escaped.
    apply (read_sep sep AfterQuote f); auto.
  - unfold fieldNeedsQuotes in E. destruct f as [|c f]; [apply (read_sep sep Start); auto|].
    cbn [String.eqb] in E. rewrite !orb_false_iff in E. destruct E as [[_ Hs] _].
    rewrite any_byte_cons in Hs. apply orb_false_iff in Hs as [Hc Hs].
    unfold special in Hc. rewrite !orb_false_iff in Hc. destruct Hc as [[[Hc1 Hc2] _] Hc3].
    simpl. rewrite Hc1, Hc2, Hc3. by apply read_plain.
Qed.

Lemma read_fields fs record rest :
  fs ≠ [] →
  read comma Start "" record (encode_fields comma fs +:+ String LF rest) =
  cons (record ++ fs) <$> read comma Start "" [] rest.
Proof using Hq Hl.
  revert record. induction fs as [|f [|g fs] IH]; intros record Hne; [done| |].
  - simpl. rewrite read_field by (by right). unfold ends_with.
    by rewrite (proj2 (Ascii.eqb_neq LF comma)) by congruence.
  - change (encode_fields comma (f :: g :: fs)) with
    (encode_field comma f +:+ String comma (encode_fields comma (g :: fs))).
    rewrite str_app_assoc.
    etrans; [apply (read_field f comma record (encode_fields comma (g :: fs) +:+ String LF rest)); by left|].
    unfold ends_with. rewrite Ascii.eqb_refl, IH by done. by rewrite <- (assoc_L (++)).
Qed.

(** Reading back what was written. *)
Lemma ReadAll_Write rows :
  Forall (λ r, r ≠ []) rows → ReadAll comma (String.concat "" (Write comma <$> rows)) = Some rows.
Proof using Hq Hl.
  unfold ReadAll. induction 1 as [|r rows Hr _ IH]; [done|].
  assert (Happ : String.concat "" (Write comma <$> r :: rows) =
          encode_fields comma r +:+ String LF (String.concat "" (Write comma <$> rows))).
  { unfold Write. destruct rows; simpl; by rewrite ?str_app_assoc. }
  by rewrite Happ, read_fields, IH.
Qed.
End reading.

(** *** The buffer *)
Lemma concat_cons a l : String.concat "" (a :: l) = a +:+ String.concat "" l.
Proof. destruct l; simpl; by rewrite ?str_app_nil. Qed.
Lemma concat_app l1 l2 : String.concat "" (l1 ++ l2) = String.concat "" l1 +:+ String.concat "" l2.
Proof.
  induction l1 as [|a l1 IH]; [done|].
  change ((a :: l1) ++ l2) with (a :: (l1 ++ l2)). by rewrite !concat_cons, IH, str_app_assoc.
Qed.

Lemma write_byte_contents b c : contents (write_byte b c) = contents b +:+ String c "".
Proof.
  unfold write_byte, contents. case_match; simpl; [|by rewrite <- str_app_assoc].
  by rewrite concat_app.
Qed.

Lemma write_string_contents b s : contents (write_string b s) = contents b +:+ s.
Proof.
  revert b. induction s as [|c s IH]; intros b; simpl; [by rewrite str_app_nil|].
  rewrite IH, write_byte_contents, app_cons_r. done.
Qed.

Lemma Flush_contents b : String.concat "" (Flush b) = contents b.
Proof.
  unfold Flush, contents. rewrite concat_app. destruct (String.eqb_spec (bw_buf b) "") as [->|]; done.
Qed.

Lemma write_string_app b s t : write_string b (s +:+ t) = write_string (write_string b s) t.
Proof. revert b. induction s as [|c s IH]; intros b; simpl; [done|by rewrite IH]. Qed.

(** Nothing is sent on while what was written fits the buffer. *)
Lemma write_string_fits b s :
  bw_out b = [] → strlen (bw_buf b) + strlen s ≤ bufferSize →
  bw_out (write_string b s) = [] ∧ bw_buf (write_string b s) = bw_buf b +:+ s.
Proof.
  revert b. induction s as [|c s IH]; intros b Hout Hfit; simpl; [by rewrite str_app_nil|].
  assert (strlen (String c s) = strlen s + 1) as Hlen by (unfold strlen; simpl; lia).
  assert (0 ≤ strlen s) by (unfold strlen; lia).
  assert (write_byte b c = MkBuf (bw_out b) (bw_buf b +:+ String c "")) as ->.
  { unfold write_byte. by rewrite (proj2 (Z.leb_gt _ _)) by lia. }
  destruct (IH (MkBuf (bw_out b) (bw_buf b +:+ String c ""))) as [H1 H2]; simpl in *; [done| |].
  - rewrite strlen_app. unfold strlen at 2. simpl. lia.
  - split; [done|]. by rewrite H2, app_cons_r.
Qed.

(** Something was once it does not. *)
Lemma bw_out_grows b s : bw_out b ≠ [] → bw_out (write_string b s) ≠ [].
Proof.
  revert b. induction s as [|c s IH]; intros b Hne; simpl; [done|]. apply IH.
  unfold write_byte. case_match; simpl; [|done]. by destruct (bw_out b).
Qed.

Lemma write_string_overflows b s :
  bufferSize < strlen (bw_buf b) + strlen s → strlen (bw_buf b) ≤ bufferSize → bw_out (write_string b s) ≠ [].
Proof.
  revert b. induction s as [|c s IH]; intros b Hover Hb; simpl.
  { unfold strlen in *. simpl in *. lia. }
  assert (strlen (String c s) = strlen s + 1) as Hlen by (unfold strlen; simpl; lia).
  unfold write_byte. destruct (bufferSize <=? strlen (bw_buf b)) eqn:E.
  - apply bw_out_grows. simpl. by destruct (bw_out b).
  - apply Z.leb_gt in E. apply IH; simpl; rewrite strlen_app; unfold strlen in *; simpl; lia.
Qed.

Lemma overflow_iff s : bw_out (write_string NewWriter s) = [] ↔ strlen s ≤ bufferSize.
Proof.
  split.
  - intros Hout. destruct (Z.le_gt_cases (strlen s) bufferSize) as [?|Hgt]; [done|].
    by destruct (write_string_overflows NewWriter s).
  - intros Hle. by apply write_string_fits.
Qed.
End Csv.

Example csv_quotes :
  Csv.Write "," ["a"; fmt_q "b"; "c,d"; ""; " e"; "\."] =
  "a," +:+ fmt_q "" +:+ dquote +:+ "b" +:+ fmt_q "" +:+ dquote +:+ "," +:+ fmt_q "c,d" +:+ ",," +:+ fmt_q " e" +:+ "," +:+
  dquote +:+ "\." +:+ dquote +:+ newline.
Proof. reflexivity. Qed.
