(* ===== verification/OrderedMap.v ===== *)
(** * Maps that remember the order of their keys
    (src/pkg/util/orderedmap/orderedmap.go: [New], [Get], [Set], [Delete],
    [Keys]) *)

From S2P Require Export Go.

Module OrderedMap.
Section maps.
Context {A : Type}.

Record OrderedMap := MkOrderedMap { keys : list string; values : gmap string A }.

Definition New : OrderedMap := MkOrderedMap [] ∅.
Definition Get (o : OrderedMap) (key : string) : option A := values o !! key.
Definition Set' (o : OrderedMap) (key : string) (value : A) : OrderedMap :=
  let exists_ := bool_decide (is_Some (values o !! key)) in
  MkOrderedMap (if exists_ then keys o else keys o ++ [key]) (<[key := value]> (values o)).

(** The first occurrence is removed from the keys. *)
Fixpoint remove_first (key : string) (l : list string) : list string :=
  match l with
  | [] => []
  | k :: l => if String.eqb k key then l else k :: remove_first key l
  end.
Definition Delete (o : OrderedMap) (key : string) : OrderedMap :=
  match values o !! key with
  | None => o
  | Some _ => MkOrderedMap (remove_first key (keys o)) (delete key (values o))
  end.
Definition Keys (o : OrderedMap) : list string := keys o.

(** ** Well-formedness: each key of the values once, and no other. *)
Definition wf (o : OrderedMap) : Prop := NoDup (keys o) ∧ ∀ k, k ∈ keys o ↔ is_Some (values o !! k).

Lemma remove_first_filter key l : NoDup l → remove_first key l = filter (λ k, k ≠ key) l.
Proof.
  induction 1 as [|k l Hk Hl IH]; simpl; [done|]. destruct (String.eqb_spec k key) as [->|Hne].
  - rewrite filter_cons_False by auto. symmetry. apply filter_id, Forall_forall. by intros x Hx ->.
  - by rewrite filter_cons_True, IH.
Qed.

(** An operation as a step: [Some v] sets, [None] deletes. *)
Definition step (o : OrderedMap) (op : string * option A) : OrderedMap :=
  match op with (key, Some v) => Set' o key v | (key, None) => Delete o key end.
Definition run (ops : list (string * option A)) : OrderedMap := fold_left step ops New.

Lemma wf_New : wf New.
Proof. split; [constructor|]. intros k. simpl. rewrite lookup_empty, elem_of_nil. split; [done|by intros []]. Qed.

Lemma wf_Set o key v : wf o → wf (Set' o key v).
Proof.
  intros [Hnd Hk]. unfold Set'. case_bool_decide as Hin; split; simpl; [done| | |].
  - intros k. rewrite Hk. destruct (decide (key = k)) as [<-|]; [by rewrite lookup_insert_eq|by rewrite lookup_insert_ne].
  - apply NoDup_app. split_and!; [done| |apply NoDup_singleton].
    intros k Hk1 ->%list_elem_of_singleton. by apply Hin, Hk.
  - intros k. rewrite elem_of_app, list_elem_of_singleton, Hk.
    destruct (decide (key = k)) as [<-|]; [rewrite lookup_insert_eq; naive_solver|].
    rewrite lookup_insert_ne by done. naive_solver.
Qed.

Lemma wf_Delete o key : wf o → wf (Delete o key).
Proof.
  intros [Hnd Hk]. unfold Delete. destruct (values o !! key) eqn:E; [|by split].
  split; simpl; rewrite remove_first_filter by done; [by apply NoDup_filter|].
  intros k. rewrite list_elem_of_filter, Hk. destruct (decide (key = k)) as [<-|].
  - rewrite lookup_delete_eq. split; [naive_solver|by intros []].
  - rewrite lookup_delete_ne by done. naive_solver.
Qed.

Lemma run_snoc ops op : run (ops ++ [op]) = step (run ops) op.
Proof. unfold run. by rewrite fold_left_app. Qed.

Lemma wf_run ops : wf (run ops).
Proof.
  induction ops as [|[key [v|]] ops IH] using rev_ind; [apply wf_New|rewrite run_snoc..];
    [by apply wf_Set|by apply wf_Delete].
Qed.

(** The value last set for a key, unless it was deleted since. *)
Definition last_value (ops : list (string * option A)) (key : string) : option A :=
  fold_left (λ cur '(k, v), if String.eqb k key then v else cur) ops None.

End maps.
Arguments OrderedMap : clear implicits.
End OrderedMap.
