(* ===== verification/Http.v ===== *)
(** * The HTTP API (src/pkg/operator/http.go, util.go, health.go)

    A handler's answer is the list of its calls on the ResponseWriter; what
    the client gets of them is [respond].  The router, text/tabwriter and the
    decoding of request bodies are parameters. *)

From S2P Require Export Csv Collect.
Open Scope Z_scope.

(** ** JSON values, as encoding/json is handed them *)
Inductive json :=
  | JNull
  | JString (s : string)
  | JBytes (s : string)     (* a string: the base64 encoding *)
  | JInt (z : Z)
  | JFloat (x : spec_float)
  | JBool (b : bool)
  | JTime (t : Time)        (* a string: RFC 3339 *)
  | JArray (l : list json)
  | JObject (l : list (string * json)).

(** The library code the API uses whose source is elsewhere: the encoding of
    values of a type the Presto driver has besides the common ones, fmt's
    rendering of such values, and text/tabwriter. *)
Class HttpLibrary := {
  marshal_other : string → outcome json;
  sprint_t : Value → string;
  sprint_v : Value → string;
  Tab : Type;
  tab_NewWriter : Z → Tab;
  tab_Write : Tab → string → Tab * list string;
  tab_Flush : Tab → list string;
}.

Definition is_finite (x : spec_float) : bool :=
  match x with S754_zero _ | S754_finite _ _ _ => true | _ => false end.
Definition year (t : Time) : Z := let '(y, _, _) := civil_of_days (t / day_ns) in y.

Definition marshal_float (x : spec_float) : outcome json :=
  if is_finite x then Ok (JFloat x) else Err (New ("json: unsupported value: " +:+ fmt_f x)).
Definition marshal_Time (t : Time) : outcome json :=
  if (0 <=? year t) && (year t <? 10000) then Ok (JTime t)
  else Err (New "Time.MarshalJSON: year outside of range [0,9999]").

(** Members of an object are written sorted by key. *)
Definition JMap (l : list (string * json)) : json := JObject (sort_by fst l).

Section marshal.
Context {HL : HttpLibrary}.

Fixpoint marshal (v : Value) : outcome json :=
  match v with
  | VNil => Ok JNull
  | VString s => Ok (JString s)
  | VBytes s => Ok (JBytes s)
  | VInt z => Ok (JInt z)
  | VFloat x => marshal_float x
  | VBool b => Ok (JBool b)
  | VTime t => marshal_Time t
  | VMap l =>
      (fix members l := match l with
                        | [] => Ok []
                        | (k, v) :: l => j ← marshal v; rest ← members l; Ok ((k, j) :: rest)
                        end) l ≫= λ l, Ok (JMap l)
  | VOther type => marshal_other type
  end.

Definition marshal_row (row : Row) : outcome (list (string * json)) :=
  mapM (λ '(k, v), j ← marshal v; Ok (k, j)) (sort_by fst (map_to_list row)).
End marshal.

Definition marshal_metric (m : PrometheusMetric) : outcome json :=
  amount ← marshal_float (pm_Amount m);
  timestamp ← marshal_Time (pm_Timestamp m);
  Ok (JObject [("labels", JMap ((λ '(k, v), (k, JString v)) <$> map_to_list (pm_Labels m)));
               ("amount", amount); ("stepSize", JInt (pm_StepSize m)); ("timestamp", timestamp);
               ("dt", JString (pm_Dt m))]).

(** Decoding into [interface{}] makes every number a float64. *)
Fixpoint numbers_as_floats (j : json) : json :=
  match j with
  | JInt z => JFloat (f64_of_Z z)
  | JArray l => JArray (numbers_as_floats <$> l)
  | JObject l => JObject ((λ '(k, j), (k, numbers_as_floats j)) <$> l)
  | j => j
  end.

(** [orderedmap.NewFromMap] as it is written out again: a trip through JSON
    text, whose key order it keeps; for keys encoding/json has nothing to
    escape in but quotes. *)
Definition NewFromMap {HL : HttpLibrary} (item : Row) : outcome json :=
  l ← marshal_row item; Ok (numbers_as_floats (JObject l)).

(** ** Responses *)
Inductive payload := PText (s : string) | PJson (j : json).
(** Calls on the ResponseWriter. *)
Inductive wop := SetHeader (key value : string) | WriteHeader (code : Z) | WriteBody (p : payload).

Record Response := MkResponse {
  rs_Headers : gmap string string;                    (* [w.Header()] *)
  rs_Sent : option (Z * gmap string string);          (* status line and headers, once written *)
  rs_Body : list payload;
}.
Definition send_header (code : Z) (r : Response) : Response :=
  match rs_Sent r with
  | None => MkResponse (rs_Headers r) (Some (code, rs_Headers r)) (rs_Body r)
  | Some _ => r
  end.
(** The first [WriteHeader] counts, headers set later are lost, a body sends
    status 200 first. *)
Definition apply_op (r : Response) (op : wop) : Response :=
  match op with
  | SetHeader k v => MkResponse (<[k := v]> (rs_Headers r)) (rs_Sent r) (rs_Body r)
  | WriteHeader code => send_header code r
  | WriteBody p =>
      let r := send_header 200 r in MkResponse (rs_Headers r) (rs_Sent r) (rs_Body r ++ [p])
  end.
(** What the client gets once the handler has returned. *)
Definition respond (ops : list wop) : Response := send_header 200 (fold_left apply_op ops (MkResponse ∅ None [])).
Definition status (r : Response) : Z := match rs_Sent r with Some (code, _) => code | None => 200 end.
Definition header (r : Response) (key : string) : option string :=
  match rs_Sent r with Some (_, h) => h !! key | None => None end.

Definition StatusOK : Z := 200.
Definition StatusAccepted : Z := 202.
Definition StatusBadRequest : Z := 400.
Definition StatusNotFound : Z := 404.
Definition StatusInternalServerError : Z := 500.

Definition writeResponseAsJSON (code : Z) (resp : outcome json) : list wop :=
  match resp with
  | Ok enc => [SetHeader "Content-Type" "application/json"; WriteHeader code; WriteBody (PJson enc)]
  | _ => [WriteHeader StatusInternalServerError]
  end.
Definition writeErrorResponse (code : Z) (message : string) (args : list fmt_arg) : list wop :=
  writeResponseAsJSON code (Ok (JObject [("error", JString (Sprintf message args))])).

(** ** Requests *)
Record Request := {
  rq_Method : string;
  rq_ParseForm : option error;              (* what [r.ParseForm()] returns *)
  rq_Form : gmap string (list string);      (* and what it leaves in [r.Form] *)
  rq_CollectBody : outcome (Time * Time);   (* the body decoded as CollectPrometheusMetricsDataRequest *)
  (* the body as an array: the first token, the elements the decoder meets while
     there are more, the token after them *)
  rq_Open : outcome unit;
  rq_Elements : list (outcome PrometheusMetric);
  rq_Close : outcome unit;
}.
Definition FormGet (r : Request) (key : string) : string := default "" (rq_Form r !! key ≫= head).
Definition FormValue := FormGet.
Definition URLParam (vars : gmap string string) (key : string) : string := default "" (vars !! key).

Definition checkForFields (fields : list string) (vals : gmap string (list string)) : outcome unit :=
  let missingFields := filter (λ f, default "" (vals !! f ≫= head) = "") fields in
  match missingFields with
  | [] => Ok tt
  | _ => Err (Errorf "the following fields are missing or empty: %s" [FStr (Join missingFields ",")])
  end.

(** The answer to a request that is not valid. *)
Definition validateGetReportReq (requiredQueryParams : list string) (r : Request) : option (list wop) :=
  if negb (String.eqb (rq_Method r) "GET") then Some (writeErrorResponse StatusNotFound "Not found" [])
  else match rq_ParseForm r with
  | Some err =>
      Some (writeErrorResponse StatusBadRequest "couldn't parse URL query params: %v" [FStr (Error err)])
  | None =>
      match checkForFields requiredQueryParams (rq_Form r) with
      | Ok _ =>
          if member (FormGet r "format") ["json"; "csv"; "tab"; "tabular"] then None
          else Some (writeErrorResponse StatusBadRequest "format must be one of: csv, json or tabular" [])
      | Err err => Some (writeErrorResponse StatusBadRequest "%v" [FStr (Error err)])
      | Panic _ => None
      end
  end.

(** [strconv.Atoi] on a 64-bit machine. *)
Definition Atoi_error (s msg : string) : error := Errorf "strconv.Atoi: parsing %q: %s" [FStr s; FStr msg].
Definition Atoi (s : string) : outcome Z :=
  let l := String.list_ascii_of_string s in
  let '(neg, ds) := match l with
                    | c :: l' => if Ascii.eqb c "-" then (true, l') else if Ascii.eqb c "+" then (false, l') else (false, l)
                    | [] => (false, [])
                    end in
  match ds, digits 0 ds with
  | _ :: _, Some n =>
      let z := if (neg : bool) then - n else n in
      if (int64_min <=? z) && (z <=? int64_max) then Ok z else Err (Atoi_error s "value out of range")
  | _, _ => Err (Atoi_error s "invalid syntax")
  end.

(** ** Results as CSV *)
Section results.
Context {HL : HttpLibrary}.

Definition csv_value (val : Value) : string + error :=
  match val with
  | VString v => inl v
  | VBytes v => inl v
  | VInt v => inl (pretty v)
  | VFloat v => inl (fmt_f v)
  | VBool v => inl (if v then "true" else "false")
  | VTime v => inl (TimeString v)
  | VNil => inl ""
  | _ => inr (New ("error marshalling csv: unknown type " +:+ sprint_t val +:+ " for value " +:+ sprint_v val))
  end.

(** The values of a row, in the order of the keys. *)
Fixpoint csv_record (keys : list string) (row : Row) : list string + error :=
  match keys with
  | [] => inl []
  | key :: keys =>
      match row !! key with
      | None => inr (Errorf "report results schema doesn't match expected schema, unexpected key: %q" [FStr key])
      | Some val =>
          match csv_value val, csv_record keys row with
          | inl v, inl vs => inl (v :: vs)
          | inr err, _ => inr err
          | _, inr err => inr err
          end
      end
  end.

Fixpoint write_rows (comma : ascii) (keys : list string) (results : list Row) (b : Csv.BufWriter)
    : Csv.BufWriter * option error :=
  match results with
  | [] => (b, None)
  | row :: results =>
      match csv_record keys row with
      | inl vals => write_rows comma keys results (Csv.write_string b (Csv.Write comma vals))
      | inr err => (b, Some err)
      end
  end.

(** What reaches the writer, in pieces, and the error.  Without rows there is
    no header line either; after an error what is left in the buffer is lost. *)
Definition writeResultsAsCSV (columns : list ReportQueryColumn) (results : list Row) (delimiter : ascii)
    : list string * option error :=
  let keys := match results with [] => [] | _ => q_Name <$> columns end in
  let b := match results with [] => Csv.NewWriter | _ => Csv.write_string Csv.NewWriter (Csv.Write delimiter keys) end in
  let '(b, err) := write_rows delimiter keys results b in
  match err with
  | Some err => (Csv.bw_out b, Some err)
  | None => (Csv.Flush b, None)
  end.

Definition attachment (name extension : string) : wop :=
  SetHeader "Content-Disposition" ("attachment;filename=" +:+ name +:+ extension).
Definition write_pieces (pieces : list string) : list wop := (λ s, WriteBody (PText s)) <$> pieces.

(** The error's text is the format string here. *)
Definition writeResultsResponseAsCSV (name : string) (columns : list ReportQueryColumn) (results : list Row)
    : list wop :=
  let '(pieces, err) := writeResultsAsCSV columns results "," in
  [SetHeader "Content-Type" "text/csv"; attachment name ".csv"] ++ write_pieces pieces ++
  match err with
  | Some err => writeErrorResponse StatusInternalServerError (Error err) []
  | None => [WriteHeader StatusOK]
  end.

Definition tab_pieces (t : Tab) (pieces : list string) : Tab * list string :=
  fold_left (λ '(t, out) p, let '(t, o) := tab_Write t p in (t, out ++ o)) pieces (t, []).

Definition tab_character : ascii := ascii_of_nat 9.

(** [tabwriter.NewWriter] panics when a width or the padding is negative. *)
Definition writeResultsResponseAsTabular (name : string) (columns : list ReportQueryColumn) (results : list Row)
    (r : Request) : outcome (list wop) :=
  let headers := [SetHeader "Content-Type" "text/tab-separated-values"; attachment name ".tsv"] in
  let paddingStr := FormValue r "padding" in
  match (if String.eqb paddingStr "" then Ok 2 else Atoi paddingStr) with
  | Err err => Ok (headers ++ writeErrorResponse StatusInternalServerError "invalid padding value %s, err: %s"
                     [FStr paddingStr; FStr (Error err)])
  | Panic p => Panic p
  | Ok padding =>
      if padding <? 0 then Panic "negative minwidth, tabwidth, or padding"
      else
        let '(pieces, err) := writeResultsAsCSV columns results tab_character in
        let '(t, out) := tab_pieces (tab_NewWriter padding) pieces in
        Ok (headers ++ write_pieces out ++
            match err with
            | Some err => writeErrorResponse StatusInternalServerError (Error err) []
            | None => write_pieces (tab_Flush t) ++ [WriteHeader StatusOK]
            end)
  end.

Definition writeResultsResponseAsJSON (name : string) (results : list Row) : list wop :=
  attachment name ".json" ::
  match mapM NewFromMap results with
  | Ok newResults => writeResponseAsJSON StatusOK (Ok (JArray newResults))
  | Err err => writeErrorResponse StatusInternalServerError "error converting results: %v" [FStr (Error err)]
  | Panic _ => []
  end.

Definition writeResultsResponse (format name : string) (columns : list ReportQueryColumn) (results : list Row)
    (r : Request) : outcome (list wop) :=
  if String.eqb format "json" then Ok (writeResultsResponseAsJSON name results)
  else if String.eqb format "csv" then Ok (writeResultsResponseAsCSV name columns results)
  else if String.eqb format "tab" || String.eqb format "tabular" then
    writeResultsResponseAsTabular name columns results r
  else Ok [].

(** ** Hidden columns *)
Definition columnsMap (columns : list ReportQueryColumn) : gmap string ReportQueryColumn :=
  fold_left (λ m c, <[q_Name c := c]> m) columns ∅.

Definition delete_hidden (hide : ReportQueryColumn → bool) (columns : list ReportQueryColumn) (row : Row) : Row :=
  foldr (λ '(name, c) row, if hide c then delete name row else row) row (map_to_list (columnsMap columns)).
Definition filter_columns (hide : ReportQueryColumn → bool) (columns : list ReportQueryColumn)
    : list ReportQueryColumn := filter (λ c, hide c = false) columns.

Definition writeResultsResponseV1 (format name : string) (columns : list ReportQueryColumn) (results : list Row)
    (r : Request) : outcome (list wop) :=
  writeResultsResponse format name (filter_columns TableHidden columns)
    (delete_hidden TableHidden columns <$> results) r.

(** [range] over a row is in any order. *)
Class RowOrder := { range_row : Row → list (string * Value); range_row_perm row : range_row row ≡ₚ map_to_list row }.

Definition result_values (columns : gmap string ReportQueryColumn) (p : string * Value) : outcome json :=
  let '(columnName, columnValue) := p in
  v ← marshal columnValue;
  let unit := default "" (Unit <$> columns !! columnName) in
  Ok (JObject ([("name", JString columnName); ("value", v);
                ("tableHidden", JBool (default false (TableHidden <$> columns !! columnName)))] ++
               (if String.eqb unit "" then [] else [("unit", JString unit)]))).

(** A nil slice is [null]. *)
Definition json_slice (l : list json) : json := match l with [] => JNull | _ => JArray l end.

Definition convertsToGetReportResults {RO : RowOrder} (input : list Row) (columns : list ReportQueryColumn)
    : outcome json :=
  let columnsMap := columnsMap columns in
  entries ← mapM (λ row, values ← mapM (result_values columnsMap) (range_row row);
                  Ok (JObject [("values", json_slice values)])) input;
  Ok (JObject [("results", json_slice entries)]).

Definition is_table_format (format : string) : bool :=
  String.eqb format "csv" || String.eqb format "tab" || String.eqb format "tabular".

Definition writeResultsResponseV2 {RO : RowOrder} (full : bool) (format name : string)
    (columns : list ReportQueryColumn) (results : list Row) (r : Request) : outcome (list wop) :=
  let format := ToLower format in
  let hide c := TableHidden c && (is_table_format format || negb full) in
  let filteredColumns := filter_columns hide columns in
  let results := delete_hidden hide columns <$> results in
  if String.eqb format "json" then
    Ok (attachment name ".json" :: writeResponseAsJSON StatusOK (convertsToGetReportResults results filteredColumns))
  else writeResultsResponse format name filteredColumns results r.
End results.

(** ** Handlers *)

(** The collector function of the server: namespace, data source, start, end;
    what it returns is read from a run of [importPrometheusForTimeRange]. *)
Abbreviation prometheusImporterFunc S :=
  (string → string → Time → Time → M S (list prometheusImportResults)).

(** Request patterns of the router, and the parameters in braces. *)
Abbreviation Vars := (gmap string string) (only parsing).
Class Router := {
  route_match : list string → string → option (string * gmap string string);
}.

Section server.
Context {S : Type} `{!Env S} {MO : MapOrder} {HL : HttpLibrary} {RO : RowOrder}
    (collectorFunc : prometheusImporterFunc S).

(** [return] after [writeErrorResponse]. *)
Definition answer (code : Z) (message : string) (args : list fmt_arg) : M S (list wop) :=
  mret (writeErrorResponse code message args).

Definition report_failed (report : Report) : option ReportCondition :=
  cond ← GetReportCondition (r_Status report) ReportRunning;
  if bool_decide (c_Status cond = ConditionFalse) && String.eqb (c_Reason cond) GenerateReportFailedReason
  then Some cond else None.

(** The columns of the query and of the table are also compared, for the log
    only. *)
Definition report_results (report : Report) (reportQuery : ReportQuery) (format : string) (useNewFormat full : bool)
    (r : Request) (prestoTable : PrestoTable) : M S (list wop) :=
  let prestoColumns := pt_Columns (pt_Status prestoTable) in
  match prestoColumns with
  | [] => answer StatusInternalServerError "PrestoTable %s has 0 columns" [FStr (Name (pt_Meta prestoTable))]
  | _ =>
      tableName ← try (ret_out (FullyQualifiedTableName prestoTable));
      match tableName with
      | inr err => answer StatusInternalServerError "invalid prestoTable.Status fields: %v" [FStr (Error err)]
      | inl tableName =>
          results ← try (GetReportResults tableName prestoColumns);
          match results with
          | inr err => answer StatusInternalServerError
                "failed to perform presto query (see operator logs for more details): %v" [FStr (Error err)]
          | inl results =>
              if match results with
                 | row :: _ => negb (length prestoColumns =? size row)%nat
                 | [] => false
                 end
              then answer StatusInternalServerError "report results schema doesn't match expected schema" []
              else
                let name := Name (q_Meta reportQuery) in
                let columns := qs_Columns (q_Spec reportQuery) in
                ret_out (if useNewFormat then writeResultsResponseV2 full format name columns results r
                         else writeResultsResponseV1 format name columns results r)
          end
      end
  end.

Definition getReport (name namespace format : string) (useNewFormat full : bool) (r : Request) : M S (list wop) :=
  report ← try (ListerGet KReport namespace name);
  match report with
  | inr err => answer (if IsNotFound err then StatusNotFound else StatusInternalServerError)
        "error getting report: %v" [FStr (Error err)]
  | inl report =>
      match (if String.eqb (FormValue r "ignore_failed") "true" then None else report_failed report) with
      | Some cond => answer StatusInternalServerError "report is is failed state, reason: %s, message: %s"
            [FStr (c_Reason cond); FStr (c_Message cond)]
      | None =>
          reportQuery ← try (ListerGet KReportQuery (Namespace (r_Meta report)) (rs_QueryName (r_Spec report)));
          match reportQuery with
          | inr err => answer StatusInternalServerError "error getting report: %v" [FStr (Error err)]
          | inl reportQuery =>
              prestoTable ← try (ListerGet KPrestoTable (Namespace (r_Meta report))
                                   (TableResourceNameFromKind "report" (Namespace (r_Meta report)) (Name (r_Meta report))));
              match prestoTable with
              | inr err =>
                  if IsNotFound err then answer StatusAccepted "Report is not processed yet" []
                  else answer StatusInternalServerError "error getting presto table: %v" [FStr (Error err)]
              | inl prestoTable => report_results report reportQuery format useNewFormat full r prestoTable
              end
          end
      end
  end.

Definition getReportV1Handler (r : Request) : M S (list wop) :=
  match validateGetReportReq ["name"; "namespace"; "format"] r with
  | Some ops => mret ops
  | None => getReport (FormGet r "name") (FormGet r "namespace") (FormGet r "format") false true r
  end.

Definition getReportV2Handler (full : bool) (vars : gmap string string) (r : Request) : M S (list wop) :=
  let name := URLParam vars "name" in
  let namespace := URLParam vars "namespace" in
  if String.eqb name "" then answer StatusBadRequest "the following fields are missing or empty: name" []
  else match validateGetReportReq ["format"] r with
       | Some ops => mret ops
       | None => getReport name namespace (FormGet r "format") true full r
       end.
Definition getReportV2FullHandler := getReportV2Handler true.
Definition getReportV2TableHandler := getReportV2Handler false.

Definition import_result_json (r : prometheusImportResults) : json :=
  JObject [("reportDataSource", JString (res_ReportDataSource r)); ("namespace", JString (res_Namespace r));
           ("metricsImportedCount", JInt (res_MetricsImportedCount r))].

Definition collectPrometheusMetricsDataHandler (vars : gmap string string) (r : Request) : M S (list wop) :=
  let namespace := URLParam vars "namespace" in
  let dsName := URLParam vars "datasource" in
  req ← try (ret_out (rq_CollectBody r));
  match req with
  | inr err => answer StatusInternalServerError "unable to decode response as JSON: %v" [FStr (Error err)]
  | inl (start, end') =>
      results ← try (collectorFunc namespace dsName start end');
      match results with
      | inr err => answer StatusInternalServerError "unable to collect prometheus data: %v" [FStr (Error err)]
      | inl results =>
          mret (writeResponseAsJSON StatusOK (Ok (JObject [("results", json_slice (import_result_json <$> results))])))
      end
  end.

Definition refuse (code : Z) (message : string) (args : list fmt_arg) : M S (string + list wop) :=
  mret (inr (writeErrorResponse code message args)).

(** The table of a data source, for the two handlers below. *)
Definition datasource_table (namespace name : string) : M S (string + list wop) :=
  dataSource ← try (ListerGet KReportDataSource namespace name);
  match dataSource with
  | inr err => refuse StatusInternalServerError "unable to get ReportDataSource %s: %v"
        [FStr name; FStr (Error err)]
  | inl dataSource =>
      let ref := dst_TableRef (ds_Status dataSource) in
      if String.eqb ref "" then
        refuse StatusInternalServerError "ReportDataSource %s table not created yet" [FStr name]
      else
        prestoTable ← try (ListerGet KPrestoTable (Namespace (ds_Meta dataSource)) ref);
        match prestoTable with
        | inr err => refuse StatusInternalServerError "unable to get PrestoTable %s: %v"
              [FStr ref; FStr (Error err)]
        | inl prestoTable =>
            if String.eqb (pt_TableName (pt_Status prestoTable)) "" then
              refuse StatusInternalServerError "PrestoTable %s table %s not created yet"
                [FStr (Name (pt_Meta prestoTable)); FStr (pt_TableName (pt_Spec prestoTable))]
            else
              tableName ← try (ret_out (FullyQualifiedTableName prestoTable));
              match tableName with
              | inr err => refuse StatusInternalServerError "invalid PrestoTable %s: %v"
                    [FStr (Name (pt_Meta prestoTable)); FStr (Error err)]
              | inl tableName => mret (inl tableName)
              end
        end
  end.

(** The elements of the body up to the first that does not decode. *)
Definition decode_metrics (r : Request) : outcome (list PrometheusMetric) :=
  _ ← rq_Open r;
  metrics ← mapM id (rq_Elements r);
  _ ← rq_Close r;
  Ok metrics.

Definition storePrometheusMetricsDataHandler (vars : gmap string string) (r : Request) : M S (list wop) :=
  metrics ← try (ret_out (decode_metrics r));
  match metrics with
  | inr err => answer StatusInternalServerError "unable to decode response as JSON: %v" [FStr (Error err)]
  | inl metrics =>
      tableName ← datasource_table (URLParam vars "namespace") (URLParam vars "datasourceName");
      match tableName with
      | inr ops => mret ops
      | inl tableName =>
          stored ← try (StorePrometheusMetrics (Env0 := with_ctx Env0 live) tableName metrics);
          match stored with
          | inr err => answer StatusInternalServerError "unable to store prometheus metrics: %v" [FStr (Error err)]
          | inl _ => mret (writeResponseAsJSON StatusOK (Ok (JObject [])))
          end
      end
  end.

(** A time parameter; the text of time.Parse's error is left out. *)
Definition time_param (r : Request) (key : string) : outcome ZonedTime :=
  let s := FormGet r key in
  if String.eqb s "" then Ok (0, 0)
  else match parse_RFC3339_zone (String.list_ascii_of_string s) with
       | Some t => Ok t
       | None => Err (New "parsing time")
       end.

Definition fetchPrometheusMetricsDataHandler (vars : gmap string string) (r : Request) : M S (list wop) :=
  match rq_ParseForm r with
  | Some err => answer StatusInternalServerError "unable to decode body: %v" [FStr (Error err)]
  | None =>
      match time_param r "start", time_param r "end" with
      | Ok startTime, Ok endTime =>
          tableName ← datasource_table (URLParam vars "namespace") (URLParam vars "datasourceName");
          match tableName with
          | inr ops => mret ops
          | inl tableName =>
              results ← try (GetPrometheusMetrics tableName startTime endTime);
              match results with
              | inr err => answer StatusInternalServerError "error querying for datasource: %v" [FStr (Error err)]
              | inl results =>
                  mret (writeResponseAsJSON StatusOK (l ← mapM marshal_metric results; Ok (JArray l)))
              end
          end
      | Ok _, Err err => answer StatusInternalServerError "invalid end time parameter: %v" [FStr (Error err)]
      | Err err, _ => answer StatusInternalServerError "invalid start time parameter: %v" [FStr (Error err)]
      | _, _ => mret []
      end
  end.

(** [newRouter]: the handlers by pattern. *)
Definition APIV1ReportsGetEndpoint : string := "/api/v1/reports/get".
Definition APIV2ReportsEndpointPrefix : string := "/api/v2/reports".
Definition collect_pattern : string := "/api/v1/datasources/prometheus/collect/{namespace}/{datasourceName}".
Definition newRouter : list (string * (gmap string string → Request → M S (list wop))) :=
  [(APIV2ReportsEndpointPrefix +:+ "/{namespace}/{name}/full", getReportV2FullHandler);
   (APIV2ReportsEndpointPrefix +:+ "/{namespace}/{name}/table", getReportV2TableHandler);
   (APIV1ReportsGetEndpoint, λ _, getReportV1Handler);
   ("/api/v1/datasources/prometheus/collect/{namespace}", collectPrometheusMetricsDataHandler);
   (collect_pattern, collectPrometheusMetricsDataHandler);
   ("/api/v1/datasources/prometheus/store/{namespace}/{datasourceName}", storePrometheusMetricsDataHandler);
   ("/api/v1/datasources/prometheus/fetch/{namespace}/{datasourceName}", fetchPrometheusMetricsDataHandler)].

(** A request handled by the pattern the router picks for its path. *)
Definition serve {RT : Router} (path : string) (r : Request) : M S (list wop) :=
  match route_match newRouter.*1 path with
  | None => mret [WriteHeader StatusNotFound; WriteBody (PText ("404 page not found" +:+ newline))]
  | Some (pattern, vars) =>
      match list_find (λ p, p.1 = pattern) newRouter with
      | Some (_, (_, handler)) => handler vars r
      | None => mret []
      end
  end.

(** ** Health *)
Definition TestReadFromPresto : M S bool :=
  r ← try (Presto.ExecuteSelect "SELECT * FROM system.runtime.nodes");
  mret (match r with inl _ => true | inr _ => false end).

Definition TestWriteToPresto (databaseName tableName : string) : M S bool :=
  let columns := [hive.MkColumn "check_time" "TIMESTAMP"] in
  let params := {| hive.p_Database := databaseName; hive.p_Name := tableName; hive.p_Columns := columns;
                   hive.p_PartitionedBy := []; hive.p_ClusteredBy := []; hive.p_SortedBy := [];
                   hive.p_NumBuckets := 0; hive.p_Location := ""; hive.p_RowFormat := "";
                   hive.p_FileFormat := ""; hive.p_TableProperties := None; hive.p_External := false |} in
  created ← try (exec (AHiveCreateTable params true));
  match created with
  | inr _ => mret false
  | inl _ =>
      inserted ← try (Presto.InsertInto tableName "VALUES (cast(now() AS TIMESTAMP))");
      mret (match inserted with inl _ => true | inr _ => false end)
  end.

Definition statusResponse (status : string) (details : option string) : outcome json :=
  Ok (JObject [("status", JString status); ("details", match details with Some d => JString d | None => JNull end)]).
Definition readinessHandler (initialized : bool) : M S (list wop) :=
  if negb initialized then
    mret (writeResponseAsJSON StatusInternalServerError (statusResponse "not ready" (Some "not initialized")))
  else
    readable ← TestReadFromPresto;
    mret (if (readable : bool) then writeResponseAsJSON StatusOK (statusResponse "ok" None)
          else writeResponseAsJSON StatusInternalServerError
            (statusResponse "not ready" (Some "cannot read from PrestoDB"))).
End server.
