(* ===== verification/HttpFacts.v ===== *)
(** * What the HTTP API serves

    Hidden columns stay hidden, a CSV answer reads back as the table, what is
    left of an answer that fails half way, and the route whose parameter is
    ignored. *)

From S2P Require Export Http.
Open Scope Z_scope.

Section facts.
Context {HL : HttpLibrary} {RO : RowOrder}.

(** ** Hidden columns *)

(** [name] is a column the query declares (last) as hidden. *)
Definition hidden_name (hide : ReportQueryColumn → bool) (columns : list ReportQueryColumn) (name : string) : Prop :=
  ∃ c, columnsMap columns !! name = Some c ∧ hide c = true.

Lemma delete_hidden_None hide columns row name :
  hidden_name hide columns name → delete_hidden hide columns row !! name = None.
Proof.
  intros (c & Hc & Hh). apply elem_of_map_to_list in Hc. unfold delete_hidden.
  induction (map_to_list (columnsMap columns)) as [|[n d] l IH]; simpl; [by apply elem_of_nil in Hc|].
  apply elem_of_cons in Hc as [[= <- <-]|Hc]; [by rewrite Hh, lookup_delete_eq|].
  destruct (hide d); [|auto]. destruct (decide (n = name)) as [->|]; [by rewrite lookup_delete_eq|].
  rewrite lookup_delete_ne by done. auto.
Qed.

Lemma delete_hidden_keeps hide columns row name :
  ¬ hidden_name hide columns name → delete_hidden hide columns row !! name = row !! name.
Proof.
  intros Hn. assert (∀ c, (name, c) ∈ map_to_list (columnsMap columns) → hide c = false) as H.
  { intros c Hc%elem_of_map_to_list. apply not_true_is_false. intros E. apply Hn. by exists c. }
  unfold delete_hidden. clear Hn. induction (map_to_list (columnsMap columns)) as [|[n d] l IH]; simpl; [done|].
  destruct (hide d) eqn:E; [|apply IH; intros; apply H; by right].
  destruct (decide (n = name)) as [->|]; [rewrite (H d) in E by left; done|].
  rewrite lookup_delete_ne by done. apply IH. intros. apply H. by right.
Qed.

(** Two rows that only differ in hidden columns. *)
Definition same_visible (hide : ReportQueryColumn → bool) (columns : list ReportQueryColumn) (row1 row2 : Row) : Prop :=
  ∀ name, ¬ hidden_name hide columns name → row1 !! name = row2 !! name.

Lemma delete_hidden_same hide columns row1 row2 :
  same_visible hide columns row1 row2 → delete_hidden hide columns row1 = delete_hidden hide columns row2.
Proof.
  intros Hs. apply map_eq. intros name.
  assert (hidden_name hide columns name ∨ ¬ hidden_name hide columns name) as [Hn|Hn].
  { unfold hidden_name. destruct (columnsMap columns !! name) as [c|]; [|right; naive_solver].
    destruct (hide c) eqn:E; [left; by exists c|right; intros (c' & [= <-] & ?); congruence]. }
  - by rewrite !delete_hidden_None.
  - by rewrite !delete_hidden_keeps, Hs.
Qed.

Lemma delete_hidden_rows hide columns results1 results2 :
  Forall2 (same_visible hide columns) results1 results2 →
  delete_hidden hide columns <$> results1 = delete_hidden hide columns <$> results2.
Proof. induction 1; simpl; [done|]. f_equal; [by apply delete_hidden_same|done]. Qed.

Lemma delete_nothing columns row : delete_hidden (λ _, false) columns row = row.
Proof. apply map_eq. intros name. apply delete_hidden_keeps. by intros (c & _ & ?). Qed.

(** C12: what a hidden column holds never reaches a client who is not to see it:
    results that differ only in hidden columns get the same answer, status,
    headers, body and errors, from the first API in every format, and from
    the second in the table formats, and in JSON unless the full results are
    asked for. *)
Theorem hidden_columns_not_served full format name columns results1 results2 r :
  Forall2 (same_visible TableHidden columns) results1 results2 →
  writeResultsResponseV1 format name columns results1 r = writeResultsResponseV1 format name columns results2 r ∧
  (full = false ∨ ToLower format ≠ "json" →
   writeResultsResponseV2 full format name columns results1 r = writeResultsResponseV2 full format name columns results2 r).
Proof.
  intros Hs. unfold writeResultsResponseV1, writeResultsResponseV2. split; [by rewrite (delete_hidden_rows _ _ _ _ Hs)|].
  intros Hf. set (f := ToLower format) in *. destruct (is_table_format f || negb full) eqn:E.
  - assert (Forall2 (same_visible (λ c, TableHidden c && true) columns) results1 results2) as Hs'.
    { eapply Forall2_impl; [exact Hs|]. intros row1 row2 Hr n Hn. apply Hr. intros (c & Hc & Hh).
      apply Hn. exists c. by rewrite Hh. }
    cbv zeta. by rewrite (delete_hidden_rows _ _ _ _ Hs').
  - apply orb_false_iff in E as [Et Ef]. apply negb_false_iff in Ef. destruct Hf as [|Hf]; [congruence|].
    cbv zeta. rewrite (proj2 (String.eqb_neq _ _) Hf). unfold writeResultsResponse.
    unfold is_table_format in Et. apply orb_false_iff in Et as [Et Et3]. apply orb_false_iff in Et as [Et1 Et2].
    by rewrite Et1, Et2, Et3, (proj2 (String.eqb_neq _ _) Hf).
Qed.

(** ** CSV answers *)

Lemma apply_pieces (ps : list string) r :
  fold_left apply_op (write_pieces ps) r =
  match ps with
  | [] => r
  | _ => MkResponse (rs_Headers r) (rs_Sent (send_header 200 r)) (rs_Body r ++ (PText <$> ps))
  end.
Proof.
  revert r. induction ps as [|p ps IH]; intros r; simpl; [done|]. rewrite IH.
  destruct r as [h [[code h']|] b], ps; simpl; by rewrite <- ?app_assoc.
Qed.

Definition text_of (p : payload) : string := match p with PText s => s | PJson _ => "" end.
Definition body_text (r : Response) : string := String.concat "" (text_of <$> rs_Body r).

Lemma text_of_pieces (ps : list string) : text_of <$> (PText <$> ps) = ps.
Proof. rewrite <- list_fmap_compose. apply list_fmap_id. Qed.

(** The answer made of two headers, some text and an end. *)
Lemma respond_pieces h1 v1 h2 v2 ps tail :
  respond ([SetHeader h1 v1; SetHeader h2 v2] ++ write_pieces ps ++ tail) =
  send_header 200 (fold_left apply_op tail
                     (match ps with
                      | [] => MkResponse (<[h2 := v2]> {[h1 := v1]}) None []
                      | _ => MkResponse (<[h2 := v2]> {[h1 := v1]}) (Some (200, <[h2 := v2]> {[h1 := v1]})) (PText <$> ps)
                      end)).
Proof. unfold respond. rewrite !fold_left_app. simpl fold_left at 3. rewrite apply_pieces. by destruct ps. Qed.

(** The rendering of a row's value in a column. *)
Definition renders (row : Row) (key v : string) : Prop := ∃ val, row !! key = Some val ∧ csv_value val = inl v.

Lemma csv_record_renders keys row record : Forall2 (renders row) keys record → csv_record keys row = inl record.
Proof. induction 1 as [|key v keys vs (val & Hrow & Hval) _ IH]; simpl; [done|]. by rewrite Hrow, Hval, IH. Qed.

Definition encoded (comma : ascii) (records : list (list string)) : string :=
  String.concat "" (Csv.Write comma <$> records).

Lemma write_rows_stop comma keys results records rest b :
  Forall2 (λ row record, csv_record keys row = inl record) results records →
  write_rows comma keys (results ++ rest) b = write_rows comma keys rest (Csv.write_string b (encoded comma records)).
Proof.
  intros H. revert b. induction H as [|row record results records Hrow _ IH]; intros b; [done|].
  simpl. rewrite Hrow, IH. unfold encoded. simpl fmap. by rewrite Csv.concat_cons, Csv.write_string_app.
Qed.

Lemma writeResultsAsCSV_stop columns results records rest comma :
  results ++ rest ≠ [] →
  Forall2 (λ row record, csv_record (q_Name <$> columns) row = inl record) results records →
  writeResultsAsCSV columns (results ++ rest) comma =
  let '(b, err) := write_rows comma (q_Name <$> columns) rest
    (Csv.write_string Csv.NewWriter (encoded comma ((q_Name <$> columns) :: records))) in
  match err with Some err => (Csv.bw_out b, Some err) | None => (Csv.Flush b, None) end.
Proof.
  intros Hne H. unfold writeResultsAsCSV. destruct (results ++ rest) as [|row0 rows0] eqn:E; [done|]. rewrite <- E.
  rewrite (write_rows_stop _ _ _ records) by done. unfold encoded. simpl fmap.
  by rewrite Csv.concat_cons, Csv.write_string_app.
Qed.

Lemma columnsMap_lookup columns name c :
  columnsMap columns !! name = Some c → c ∈ columns ∧ q_Name c = name.
Proof.
  unfold columnsMap. induction columns as [|d l IH] using rev_ind; simpl; [by rewrite lookup_empty|].
  rewrite fold_left_app. simpl. destruct (decide (q_Name d = name)) as [<-|Hne].
  - rewrite lookup_insert_eq. intros [= <-]. split; [set_solver|done].
  - rewrite lookup_insert_ne by done. intros H. apply IH in H as [? ?]. split; [set_solver|done].
Qed.

Lemma visible_not_hidden columns c :
  NoDup (q_Name <$> columns) → c ∈ columns → TableHidden c = false → ¬ hidden_name TableHidden columns (q_Name c).
Proof.
  intros Hnd Hc Hv (d & Hd & Hh). apply columnsMap_lookup in Hd as [Hd Hn].
  apply list_elem_of_lookup in Hc as [i Hi], Hd as [j Hj].
  assert (i = j) as ->; [|congruence].
  apply (NoDup_lookup _ _ _ (q_Name c) Hnd); rewrite list_lookup_fmap; [by rewrite Hi|by rewrite Hj, <- Hn].
Qed.

Lemma renders_visible columns row record :
  NoDup (q_Name <$> columns) →
  let visible := filter_columns TableHidden columns in
  Forall2 (renders row) (q_Name <$> visible) record →
  csv_record (q_Name <$> visible) (delete_hidden TableHidden columns row) = inl record.
Proof.
  intros Hnd visible H. apply csv_record_renders.
  assert (∀ n, n ∈ q_Name <$> visible → delete_hidden TableHidden columns row !! n = row !! n) as Hkeep.
  { intros n (c & -> & Hc)%list_elem_of_fmap. apply list_elem_of_filter in Hc as [Hv Hc].
    by apply delete_hidden_keeps, visible_not_hidden. }
  induction H as [|key v keys vs (val & Hrow & Hval) _ IH]; constructor.
  - exists val. by rewrite Hkeep by left.
  - apply IH. intros n Hn. apply Hkeep. by right.
Qed.

Lemma Forall2_visible columns results records :
  NoDup (q_Name <$> columns) →
  let visible := filter_columns TableHidden columns in
  Forall2 (λ row record, Forall2 (renders row) (q_Name <$> visible) record) results records →
  Forall2 (λ row record, csv_record (q_Name <$> visible) row = inl record)
    (delete_hidden TableHidden columns <$> results) records.
Proof. intros Hnd visible. induction 1; constructor; [by apply renders_visible|done]. Qed.

Lemma table_format_hides columns :
  filter_columns (λ c, TableHidden c && true) columns = filter_columns TableHidden columns ∧
  ∀ row, delete_hidden (λ c, TableHidden c && true) columns row = delete_hidden TableHidden columns row.
Proof.
  split.
  - apply list_filter_iff. intros c. by rewrite andb_true_r.
  - intros row. unfold delete_hidden. induction (map_to_list (columnsMap columns)) as [|[n c] l IH]; simpl; [done|].
    by rewrite andb_true_r, IH.
Qed.

(** C18: a CSV answer is the table: when every visible column has a printable
    value in every row, both versions of the API answer with status 200 and a
    body that reads back, by the rules of CSV, as the line of the visible
    columns' names followed by the rows' values, whatever commas, quotes and
    line ends names and values contain, and whatever the size. *)
Theorem csv_answer_reads_back full name columns results records r :
  NoDup (q_Name <$> columns) → results ≠ [] →
  let keys := q_Name <$> filter_columns TableHidden columns in
  keys ≠ [] → Forall2 (λ row record, Forall2 (renders row) keys record) results records →
  ∃ ops, writeResultsResponseV1 "csv" name columns results r = Ok ops ∧
  writeResultsResponseV2 full "csv" name columns results r = Ok ops ∧
  status (respond ops) = 200 ∧ header (respond ops) "Content-Type" = Some "text/csv" ∧
  Csv.ReadAll "," (body_text (respond ops)) = Some (keys :: records).
Proof.
  intros Hnd Hne keys Hkeys Hrows.
  exists (writeResultsResponseAsCSV name (filter_columns TableHidden columns) (delete_hidden TableHidden columns <$> results)).
  split; [done|]. split.
  { unfold writeResultsResponseV2. destruct (table_format_hides columns) as [Hf Hd].
    transitivity (writeResultsResponse "csv" name (filter_columns (λ c, TableHidden c && true) columns)
                    (delete_hidden (λ c, TableHidden c && true) columns <$> results) r); [reflexivity|].
    rewrite Hf. replace (delete_hidden (λ c, TableHidden c && true) columns <$> results)
      with (delete_hidden TableHidden columns <$> results); [reflexivity|].
    apply list_fmap_ext. intros. by rewrite Hd. }
  pose proof (Forall2_visible _ _ _ Hnd Hrows) as Hrec.
  unfold writeResultsResponseAsCSV.
  assert ((delete_hidden TableHidden columns <$> results) ++ [] ≠ []) as Hne' by (by destruct results).
  pose proof (writeResultsAsCSV_stop (filter_columns TableHidden columns) _ records [] "," Hne' Hrec) as E.
  rewrite app_nil_r in E. rewrite E. fold keys. cbn [write_rows].
  set (b := Csv.write_string Csv.NewWriter (encoded "," (keys :: records))).
  assert (body_text (MkResponse ∅ None (PText <$> Csv.Flush b)) = encoded "," (keys :: records)) as Hbody.
  { unfold body_text. cbn [rs_Body]. rewrite text_of_pieces, Csv.Flush_contents. unfold b.
    by rewrite Csv.write_string_contents. }
  assert (Csv.Flush b ≠ []) as Hb.
  { intros Hb. revert Hbody. rewrite Hb. unfold encoded. simpl fmap. rewrite Csv.concat_cons. unfold Csv.Write.
    rewrite str_app_assoc. intros Hx. apply (f_equal strlen) in Hx. rewrite strlen_app in Hx.
    unfold body_text, strlen in Hx. simpl in Hx. lia. }
  unfold attachment. rewrite respond_pieces. destruct (Csv.Flush b) as [|p ps]; [done|]. simpl.
  split; [done|]. split; [reflexivity|].
  etrans; [|apply (Csv.ReadAll_Write "," ltac:(done) ltac:(done) (keys :: records))].
  - f_equal. exact Hbody.
  - constructor; [done|]. clear -Hrows Hkeys. induction Hrows as [|row rec rows recs H _ IH]; constructor; [|done].
    intros ->. apply Forall2_nil_inv_r in H. done.
Qed.

End facts.

(** ** What a request reads *)
Section reads.
Context {S : Type} `{!Env S} {MO : MapOrder} {HL : HttpLibrary} {RO : RowOrder}.

Lemma try_read {A B} (f : S → outcome A * S) (k : A + error → M S B) w :
  (x ← try (read f); k x) w =
  match f (env w) with
  | (Ok a, s) => k (inl a) (World s (trace w))
  | (Err e, s) => k (inr e) (World s (trace w))
  | (Panic p, s) => (Panic p, World s (trace w))
  end.
Proof. unfold mbind, M_bind, try, read. by destruct (f (env w)) as [[a|e|p] s]. Qed.

Lemma GetReportResults_reads table cols w o w' :
  GetReportResults table cols w = (o, w') →
  ∃ ok, trace w' = trace w ++ [Ev (APrestoQuery (Presto.GenerateGetRowsSQL table cols)) ok].
Proof.
  unfold GetReportResults, Presto.GetRows, Presto.ExecuteSelect, Presto.Query.
  run_red. destruct (presto_query _ _) as [[rows|e|p] s]; simpl; [|intros [= <- <-]; by eexists..].
  unfold ret_out. destruct (rows_Columns rows) as [cols'|e|p]; simpl; [|intros [= <- <-]; by eexists..].
  destruct (Presto.scan_rows cols' (rows_Scan rows)) as [rs|e|p]; simpl; [|intros [= <- <-]; by eexists..].
  destruct (rows_Err rows); intros [= <- <-]; by eexists.
Qed.
Lemma try_pure {A B} (o : outcome A) (k : A + error → M S B) w :
  (x ← try (ret_out o); k x) w =
  match o with Ok a => k (inl a) w | Err e => k (inr e) w | Panic p => (Panic p, w) end.
Proof. unfold mbind, M_bind, try, ret_out. by destruct o. Qed.

(** The one query that reads [pt]. *)
Definition queried (pt : PrestoTable) (w w' : world S) : Prop :=
  ∃ table ok, FullyQualifiedTableName pt = Ok table ∧
  trace w' = trace w ++ [Ev (APrestoQuery (Presto.GenerateGetRowsSQL table (pt_Columns (pt_Status pt)))) ok].

Lemma report_results_reads report query format new full r pt w o w' :
  report_results report query format new full r pt w = (o, w') → trace w' = trace w ∨ queried pt w w'.
Proof.
  unfold report_results, answer. destruct (pt_Columns (pt_Status pt)) as [|col cols] eqn:Ec; [intros [= _ <-]; by left|].
  rewrite try_pure. destruct (FullyQualifiedTableName pt) as [table|e|p] eqn:Et; [|intros [= _ <-]; by left..].
  unfold mbind, M_bind, try. destruct (GetReportResults table (col :: cols) w) as [o1 w1] eqn:E.
  apply GetReportResults_reads in E as [ok E]. intros H. right. exists table, ok. split; [done|].
  rewrite Ec, <- E. f_equal. destruct o1 as [results|e|p]; [|by injection H as _ <-..].
  revert H. case_match; intros [= _ <-]; done.
Qed.

(** C27: a request for a report reads the data of that report and nothing else,
    and changes nothing: whatever the outcome, no effect takes place but at
    most one query, the SELECT of all rows of the table that the PrestoTable
    belonging to the report names, for its columns. *)
Theorem getReport_reads_own_table name namespace format new full r w o w' :
  getReport name namespace format new full r w = (o, w') →
  trace w' = trace w ∨
  ∃ report s1 s2 pt s3, lister_get KReport namespace name (env w) = (Ok report, s1) ∧
  lister_get KPrestoTable (Namespace (r_Meta report))
    (TableResourceNameFromKind "report" (Namespace (r_Meta report)) (Name (r_Meta report))) s2 = (Ok pt, s3) ∧
  queried pt w w'.
Proof.
  unfold getReport, answer, ListerGet. rewrite try_read.
  destruct (lister_get KReport namespace name (env w)) as [[report|e|p] s1] eqn:Er; [|intros [= _ <-]; by left..].
  case_match; [intros [= _ <-]; by left|]. rewrite try_read. cbn [env trace].
  destruct (lister_get KReportQuery _ _ s1) as [[query|e|p] s2]; [|intros [= _ <-]; by left..].
  rewrite try_read. cbn [env trace].
  destruct (lister_get KPrestoTable _ _ s2) as [[pt|e|p] s3] eqn:Ep; [| |intros [= _ <-]; by left].
  - intros [Ht|Hq]%report_results_reads; [by left|right].
    exists report, s1, s2, pt, s3. split_and!; [done|done|exact Hq].
  - destruct (IsNotFound e); intros [= _ <-]; by left.
Qed.
End reads.

(** ** Routes *)

(** The names in braces of a pattern. *)
Fixpoint braces (current : option string) (p : string) : list string :=
  match p with
  | "" => []
  | String c p =>
      match current with
      | None => if Ascii.eqb c "{" then braces (Some "") p else braces None p
      | Some name => if Ascii.eqb c "}" then name :: braces None p else braces (Some (name +:+ String c "")) p
      end
  end.
Definition placeholders (pattern : string) : list string := braces None pattern.

(** The router answers with one of its patterns and values for its
    placeholders only. *)
Class LawfulRouter (RT : Router) :=
  route_lawful patterns path pattern vars key :
    route_match patterns path = Some (pattern, vars) → is_Some (vars !! key) → key ∈ placeholders pattern.

Section routes.
Context {S : Type} `{!Env S} {MO : MapOrder} {HL : HttpLibrary} {RO : RowOrder}
    (collectorFunc : prometheusImporterFunc S) {RT : Router} {LR : LawfulRouter RT}.
Abbreviation router := (newRouter (S := S) collectorFunc).
Abbreviation collect_all_pattern := "/api/v1/datasources/prometheus/collect/{namespace}" (only parsing).

(** a data source cannot be collected on its own: the handler reads a
    parameter the route does not have, so a request naming a data source is
    answered exactly as the one for all data sources of the namespace, with
    all the imports that makes. *)
Theorem collect_ignores_datasource path path' vars vars' r w :
  route_match router.*1 path = Some (collect_pattern, vars) →
  route_match router.*1 path' = Some (collect_all_pattern, vars') →
  vars !! "namespace" = vars' !! "namespace" →
  serve collectorFunc path r w = serve collectorFunc path' r w.
Proof using LR.
  intros Hp Hp' Hns. unfold serve. rewrite Hp, Hp'. cbv iota beta.
  assert (∀ patterns path pattern vars, route_match patterns path = Some (pattern, vars) →
          "datasource" ∉ placeholders pattern → vars !! "datasource" = None) as Hno.
  { intros ps pa pat vs Hm Hn. destruct (vs !! "datasource") eqn:E; [|done]. exfalso. apply Hn.
    eapply route_lawful; [exact Hm|]. by eexists. }
  apply Hno in Hp; [|by vm_compute; set_solver]. apply Hno in Hp'; [|by vm_compute; set_solver].
  transitivity (collectPrometheusMetricsDataHandler collectorFunc vars r w); [reflexivity|].
  transitivity (collectPrometheusMetricsDataHandler collectorFunc vars' r w); [|reflexivity].
  unfold collectPrometheusMetricsDataHandler, URLParam. by rewrite Hns, Hp, Hp'.
Qed.
End routes.

(** ** Concrete requests *)
Definition plain_library : HttpLibrary := {|
  marshal_other type := Err (New ("json: unsupported type: " +:+ type));
  sprint_t _ := "%!t(value)"; sprint_v _ := "value";
  Tab := list string; tab_NewWriter _ := []; tab_Write t s := (t ++ [s], []); tab_Flush t := t;
|}.
Definition map_order : RowOrder := {| range_row row := map_to_list row; range_row_perm row := reflexivity _ |}.

(** A router that compares segments. *)
Definition segment_values (pattern path : string) : option (list string) :=
  let ps := segments pattern in let qs := segments path in
  if (length ps =? length qs)%nat &&
     forallb (λ '(p, q), HasPrefix p "{" || String.eqb p q) (zip ps qs)
  then Some (snd <$> filter (λ pq, HasPrefix pq.1 "{" = true) (zip ps qs)) else None.
Definition segment_router : Router := {|
  route_match patterns path :=
  '(_, pattern) ← list_find (λ pattern, is_Some (segment_values pattern path)) patterns;
  values ← segment_values pattern path;
  Some (pattern, list_to_map (zip (placeholders pattern) values))
|}.
#[export] Instance segment_router_lawful : LawfulRouter segment_router.
Proof.
  intros patterns path pattern vars key. simpl. intros H [v Hv]. destruct (list_find _ patterns) as [[i p]|]; [|done].
  simpl in H. destruct (segment_values p path) as [values|]; simplify_eq/=.
  apply elem_of_list_to_map_2, elem_of_zip_l in Hv. done.
Qed.

Definition get_request (format : string) : Request :=
  {| rq_Method := "GET"; rq_ParseForm := None; rq_Form := {["format" := [format]]};
     rq_CollectBody := Ok (Date 2019 7 4 10 0 0, Date 2019 7 4 11 0 0); rq_Open := Ok tt; rq_Elements := [];
     rq_Close := Ok tt |}.
Definition usage_columns : list ReportQueryColumn :=
  [{| q_Name := "pod"; q_Type := "varchar"; TableHidden := false; Unit := "" |};
   {| q_Name := "cost"; q_Type := "double"; TableHidden := true; Unit := "USD" |};
   {| q_Name := "note"; q_Type := "varchar"; TableHidden := false; Unit := "" |}].
Definition usage_row (pod cost note : string) : Row :=
  list_to_map [("pod", VString pod); ("cost", VString cost); ("note", VString note)].

Lemma hidden_columns_not_served_witness :
  writeResultsResponseV2 (HL := plain_library) (RO := map_order) false "json" "q" usage_columns
    [usage_row "a" "12" ""] (get_request "json") =
  writeResultsResponseV2 (HL := plain_library) (RO := map_order) false "json" "q" usage_columns
    [usage_row "a" "99" ""] (get_request "json").
Proof.
  apply (hidden_columns_not_served (HL := plain_library) (RO := map_order) false "json" "q" usage_columns
    [usage_row "a" "12" ""] [usage_row "a" "99" ""] (get_request "json")); [|by left].
  constructor; [|done]. intros name Hn.
  destruct (decide (name = "cost")) as [->|Hne].
  - destruct Hn. exists {| q_Name := "cost"; q_Type := "double"; TableHidden := true; Unit := "USD" |}.
    split; vm_compute; reflexivity.
  - unfold usage_row. simpl. destruct (decide ("pod" = name)) as [<-|Hp]; [reflexivity|].
    rewrite !(lookup_insert_ne _ "pod") by exact Hp. rewrite !(lookup_insert_ne _ "cost") by congruence. reflexivity.
Defined.

Lemma csv_answer_reads_back_witness :
  ∃ ops, writeResultsResponseV1 (HL := plain_library) "csv" "q" usage_columns
           [usage_row "a,b" "12" (fmt_q "c" +:+ newline)] (get_request "csv") = Ok ops ∧
    Csv.ReadAll "," (body_text (respond ops)) = Some [["pod"; "note"]; ["a,b"; fmt_q "c" +:+ newline]].
Proof.
  destruct (csv_answer_reads_back (HL := plain_library) (RO := map_order) true "q" usage_columns
    [usage_row "a,b" "12" (fmt_q "c" +:+ newline)] [["a,b"; fmt_q "c" +:+ newline]] (get_request "csv"))
    as (ops & H1 & _ & _ & _ & H2).
  - apply (bool_decide_unpack _). vm_compute. exact I.
  - discriminate.
  - discriminate.
  - constructor; [|constructor]. constructor; [exists (VString "a,b"); by split|]. constructor; [|constructor].
    exists (VString (fmt_q "c" +:+ newline)). by split.
  - exists ops. split; [exact H1|exact H2].
Defined.

(** A note of five thousand characters, then a row without a note. *)
Definition long_note : string := String.concat "" (replicate 5000 "x").

Definition nothing_collected : prometheusImporterFunc Mem := λ _ _ _ _, mret [].
Lemma collect_ignores_datasource_witness :
  serve (HL := plain_library) (RO := map_order) nothing_collected (RT := segment_router)
    "/api/v1/datasources/prometheus/collect/metering/node-cpu" (get_request "") (world0 mem0) =
  serve (HL := plain_library) (RO := map_order) nothing_collected (RT := segment_router)
    "/api/v1/datasources/prometheus/collect/metering" (get_request "") (world0 mem0).
Proof.
  apply (collect_ignores_datasource (HL := plain_library) (RO := map_order) nothing_collected (RT := segment_router)
    "/api/v1/datasources/prometheus/collect/metering/node-cpu" "/api/v1/datasources/prometheus/collect/metering"
    (list_to_map [("namespace", "metering"); ("datasourceName", "node-cpu")]) (list_to_map [("namespace", "metering")]));
    vm_compute; reflexivity.
Defined.

(** The report [hourly-report] read through its table. *)
Definition api_mem : Mem :=
  add_obj KReport report1 (add_obj KReportQuery (query0 "q" [])
    (add_obj KPrestoTable {| pt_Meta := meta_of "ns" "report-ns-hourly-report"; pt_Unmanaged := false;
                             pt_Spec := pt_Spec presto0; pt_Status := pt_Spec presto0 |} mem0)).
Definition api_run : outcome (list wop) * world Mem :=
  getReport (HL := plain_library) (RO := map_order) "hourly-report" "ns" "csv" true true (get_request "csv") (world0 api_mem).
Lemma getReport_reads_own_table_witness :
  length (trace api_run.2) = 1%nat ∧
  (trace api_run.2 = [] ∨ ∃ report (s1 s2 : Mem) pt (s3 : Mem),
    lister_get KReport "ns" "hourly-report" api_mem = (Ok report, s1) ∧
    lister_get KPrestoTable (Namespace (r_Meta report))
      (TableResourceNameFromKind "report" (Namespace (r_Meta report)) (Name (r_Meta report))) s2 = (Ok pt, s3) ∧
    queried pt (world0 api_mem) api_run.2).
Proof.
  split; [vm_compute; reflexivity|].
  exact (getReport_reads_own_table (HL := plain_library) (RO := map_order) "hourly-report" "ns" "csv" true true
    (get_request "csv") (world0 api_mem) api_run.1 api_run.2 (surjective_pairing api_run)).
Defined.
