(* ===== verification/JsonText.v ===== *)
(** * encoding/json: the text of a value

    A value held in an [interface{}], its text ([Marshal]), the scanner that
    decides whether a text is well-formed ([checkValid]) and the decoder
    ([Unmarshal]).  Texts are lists of bytes.  How strconv writes and reads a
    float64 is a parameter. *)

From S2P Require Export Columns Json.
Open Scope Z_scope.

Abbreviation text := (list ascii).
Definition T (s : string) : text := String.list_ascii_of_string s.
Definition byte (c : ascii) : Z := Z.of_nat (nat_of_ascii c).

(** ** The scanner: a step function and a stack of open composites *)
Inductive parse_state := parseObjectKey | parseObjectValue | parseArrayValue.
Inductive step_state :=
  | stateBeginValueOrEmpty | stateBeginValue | stateBeginStringOrEmpty | stateBeginString
  | stateEndValue | stateEndTop
  | stateInString | stateInStringEsc | stateInStringEscU (digits : nat)
  | stateNeg | state1 | state0 | stateDot | stateDot0 | stateE | stateESign | stateE0
  | stateLiteral (rest : text).
Abbreviation scanner := (step_state * list parse_state)%type.

Definition digit (c : ascii) : bool := (48 <=? byte c) && (byte c <=? 57).
Definition exponent (c : ascii) : bool := Ascii.eqb c "e" || Ascii.eqb c "E".

Definition popParseState (stack : list parse_state) : scanner :=
  match stack with [] => (stateEndTop, []) | _ => (stateEndValue, stack) end.

Definition end_value (stack : list parse_state) (c : ascii) : option scanner :=
  match stack with
  | [] => if json_space c then Some (stateEndTop, []) else None
  | top :: rest =>
      if json_space c then Some (stateEndValue, stack)
      else match top with
           | parseObjectKey => if Ascii.eqb c ":" then Some (stateBeginValue, parseObjectValue :: rest) else None
           | parseObjectValue =>
               if Ascii.eqb c "," then Some (stateBeginString, parseObjectKey :: rest)
               else if Ascii.eqb c "}" then Some (popParseState rest) else None
           | parseArrayValue =>
               if Ascii.eqb c "," then Some (stateBeginValue, stack)
               else if Ascii.eqb c "]" then Some (popParseState rest) else None
           end
  end.

Definition begin_value (stack : list parse_state) (c : ascii) : option scanner :=
  if json_space c then Some (stateBeginValue, stack)
  else if Ascii.eqb c "{" then Some (stateBeginStringOrEmpty, parseObjectKey :: stack)
  else if Ascii.eqb c "[" then Some (stateBeginValueOrEmpty, parseArrayValue :: stack)
  else if Ascii.eqb c quote_char then Some (stateInString, stack)
  else if Ascii.eqb c "-" then Some (stateNeg, stack)
  else if Ascii.eqb c "0" then Some (state0, stack)
  else if Ascii.eqb c "t" then Some (stateLiteral (T "rue"), stack)
  else if Ascii.eqb c "f" then Some (stateLiteral (T "alse"), stack)
  else if Ascii.eqb c "n" then Some (stateLiteral (T "ull"), stack)
  else if digit c then Some (state1, stack) else None.

Definition begin_string (stay : step_state) (stack : list parse_state) (c : ascii) : option scanner :=
  if json_space c then Some (stay, stack)
  else if Ascii.eqb c quote_char then Some (stateInString, stack) else None.

(** The first byte after a number ends it. *)
Definition number_step (st : step_state) (stack : list parse_state) (c : ascii) : option scanner :=
  match st with
  | stateNeg =>
      if Ascii.eqb c "0" then Some (state0, stack) else if digit c then Some (state1, stack) else None
  | state1 =>
      if digit c then Some (state1, stack)
      else if Ascii.eqb c "." then Some (stateDot, stack)
      else if exponent c then Some (stateE, stack) else end_value stack c
  | state0 =>
      if Ascii.eqb c "." then Some (stateDot, stack)
      else if exponent c then Some (stateE, stack) else end_value stack c
  | stateDot => if digit c then Some (stateDot0, stack) else None
  | stateDot0 =>
      if digit c then Some (stateDot0, stack)
      else if exponent c then Some (stateE, stack) else end_value stack c
  | stateE =>
      if Ascii.eqb c "+" || Ascii.eqb c "-" then Some (stateESign, stack)
      else if digit c then Some (stateE0, stack) else None
  | stateESign => if digit c then Some (stateE0, stack) else None
  | _ => if digit c then Some (stateE0, stack) else end_value stack c
  end.

Definition string_step (st : step_state) (stack : list parse_state) (c : ascii) : option scanner :=
  match st with
  | stateInStringEsc =>
      if bool_decide (c ∈ T "bfnrt\/") || Ascii.eqb c quote_char then Some (stateInString, stack)
      else if Ascii.eqb c "u" then Some (stateInStringEscU 3, stack) else None
  | stateInStringEscU n =>
      match hex_val c, n with
      | Some _, O => Some (stateInString, stack)
      | Some _, S n => Some (stateInStringEscU n, stack)
      | None, _ => None
      end
  | _ =>
      if Ascii.eqb c quote_char then Some (stateEndValue, stack)
      else if Ascii.eqb c "\" then Some (stateInStringEsc, stack)
      else if byte c <? 32 then None else Some (stateInString, stack)
  end.

Definition step (s : scanner) (c : ascii) : option scanner :=
  let '(st, stack) := s in
  match st with
  | stateBeginValue => begin_value stack c
  | stateBeginValueOrEmpty =>
      if json_space c then Some s else if Ascii.eqb c "]" then end_value stack c else begin_value stack c
  | stateBeginString => begin_string st stack c
  | stateBeginStringOrEmpty =>
      if json_space c then Some s
      else if Ascii.eqb c "}" then end_value (parseObjectValue :: tail stack) c
      else begin_string st stack c
  | stateEndValue => end_value stack c
  | stateEndTop => if json_space c then Some s else None
  | stateInString | stateInStringEsc | stateInStringEscU _ => string_step st stack c
  | stateLiteral (e :: rest) =>
      if Ascii.eqb c e then Some (match rest with [] => stateEndValue | _ => stateLiteral rest end, stack) else None
  | stateLiteral [] => None
  | _ => number_step st stack c
  end.

Fixpoint scan (s : scanner) (l : text) : option scanner :=
  match l with [] => Some s | c :: l => s ← step s c; scan s l end.
Definition reset : scanner := (stateBeginValue, []).

(** [scanner.eof]: whether the text is a complete value. *)
Definition eof (s : scanner) : bool :=
  match step s " " with Some (stateEndTop, _) => true | _ => false end.
Definition checkValid (l : text) : bool :=
  match scan reset l with Some s => eof s | None => false end.

(** ** Values *)
Class Float64 := {
  float64 : Type;
  is_number : float64 → bool;                 (* neither infinite nor NaN *)
  FormatFloat : float64 → text;
  ParseFloat : text → option float64;
}.

(** A value of type [interface{}].  A map is its entries, by key; an ordered
    map (orderedmap.OrderedMap) is a list of keys and a map. *)
Inductive any `{Float64} :=
  | AnyNil
  | AnyBool (b : bool)
  | AnyFloat (x : float64)
  | AnyString (s : string)
  | AnySlice (l : list any)
  | AnyMap (m : list (string * any))
  | AnyOrdered (keys : list string) (values : list (string * any)).

(** ** Maps *)
Section maps.
Context {A : Type}.
Fixpoint map_get (m : list (string * A)) (k : string) : option A :=
  match m with
  | [] => None
  | (k', a) :: m => if String.eqb k' k then Some a else map_get m k
  end.
Fixpoint map_set (k : string) (a : A) (m : list (string * A)) : list (string * A) :=
  match m with
  | [] => [(k, a)]
  | (k', a') :: m' =>
      if String.eqb k' k then (k, a) :: m'
      else if bool_decide (String.le k k') then (k, a) :: m else (k', a') :: map_set k a m'
  end.
End maps.

(** ** Writing *)
Definition hex_char (z : Z) : ascii := hex_digit (Z.to_nat (z mod 16)).
Definition u_escape (z : Z) : text :=
  "\"%char :: "u"%char :: [hex_char (z / 4096); hex_char (z / 256); hex_char (z / 16); hex_char z].

(** Bytes written as they are with HTML escaping on. *)
Definition htmlSafe (c : ascii) : bool :=
  (32 <=? byte c) && (byte c <? 128) && negb (Ascii.eqb c quote_char || Ascii.eqb c "\" ||
    Ascii.eqb c "<" || Ascii.eqb c ">" || Ascii.eqb c "&").

Definition escape_ascii (c : ascii) : text :=
  if htmlSafe c then [c]
  else if Ascii.eqb c "\" || Ascii.eqb c quote_char then ["\"%char; c]
  else if byte c =? 10 then T "\n"
  else if byte c =? 13 then T "\r"
  else if byte c =? 9 then T "\t"
  else u_escape (byte c).

(** The first [skip] bytes belong to the rune before, which was written or
    replaced. *)
Fixpoint escape (skip : nat) (copied : bool) (l : text) : text :=
  match l with
  | [] => []
  | c :: l =>
      match skip with
      | S skip => (if copied then [c] else []) ++ escape skip copied l
      | O =>
          if byte c <? 128 then escape_ascii c ++ escape 0 true l
          else
            let '(r, w) := decode_rune (byte c) (byte <$> l) in
            if (r =? RuneError) && (w =? 1)%nat then T "\ufffd" ++ escape 0 true l
            else if (r =? 0x2028) || (r =? 0x2029) then u_escape r ++ escape (pred w) false l
            else c :: escape (pred w) true l
      end
  end.
Definition encode_string (s : string) : text := quote_char :: escape 0 true (T s) ++ [quote_char].

(** [json.compact], which checks what a MarshalJSON method returned, drops the
    white space outside strings and escapes HTML. *)
Definition in_string (st : step_state) : bool :=
  match st with stateInString | stateInStringEsc | stateInStringEscU _ => true | _ => false end.
Definition line_separator (l : text) : bool :=
  match l with b1 :: b2 :: _ => (byte b1 =? 0x80) && ((byte b2 =? 0xA8) || (byte b2 =? 0xA9)) | _ => false end.
Fixpoint compact_from (skip : nat) (s : scanner) (l : text) : option text :=
  match l with
  | [] => if eof s then Some [] else None
  | c :: l =>
      s' ← step s c;
      let out :=
        match skip with
        | S _ => []
        | O =>
            if Ascii.eqb c "<" || Ascii.eqb c ">" || Ascii.eqb c "&" then u_escape (byte c)
            else if (byte c =? 0xE2) && line_separator l
            then u_escape (0x2020 + match l with _ :: b2 :: _ => byte b2 mod 16 | _ => 0 end)
            else if json_space c && negb (in_string (fst s)) then [] else [c]
        end in
      let skip :=
        match skip with
        | S skip => skip
        | O => if (byte c =? 0xE2) && line_separator l then 2%nat else 0%nat
        end in
      rest ← compact_from skip s' l;
      Some (out ++ rest)
  end.
Definition compact (l : text) : option text := compact_from 0 reset l.

(** Items between commas. *)
Fixpoint comma_join (l : list text) : text :=
  match l with [] => [] | [t] => t | t :: l => t ++ ","%char :: comma_join l end.
Definition encode_member (p : string * text) : text := encode_string p.1 ++ ":"%char :: p.2.
Definition braces (t : text) : text := "{"%char :: t ++ ["}"%char].
Definition brackets (t : text) : text := "["%char :: t ++ ["]"%char].

Section marshal.
Context `{Float64}.

(** [OrderedMap.MarshalJSON], given the texts of the values: keys are quoted
    but for quotes not escaped; a key without a value is nil. *)
Definition kEscaped (k : text) : text :=
  k ≫= λ c, if Ascii.eqb c quote_char then ["\"%char; c] else [c].
Definition kQuoted (k : string) : text := quote_char :: kEscaped (T k) ++ [quote_char].
Definition MarshalJSON (keys : list string) (vBytes : list (string * option text)) : option text :=
  l ← mapM (λ k, v ← (match map_get vBytes k with Some v => v | None => Some (T "null") end);
                 Some (kQuoted k ++ ":"%char :: v)) keys;
  Some (braces (comma_join l)).

(** [json.Marshal]: the keys of a map are sorted; what a MarshalJSON method
    returns is compacted. *)
Fixpoint Marshal (v : any) : option text :=
  match v with
  | AnyNil => Some (T "null")
  | AnyBool b => Some (T (if b then "true" else "false"))
  | AnyFloat x => if is_number x then Some (FormatFloat x) else None
  | AnyString s => Some (encode_string s)
  | AnySlice l => l ← mapM id (Marshal <$> l); Some (brackets (comma_join l))
  | AnyMap m =>
      let members := (λ '(k, v), (k, Marshal v)) <$> m in
      l ← mapM (λ '(k, t), t ← t; Some (encode_member (k, t))) (sort_by fst members);
      Some (braces (comma_join l))
  | AnyOrdered keys values => t ← MarshalJSON keys ((λ '(k, v), (k, Marshal v)) <$> values); compact t
  end.
End marshal.

(** ** Reading *)

(** UTF-8 of a rune. *)
Definition EncodeRune (r : Z) : text :=
  if r <? 0x10000 then utf8 r
  else let b z := ascii_of_nat (Z.to_nat z) in
       [b (0xF0 + r / 262144); b (0x80 + r / 4096 mod 64); b (0x80 + r / 64 mod 64); b (0x80 + r mod 64)].

(** [getu4] on the four digits. *)
Definition getu4 (h1 h2 h3 h4 : ascii) : option Z :=
  v1 ← hex_val h1; v2 ← hex_val h2; v3 ← hex_val h3; v4 ← hex_val h4;
  Some (v1 * 4096 + v2 * 256 + v3 * 16 + v4).
(** A surrogate pair: the rune, and the bytes of the second escape. *)
Definition surrogate_pair (r : Z) (l : text) : option Z :=
  match l with
  | b :: u :: h1 :: h2 :: h3 :: h4 :: _ =>
      if Ascii.eqb b "\" && Ascii.eqb u "u" && (0xD800 <=? r) && (r <? 0xDC00) then
        r1 ← getu4 h1 h2 h3 h4;
        if (0xDC00 <=? r1) && (r1 <? 0xE000) then Some ((r - 0xD800) * 1024 + (r1 - 0xDC00) + 0x10000) else None
      else None
  | _ => None
  end.

Definition simple_escape (e : ascii) : option ascii :=
  if Ascii.eqb e quote_char || Ascii.eqb e "\" || Ascii.eqb e "/" then Some e
  else if Ascii.eqb e "b" then Some (ascii_of_nat 8)
  else if Ascii.eqb e "f" then Some (ascii_of_nat 12)
  else if Ascii.eqb e "n" then Some (ascii_of_nat 10)
  else if Ascii.eqb e "r" then Some (ascii_of_nat 13)
  else if Ascii.eqb e "t" then Some (ascii_of_nat 9) else None.

(** [unquote]: the string after an opening quote, and the text after the
    closing one; [skip] bytes belong to what was decoded before. *)
Fixpoint unquote (skip : nat) (l : text) : option (text * text) :=
  match l with
  | [] => None
  | c :: l =>
      match skip with
      | S skip => unquote skip l
      | O =>
          if Ascii.eqb c quote_char then Some ([], l)
          else if Ascii.eqb c "\" then
            match l with
            | e :: l =>
                if Ascii.eqb e "u" then
                  match l with
                  | h1 :: h2 :: h3 :: h4 :: l =>
                      r ← getu4 h1 h2 h3 h4;
                      match surrogate_pair r l with
                      | Some r => '(s, rest) ← unquote 6 l; Some (EncodeRune r ++ s, rest)
                      | None => '(s, rest) ← unquote 0 l; Some (EncodeRune r ++ s, rest)
                      end
                  | _ => None
                  end
                else a ← simple_escape e; '(s, rest) ← unquote 0 l; Some (a :: s, rest)
            | [] => None
            end
          else if byte c <? 32 then None
          else if byte c <? 128 then '(s, rest) ← unquote 0 l; Some (c :: s, rest)
          else
            let '(r, w) := decode_rune (byte c) (byte <$> l) in
            '(s, rest) ← unquote (pred w) l; Some (EncodeRune r ++ s, rest)
      end
  end.

(** The bytes a number literal is made of. *)
Definition number_char (c : ascii) : bool :=
  digit c || exponent c || bool_decide (c ∈ T "+-.").
Fixpoint span_number (l : text) : text * text :=
  match l with
  | c :: l' => if number_char c then let '(t, rest) := span_number l' in (c :: t, rest) else ([], l)
  | [] => ([], [])
  end.

Definition literal (t : text) (l : text) : option text :=
  if bool_decide (take (length t) l = t) then Some (drop (length t) l) else None.

Section unmarshal.
Context `{Float64}.

(** The decoder runs on text that is well-formed; a number out of range is an
    error.  [fuel] bounds the steps: the length of the text is enough.  A key
    that comes again replaces the value. *)
Fixpoint decode_value (fuel : nat) (l : text) : option (any * text) :=
  match fuel with
  | O => None
  | S fuel =>
      match drop_space l with
      | [] => None
      | c :: l =>
          if Ascii.eqb c "{" then
            match drop_space l with
            | c' :: l' =>
                if Ascii.eqb c' "}" then Some (AnyMap [], l')
                else '(m, rest) ← decode_members fuel [] l; Some (AnyMap m, rest)
            | [] => None
            end
          else if Ascii.eqb c "[" then
            match drop_space l with
            | c' :: l' =>
                if Ascii.eqb c' "]" then Some (AnySlice [], l')
                else '(items, rest) ← decode_items fuel l; Some (AnySlice items, rest)
            | [] => None
            end
          else if Ascii.eqb c quote_char then
            '(s, rest) ← unquote 0 l; Some (AnyString (String.string_of_list_ascii s), rest)
          else if Ascii.eqb c "t" then rest ← literal (T "rue") l; Some (AnyBool true, rest)
          else if Ascii.eqb c "f" then rest ← literal (T "alse") l; Some (AnyBool false, rest)
          else if Ascii.eqb c "n" then rest ← literal (T "ull") l; Some (AnyNil, rest)
          else let '(t, rest) := span_number (c :: l) in x ← ParseFloat t; Some (AnyFloat x, rest)
      end
  end
with decode_members (fuel : nat) (m : list (string * any)) (l : text) : option (list (string * any) * text) :=
  match fuel with
  | O => None
  | S fuel =>
      match drop_space l with
      | c :: l =>
          if Ascii.eqb c quote_char then
            '(k, l) ← unquote 0 l;
            match drop_space l with
            | _ :: l =>      (* the colon *)
                '(v, l) ← decode_value fuel l;
                let m := map_set (String.string_of_list_ascii k) v m in
                match drop_space l with
                | c :: l => if Ascii.eqb c "}" then Some (m, l) else decode_members fuel m l
                | [] => None
                end
            | [] => None
            end
          else None
      | [] => None
      end
  end
with decode_items (fuel : nat) (l : text) : option (list any * text) :=
  match fuel with
  | O => None
  | S fuel =>
      '(v, l) ← decode_value fuel l;
      match drop_space l with
      | c :: l =>
          if Ascii.eqb c "]" then Some ([v], l)
          else '(vs, rest) ← decode_items fuel l; Some (v :: vs, rest)
      | [] => None
      end
  end.

(** [json.Unmarshal] into an [interface{}], a map and a slice; [null] sets a
    map or slice to nil, which reads as the empty one. *)
Definition Unmarshal (b : text) : option any :=
  if checkValid b then fst <$> decode_value (S (length b)) b else None.
Definition UnmarshalMap (b : text) : option (list (string * any)) :=
  match Unmarshal b with Some (AnyMap m) => Some m | Some AnyNil => Some [] | _ => None end.
Definition UnmarshalSlice (b : text) : option (list any) :=
  match Unmarshal b with Some (AnySlice l) => Some l | Some AnyNil => Some [] | _ => None end.
End unmarshal.
