(* ===== verification/JsonFacts.v ===== *)
(** * What Marshal writes: well-formed, compact, and read back as it was

    For plain values: ASCII strings, finite numbers, maps with keys that need
    no escaping.  [qscan] is the scanner on text without white space between
    tokens and without the characters HTML escaping replaces. *)

From S2P Require Export JsonText.
Open Scope Z_scope.

#[global] Arguments step : simpl never.
#[global] Arguments end_value : simpl never.
#[global] Arguments begin_value : simpl never.

(** ** Plain values *)
Definition is_ascii (s : string) : bool := forallb (λ c, byte c <? 128) (T s).

(** A key that is written as it is, and does not start with a colon. *)
Definition plain_key (k : string) : bool :=
  forallb htmlSafe (T k) && match k with String c _ => negb (Ascii.eqb c ":") | "" => true end.

Definition key_lt (k k' : string) : bool := bool_decide (String.le k k') && negb (String.eqb k k').
Fixpoint ascending (l : list string) : bool :=
  match l with
  | k :: l' => match l' with k' :: _ => key_lt k k' | [] => true end && ascending l'
  | [] => true
  end.

(** What strconv promises of a finite number: a JSON number, which reads back
    as the same. *)
Definition number_end (st : step_state) : bool :=
  match st with state0 | state1 | stateDot0 | stateE0 => true | _ => false end.
Definition number_text (t : text) : bool :=
  forallb number_char t && match scan reset t with Some (st, _) => number_end st | None => false end.
Class FloatText `{Float64} := {
  FormatFloat_number x : is_number x = true → number_text (FormatFloat x) = true;
  ParseFloat_FormatFloat x : is_number x = true → ParseFloat (FormatFloat x) = Some x;
}.

Section plain.
Context `{Float64}.

Fixpoint plain (v : any) : bool :=
  match v with
  | AnyNil | AnyBool _ => true
  | AnyFloat x => is_number x
  | AnyString s => is_ascii s
  | AnySlice l => forallb plain l
  | AnyMap m => ascending (fst <$> m) && forallb (λ p, plain_key p.1 && plain p.2) m
  | AnyOrdered _ _ => false
  end.

(** The text of a plain value. *)
Fixpoint enc (v : any) : text :=
  match v with
  | AnyNil => T "null"
  | AnyBool b => T (if b then "true" else "false")
  | AnyFloat x => FormatFloat x
  | AnyString s => encode_string s
  | AnySlice l => brackets (comma_join (enc <$> l))
  | AnyMap m => braces (comma_join ((λ p, encode_member (p.1, enc p.2)) <$> m))
  | AnyOrdered _ _ => []
  end.

(** Induction through lists and maps. *)
Lemma any_nested_ind (P : any → Prop) :
  P AnyNil → (∀ b, P (AnyBool b)) → (∀ x, P (AnyFloat x)) → (∀ s, P (AnyString s)) →
  (∀ l, Forall P l → P (AnySlice l)) → (∀ m, Forall (λ p, P p.2) m → P (AnyMap m)) →
  (∀ keys m, P (AnyOrdered keys m)) → ∀ v, P v.
Proof.
  intros Hn Hb Hf Hs Hl Hm Ho. fix IH 1. intros [|b|x|s|l|m|keys m]; [done|done|done|done| | |done].
  - apply Hl. induction l as [|v l IHl]; constructor; [apply IH|exact IHl].
  - apply Hm. induction m as [|[k v] m IHm]; constructor; [apply IH|exact IHm].
Qed.
End plain.

(** ** Ascending keys *)
Lemma key_lt_trans k1 k2 k3 : key_lt k1 k2 = true → key_lt k2 k3 = true → key_lt k1 k3 = true.
Proof.
  unfold key_lt. intros H12 H23. bool_props.
  apply andb_true_intro. split; [apply bool_decide_eq_true_2; by etransitivity|].
  apply negb_true_iff, String.eqb_neq. intros <-.
  assert (k1 = k2) as <- by (by apply (anti_symm String.le)). by rewrite String.eqb_refl in *.
Qed.

Lemma key_lt_irrefl k : key_lt k k = false.
Proof. unfold key_lt. by rewrite String.eqb_refl, andb_false_r. Qed.

Lemma ascending_cons k l : ascending (k :: l) = true ↔ (∀ k', k' ∈ l → key_lt k k' = true) ∧ ascending l = true.
Proof.
  revert k. induction l as [|k1 l IH]; intros k.
  { split; [intros _; split; [|done]; by intros k' ?%elem_of_nil|done]. }
  change (ascending (k :: k1 :: l)) with (key_lt k k1 && ascending (k1 :: l)).
  rewrite andb_true_iff, IH. split.
  - intros (H1 & Hl & Ha). split; [|done]. intros k' [->|Hk']%elem_of_cons; [done|].
    eapply key_lt_trans; [done|by apply Hl].
  - intros (Hl & Ha). split; [apply Hl; by left|done].
Qed.

Lemma ascending_NoDup l : ascending l = true → NoDup l.
Proof.
  induction l as [|k l IH]; [constructor|]. intros [Hk Hl]%ascending_cons. constructor; [|by apply IH].
  intros Hin%Hk. by rewrite key_lt_irrefl in Hin.
Qed.

Lemma ascending_Sorted {A} (m : list (string * A)) :
  ascending (fst <$> m) = true → StronglySorted (key_le fst) m.
Proof.
  induction m as [|[k v] m IH]; [constructor|]. intros [Hk Hm]%ascending_cons. constructor; [by apply IH|].
  apply Forall_forall. intros [k' v'] Hin. unfold key_le; simpl.
  assert (key_lt k k' = true) as Hlt by (apply Hk; apply list_elem_of_fmap; by exists (k', v')).
  unfold key_lt in Hlt. by bool_props.
Qed.

Lemma sort_ascending {A} (m : list (string * A)) : ascending (fst <$> m) = true → sort_by fst m = m.
Proof.
  intros Hm. apply (StronglySorted_unique_strong (key_le fst)).
  - intros [k1 v1] [k2 v2] H1 H2 Hle1 Hle2. unfold key_le in *; simpl in *.
    assert (k1 = k2) as <- by (by apply (anti_symm String.le)).
    rewrite sort_by_Permutation in H1. apply ascending_NoDup in Hm.
    apply list_elem_of_lookup in H1 as [i Hi], H2 as [j Hj].
    assert (i = j) as <-; [|congruence].
    eapply NoDup_lookup; [exact Hm|by rewrite list_lookup_fmap, Hi|by rewrite list_lookup_fmap, Hj].
  - apply sort_by_Sorted.
  - by apply ascending_Sorted.
  - apply sort_by_Permutation.
Qed.

Lemma map_set_append {A} k (a : A) m : (∀ k', k' ∈ m.*1 → key_lt k' k = true) → map_set k a m = m ++ [(k, a)].
Proof.
  induction m as [|[k' a'] m IH]; intros Hk; [done|]. simpl.
  assert (key_lt k' k = true) as Hlt by (apply Hk; by left). unfold key_lt in Hlt. bool_props.
  rewrite (proj2 (String.eqb_neq _ _)) by (by apply String.eqb_neq).
  rewrite bool_decide_eq_false_2.
  - simpl. rewrite IH; [done|]. intros k'' Hin. apply Hk. by right.
  - intros Hle. assert (k' = k) as -> by (by apply (anti_symm String.le)). by rewrite String.eqb_refl in *.
Qed.

(** ** Scanning what Marshal writes *)
Definition quiet (st : step_state) (c : ascii) : bool :=
  negb (Ascii.eqb c "<" || Ascii.eqb c ">" || Ascii.eqb c "&") && (byte c <? 128) &&
  (negb (json_space c) || in_string st).
Fixpoint qscan (s : scanner) (l : text) : option scanner :=
  match l with
  | [] => Some s
  | c :: l => if quiet (fst s) c then s ← step s c; qscan s l else None
  end.

Lemma qscan_scan s l s' : qscan s l = Some s' → scan s l = Some s'.
Proof.
  revert s. induction l as [|c l IH]; intros s; simpl; [done|].
  destruct (quiet _ _); [|done]. destruct (step s c) as [s1|]; simpl; [apply IH|done].
Qed.

Lemma qscan_app s l1 l2 : qscan s (l1 ++ l2) = (s ← qscan s l1; qscan s l2).
Proof.
  revert s. induction l1 as [|c l1 IH]; intros s; [done|]. simpl.
  destruct (quiet _ _); [|done]. destruct (step s c) as [s1|]; simpl; [apply IH|done].
Qed.
Lemma scan_app s l1 l2 : scan s (l1 ++ l2) = (s ← scan s l1; scan s l2).
Proof.
  revert s. induction l1 as [|c l1 IH]; intros s; [done|]. simpl.
  destruct (step s c) as [s1|]; simpl; [apply IH|done].
Qed.

(** Text that is quiet is compact. *)
Lemma compact_qscan s l s' : qscan s l = Some s' → eof s' = true → compact_from 0 s l = Some l.
Proof.
  revert s. induction l as [|c l IH]; intros s Hs He; simpl in *; [injection Hs as <-; by rewrite He|].
  destruct (quiet (fst s) c) eqn:Hq; [|done]. destruct (step s c) as [s1|] eqn:Es; simpl in *; [|done].
  unfold quiet in Hq. apply andb_prop in Hq as [[Hh Hb]%andb_prop Hsp].
  apply negb_true_iff in Hh. rewrite Hh.
  assert (byte c =? 0xE2 = false) as -> by (apply Z.eqb_neq; apply Z.ltb_lt in Hb; lia). simpl.
  assert (json_space c && negb (in_string (fst s)) = false) as ->
    by (destruct (json_space c), (in_string (fst s)); done).
  by rewrite IH.
Qed.

(** A fact of every byte, by trying all of them. *)
Ltac all_bytes c := destruct c as [[] [] [] [] [] [] [] []]; try (vm_compute; reflexivity); try (vm_compute; discriminate).

(** *** Strings *)
Lemma qscan_escape_ascii K c :
  byte c < 128 → qscan (stateInString, K) (escape_ascii c) = Some (stateInString, K).
Proof. intros Hc. apply Z.ltb_lt in Hc. revert Hc. all_bytes c. Qed.

Lemma escape_ascii_str l : forallb (λ c, byte c <? 128) l = true → escape 0 true l = l ≫= escape_ascii.
Proof.
  induction l as [|c l IH]; [done|]. intros [Hc Hl]%andb_prop. simpl. by rewrite Hc, IH.
Qed.

Lemma qscan_escape K l rest :
  forallb (λ c, byte c <? 128) l = true →
  qscan (stateInString, K) (escape 0 true l ++ rest) = qscan (stateInString, K) rest.
Proof.
  intros Hl. rewrite escape_ascii_str by done. induction l as [|c l IH]; [done|].
  apply andb_prop in Hl as [Hc Hl]. apply Z.ltb_lt in Hc.
  rewrite bind_cons, <- app_assoc, qscan_app, qscan_escape_ascii by done. by apply IH.
Qed.

Lemma qscan_string K s rest :
  is_ascii s = true → qscan (stateInString, K) (escape 0 true (T s) ++ quote_char :: rest) = qscan (stateEndValue, K) rest.
Proof. intros Hs. by rewrite qscan_escape. Qed.

(** *** Numbers *)
Definition number_state (st : step_state) : bool :=
  match st with stateNeg | state1 | state0 | stateDot | stateDot0 | stateE | stateESign | stateE0 => true | _ => false end.

Lemma number_char_not c : number_char c = true → json_space c = false ∧ byte c < 128 ∧
  (∀ d, d ∈ T ",:]}<>&{[" → Ascii.eqb c d = false) ∧ Ascii.eqb c quote_char = false.
Proof.
  intros Hc. split_and!; [revert Hc; all_bytes c|apply Z.ltb_lt; revert Hc; all_bytes c| |revert Hc; all_bytes c].
  assert (forallb (λ d, negb (Ascii.eqb c d)) (T ",:]}<>&{[") = true) as Hf by (revert Hc; all_bytes c).
  rewrite forallb_forall in Hf. intros d Hd%list_elem_of_In%Hf. by apply negb_true_iff.
Qed.

Lemma end_value_number K c : number_char c = true → end_value K c = None.
Proof.
  intros (Hs & _ & Hd & _)%number_char_not. unfold end_value. rewrite Hs.
  destruct K as [|[] K]; [done|..]; rewrite !Hd by (unfold T; simpl; set_solver); done.
Qed.

Lemma number_step_stack st c s' K :
  number_state st = true → number_char c = true → number_step st [] c = Some s' →
  number_step st K c = Some (fst s', K) ∧ number_state (fst s') = true ∧ snd s' = [].
Proof.
  intros Hst Hc Hs.
  destruct st; try done; cbn [number_step] in Hs |- *; rewrite ?(end_value_number [] c Hc) in Hs;
    repeat match goal with |- context [if ?b then _ else _] => destruct b end; simplify_eq; done.
Qed.

Lemma number_step_step st K c : number_state st = true → step (st, K) c = number_step st K c.
Proof. by destruct st. Qed.

Lemma quiet_number st c : number_char c = true → quiet st c = true.
Proof.
  intros (Hs & Hb & Hd & _)%number_char_not. unfold quiet. rewrite Hs, !Hd by (unfold T; simpl; set_solver).
  apply Z.ltb_lt in Hb. by rewrite Hb.
Qed.

Lemma qscan_number_tail st t K s :
  number_state st = true → forallb number_char t = true → scan (st, []) t = Some s →
  qscan (st, K) t = Some (fst s, K) ∧ number_state (fst s) = true.
Proof.
  revert st. induction t as [|c t IH]; intros st Hst Ht Hs; simpl in *; [by injection Hs as <-|].
  apply andb_prop in Ht as [Hc Ht]. rewrite quiet_number by done.
  destruct (step (st, []) c) as [s1|] eqn:E; simpl in Hs; [|done]. rewrite number_step_step in E |- * by done.
  destruct (number_step_stack _ _ _ K Hst Hc E) as (-> & Hst1 & Hk). simpl.
  destruct s1 as [st1 k1]; simpl in *; subst. by apply IH.
Qed.

(** The state after a value: what follows is read as after one. *)
Definition ready (K : list parse_state) (s : scanner) : Prop :=
  ∀ c, number_char c = false → step s c = end_value K c.

Lemma begin_value_number K c s : number_char c = true → begin_value [] c = Some s →
  begin_value K c = Some (fst s, K) ∧ number_state (fst s) = true ∧ snd s = [].
Proof.
  intros Hc. pose proof (number_char_not c Hc) as (Hs & _ & Hd & Hq). unfold begin_value. rewrite Hs, Hq.
  rewrite (Hd "{"%char), (Hd "["%char) by (unfold T; simpl; set_solver).
  assert (Ascii.eqb c "t" = false ∧ Ascii.eqb c "f" = false ∧ Ascii.eqb c "n" = false) as (-> & -> & ->)
    by (split_and!; revert Hc; all_bytes c).
  repeat match goal with |- context [if ?b then _ else _] => destruct b eqn:? end; intros ?; by simplify_eq.
Qed.

Lemma number_end_ready st K : number_end st = true → ready K (st, K).
Proof.
  intros Hs.
  intros d Hd. unfold number_char in Hd. apply orb_false_iff in Hd as [[Hd He]%orb_false_iff Hp].
  apply bool_decide_eq_false in Hp.
  assert (Ascii.eqb d "." = false) as Hdot.
  { apply Ascii.eqb_neq. intros ->. apply Hp. unfold T; simpl. set_solver. }
  destruct st; try done; unfold step, number_step; by rewrite ?Hd, ?He, ?Hdot.
Qed.

Lemma qscan_number t K :
  number_text t = true → ∃ s, qscan (stateBeginValue, K) t = Some s ∧ ready K s.
Proof.
  unfold number_text. intros [Hc Hs]%andb_prop. destruct t as [|c t]; [done|].
  destruct (scan reset (c :: t)) as [[st k]|] eqn:E; [|done].
  simpl in E, Hc |- *. apply andb_prop in Hc as [Hc Ht]. rewrite quiet_number by done.
  change (step reset c) with (begin_value [] c) in E. change (step (stateBeginValue, K) c) with (begin_value K c).
  destruct (begin_value [] c) as [[st1 k1]|] eqn:Eb; simpl in E; [|done].
  destruct (begin_value_number K c _ Hc Eb) as (-> & Hst & Hk). simpl in *. subst k1.
  destruct (qscan_number_tail _ _ K _ Hst Ht E) as [-> Hst']. exists (st, K). split; [done|].
  by apply number_end_ready.
Qed.

(** *** Values *)
Lemma plain_key_ascii k : plain_key k = true → is_ascii k = true.
Proof.
  unfold plain_key, is_ascii. intros [Hk _]%andb_prop. rewrite forallb_forall in Hk |- *.
  intros c Hc%Hk. unfold htmlSafe in Hc. by bool_props; apply Z.ltb_lt.
Qed.

Lemma ready_pop K : ready K (popParseState K).
Proof. intros c Hc. by destruct K. Qed.
Lemma ready_end K : ready K (stateEndValue, K).
Proof. done. Qed.

(** A token's character that a value's end can be followed by. *)
Lemma qscan_ready K s c l :
  ready K s → number_char c = false → quiet stateEndValue c = true →
  qscan s (c :: l) = (s' ← end_value K c; qscan s' l).
Proof.
  intros Hr Hn Hq. simpl. rewrite Hr by done.
  assert (quiet (fst s) c = true) as ->; [|done]. unfold quiet in *.
  apply andb_prop in Hq as [-> Hs]. simpl in *. by rewrite orb_false_r in Hs; rewrite Hs.
Qed.

Lemma comma_join_cons t l : comma_join (t :: l) = t ++ (l ≫= cons ","%char).
Proof.
  revert t. induction l as [|t' l IH]; intros t; [by rewrite app_nil_r|].
  change (comma_join (t :: t' :: l)) with (t ++ ","%char :: comma_join (t' :: l)). by rewrite IH.
Qed.

Lemma forallb_impl_Forall {A} (f : A → bool) (P : A → Prop) l :
  Forall (λ x, f x = true → P x) l → forallb f l = true → Forall P l.
Proof. induction 1; simpl; [constructor|]. intros [? ?]%andb_prop. constructor; auto. Qed.

Section values.
Context {F64 : Float64} {FT : FloatText}.
#[local] Set Default Proof Using "Type*".

Lemma number_text_head t : number_text t = true → ∃ c t', t = c :: t' ∧ number_char c = true.
Proof.
  unfold number_text. destruct t as [|c t]; [done|]. intros [[Hc _]%andb_prop _]%andb_prop. by exists c, t.
Qed.

(** How the text of a value begins. *)
Lemma enc_head v : plain v = true → ∃ c t, enc v = c :: t ∧ Ascii.is_space c = false ∧ Ascii.eqb c "]" = false ∧
  Ascii.eqb c "{" = (match v with AnyMap _ => true | _ => false end) ∧
  Ascii.eqb c "[" = (match v with AnySlice _ => true | _ => false end) ∧
  number_char c = (match v with AnyFloat _ => true | _ => false end).
Proof.
  destruct v as [|b|x|s|l|m|keys m]; simpl; intros Hp; try done;
    try (by eexists _, _; split_and!; [reflexivity|..]).
  - destruct b; by eexists _, _; split_and!; [reflexivity|..].
  - destruct (number_text_head (FormatFloat x)) as (c & t & -> & Hc); [by apply FormatFloat_number|].
    exists c, t. pose proof (number_char_not c Hc) as (_ & _ & Hd & _).
    rewrite !Hd by (unfold T; simpl; set_solver). split_and!; try done. revert Hc. clear. all_bytes c.
Qed.

Lemma json_space_is_space c : Ascii.is_space c = false → json_space c = false.
Proof. all_bytes c. Qed.

Lemma qscan_or_empty v K rest : plain v = true →
  qscan (stateBeginValueOrEmpty, K) (enc v ++ rest) = qscan (stateBeginValue, K) (enc v ++ rest).
Proof.
  intros (c & t & -> & Hs%json_space_is_space & Hb & _)%enc_head. simpl.
  unfold quiet, step. by rewrite Hs, Hb.
Qed.

Definition scans (v : any) : Prop := ∀ K, ∃ s, qscan (stateBeginValue, K) (enc v) = Some s ∧ ready K s.

Lemma qscan_items K v l rest : Forall scans (v :: l) →
  qscan (stateBeginValue, parseArrayValue :: K) (comma_join (enc <$> v :: l) ++ "]"%char :: rest)
  = qscan (popParseState K) rest.
Proof.
  revert v. induction l as [|v' l IH]; intros v [Hv Hl]%Forall_cons; destruct (Hv (parseArrayValue :: K)) as (s & Hs & Hr).
  - rewrite !fmap_cons. cbn [fmap list_fmap comma_join]. rewrite qscan_app, Hs. cbn [mbind option_bind].
    by rewrite (qscan_ready (parseArrayValue :: K)).
  - change (comma_join (enc <$> v :: v' :: l)) with (enc v ++ ","%char :: comma_join (enc <$> v' :: l)).
    rewrite <- app_assoc, qscan_app, Hs. cbn [mbind option_bind]. rewrite <- app_comm_cons.
    rewrite (qscan_ready (parseArrayValue :: K)) by done. by apply IH.
Qed.

Lemma qscan_key K st k rest : plain_key k = true → st = stateBeginString ∨ st = stateBeginStringOrEmpty →
  qscan (st, parseObjectKey :: K) (encode_string k ++ ":"%char :: rest)
  = qscan (stateBeginValue, parseObjectValue :: K) rest.
Proof.
  intros Hk Hst. unfold encode_string. rewrite <- app_comm_cons, <- app_assoc. simpl.
  change (quiet st quote_char) with true.
  assert (step (st, parseObjectKey :: K) quote_char = Some (stateInString, parseObjectKey :: K)) as ->
    by (by destruct Hst as [-> | ->]). cbn [mbind option_bind].
  by rewrite qscan_string by (by apply plain_key_ascii).
Qed.

Definition members (m : list (string * any)) : list text := (λ p, encode_member (p.1, enc p.2)) <$> m.

Lemma qscan_members K st p m rest : st = stateBeginString ∨ st = stateBeginStringOrEmpty →
  Forall (λ p, plain_key p.1 = true ∧ scans p.2) (p :: m) →
  qscan (st, parseObjectKey :: K) (comma_join (members (p :: m)) ++ "}"%char :: rest)
  = qscan (popParseState K) rest.
Proof.
  revert st p. induction m as [|p' m IH]; intros st p Hst [[Hk Hv] Hl]%Forall_cons;
    destruct (Hv (parseObjectValue :: K)) as (s & Hs & Hr).
  - unfold members, encode_member. cbn [fmap list_fmap comma_join fst snd].
    rewrite <- app_assoc, <- app_comm_cons, qscan_key, qscan_app, Hs by done. cbn [mbind option_bind].
    by rewrite (qscan_ready (parseObjectValue :: K)).
  - change (comma_join (members (p :: p' :: m))) with
      (encode_member (p.1, enc p.2) ++ ","%char :: comma_join (members (p' :: m))).
    unfold encode_member at 1. cbn [fst snd].
    rewrite <- !app_assoc, <- !app_comm_cons, qscan_key, qscan_app, Hs by done. cbn [mbind option_bind].
    rewrite (qscan_ready (parseObjectValue :: K)) by done. apply IH; [by left|done].
Qed.

(** The text of a value is scanned to the end of a value, wherever it is. *)
Lemma qscan_enc v : plain v = true → scans v.
Proof.
  induction v as [| b | x | s | l IH | m IH | keys m] using any_nested_ind; intros Hp K; cbn [plain enc] in *.
  - eexists; split; [vm_compute; reflexivity|done].
  - destruct b; (eexists; split; [vm_compute; reflexivity|done]).
  - by apply qscan_number, FormatFloat_number.
  - exists (stateEndValue, K). split; [|done]. unfold encode_string. simpl.
    change (step (stateBeginValue, K) quote_char) with (Some (stateInString, K)). cbn [mbind option_bind].
    by rewrite qscan_string.
  - unfold brackets. simpl. change (step (stateBeginValue, K) "[") with (Some (stateBeginValueOrEmpty, parseArrayValue :: K)).
    cbn [mbind option_bind]. exists (popParseState K). split; [|apply ready_pop].
    destruct l as [|v l]; [done|].
    assert (Forall scans (v :: l)) as Hl by (by eapply forallb_impl_Forall).
    rewrite fmap_cons, comma_join_cons, <- app_assoc, qscan_or_empty, app_assoc, <- comma_join_cons, <- fmap_cons
      by (by apply andb_prop in Hp as [? _]).
    by rewrite qscan_items.
  - unfold braces. simpl. change (step (stateBeginValue, K) "{") with (Some (stateBeginStringOrEmpty, parseObjectKey :: K)).
    cbn [mbind option_bind]. exists (popParseState K). split; [|apply ready_pop].
    destruct m as [|p m]; [done|]. apply andb_prop in Hp as [_ Hp].
    change (fmap _ (p :: m)) with (members (p :: m)). rewrite qscan_members; [done|by right|].
    apply Forall_forall. intros p' Hp'. rewrite forallb_forall in Hp. rewrite Forall_forall in IH.
    apply list_elem_of_In in Hp' as Hin. apply Hp, andb_prop in Hin as [Hk Hv]. split; [done|]. by apply IH.
  - done.
Qed.
End values.

(** ** Reading back what Marshal writes *)
Lemma surrogate_none r l : r < 0xD800 → surrogate_pair r l = None.
Proof.
  intros Hr. unfold surrogate_pair. assert (0xD800 <=? r = false) as -> by (by apply Z.leb_gt).
  destruct l as [|b [|u [|h1 [|h2 [|h3 [|h4 l]]]]]]; try done. by rewrite andb_false_r.
Qed.

Lemma unquote_u h1 h2 h3 h4 l z :
  getu4 h1 h2 h3 h4 = Some z → z < 0xD800 →
  unquote 0 ("\"%char :: "u"%char :: h1 :: h2 :: h3 :: h4 :: l)
  = ('(s, rest) ← unquote 0 l; Some (EncodeRune z ++ s, rest)).
Proof.
  intros Hg Hz. cbn [unquote]. change (Ascii.eqb "\" quote_char) with false. change (Ascii.eqb "\" "\") with true.
  change (Ascii.eqb "u" "u") with true. cbn iota. rewrite Hg. cbn [mbind option_bind]. by rewrite surrogate_none.
Qed.

Lemma u_escape_ascii c : byte c < 128 →
  getu4 (hex_char (byte c / 4096)) (hex_char (byte c / 256)) (hex_char (byte c / 16)) (hex_char (byte c)) = Some (byte c) ∧
  EncodeRune (byte c) = [c].
Proof. intros Hc%Z.ltb_lt. split; revert Hc; all_bytes c. Qed.

Lemma htmlSafe_plain c : htmlSafe c = true →
  Ascii.eqb c quote_char = false ∧ Ascii.eqb c "\" = false ∧ byte c <? 32 = false ∧ byte c <? 128 = true.
Proof.
  unfold htmlSafe. intros H. apply andb_prop in H as [[H1 H2]%andb_prop H3%negb_true_iff].
  repeat apply orb_false_iff in H3 as [H3 ?]. split_and!; try done. by apply Z.ltb_ge, Z.leb_le.
Qed.
Lemma byte_inj c n : (byte c =? Z.of_nat n) = true → c = ascii_of_nat n.
Proof. intros Hc%Z.eqb_eq. unfold byte in Hc. rewrite <- (ascii_nat_embedding c). f_equal. lia. Qed.

Lemma unquote_simple e a l : simple_escape e = Some a → Ascii.eqb e "u" = false →
  unquote 0 ("\"%char :: e :: l) = ('(s, rest) ← unquote 0 l; Some (a :: s, rest)).
Proof.
  intros Ha Hu. cbn [unquote]. change (Ascii.eqb "\" quote_char) with false. change (Ascii.eqb "\" "\") with true.
  cbn iota. by rewrite Hu, Ha.
Qed.

Lemma unquote_escape_ascii c l : byte c < 128 →
  unquote 0 (escape_ascii c ++ l) = ('(s, rest) ← unquote 0 l; Some (c :: s, rest)).
Proof.
  intros Hc. unfold escape_ascii.
  destruct (htmlSafe c) eqn:Hs.
  { destruct (htmlSafe_plain c Hs) as (Hq & Hb & H32 & H128). cbn [app unquote]. by rewrite Hq, Hb, H32, H128. }
  destruct (Ascii.eqb c "\" || Ascii.eqb c quote_char) eqn:Hb.
  { by apply orb_prop in Hb as [->%Ascii.eqb_eq| ->%Ascii.eqb_eq]; apply unquote_simple. }
  destruct (byte c =? 10) eqn:H10; [rewrite (byte_inj c 10) by done; by apply unquote_simple|].
  destruct (byte c =? 13) eqn:H13; [rewrite (byte_inj c 13) by done; by apply unquote_simple|].
  destruct (byte c =? 9) eqn:H9; [rewrite (byte_inj c 9) by done; by apply unquote_simple|].
  destruct (u_escape_ascii c Hc) as [Hg He]. unfold u_escape. cbn [app].
  rewrite (unquote_u _ _ _ _ _ _ Hg) by lia. by rewrite He.
Qed.

Lemma unquote_escape l rest : forallb (λ c, byte c <? 128) l = true →
  unquote 0 (escape 0 true l ++ quote_char :: rest) = Some (l, rest).
Proof.
  intros Hl. rewrite escape_ascii_str by done. induction l as [|c l IH]; [done|].
  apply andb_prop in Hl as [Hc Hl]. apply Z.ltb_lt in Hc.
  by rewrite bind_cons, <- app_assoc, unquote_escape_ascii, IH by done.
Qed.

Lemma unquote_string s rest : is_ascii s = true →
  unquote 0 (escape 0 true (T s) ++ quote_char :: rest) = Some (T s, rest).
Proof. apply unquote_escape. Qed.

Lemma literal_app t rest : literal t (t ++ rest) = Some rest.
Proof. unfold literal. by rewrite take_app_length, drop_app_length, bool_decide_eq_true_2. Qed.

(** What may follow a number. *)
Definition follow (rest : text) : Prop := match rest with c :: _ => number_char c = false | [] => True end.

Lemma span_number_app t rest : forallb number_char t = true → follow rest → span_number (t ++ rest) = (t, rest).
Proof.
  intros Ht Hr. induction t as [|c t IH]; simpl in *.
  - destruct rest as [|c rest]; [done|]. simpl in *. by rewrite Hr.
  - apply andb_prop in Ht as [-> Ht]. by rewrite IH.
Qed.

Lemma drop_space_id c l : json_space c = false → drop_space (c :: l) = c :: l.
Proof. intros Hc. simpl. by rewrite Hc. Qed.

Section reading.
Context {F64 : Float64} {FT : FloatText}.
#[local] Set Default Proof Using "Type*".

Definition reads (v : any) : Prop := ∀ fuel rest, (length (enc v) <= fuel)%nat → follow rest →
  decode_value fuel (enc v ++ rest) = Some (v, rest).

Lemma decode_items_enc v l fuel rest : Forall reads (v :: l) → Forall (λ v, plain v = true) (v :: l) →
  (length (comma_join (enc <$> v :: l)) < fuel)%nat →
  decode_items fuel (comma_join (enc <$> v :: l) ++ "]"%char :: rest) = Some (v :: l, rest).
Proof.
  revert v fuel. induction l as [|v' l IH]; intros v [|fuel] [Hv Hl]%Forall_cons [Hp Hps]%Forall_cons Hf; try lia.
  - cbn [fmap list_fmap comma_join decode_items] in *. rewrite Hv by (done || lia). done.
  - change (comma_join (enc <$> v :: v' :: l)) with (enc v ++ ","%char :: comma_join (enc <$> v' :: l)) in *.
    rewrite length_app in Hf. cbn [length] in Hf. rewrite <- app_assoc, <- app_comm_cons.
    cbn [decode_items]. rewrite Hv by (done || lia). cbn [mbind option_bind drop_space].
    change (json_space ",") with false. change (Ascii.eqb "," "]") with false. cbn iota.
    by rewrite IH by (done || lia).
Qed.

(** What follows the value of a member. *)
Definition after_member (fuel : nat) (m : list (string * any)) (l : text) : option (list (string * any) * text) :=
  match drop_space l with
  | c :: l => if Ascii.eqb c "}" then Some (m, l) else decode_members fuel m l
  | [] => None
  end.

Lemma decode_members_key fuel acc k l : plain_key k = true →
  decode_members (S fuel) acc (encode_string k ++ ":"%char :: l)
  = ('(v, l) ← decode_value fuel l; after_member fuel (map_set k v acc) l).
Proof.
  intros Hk. unfold encode_string. rewrite <- app_comm_cons, <- app_assoc. cbn [decode_members app].
  rewrite drop_space_id by done. rewrite Ascii.eqb_refl, unquote_string by (by apply plain_key_ascii).
  cbn [mbind option_bind]. rewrite drop_space_id by done.
  unfold T. by rewrite String.string_of_list_ascii_of_string.
Qed.

Lemma map_set_next acc k (v : any) m : ascending (fst <$> acc ++ (k, v) :: m) = true →
  map_set k v acc = acc ++ [(k, v)].
Proof.
  intros Ha. apply map_set_append. intros k' Hk'. induction acc as [|[k1 v1] acc IH]; [by apply elem_of_nil in Hk'|].
  rewrite <- app_comm_cons, fmap_cons in Ha. apply ascending_cons in Ha as [Hlt Ha].
  apply elem_of_cons in Hk' as [->|Hk']; [|by apply IH].
  apply Hlt. rewrite fmap_app. apply elem_of_app. right. by left.
Qed.

Lemma length_member k (t : text) : (length (encode_member (k, t)) >= length t + 3)%nat.
Proof. unfold encode_member, encode_string. cbn [fst snd]. rewrite length_app. cbn. rewrite length_app. cbn. lia. Qed.

Lemma decode_members_enc acc p m fuel rest :
  Forall (λ p, plain_key p.1 = true ∧ reads p.2) (p :: m) → ascending (fst <$> acc ++ p :: m) = true →
  (length (comma_join (members (p :: m))) < fuel)%nat →
  decode_members fuel acc (comma_join (members (p :: m)) ++ "}"%char :: rest) = Some (acc ++ p :: m, rest).
Proof.
  revert acc p fuel. induction m as [|p' m IH]; intros acc [k v] [|fuel] [[Hk Hv] Hl]%Forall_cons Ha Hf; try lia;
    cbn [fst snd] in *; pose proof (map_set_next _ _ _ _ Ha) as Hset; pose proof (length_member k (enc v)) as Hlen.
  - change (comma_join _) with (encode_member (k, enc v)) in *. unfold encode_member at 1. cbn [fst snd].
    rewrite <- app_assoc, <- app_comm_cons, decode_members_key, Hv by (done || lia). cbn [mbind option_bind].
    by rewrite Hset.
  - change (comma_join (members ((k, v) :: p' :: m))) with
      (encode_member (k, enc v) ++ ","%char :: comma_join (members (p' :: m))) in *.
    rewrite length_app in Hf. unfold encode_member at 1. cbn [fst snd length] in *.
    rewrite <- !app_assoc, <- !app_comm_cons, decode_members_key, Hv by (done || lia). cbn [mbind option_bind].
    unfold after_member. rewrite drop_space_id, Hset by done. change (Ascii.eqb "," "}") with false. cbn iota.
    rewrite IH; [by rewrite <- app_assoc|done|by rewrite <- app_assoc|lia].
Qed.

(** A value is read back from its text. *)
Lemma decode_enc v : plain v = true → reads v.
Proof.
  induction v as [| b | x | s | l IH | m IH | keys m] using any_nested_ind; intros Hp [|fuel] rest Hf Hr;
    try (destruct (enc_head _ Hp) as (c & t & E & _); rewrite E in Hf; cbn [length] in Hf; lia);
    cbn [plain enc] in *.
  - cbn [app T String.list_ascii_of_string decode_value]. rewrite drop_space_id by done.
    change (_ :: _ :: _ :: rest) with (T "ull" ++ rest). by rewrite literal_app.
  - destruct b; cbn [app T String.list_ascii_of_string decode_value]; rewrite drop_space_id by done.
    + change (_ :: _ :: _ :: rest) with (T "rue" ++ rest). by rewrite literal_app.
    + change (_ :: _ :: _ :: _ :: rest) with (T "alse" ++ rest). by rewrite literal_app.
  - pose proof (FormatFloat_number x Hp) as Hn. destruct (number_text_head _ Hn) as (c & t & E & Hc).
    apply andb_prop in Hn as [Hn _]. pose proof (ParseFloat_FormatFloat x Hp) as Hx. rewrite E in *.
    pose proof (number_char_not c Hc) as (Hs & _ & Hd & Hq).
    rewrite <- app_comm_cons. cbn [decode_value]. rewrite drop_space_id by done.
    rewrite Hq, (Hd "{"%char), (Hd "["%char) by (unfold T; simpl; set_solver).
    assert (Ascii.eqb c "t" = false ∧ Ascii.eqb c "f" = false ∧ Ascii.eqb c "n" = false) as (-> & -> & ->)
      by (split_and!; revert Hc; clear; all_bytes c).
    rewrite app_comm_cons, span_number_app by done. by rewrite Hx.
  - unfold encode_string. rewrite <- app_comm_cons, <- app_assoc. cbn [decode_value app].
    rewrite drop_space_id by done. change (Ascii.eqb quote_char "{") with false. change (Ascii.eqb quote_char "[") with false.
    cbn iota. rewrite Ascii.eqb_refl, unquote_string by done. cbn [mbind option_bind].
    unfold T. by rewrite String.string_of_list_ascii_of_string.
  - unfold brackets in *. rewrite <- app_comm_cons, <- app_assoc. cbn [decode_value app].
    rewrite drop_space_id by done. change (Ascii.eqb "[" "{") with false. change (Ascii.eqb "[" "[") with true. cbn iota.
    destruct l as [|v l]; [done|]. cbn [length] in Hf. rewrite length_app in Hf. cbn [length] in Hf.
    assert (Forall reads (v :: l)) as Hl by (by eapply forallb_impl_Forall).
    assert (Forall (λ v, plain v = true) (v :: l)) as Hps
      by (eapply forallb_impl_Forall; [|exact Hp]; by apply Forall_forall).
    pose proof Hps as [Hv _]%Forall_cons. destruct (enc_head v Hv) as (c & t & E & Hs & Hb & _).
    rewrite decode_items_enc by (done || lia).
    rewrite fmap_cons, comma_join_cons, E, <- !app_comm_cons, drop_space_id by (by apply json_space_is_space).
    by rewrite Hb.
  - unfold braces in *. rewrite <- app_comm_cons, <- app_assoc. cbn [decode_value app].
    rewrite drop_space_id by done. change (Ascii.eqb "{" "{") with true. cbn iota.
    destruct m as [|p m]; [done|]. cbn [length] in Hf. rewrite length_app in Hf. cbn [length] in Hf.
    change (fmap (λ p, encode_member (p.1, enc p.2)) (p :: m)) with (members (p :: m)) in *. apply andb_prop in Hp as [Ha Hp].
    rewrite (decode_members_enc []); [|clear Hf|done|lia].
    + unfold members, encode_member. rewrite fmap_cons, comma_join_cons. unfold encode_string.
      rewrite <- !app_comm_cons, drop_space_id by done. done.
    + apply Forall_forall. intros p' Hp'. rewrite forallb_forall in Hp. rewrite Forall_forall in IH.
      apply list_elem_of_In in Hp' as Hin. apply Hp, andb_prop in Hin as [Hk Hv]. split; [done|]. by apply IH.
  - done.
Qed.
End reading.

(** ** The scanner's stack *)

(** A scan above other open composites. *)
Definition lift (K : list parse_state) (s : scanner) : scanner :=
  match s with
  | (stateEndTop, k) => popParseState (k ++ K)
  | (st, k) => (st, k ++ K)
  end.
Definition scanner_ok (s : scanner) : Prop :=
  match s with
  | (stateEndTop, k) => k = []
  | (stateBeginStringOrEmpty, k) | (stateBeginString, k) => ∃ k', k = parseObjectKey :: k'
  | _ => True
  end.

Ltac case_if := match goal with |- context [if ?b then _ else _] => destruct b end.

Lemma end_value_lift K k c s : end_value k c = Some s → end_value (k ++ K) c = Some (lift K s) ∧ scanner_ok s.
Proof.
  unfold end_value. destruct k as [|top rest]; cbn [app].
  - destruct (json_space c) eqn:Hs; [|done]. intros [= <-]. split; [|done]. by destruct K.
  - destruct (json_space c); [by intros [= <-]|].
    destruct top; repeat case_if; intros [= <-]; try (split; [done|simpl; eauto]).
    all: destruct rest as [|x rest]; simpl; eauto.
Qed.

Lemma begin_value_lift K k c s : begin_value k c = Some s → begin_value (k ++ K) c = Some (lift K s) ∧ scanner_ok s.
Proof. unfold begin_value. repeat case_if; intros [= <-]; simpl; eauto. Qed.

Lemma step_lift K s c s' : scanner_ok s → step s c = Some s' → step (lift K s) c = Some (lift K s') ∧ scanner_ok s'.
Proof.
  destruct s as [st k]. unfold step, lift at 1. intros Hok.
  destruct st; cbn [number_step string_step]; try (apply end_value_lift); try (apply begin_value_lift);
    try (repeat case_if; first [apply end_value_lift | apply begin_value_lift | intros [= <-]; simpl; by eauto]; fail).
  - destruct Hok as [k' ->]. cbn [tail app]. repeat case_if; [by intros [= <-]; simpl; eauto| |].
    + apply (end_value_lift K (parseObjectValue :: k')).
    + unfold begin_string. repeat case_if; intros [= <-]; simpl; eauto.
  - destruct Hok as [k' ->]. unfold begin_string. repeat case_if; intros [= <-]; simpl; eauto.
  - simpl in Hok. subst k. destruct (json_space c) eqn:Hs; [|done]. intros [= <-].
    destruct K; cbn [popParseState app lift]; unfold end_value; by rewrite ?Hs.
  - unfold string_step. destruct (hex_val c), digits; intros [= <-]; simpl; eauto.
  - destruct rest as [|e rest]; [done|]. case_if; [|done]. intros [= <-]. by destruct rest.
Qed.

Lemma scan_lift K s l s' : scanner_ok s → scan s l = Some s' → scan (lift K s) l = Some (lift K s') ∧ scanner_ok s'.
Proof.
  revert s. induction l as [|c l IH]; intros s Hok; simpl; [by intros [= <-]|].
  destruct (step s c) as [s1|] eqn:E; simpl; [|done]. intros Hs.
  destruct (step_lift K s c s1 Hok E) as [-> Hok1]. simpl. by apply IH.
Qed.

(** Within a value the stack below it is untouched. *)
Lemma scan_value_stack K l r s : scan (stateBeginValue, []) (l ++ r) = Some s →
  ∃ st k, scan (stateBeginValue, K) l = Some (st, k ++ K) ∧ scanner_ok (st, k ++ K).
Proof.
  rewrite scan_app. destruct (scan _ l) as [[st k]|] eqn:E; [|done]. intros _.
  destruct (scan_lift K (stateBeginValue, []) l _ I E) as [Hl Hok]. change (lift K _) with (stateBeginValue, K) in Hl at 1.
  destruct st; try (exists stateEndValue; by eexists); rewrite Hl; try (by eexists _, k).
  - destruct Hok as [k' ->]. exists stateBeginStringOrEmpty, (parseObjectKey :: k'). split; [done|]. by eexists.
  - destruct Hok as [k' ->]. exists stateBeginString, (parseObjectKey :: k'). split; [done|]. by eexists.
  - simpl in Hok. subst k. exists (fst (popParseState K)), []. destruct K; simpl; by split.
Qed.

(** *** A value is complete only at its end *)
Definition not_number (s : scanner) : Prop :=
  snd s = [] → match fst s with
               | stateEndValue | stateEndTop | stateInString | stateInStringEsc | stateInStringEscU _ | stateLiteral _ => True
               | _ => False
               end.

Lemma end_value_not_number k c s : end_value k c = Some s → not_number s.
Proof.
  unfold end_value. destruct k as [|top rest]; [case_if; by intros [= <-]|].
  case_if; [by intros [= <-]|]. destruct top; repeat case_if; intros [= <-]; try done. all: by destruct rest.
Qed.

Lemma begin_value_not_number x k c s : begin_value (x :: k) c = Some s → not_number s.
Proof. unfold begin_value. repeat case_if; by intros [= <-]. Qed.

Lemma step_not_number s c s' : not_number s → step s c = Some s' → not_number s'.
Proof.
  destruct s as [st [|x k]]; unfold step; intros Hs.
  - destruct st; try (by destruct Hs); try (apply end_value_not_number).
    + case_if; by intros [= <-].
    + unfold string_step. repeat case_if; by intros [= <-].
    + unfold string_step. repeat case_if; by intros [= <-].
    + unfold string_step. destruct (hex_val c), digits; by intros [= <-].
    + destruct rest as [|e rest]; [done|]. case_if; [|done]. intros [= <-]. by destruct rest.
  - destruct st; cbn [number_step string_step]; unfold begin_string;
      try (repeat case_if; first [apply end_value_not_number | apply begin_value_not_number | by intros [= <-]]; fail).
    + unfold string_step. destruct (hex_val c), digits; by intros [= <-].
    + destruct rest as [|e rest]; [done|]. case_if; [|done]. intros [= <-]. by destruct rest.
Qed.

Lemma scan_not_number s l s' : not_number s → scan s l = Some s' → not_number s'.
Proof.
  revert s. induction l as [|c l IH]; intros s Hs; simpl; [by intros [= <-]|].
  destruct (step s c) as [s1|] eqn:E; simpl; [|done]. apply IH. by eapply step_not_number.
Qed.

Lemma eof_end_value k : eof (stateEndValue, k) = true → k = [].
Proof. unfold eof, step, end_value. destruct k as [|[] k]; done. Qed.

Lemma eof_state s : not_number s → eof s = true → s = (stateEndValue, []) ∨ fst s = stateEndTop.
Proof.
  destruct s as [st k]. intros Hn He.
  assert (number_state st = true ∨ st = stateEndValue → k = []) as Hk.
  { intros Hst. apply eof_end_value.
    destruct Hst as [Hst| ->]; [destruct st; try done|]; first [exact He | vm_compute in He; discriminate]. }
  destruct st; try done; try (rewrite Hk in Hn by auto; by destruct Hn).
  - left. by rewrite Hk by auto.
  - by right.
  - unfold eof, step in He. destruct rest as [|e rest]; [done|]. destruct (Ascii.eqb " " e); [|done]. by destruct rest.
Qed.

(** After the end only white space comes. *)
Lemma scan_after_end s r d : not_number s → eof s = true → json_space d = false → scan s (r ++ [d]) = None.
Proof.
  intros Hn He Hd. assert (s = (stateEndValue, []) ∨ fst s = stateEndTop) as Hs by (by apply eof_state).
  clear Hn He. revert s Hs. induction r as [|c r IH]; intros [st k] Hs; cbn [app scan].
  - destruct Hs as [[= -> ->] | [= ->]]; unfold step, end_value; by rewrite Hd.
  - destruct Hs as [[= -> ->] | [= ->]]; unfold step, end_value; destruct (json_space c); try done; apply IH; by right.
Qed.

(** A proper beginning of a value other than a number is not one. *)
Lemma prefix_invalid c l r d s : scan reset (c :: l ++ r ++ [d]) = Some s →
  json_space c = false → number_char c = false → json_space d = false → checkValid (c :: l) = false.
Proof.
  intros Hs Hc Hn Hd. unfold checkValid. change (c :: l ++ r ++ [d]) with ([c] ++ l ++ r ++ [d]) in Hs.
  change (c :: l) with ([c] ++ l). rewrite scan_app in Hs |- *. cbn [scan] in *.
  destruct (step reset c) as [s1|] eqn:E1; [|done]. cbn [mbind option_bind] in *.
  assert (not_number s1) as Hs1.
  { change (step reset c) with (begin_value [] c) in E1. unfold begin_value in E1. rewrite Hc in E1.
    unfold number_char in Hn. apply orb_false_iff in Hn as [[Hdig _]%orb_false_iff Hp].
    apply bool_decide_eq_false in Hp. rewrite Hdig in E1.
    assert (Ascii.eqb c "-" = false) as Hm by (apply Ascii.eqb_neq; intros ->; apply Hp; unfold T; simpl; set_solver).
    assert (Ascii.eqb c "0" = false) as H0 by (apply Ascii.eqb_neq; by intros ->).
    rewrite Hm, H0 in E1. revert E1. repeat case_if; by intros [= <-]. }
  rewrite scan_app in Hs. destruct (scan s1 l) as [s2|] eqn:E2; [|done]. cbn [mbind option_bind] in Hs.
  destruct (eof s2) eqn:He; [|done]. rewrite scan_after_end in Hs; [done|by eapply scan_not_number|done|done].
Qed.

(** ** Summary for plain values *)
Section plain_text.
Context {F64 : Float64} {FT : FloatText}.
#[local] Set Default Proof Using "Type*".

Lemma Marshal_enc v : plain v = true → Marshal v = Some (enc v).
Proof.
  induction v as [| b | x | s | l IH | m IH | keys m] using any_nested_ind; intros Hp; cbn [plain Marshal enc] in *; try done.
  - by rewrite Hp.
  - assert (mapM id (Marshal <$> l) = Some (enc <$> l)) as ->; [|done].
    apply mapM_Some, Forall2_fmap, Forall_Forall2_diag. by eapply forallb_impl_Forall.
  - apply andb_prop in Hp as [Ha Hp]. rewrite sort_ascending.
    2: { rewrite <- list_fmap_compose. erewrite list_fmap_ext; [exact Ha|]. by intros i [k v] _. }
    assert (mapM (λ '(k, t), t ← t; Some (encode_member (k, t))) ((λ '(k, v), (k, Marshal v)) <$> m) = Some (members m)) as ->;
      [|done].
    apply mapM_Some, Forall2_fmap, Forall_Forall2_diag. eapply forallb_impl_Forall; [|exact Hp].
    eapply Forall_impl; [exact IH|]. intros [k v] Hv [_ Hpv]%andb_prop. cbn [fst snd] in *. by rewrite Hv.
Qed.

Lemma eof_ready s : ready [] s → eof s = true.
Proof. intros Hr. unfold eof. by rewrite Hr. Qed.

Lemma checkValid_enc v : plain v = true → checkValid (enc v) = true.
Proof.
  intros Hp. destruct (qscan_enc v Hp []) as (s & Hs & Hr). apply qscan_scan in Hs.
  unfold checkValid, reset. rewrite Hs. by apply eof_ready.
Qed.

Lemma compact_enc v : plain v = true → compact (enc v) = Some (enc v).
Proof.
  intros Hp. destruct (qscan_enc v Hp []) as (s & Hs & Hr). unfold compact, reset.
  eapply compact_qscan; [exact Hs|by apply eof_ready].
Qed.

(** A round trip through text. *)
Lemma Unmarshal_enc v : plain v = true → Unmarshal (enc v) = Some v.
Proof.
  intros Hp. unfold Unmarshal. rewrite checkValid_enc by done.
  rewrite <- (app_nil_r (enc v)) at 2. by rewrite decode_enc by (done || lia).
Qed.

Lemma enc_last v : plain v = true → ∃ t c, enc v = t ++ [c] ∧ Ascii.is_space c = false.
Proof.
  destruct v as [|b|x|s|l|m|keys m]; intros Hp; try done.
  - by exists (T "nul"), "l"%char.
  - destruct b; [by exists (T "tru"), "e"%char|by exists (T "fals"), "e"%char].
  - cbn [enc plain] in *. pose proof (FormatFloat_number x Hp) as Hn.
    destruct (number_text_head _ Hn) as (c & t & E & _). apply andb_prop in Hn as [Hn _].
    destruct (FormatFloat x) as [|d t' _] using rev_ind; [done|]. exists t', d. split; [done|].
    rewrite forallb_app in Hn. apply andb_prop in Hn as [_ [Hd _]%andb_prop]. revert Hd. clear. all_bytes d.
  - exists (quote_char :: escape 0 true (T s)), quote_char. by split.
  - exists ("["%char :: comma_join (enc <$> l)), "]"%char. by split.
  - exists ("{"%char :: comma_join (members m)), "}"%char. by split.
Qed.

(** A proper beginning of a value that is not a number is not well-formed. *)
Lemma enc_prefix_invalid v l r : plain v = true → match v with AnyFloat _ => False | _ => True end →
  enc v = l ++ r → l ≠ [] → r ≠ [] → checkValid l = false.
Proof.
  intros Hp Hv E Hl Hr. destruct (enc_head v Hp) as (c & t & Eh & Hs & _ & _ & _ & Hn).
  destruct (enc_last v Hp) as (t' & d & El & Hd). destruct (qscan_enc v Hp []) as (s & Hsc & _).
  apply qscan_scan in Hsc. destruct l as [|c' l]; [done|].
  destruct r as [|d' r _] using rev_ind; [done|]. rewrite E in *.
  assert (d' = d) as -> by (rewrite app_assoc in El; by apply app_inj_tail in El as [_ ?]).
  injection Eh as -> _. eapply prefix_invalid; [exact Hsc|by apply json_space_is_space| |by apply json_space_is_space].
  by destruct v.
Qed.
End plain_text.
