(* ===== verification/OrderedJson.v ===== *)
(** * Ordered maps as JSON (src/pkg/util/orderedmap/orderedmap.go:
    [NewFromMap], [UnmarshalJSON], [mapToOrderedMap]; [MarshalJSON] is with
    [Marshal] in JsonText)

    [NewFromMap] writes a map as JSON and reads it back together with the
    order of its keys, which [mapToOrderedMap] recovers from the text: it
    looks for a key from the end backwards, until what is before it is an
    object once closed. *)

From S2P Require Export JsonText OrderedMap.

(** ** Searching the text *)
Fixpoint has_prefix (sub s : text) : bool :=
  match sub, s with
  | [], _ => true
  | c :: sub, d :: s => Ascii.eqb c d && has_prefix sub s
  | _, [] => false
  end.
(** [strings.LastIndex]. *)
Fixpoint LastIndex (s sub : text) : option nat :=
  match s with
  | [] => if has_prefix sub [] then Some 0%nat else None
  | _ :: s' =>
      match LastIndex s' sub with
      | Some i => Some (S i)
      | None => if has_prefix sub s then Some 0%nat else None
      end
  end.

Fixpoint drop_white (l : text) : text :=
  match l with c :: l' => if Ascii.is_space c then drop_white l' else l | [] => [] end.
Definition TrimSpace_bytes (l : text) : text := rev (drop_white (rev (drop_white l))).
Definition drop_comma (l : text) : text :=
  match rev l with c :: l' => if Ascii.eqb c "," then rev l' else l | [] => [] end.

(** The loop over the occurrences of a key: the index of the one that is
    taken, and the length of the text before it.  Each round shortens the
    text. *)
Section search.
Context `{Float64}.

Fixpoint find_key (fuel : nat) (sTrimmed : text) (kq : text) : option (nat * nat) :=
  match fuel with
  | O => None
  | S fuel =>
      match sTrimmed with
      | [] => None
      | _ =>
          match LastIndex sTrimmed kq with
          | None => None
          | Some lastIndex =>
              let sTrimmed := drop_comma (TrimSpace_bytes (take lastIndex sTrimmed)) in
              match UnmarshalMap (sTrimmed ++ ["}"%char]) with
              | Some _ => Some (lastIndex, length sTrimmed)
              | None => find_key fuel sTrimmed kq
              end
          end
      end
  end.

(** The shortest beginning of [valueStr] that ends in [close] and is
    well-formed. *)
Definition shortest (valid : text → bool) (close : ascii) (valueStr : text) : option text :=
  (λ i, take (S i) valueStr) <$>
    find (λ i, match valueStr !! i with Some c => Ascii.eqb c close | None => false end &&
               valid (take (S i) valueStr))
      (seq 1 (length valueStr - 1)).

(** [valueStr]: what is after the key, up to the last byte of the text. *)
Definition value_after (s : text) (startOfValueIndex : nat) : outcome text :=
  if (startOfValueIndex <=? length s - 1)%nat && (1 <=? length s)%nat then
    let valueStr := TrimSpace_bytes (take (length s - 1 - startOfValueIndex) (drop startOfValueIndex s)) in
    Ok (TrimSpace_bytes
          (match valueStr with c :: v => if Ascii.eqb c ":" then v else valueStr | [] => [] end))
  else Panic "runtime error: slice bounds out of range".

Definition is_map (v : any) : outcome (list (string * any)) :=
  match v with AnyMap m => Ok m | _ => Panic "interface conversion: interface {} is not map[string]interface {}" end.
Definition is_slice (v : any) : outcome (list any) :=
  match v with AnySlice l => Ok l | _ => Panic "interface conversion: interface {} is not []interface {}" end.
Definition index_of (l : list any) (i : nat) : outcome any :=
  match l !! i with Some v => Ok v | None => Panic "runtime error: index out of range" end.

(** The items of an array, each taken to end at the first comma, or at the
    last byte, before which it is well-formed; [convert] is the conversion of
    a map of which the text is given. *)
Section items.
Variable convert : text → list (string * any) → outcome any.
Fixpoint convert_items (fuel : nat) (itemsStr : text) (startItem endItem itemIndex : nat) (items : list any)
    : outcome (list any) :=
  match fuel with
  | O => Ok items
  | S fuel =>
      match itemsStr !! endItem with
      | None => Ok items
      | Some c =>
          if negb (Ascii.eqb c ",") && (endItem <? length itemsStr - 1)%nat
          then convert_items fuel itemsStr startItem (S endItem) itemIndex items
          else
            let possibleItemStr := TrimSpace_bytes (take (endItem - startItem) (drop startItem itemsStr)) in
            match Unmarshal possibleItemStr with
            | None => convert_items fuel itemsStr startItem (S endItem) itemIndex items
            | Some _ =>
                items ← (match possibleItemStr with
                         | c :: _ =>
                             if Ascii.eqb c "{" then
                               v ← index_of items itemIndex; m ← is_map v;
                               oo ← convert possibleItemStr m; Ok (<[itemIndex := oo]> items)
                             else Ok items
                         | [] => Panic "runtime error: index out of range"
                         end);
                convert_items fuel itemsStr (S endItem) (S endItem) (S itemIndex) items
            end
      end
  end.

(** The value of a key: maps, and the maps of an array, are converted. *)
Definition convert_value (valueStr : text) (v : any) : outcome any :=
  match valueStr with
  | [] => Panic "runtime error: index out of range"
  | c :: _ =>
      if Ascii.eqb c "{" then
        match shortest (λ t, bool_decide (is_Some (UnmarshalMap t))) "}" valueStr with
        | Some t => m ← is_map v; convert t m
        | None => Ok v
        end
      else if Ascii.eqb c "[" then
        match shortest (λ t, bool_decide (is_Some (UnmarshalSlice t))) "]" valueStr with
        | Some t =>
            let itemsStr := take (length t - 2) (drop 1 t) in
            (* the slice is asserted only once there is a map in it *)
            match v with
            | AnySlice l => l ← convert_items (length itemsStr) itemsStr 0 0 0 l; Ok (AnySlice l)
            | _ => _ ← convert_items (length itemsStr) itemsStr 0 0 0 []; Ok v
            end
        | None => Ok v
        end
      else Ok v
  end.
End items.

Definition ki_le (p q : nat * string) : Prop := (p.1 <= q.1)%nat.
#[export] Instance ki_le_dec : RelDecision ki_le.
Proof. intros p q. unfold ki_le. apply _. Defined.

(** One key: its place in the text, and its value. *)
Definition order_key (convert : text → list (string * any) → outcome any) (s : text)
    (acc : outcome (list (nat * string) * list (string * any))) (k : string) :
    outcome (list (nat * string) * list (string * any)) :=
  '(orderedKeys, m) ← acc;
  match find_key (S (length s)) s (kQuoted k), map_get m k with
  | Some (lastIndex, index), Some v =>
      valueStr ← value_after s (lastIndex + length (kQuoted k));
      v ← convert_value convert valueStr v;
      Ok (orderedKeys ++ [(index, k)], map_set k v m)
  | _, _ => Ok (orderedKeys, m)
  end.

(** [mapToOrderedMap]: no two keys have the same index, so the order in which
    the map is ranged over does not matter.  [fuel] bounds the nesting. *)
Fixpoint mapToOrderedMap (fuel : nat) (s : text) (m : list (string * any)) : outcome any :=
  match fuel with
  | O => Panic "out of fuel"
  | S fuel =>
      '(orderedKeys, m) ← fold_left (order_key (mapToOrderedMap fuel) s) (fst <$> m) (Ok ([], m));
      Ok (AnyOrdered (snd <$> merge_sort ki_le orderedKeys) m)
  end.

Definition UnmarshalJSON (b : text) : outcome any :=
  match UnmarshalMap b with
  | None => Err (Go.New "invalid JSON")
  | Some m => mapToOrderedMap (S (length b)) b m
  end.

Definition NewFromMap (m : list (string * any)) : outcome any :=
  match Marshal (AnyMap m) with
  | None => Err (Go.New "json: unsupported value")
  | Some b => UnmarshalJSON b
  end.
End search.
