(* ===== verification/OrderedJsonFacts.v ===== *)
(** * A map keeps its text: what [NewFromMap] makes of a plain map is written
    as the map itself, for the search of [mapToOrderedMap] finds every key at
    its place *)

From S2P Require Export JsonFacts OrderedJson.
Open Scope nat_scope.

(** ** Lists *)
Lemma has_prefix_spec sub s : has_prefix sub s = true ↔ ∃ r, s = sub ++ r.
Proof.
  revert s. induction sub as [|c sub IH]; intros s; simpl; [split; [by eexists|done]|].
  destruct s as [|d s]; [split; [done|by intros [r ?]]|]. rewrite andb_true_iff, IH. split.
  - intros [->%Ascii.eqb_eq [r ->]]. by exists r.
  - intros [r [= -> ->]]. rewrite Ascii.eqb_refl. split; [done|by exists r].
Qed.

Lemma LastIndex_None s sub : LastIndex s sub = None → ∀ p r, s ≠ p ++ sub ++ r.
Proof.
  induction s as [|c s IH]; simpl; intros Hs p r E.
  - destruct sub; [done|]. by destruct p.
  - destruct (LastIndex s sub); [done|]. destruct (has_prefix sub (c :: s)) eqn:Hp; [done|].
    destruct p as [|d p]; [|injection E as -> E; by eapply IH].
    assert (has_prefix sub (c :: s) = true); [|congruence]. apply has_prefix_spec. by exists r.
Qed.

Lemma LastIndex_Some s sub i : LastIndex s sub = Some i →
  (∃ p r, s = p ++ sub ++ r ∧ length p = i) ∧ ∀ p r, s = p ++ sub ++ r → length p <= i.
Proof.
  revert i. induction s as [|c s IH]; simpl; intros i Hs.
  - destruct sub; [|done]. injection Hs as <-. split; [by exists [], []|]. by intros [|??] r.
  - destruct (LastIndex s sub) as [j|] eqn:E.
    + injection Hs as <-. destruct (IH j eq_refl) as [(p & r & -> & <-) Hmax].
      split; [by exists (c :: p), r|]. intros [|d p'] r' Hp; simpl; [lia|]. injection Hp as -> Hp. apply Hmax in Hp. lia.
    + destruct (has_prefix sub (c :: s)) eqn:Hp; [|done]. injection Hs as <-. apply has_prefix_spec in Hp as [r Hr].
      split; [by exists [], r|]. intros [|d p'] r' E'; [done|]. injection E' as -> E'. by eapply LastIndex_None in E.
Qed.

(** ** Trimming *)
Definition white (l : text) : bool := forallb Ascii.is_space l.

Lemma drop_white_app w l : white w = true → drop_white (w ++ l) = drop_white l.
Proof. induction w as [|c w IH]; [done|]. intros [Hc Hw]%andb_prop. simpl. by rewrite Hc, IH. Qed.

Lemma drop_white_spec l : ∃ w, white w = true ∧ l = w ++ drop_white l.
Proof.
  induction l as [|c l (w & Hw & E)]; [by exists []|]. simpl. destruct (Ascii.is_space c) eqn:Hc; [|by exists []].
  exists (c :: w). simpl. rewrite Hc, Hw. split; [done|by rewrite <- E].
Qed.

Lemma white_rev w : white (rev w) = white w.
Proof.
  unfold white. induction w as [|c w IH]; [done|]. simpl. rewrite forallb_app, IH. simpl.
  by rewrite andb_true_r, andb_comm.
Qed.

Lemma trim_prefix c l : Ascii.is_space c = false → ∃ w, white w = true ∧ c :: l = TrimSpace_bytes (c :: l) ++ w.
Proof.
  intros Hc. unfold TrimSpace_bytes. cbn [drop_white]. rewrite Hc.
  destruct (drop_white_spec (rev (c :: l))) as (w & Hw & E). exists (rev w). rewrite white_rev. split; [done|].
  by rewrite <- rev_app_distr, <- E, rev_involutive.
Qed.

Lemma trim_head c l : Ascii.is_space c = false → ∃ t, TrimSpace_bytes (c :: l) = c :: t.
Proof.
  intros Hc. destruct (trim_prefix c l Hc) as (w & Hw & E). destruct (TrimSpace_bytes (c :: l)) as [|d t].
  - cbn [app] in E. subst w. cbn [white forallb] in Hw. by rewrite Hc in Hw.
  - injection E as <- _. by exists t.
Qed.

Lemma trim_id c l t d : Ascii.is_space c = false → Ascii.is_space d = false →
  c :: l = t ++ [d] → TrimSpace_bytes (c :: l) = c :: l.
Proof.
  intros Hc Hd E. unfold TrimSpace_bytes. cbn [drop_white]. rewrite Hc, E, rev_app_distr. simpl. rewrite Hd. simpl.
  by rewrite rev_involutive.
Qed.

Lemma drop_comma_spec l : ∃ w, (w = [] ∨ w = [","%char]) ∧ l = drop_comma l ++ w.
Proof.
  unfold drop_comma. destruct (rev l) as [|c l'] eqn:E.
  { exists []. split; [by left|]. by rewrite <- (rev_involutive l), E. }
  destruct (Ascii.eqb_spec c ",") as [->|]; [|exists []; rewrite app_nil_r; auto].
  exists [","%char]. split; [by right|]. by rewrite <- (rev_involutive l), E.
Qed.
Lemma drop_comma_app l : drop_comma (l ++ [","%char]) = l.
Proof. unfold drop_comma. rewrite rev_app_distr. simpl. apply rev_involutive. Qed.

(** ** Quoted keys *)
Lemma plain_key_safe k : plain_key k = true → forallb htmlSafe (T k) = true.
Proof. unfold plain_key. by intros [? _]%andb_prop. Qed.

Lemma safe_not_quote l : forallb htmlSafe l = true → quote_char ∉ l.
Proof.
  rewrite forallb_forall. intros Hl Hq%list_elem_of_In%Hl. by vm_compute in Hq.
Qed.

Lemma escape_safe l : forallb htmlSafe l = true → escape 0 true l = l.
Proof.
  induction l as [|c l IH]; [done|]. intros [Hc Hl]%andb_prop. cbn [escape].
  destruct (htmlSafe_plain c Hc) as (_ & _ & _ & ->). unfold escape_ascii. by rewrite Hc, IH.
Qed.
Lemma kEscaped_safe l : forallb htmlSafe l = true → kEscaped l = l.
Proof.
  induction l as [|c l IH]; [done|]. intros [Hc Hl]%andb_prop. unfold kEscaped. rewrite bind_cons.
  destruct (htmlSafe_plain c Hc) as (-> & _). simpl. f_equal. by apply IH.
Qed.

Lemma kQuoted_plain k : plain_key k = true → kQuoted k = quote_char :: T k ++ [quote_char].
Proof. intros Hk. unfold kQuoted. by rewrite kEscaped_safe by (by apply plain_key_safe). Qed.
Lemma encode_string_plain k : plain_key k = true → encode_string k = kQuoted k.
Proof.
  intros Hk. rewrite kQuoted_plain by done. unfold encode_string. by rewrite escape_safe by (by apply plain_key_safe).
Qed.

Lemma T_inj s s' : T s = T s' → s = s'.
Proof.
  intros E. rewrite <- (String.string_of_list_ascii_of_string s), <- (String.string_of_list_ascii_of_string s').
  by f_equal.
Qed.

Lemma quote_split l l' r r' : quote_char ∉ l → quote_char ∉ l' → l ++ quote_char :: r = l' ++ quote_char :: r' → l = l'.
Proof.
  revert l'. induction l as [|c l IH]; intros [|c' l'] Hl Hl' E; [done| | |].
  - injection E as <- _. destruct Hl'. by left.
  - injection E as -> _. destruct Hl. by left.
  - injection E as -> E. f_equal. eapply IH; [| |exact E]; intros Hin; [apply Hl|apply Hl']; by right.
Qed.

Lemma kQuoted_inj k k' r r' : plain_key k = true → plain_key k' = true →
  kQuoted k ++ r = kQuoted k' ++ r' → k = k'.
Proof.
  intros Hk Hk'. rewrite !kQuoted_plain by done. cbn [app]. rewrite <- !app_assoc. intros [= E].
  apply T_inj. eapply quote_split; [| |exact E]; by apply safe_not_quote, plain_key_safe.
Qed.

(** ** Where the keys of an object are *)
Section positions.
Context {F64 : Float64} {FT : FloatText}.
#[local] Set Default Proof Using "Type*".

Definition key_state (st : step_state) : Prop := st = stateBeginString ∨ st = stateBeginStringOrEmpty.

(** The text of members that others follow. *)
Definition pre (m : list (string * any)) : text := members m ≫= λ t, t ++ [","%char].

Lemma members_cons p m : members (p :: m) = encode_member (p.1, enc p.2) :: members m.
Proof. done. Qed.
Lemma pre_cons p m : pre (p :: m) = encode_member (p.1, enc p.2) ++ ","%char :: pre m.
Proof. unfold pre. rewrite members_cons, bind_cons, <- app_assoc. done. Qed.

Lemma comma_join_more (x t : text) l : comma_join (x :: t :: l) = x ++ ","%char :: comma_join (t :: l).
Proof. done. Qed.

Lemma members_app m1 p m2 : comma_join (members (m1 ++ p :: m2)) = pre m1 ++ comma_join (members (p :: m2)).
Proof.
  induction m1 as [|p1 m1 IH]; [done|]. rewrite <- app_comm_cons, members_cons, pre_cons, <- app_assoc, <- app_comm_cons, <- IH.
  destruct m1; apply comma_join_more.
Qed.

Lemma member_text p m : ∃ tail, comma_join (members (p :: m)) ++ ["}"%char] =
    encode_member (p.1, enc p.2) ++ tail ∧
  tail = (match m with [] => ["}"%char] | _ => ","%char :: comma_join (members m) ++ ["}"%char] end).
Proof.
  destruct m as [|p' m]; eexists; (split; [|reflexivity]); [done|].
  change (comma_join (members (p :: p' :: m))) with (encode_member (p.1, enc p.2) ++ ","%char :: comma_join (members (p' :: m))).
  by rewrite <- app_assoc.
Qed.

Lemma plain_member_text k v : plain_key k = true → encode_member (k, enc v) = kQuoted k ++ ":"%char :: enc v.
Proof. intros Hk. unfold encode_member. cbn [fst snd]. by rewrite encode_string_plain. Qed.

(** Inside a key the scanner is in a string. *)
Lemma scan_safe K l : forallb htmlSafe l = true → scan (stateInString, K) l = Some (stateInString, K).
Proof.
  induction l as [|c l IH]; [done|]. intros [Hc Hl]%andb_prop. cbn [scan].
  destruct (htmlSafe_plain c Hc) as (Hq & Hb & H32 & _). unfold step, string_step. rewrite Hq, Hb, H32. by apply IH.
Qed.

Lemma scan_quote_key st K : key_state st → step (st, parseObjectKey :: K) quote_char = Some (stateInString, parseObjectKey :: K).
Proof. by intros [-> | ->]. Qed.

Lemma scan_kQuoted st K k : key_state st → plain_key k = true →
  scan (st, parseObjectKey :: K) (kQuoted k) = Some (stateEndValue, parseObjectKey :: K).
Proof.
  intros Hst Hk. rewrite kQuoted_plain by done. cbn [scan app]. rewrite scan_quote_key by done. cbn [mbind option_bind].
  rewrite scan_app, scan_safe by (by apply plain_key_safe). done.
Qed.

(** No beginning of a member but the empty one leaves the scanner where a key
    is expected. *)
Lemma no_key_inside k v P Q st : plain_key k = true → plain v = true → key_state st →
  encode_member (k, enc v) = P ++ Q → P ≠ [] →
  ∀ st', key_state st' → scan (st, [parseObjectKey]) P ≠ Some (st', [parseObjectKey]).
Proof.
  intros Hk Hv Hst E HP st' Hst' Hs. rewrite plain_member_text, kQuoted_plain in E by done.
  pose proof (plain_key_safe k Hk) as Hsafe.
  destruct P as [|c P]; [done|]. cbn [app] in E. injection E as <- E. rewrite <- app_assoc in E. cbn [app] in E.
  cbn [scan] in Hs. rewrite scan_quote_key in Hs by done. cbn [mbind option_bind] in Hs.
  apply app_eq_inv in E as [(l & El & _)|(l & -> & El)].
  - rewrite El, forallb_app in Hsafe. apply andb_prop in Hsafe as [Hsafe _].
    rewrite scan_safe in Hs by done. by destruct Hst' as [-> | ->].
  - rewrite scan_app, scan_safe in Hs by done. cbn [mbind option_bind] in Hs.
    destruct l as [|c l]; [by destruct Hst' as [-> | ->]|]. injection El as <- El. cbn [scan] in Hs.
    change (step (stateInString, ?K) quote_char) with (Some (stateEndValue, K)) in Hs. cbn [mbind option_bind] in Hs.
    destruct l as [|c l]; [by destruct Hst' as [-> | ->]|]. injection El as <- El. cbn [scan] in Hs.
    change (step (stateEndValue, parseObjectKey :: ?K) ":") with (Some (stateBeginValue, parseObjectValue :: K)) in Hs.
    cbn [mbind option_bind] in Hs.
    destruct (qscan_enc v Hv []) as (s & Hsv%qscan_scan & _). rewrite El in Hsv.
    destruct (scan_value_stack [parseObjectValue] _ _ _ Hsv) as (st1 & k1 & Hs1 & _).
    rewrite Hs1 in Hs. injection Hs as _ Hs. by destruct k1 as [|x [|y k1]].
Qed.

(** A beginning of an object after which a key is expected is one of whole
    members. *)
Lemma key_start m P R st st' : forallb (λ p, plain_key p.1 && plain p.2) m = true → m ≠ [] →
  key_state st → key_state st' → comma_join (members m) ++ ["}"%char] = P ++ quote_char :: R →
  scan (st, [parseObjectKey]) P = Some (st', [parseObjectKey]) →
  ∃ m1 p m2, m = m1 ++ p :: m2 ∧ P = pre m1.
Proof.
  revert P st. induction m as [|[k v] m IH]; intros P st Hp Hm Hst Hst' E Hs; [done|].
  cbn [forallb fst snd] in Hp. apply andb_prop in Hp as [[Hk Hv]%andb_prop Hp].
  destruct (member_text (k, v) m) as (tail & Et & Htail). rewrite Et in E. cbn [fst snd] in E.
  destruct (decide (P = [])) as [->|HP]; [by exists [], (k, v), m|].
  apply app_eq_inv in E as [(l & El & _)|(l & -> & El)].
  - by destruct (no_key_inside k v P l st Hk Hv Hst El HP st').
  - rewrite scan_app in Hs.
    assert (∃ s, scan (st, [parseObjectKey]) (encode_member (k, enc v)) = Some s ∧ ready [parseObjectValue] s) as (s & Hm1 & Hr).
    { rewrite plain_member_text, scan_app, scan_kQuoted by done. cbn [mbind option_bind scan].
      change (step (stateEndValue, parseObjectKey :: ?K) ":") with (Some (stateBeginValue, parseObjectValue :: K)).
      cbn [mbind option_bind]. destruct (qscan_enc v Hv [parseObjectValue]) as (s & Hsv%qscan_scan & Hr). by exists s. }
    rewrite Hm1 in Hs. cbn [mbind option_bind] in Hs.
    destruct l as [|c l]; [rewrite Htail in El; destruct m; discriminate El|].
    destruct m as [|p m]; rewrite Htail in El; injection El as <- El; [by destruct l|].
    cbn [scan] in Hs. rewrite Hr in Hs by done.
    change (end_value [parseObjectValue] ",") with (Some (stateBeginString, [parseObjectKey])) in Hs. cbn [mbind option_bind] in Hs.
    destruct (IH l stateBeginString) as (m1 & p' & m2 & -> & ->); try done; [by left|].
    exists ((k, v) :: m1), p', m2. by rewrite pre_cons.
Qed.

(** ** When closing the text before an occurrence makes an object *)
Lemma close_state s s1 : scanner_ok s → step s "}" = Some s1 → eof s1 = true →
  ready [parseObjectValue] s ∨ s = (stateBeginStringOrEmpty, [parseObjectKey]) ∨
  ∃ r k, s = (stateLiteral ("}"%char :: r), k).
Proof.
  assert (∀ k, end_value k "}" = Some s1 → eof s1 = true → k = [parseObjectValue]) as Hend.
  { intros [|[] k]; try done. intros [= <-] He. destruct k; [done|]. by apply eof_end_value in He. }
  destruct s as [st k]. intros Hok Hs He. destruct st; try done.
  - destruct Hok as [k' ->]. change (end_value (parseObjectValue :: k') "}" = Some s1) in Hs.
    apply Hend in Hs as [= ->]; [|done]. right. by left.
  - rewrite (Hend k Hs He). by left.
  - injection Hs as <-. by vm_compute in He.
  - rewrite (Hend k Hs He). left. by apply number_end_ready.
  - rewrite (Hend k Hs He). left. by apply number_end_ready.
  - rewrite (Hend k Hs He). left. by apply number_end_ready.
  - rewrite (Hend k Hs He). left. by apply number_end_ready.
  - destruct rest as [|e rest]; [done|]. unfold step in Hs.
    destruct (Ascii.eqb_spec "}" e) as [<-|]; [|done]. right. right. by eexists _, _.
Qed.

(** White space before an expected key, and where none is. *)
Lemma scan_white_key st w R s : key_state st → white w = true → scan (st, [parseObjectKey]) (w ++ R) = Some s →
  scan (st, [parseObjectKey]) w = Some (st, [parseObjectKey]).
Proof.
  intros Hst. induction w as [|c w IH]; [done|]. intros [Hc Hw]%andb_prop Hs. cbn [app scan] in *.
  assert (step (st, [parseObjectKey]) c = Some (st, [parseObjectKey]) ∨ step (st, [parseObjectKey]) c = None) as [E|E].
  { destruct Hst as [-> | ->]; unfold step, begin_string; destruct (json_space c); auto;
      assert (Ascii.eqb c quote_char = false) as -> by (revert Hc; clear; all_bytes c); [by right|].
    assert (Ascii.eqb c "}" = false) as -> by (revert Hc; clear; all_bytes c). by right. }
  - rewrite E in *. cbn [mbind option_bind] in *. by apply IH.
  - by rewrite E in Hs.
Qed.

Lemma is_space_not_number c : Ascii.is_space c = true → number_char c = false ∧ Ascii.eqb c "," = false ∧ Ascii.eqb c "}" = false.
Proof. intros Hc. split_and!; revert Hc; all_bytes c. Qed.

Lemma scan_white_value w R s s' : ready [parseObjectValue] s → white w = true →
  scan s (w ++ quote_char :: R) = Some s' → False.
Proof.
  revert s. induction w as [|c w IH]; intros s Hr; cbn [white forallb app scan].
  - intros _. by rewrite Hr.
  - intros [Hc Hw]%andb_prop. destruct (is_space_not_number c Hc) as (Hn & Hcomma & Hbrace). rewrite Hr by done.
    unfold end_value. destruct (json_space c); [|by rewrite Hcomma, Hbrace]. by apply IH.
Qed.

(** Before an occurrence of a quote that is preceded, but for white space and
    one comma, by what closes to an object, a key is expected. *)
Lemma accepted_key p comma w R s :
  scan reset (p ++ comma ++ w ++ quote_char :: R) = Some s → comma = [] ∨ comma = [","%char] → white w = true →
  checkValid (p ++ ["}"%char]) = true →
  ∃ st, key_state st ∧ scan reset (p ++ comma ++ w) = Some (st, [parseObjectKey]).
Proof.
  intros Hs Hcomma Hw Hv. unfold checkValid in Hv. rewrite scan_app in Hs, Hv.
  destruct (scan reset p) as [s0|] eqn:E0; [|done]. cbn [mbind option_bind scan] in Hs, Hv.
  destruct (step s0 "}") as [s1|] eqn:E1; [|done]. cbn [mbind option_bind] in Hv.
  assert (scanner_ok s0) as Hok by (by destruct (scan_lift [] reset p s0 I E0)).
  assert (∀ comma, scan reset (p ++ comma ++ w) = scan s0 (comma ++ w)) as Hscan
    by (intros c'; rewrite scan_app, E0; done).
  rewrite Hscan. destruct (close_state s0 s1 Hok E1 Hv) as [Hr|[->|(r & k & ->)]].
  - destruct Hcomma as [->| ->]; cbn [app] in *; [by exfalso; eapply scan_white_value|].
    cbn [scan] in *. rewrite Hr in * by done.
    change (end_value [parseObjectValue] ",") with (Some (stateBeginString, [parseObjectKey])) in *.
    cbn [mbind option_bind] in *. exists stateBeginString. split; [by left|]. eapply scan_white_key; [by left|done|exact Hs].
  - destruct Hcomma as [->| ->]; [|done]. exists stateBeginStringOrEmpty. split; [by right|].
    eapply scan_white_key; [by right|done|exact Hs].
  - destruct Hcomma as [->| ->]; [|done]. destruct w as [|c w]; [done|]. cbn [app scan] in Hs.
    apply andb_prop in Hw as [Hc%is_space_not_number _]. destruct Hc as (_ & _ & Hc). unfold step in Hs. by rewrite Hc in Hs.
Qed.

Lemma members_split m1 k v m2 : plain_key k = true →
  enc (AnyMap (m1 ++ (k, v) :: m2)) = ("{"%char :: pre m1) ++ kQuoted k ++ ":"%char :: enc v ++
    (match m2 with [] => ["}"%char] | _ => ","%char :: comma_join (members m2) ++ ["}"%char] end).
Proof.
  intros Hk. cbn [enc]. fold (members (m1 ++ (k, v) :: m2)). unfold braces. rewrite members_app, <- app_assoc.
  destruct (member_text (k, v) m2) as (tail & -> & ->). cbn [fst snd]. rewrite plain_member_text by done.
  by rewrite <- app_assoc.
Qed.

(** An occurrence of a quoted key is the key itself, if what is before it
    closes to an object. *)
Lemma occurrence_is_key m k p R : plain (AnyMap m) = true → plain_key k = true →
  enc (AnyMap m) = p ++ kQuoted k ++ R → checkValid (drop_comma (TrimSpace_bytes p) ++ ["}"%char]) = true →
  ∃ m1 v m2, m = m1 ++ (k, v) :: m2 ∧ p = "{"%char :: pre m1.
Proof.
  intros Hp Hk E Hv. destruct (qscan_enc _ Hp []) as (s & Hs%qscan_scan & _). rewrite E in Hs.
  rewrite kQuoted_plain in E, Hs by done. cbn [app] in E, Hs.
  cbn [enc] in E. fold (members m) in E. unfold braces in E.
  destruct p as [|c p]; [done|]. injection E as <- E.
  destruct (trim_prefix "{" p eq_refl) as (w & Hw & Ew). destruct (drop_comma_spec (TrimSpace_bytes ("{"%char :: p))) as (comma & Hc & Ec).
  rewrite Ec, <- app_assoc in Ew. rewrite Ew, <- !app_assoc in Hs.
  destruct (accepted_key _ comma w _ s Hs Hc Hw Hv) as (st & Hst & Hscan). rewrite <- Ew in Hscan. cbn [scan] in Hscan.
  change (step reset "{") with (Some (stateBeginStringOrEmpty, [parseObjectKey])) in Hscan. cbn [mbind option_bind] in Hscan.
  cbn [plain] in Hp. apply andb_prop in Hp as [_ Hp].
  destruct (key_start m p ((T k ++ [quote_char]) ++ R) stateBeginStringOrEmpty st Hp) as (m1 & [k' v] & m2 & -> & ->);
    [|by right|done|done|done|].
  { intros ->. by destruct p as [|? [|??]]. }
  rewrite forallb_app in Hp. apply andb_prop in Hp as [_ [[Hk' _]%andb_prop _]%andb_prop].
  pose proof (members_split m1 k' v m2 Hk') as Hm. cbn [enc] in Hm. fold (members (m1 ++ (k', v) :: m2)) in Hm.
  unfold braces in Hm. rewrite E in Hm. cbn [app] in Hm. injection Hm as Hm. apply app_inv_head in Hm.
  change (quote_char :: (T k ++ [quote_char]) ++ R) with ((quote_char :: T k ++ [quote_char]) ++ R) in Hm.
  rewrite <- kQuoted_plain in Hm by done. apply kQuoted_inj in Hm as <-; [|done|done]. by exists m1, v, m2.
Qed.

(** Occurrences of a quoted key do not overlap the key. *)
Lemma no_overlap k P R0 p R : plain_key k = true →
  P ++ kQuoted k ++ ":"%char :: R0 = p ++ kQuoted k ++ R → length P < length p → length P + length (kQuoted k) <= length p.
Proof.
  intros Hk E Hlt. pose proof (safe_not_quote _ (plain_key_safe k Hk)) as Hq.
  apply app_eq_inv in E as [(x & -> & E)|(x & -> & E)]; [rewrite length_app in Hlt; lia|].
  rewrite length_app in *. apply app_eq_inv in E as [(y & Ey & E)|(y & -> & _)]; [|rewrite length_app; lia].
  destruct y as [|c y]; [rewrite app_nil_r in Ey; rewrite Ey; lia|]. exfalso.
  rewrite kQuoted_plain in * by done. destruct x as [|c' x]; [simpl in Hlt; lia|].
  cbn [app] in E, Ey. injection Ey as <- Ey. injection E as <- E.
  assert (y = []) as ->.
  { apply app_eq_inv in Ey as [(z & Ez & Ey)|(z & -> & Ey)].
    - destruct z as [|d z]; [by injection Ey|]. injection Ey as <- _. destruct Hq. rewrite Ez. apply elem_of_app. right. by left.
    - destruct z as [|d z]; [by injection Ey|]. by destruct z. }
  unfold plain_key in Hk. apply andb_prop in Hk as [_ Hk]. cbn [app] in E.
  destruct k as [|d k]; [done|]. injection E as E _. by subst d.
Qed.

(** ** The loop over the occurrences *)
Lemma ascending_app l l' : ascending (l ++ l') = true → ascending l = true ∧ ascending l' = true.
Proof.
  induction l as [|k l IH]; [by intros|]. rewrite <- app_comm_cons, !ascending_cons. intros [Hk [Hl Hl']%IH].
  split_and!; [|done|done]. intros k' Hk'. apply Hk, elem_of_app. by left.
Qed.

Lemma plain_app m m' : plain (AnyMap (m ++ m')) = true → plain (AnyMap m) = true.
Proof.
  cbn [plain]. rewrite fmap_app, forallb_app. intros [[Ha _]%ascending_app [Hm _]%andb_prop]%andb_prop. by rewrite Ha, Hm.
Qed.

Lemma plain_member m1 k v m2 : plain (AnyMap (m1 ++ (k, v) :: m2)) = true →
  plain_key k = true ∧ plain v = true ∧ NoDup (fst <$> m1 ++ (k, v) :: m2).
Proof.
  cbn [plain]. rewrite forallb_app. intros [Ha [_ [[Hk Hv]%andb_prop _]%andb_prop]%andb_prop]%andb_prop.
  split_and!; [done|done|by apply ascending_NoDup].
Qed.

Lemma UnmarshalMap_enc m : plain (AnyMap m) = true → UnmarshalMap (enc (AnyMap m)) = Some m.
Proof. intros Hp. unfold UnmarshalMap. by rewrite Unmarshal_enc. Qed.

Lemma UnmarshalMap_valid t m : UnmarshalMap t = Some m → checkValid t = true.
Proof. unfold UnmarshalMap, Unmarshal. by destruct (checkValid t). Qed.
Lemma UnmarshalMap_invalid t : checkValid t = false → UnmarshalMap t = None.
Proof. unfold UnmarshalMap, Unmarshal. by intros ->. Qed.
Lemma UnmarshalSlice_invalid t : checkValid t = false → UnmarshalSlice t = None.
Proof. unfold UnmarshalSlice, Unmarshal. by intros ->. Qed.

Lemma pre_snoc m p : pre (m ++ [p]) = comma_join (members (m ++ [p])) ++ [","%char].
Proof.
  rewrite members_app. unfold pre, members. rewrite fmap_app, bind_app, <- app_assoc. f_equal. apply app_nil_r.
Qed.

Lemma before_key m : drop_comma (TrimSpace_bytes ("{"%char :: pre m)) = "{"%char :: comma_join (members m).
Proof.
  destruct m as [|p m _] using rev_ind; [done|]. rewrite pre_snoc.
  rewrite (trim_id _ _ ("{"%char :: comma_join (members (m ++ [p]))) ","%char) by done.
  apply (drop_comma_app ("{"%char :: _)).
Qed.

(** What is trimmed off is not part of a quote before it. *)
Lemma trimmed_keeps c l y x : Ascii.is_space c = false → c :: l = (y ++ [quote_char]) ++ x →
  ∃ x', drop_comma (TrimSpace_bytes (c :: l)) = (y ++ [quote_char]) ++ x' ∧
  ∃ w, c :: l = drop_comma (TrimSpace_bytes (c :: l)) ++ w.
Proof.
  intros Hc E. destruct (trim_prefix c l Hc) as (w & Hw & Ew). destruct (drop_comma_spec (TrimSpace_bytes (c :: l))) as (comma & Hcomma & Ec).
  set (t := drop_comma _) in *. rewrite Ec, <- app_assoc in Ew.
  assert (quote_char ∉ comma ++ w) as Hq.
  { intros [Hin|Hin]%elem_of_app.
    - destruct Hcomma as [-> | ->]; [by apply elem_of_nil in Hin|]. by apply list_elem_of_singleton in Hin.
    - unfold white in Hw. rewrite forallb_forall in Hw. apply list_elem_of_In, Hw in Hin. by vm_compute in Hin. }
  rewrite Ew in E. apply app_eq_inv in E as [(x' & -> & _)|(z & Ez & E)].
  - exists x'. split; [done|by exists (comma ++ w)].
  - destruct z as [|d z _] using rev_ind.
    { exists []. rewrite app_nil_r in *. split; [done|by exists (comma ++ w)]. }
    rewrite app_assoc in Ez. apply app_inj_tail in Ez as [_ <-]. destruct Hq. rewrite E, <- !app_assoc.
    apply elem_of_app. right. by left.
Qed.

Lemma longer_prefix (a b l r : text) : a ++ b = l ++ r → length a <= length l → ∃ z, l = a ++ z ∧ b = z ++ r.
Proof.
  intros [(z & -> & ->)|(z & -> & ->)]%app_eq_inv Hlen; [|by exists z].
  rewrite length_app in Hlen. destruct z; [|simpl in Hlen; lia]. exists []. by rewrite !app_nil_r.
Qed.

Lemma split_unique {A} m1 m2 m1' m2' (k : string) (v v' : A) :
  NoDup (fst <$> m1 ++ (k, v) :: m2) → m1 ++ (k, v) :: m2 = m1' ++ (k, v') :: m2' → m1' = m1.
Proof.
  assert (∀ z (m m' : list (string * A)) (a b : A), z ≠ [] → NoDup (fst <$> m ++ z ++ (k, b) :: m') →
    head z = Some (k, a) → False) as Htwice.
  { intros [|[k' a'] z] m m' a b _ Hn; [done|]. intros [= -> _]. rewrite fmap_app in Hn.
    apply NoDup_app in Hn as (_ & _ & Hn). rewrite <- app_comm_cons, fmap_cons in Hn. apply NoDup_cons in Hn as [Hk _].
    apply Hk. rewrite fmap_app. apply elem_of_app. right. by left. }
  intros Hnd E. pose proof E as E0. apply app_eq_inv in E as [([|y z] & -> & E)|([|y z] & -> & E)].
  - by rewrite app_nil_r.
  - injection E as <- E. rewrite <- app_assoc in Hnd. by edestruct (Htwice ((k, v') :: z) m1').
  - by rewrite app_nil_r.
  - injection E as <- E. rewrite E0, <- app_assoc in Hnd. by edestruct (Htwice ((k, v) :: z) m1).
Qed.

Lemma find_key_spec m1 k v m2 fuel cur tl : plain (AnyMap (m1 ++ (k, v) :: m2)) = true →
  enc (AnyMap (m1 ++ (k, v) :: m2)) = cur ++ tl →
  length (("{"%char :: pre m1) ++ kQuoted k) <= length cur → length cur < fuel →
  find_key fuel cur (kQuoted k) = Some (length ("{"%char :: pre m1), length ("{"%char :: comma_join (members m1))).
Proof.
  intros Hp. destruct (plain_member _ _ _ _ Hp) as (Hk & Hv & Hnd).
  pose proof (members_split m1 k v m2 Hk) as Hsplit. set (m := m1 ++ (k, v) :: m2) in *.
  set (P := "{"%char :: pre m1) in *.
  revert cur tl. induction fuel as [|fuel IH]; intros cur tl E Hlen Hf; [lia|]. cbn [find_key].
  pose proof E as E'. rewrite Hsplit, app_assoc in E'. destruct (longer_prefix _ _ _ _ E' Hlen) as (z & Ecur & _).
  destruct cur as [|c0 cur0] eqn:Ec; [by destruct P|]. rewrite <- Ec in *. clear c0 cur0 Ec.
  rewrite <- app_assoc in Ecur.
  destruct (LastIndex cur (kQuoted k)) as [i|] eqn:Ei; [|by edestruct (LastIndex_None _ _ Ei P z)].
  destruct (LastIndex_Some _ _ _ Ei) as [(p & r & Ep & <-) Hmax]. apply Hmax in Ecur as Hmin.
  rewrite Ep, take_app_length.
  assert (enc (AnyMap m) = p ++ kQuoted k ++ r ++ tl) as Em by (by rewrite E, Ep, <- !app_assoc).
  destruct (UnmarshalMap _) as [m'|] eqn:Eu.
  - apply UnmarshalMap_valid in Eu. destruct (occurrence_is_key m k p _ Hp Hk Em Eu) as (m1' & v' & m2' & Em' & ->).
    assert (m1' = m1) as ->; [|by rewrite before_key].
    by eapply split_unique.
  - assert (length P < length p) as Hlt.
    { apply Nat.le_neq. split; [done|]. intros Hl.
      assert (p = P) as ->.
      { rewrite Em in Hsplit. by apply app_inj_1 in Hsplit as [? _]. }
      unfold P in Eu. rewrite before_key in Eu.
      pose proof (UnmarshalMap_enc m1 (plain_app _ _ Hp)) as Hu. cbn [enc] in Hu. fold (members m1) in Hu.
      unfold braces in Hu. cbn [app] in Eu. congruence. }
    assert (length P + length (kQuoted k) <= length p) as Hover by (eapply no_overlap; [done|by rewrite <- Hsplit, Em|done]).
    rewrite <- length_app in Hover. rewrite Em, app_assoc in Hsplit. symmetry in Hsplit. rewrite app_assoc in Hsplit.
    rewrite <- (app_assoc p) in Hsplit.
    destruct (longer_prefix _ _ _ _ Hsplit Hover) as (x & Ex & _).
    assert ((P ++ kQuoted k) ++ x = "{"%char :: (pre m1 ++ kQuoted k) ++ x) as Ebrace by done.
    assert ((P ++ kQuoted k) ++ x = ((P ++ quote_char :: T k) ++ [quote_char]) ++ x) as Equote
      by (rewrite kQuoted_plain by done; change (quote_char :: T k ++ [quote_char]) with ((quote_char :: T k) ++ [quote_char]);
          by rewrite <- !app_assoc).
    rewrite Ebrace in Equote. destruct (trimmed_keeps "{" _ _ _ eq_refl Equote) as (x' & Ecand & w & Ew).
    rewrite <- Ebrace, <- Ex in Ecand, Ew. apply (IH _ (w ++ kQuoted k ++ r ++ tl)).
    + rewrite app_assoc, <- Ew. exact Em.
    + rewrite Ecand, kQuoted_plain, !length_app by done. simpl. rewrite !length_app. simpl. lia.
    + assert (length (drop_comma (TrimSpace_bytes p)) <= length p) by (rewrite Ew at 2; rewrite length_app; lia).
      rewrite Ep, !length_app in Hf. rewrite kQuoted_plain in Hf by done. simpl in Hf. lia.
Qed.

(** ** The value after a key *)
Lemma members_last p m : plain (AnyMap (p :: m)) = true →
  ∃ t c, comma_join (members (p :: m)) = t ++ [c] ∧ Ascii.is_space c = false.
Proof.
  destruct (exists_last (l := p :: m)) as (m' & [k v] & ->); [done|]. intros Hp.
  destruct (plain_member m' k v [] Hp) as (Hk & Hv & _). rewrite members_app. cbn [members fmap list_fmap comma_join fst snd].
  destruct (enc_last v Hv) as (t & c & E & Hc). unfold encode_member. cbn [fst snd]. rewrite E.
  exists (pre m' ++ encode_string k ++ ":"%char :: t), c. split; [|done]. by rewrite <- !app_assoc.
Qed.

Definition more (m : list (string * any)) : text :=
  match m with [] => [] | _ => ","%char :: comma_join (members m) end.

Lemma value_last v m : plain v = true → m = [] ∨ plain (AnyMap m) = true →
  ∃ t c, enc v ++ more m = t ++ [c] ∧ Ascii.is_space c = false.
Proof.
  intros Hv Hm. destruct m as [|p m]; [rewrite app_nil_r; by apply enc_last|].
  destruct Hm as [?|Hm]; [done|]. destruct (members_last p m Hm) as (t & c & E & Hc).
  exists (enc v ++ ","%char :: t), c. split; [|done]. cbn [more]. by rewrite E, <- app_assoc.
Qed.

Lemma plain_tail m1 p m2 : plain (AnyMap (m1 ++ p :: m2)) = true → plain (AnyMap m2) = true.
Proof.
  cbn [plain]. rewrite fmap_app, forallb_app, fmap_cons. intros [Ha Hm]%andb_prop.
  apply ascending_app in Ha as [_ [_ Ha]%ascending_cons]. apply andb_prop in Hm as [_ [_ Hm]%andb_prop].
  by apply andb_true_intro.
Qed.

Lemma value_after_key m1 k v m2 : plain (AnyMap (m1 ++ (k, v) :: m2)) = true →
  value_after (enc (AnyMap (m1 ++ (k, v) :: m2))) (length ("{"%char :: pre m1) + length (kQuoted k)) = Ok (enc v ++ more m2).
Proof.
  intros Hp. destruct (plain_member _ _ _ _ Hp) as (Hk & Hv & _). rewrite members_split, app_assoc by done.
  rewrite <- length_app. set (P := (_ ++ kQuoted k)).
  assert (":"%char :: enc v ++ match m2 with [] => ["}"%char] | _ => ","%char :: comma_join (members m2) ++ ["}"%char] end
    = (":"%char :: enc v ++ more m2) ++ ["}"%char]) as ->.
  { destruct m2; cbn [more]; [by rewrite app_nil_r|]. by rewrite <- app_comm_cons, <- app_assoc. }
  destruct (value_last v m2 Hv) as (t & d & E & Hd); [right; by eapply plain_tail|].
  unfold value_after. rewrite !length_app. cbn [length].
  rewrite (proj2 (Nat.leb_le _ _)) by lia. rewrite (proj2 (Nat.leb_le 1 _)) by lia. cbn [andb].
  rewrite drop_app_length, take_app_length' by (cbn [length]; lia).
  rewrite (trim_id ":" _ (":"%char :: t) d) by (done || by rewrite E).
  rewrite Ascii.eqb_refl.
  destruct (enc_head v Hv) as (c & t' & Eh & Hc & _). rewrite E. destruct (t ++ [d]) as [|c1 l1] eqn:El; [by destruct t|].
  rewrite Eh in E. cbn [app] in E. injection E as <- E. by rewrite (trim_id c l1 t d).
Qed.

(** ** The shortest well-formed beginning *)
Lemma find_seq (f : nat → bool) a n i : a <= i < a + n → f i = true → (∀ j, a <= j < i → f j = false) →
  find f (seq a n) = Some i.
Proof.
  revert a. induction n as [|n IH]; intros a Hi Hf Hj; [lia|]. cbn [seq find].
  destruct (decide (a = i)) as [->|]; [by rewrite Hf|]. rewrite Hj by lia. apply IH; [lia|done|]. intros j ?. apply Hj. lia.
Qed.

Lemma shortest_spec valid close t rest : valid (t ++ [close]) = true → t ≠ [] →
  (∀ p q, t = p ++ q → p ≠ [] → valid p = false) →
  shortest valid close ((t ++ [close]) ++ rest) = Some (t ++ [close]).
Proof.
  intros Hv Ht Hp. unfold shortest. destruct t as [|c t]; [done|]. clear Ht.
  assert (∀ j, j < length (c :: t) → take (S j) (((c :: t) ++ [close]) ++ rest) = take (S j) (c :: t)) as Htake.
  { intros j Hj. rewrite <- app_assoc. apply take_app_le. lia. }
  rewrite (find_seq _ 1 _ (length (c :: t))).
  - cbn [fmap option_fmap option_map]. by rewrite take_app_length' by (rewrite length_app; simpl; lia).
  - rewrite !length_app. simpl. lia.
  - rewrite lookup_app_l by (rewrite length_app; simpl; lia). rewrite lookup_app_r, Nat.sub_diag by done. cbn [lookup list_lookup].
    rewrite Ascii.eqb_refl.
    by rewrite take_app_length' by (rewrite length_app; simpl; lia).
  - intros j Hj. rewrite Htake by lia. rewrite (Hp _ (drop (S j) (c :: t))); [apply andb_false_r|by rewrite take_drop|done].
Qed.

(** ** The items of an array *)

(** [v'] stands for [v]: it is written the same. *)
Definition same_text (v v' : any) : Prop := Marshal v' = Some (enc v).
(** A conversion of maps whose text is shorter than a bound. *)
Definition converts (N : nat) (convert : text → list (string * any) → outcome any) : Prop :=
  ∀ m, plain (AnyMap m) = true → length (enc (AnyMap m)) < N →
  ∃ o, convert (enc (AnyMap m)) m = Ok o ∧ same_text (AnyMap m) o.

Lemma Unmarshal_nil : Unmarshal [] = None.
Proof. done. Qed.
Lemma Unmarshal_invalid t : checkValid t = false → Unmarshal t = None.
Proof. unfold Unmarshal. by intros ->. Qed.

Lemma trim_enc v : plain v = true → TrimSpace_bytes (enc v) = enc v.
Proof.
  intros Hp. destruct (enc_head v Hp) as (c & t & E & Hc & _). destruct (enc_last v Hp) as (t' & d & E' & Hd).
  rewrite E in *. by eapply trim_id.
Qed.

(** What is tried before the end of an item is not well-formed. *)
Lemma inside_invalid v j : plain v = true → match v with AnyFloat _ => False | _ => True end → j < length (enc v) →
  Unmarshal (TrimSpace_bytes (take j (enc v))) = None.
Proof.
  intros Hp Hv Hj. destruct j as [|j]; [apply Unmarshal_nil|].
  destruct (enc_head v Hp) as (c & t & E & Hc & _). rewrite E. cbn [take].
  destruct (trim_prefix c (take j t) Hc) as (w & _ & Ew). apply Unmarshal_invalid.
  apply (enc_prefix_invalid v _ (w ++ drop j t)); [done|done| | |].
  - by rewrite app_assoc, <- Ew, E, <- app_comm_cons, take_drop.
  - by destruct (trim_head c (take j t) Hc) as [t' ->].
  - intros [_ Hn]%app_eq_nil. rewrite E in Hj. simpl in Hj.
    assert (length (drop j t) = 0) as Hl by (by rewrite Hn). rewrite length_drop in Hl. lia.
Qed.

Lemma insert_here {A} (l r : list A) x y : <[length l := y]> (l ++ x :: r) = l ++ y :: r.
Proof. rewrite <- (Nat.add_0_r (length l)) at 1. by rewrite insert_app_r. Qed.

Lemma length_item v l : v ∈ l → length (enc v) <= length (comma_join (enc <$> l)).
Proof.
  induction l as [|w l IH]; [by intros ?%elem_of_nil|]. rewrite fmap_cons, comma_join_cons, length_app.
  intros [<-|Hv]%elem_of_cons; [lia|]. apply IH in Hv. destruct l as [|w' l]; [simpl in Hv|-*; lia|].
  rewrite fmap_cons, comma_join_cons, length_app in Hv. rewrite fmap_cons, bind_cons, !length_app. simpl. lia.
Qed.

Section items.
Variable convert : text → list (string * any) → outcome any.
Implicit Types (A rest : text) (items : list any).

Lemma item_slice A t rest j : j <= length t → take (length A + j - length A) (drop (length A) (A ++ t ++ rest)) = take j t.
Proof. intros Hj. rewrite drop_app_length. replace (length A + j - length A) with j by lia. by apply take_app_le. Qed.

Lemma item_char A t rest j : j < length t → ∃ c, (A ++ t ++ rest) !! (length A + j) = Some c ∧ t !! j = Some c.
Proof.
  intros Hj. destruct (lookup_lt_is_Some_2 t j Hj) as [c Hc]. exists c. split; [|done].
  rewrite lookup_app_r, lookup_app_l by lia. by replace (length A + j - length A) with j by lia.
Qed.

Lemma number_enc_char x j c : is_number x = true → FormatFloat x !! j = Some c → number_char c = true.
Proof.
  intros Hx Hc. apply FormatFloat_number, andb_prop in Hx as [Hx _]. rewrite forallb_forall in Hx.
  apply Hx, list_elem_of_In. by eapply list_elem_of_lookup_2.
Qed.

(** Within an item nothing is taken. *)
Lemma skip_inside A v rest j fuel i items : plain v = true → j < length (enc v) →
  rest ≠ [] ∨ match v with AnyFloat _ => False | _ => True end →
  convert_items convert (S fuel) (A ++ enc v ++ rest) (length A) (length A + j) i items
  = convert_items convert fuel (A ++ enc v ++ rest) (length A) (length A + S j) i items.
Proof.
  intros Hp Hj Hv. cbn [convert_items]. destruct (item_char A (enc v) rest j Hj) as (c & -> & Hc).
  rewrite <- Nat.add_succ_r. destruct (negb (Ascii.eqb c ",") && _) eqn:Ht; [done|].
  rewrite item_slice by lia.
  assert (match v with AnyFloat _ => False | _ => True end) as Hv'.
  { destruct v as [| |x| | | |]; try done. destruct Hv as [Hv|]; [|done].
    assert (number_char c = true) as (_ & _ & Hcomma & _)%number_char_not by (by eapply number_enc_char).
    rewrite Hcomma in Ht by (unfold T; simpl; set_solver). cbn [negb andb] in Ht.
    apply Nat.ltb_ge in Ht. rewrite !length_app in Ht. destruct rest; [done|]. cbn [length] in Ht. lia. }
  by rewrite inside_invalid.
Qed.

Lemma skip_item A v rest d j fuel i items : plain v = true → j + d = length (enc v) →
  rest ≠ [] ∨ match v with AnyFloat _ => False | _ => True end →
  convert_items convert (d + fuel) (A ++ enc v ++ rest) (length A) (length A + j) i items
  = convert_items convert fuel (A ++ enc v ++ rest) (length A) (length A + length (enc v)) i items.
Proof.
  intros Hp. revert j. induction d as [|d IH]; intros j Hj Hv; [by rewrite <- Hj, Nat.add_0_r|].
  cbn [Nat.add]. rewrite skip_inside by (done || lia). apply IH; [lia|done].
Qed.

Lemma convert_items_end fuel t s e i items : length t <= e → convert_items convert fuel t s e i items = Ok items.
Proof. intros He. destruct fuel; [done|]. cbn [convert_items]. by rewrite lookup_ge_None_2. Qed.

(** The last item stays as it is. *)
Lemma last_item A v fuel j i items : plain v = true → j <= length (enc v) →
  fuel + j = length (enc v) →
  convert_items convert fuel (A ++ enc v) (length A) (length A + j) i items = Ok items.
Proof.
  intros Hp Hj Hf. rewrite <- (app_nil_r (enc v)).
  assert (match v with AnyFloat _ => True | _ => False end ∨ match v with AnyFloat _ => False | _ => True end) as [Hv|Hv]
    by (destruct v; auto).
  2: { rewrite <- (Nat.add_0_r fuel). rewrite skip_item; [done|done|lia|by right]. }
  destruct v as [| |x| | | |]; try done. clear Hv. cbn [plain enc] in *. rewrite app_nil_r.
  revert j Hj Hf. induction fuel as [|fuel IH]; intros j Hj Hf; [done|]. cbn [convert_items].
  destruct (item_char A (FormatFloat x) [] j) as (c & Hl & Hc); [lia|]. rewrite app_nil_r in Hl. rewrite Hl.
  rewrite <- Nat.add_succ_r. destruct (negb (Ascii.eqb c ",") && _) eqn:Ht; [apply IH; lia|].
  pose proof (item_slice A (FormatFloat x) [] j Hj) as Hslice. rewrite app_nil_r in Hslice. rewrite Hslice.
  destruct (Unmarshal _) as [u|] eqn:Eu; [|apply IH; lia].
  destruct j as [|j]; [done|]. destruct (number_text_head _ (FormatFloat_number x Hp)) as (c0 & t & E & Hc0).
  rewrite E in *. cbn [take] in *.
  assert (Ascii.is_space c0 = false) as Hs by (revert Hc0; clear; all_bytes c0).
  destruct (trim_head c0 (take j t) Hs) as [t' ->].
  pose proof (number_char_not c0 Hc0) as (_ & _ & Hd & _). rewrite (Hd "{"%char) by (unfold T; simpl; set_solver).
  assert (Ascii.eqb c "," = false) as Hcomma.
  { assert (number_char c = true) as (_ & _ & Hd' & _)%number_char_not
      by (by eapply number_enc_char; [exact Hp|by rewrite E]). apply Hd'. unfold T; simpl; set_solver. }
  rewrite Hcomma in Ht. cbn [negb andb] in Ht. apply Nat.ltb_ge in Ht. rewrite length_app in Ht.
  cbn. apply convert_items_end. rewrite length_app. cbn [length] in *. lia.
Qed.

Variable N : nat.
Hypothesis Hconvert : converts N convert.

(** The item that ends at a comma. *)
Lemma take_item A v rest done_ l fuel : plain v = true → length (enc v) < N →
  ∃ v', same_text v v' ∧
  convert_items convert (S fuel) (A ++ enc v ++ ","%char :: rest) (length A) (length A + length (enc v)) (length done_)
    (done_ ++ v :: l)
  = convert_items convert fuel (A ++ enc v ++ ","%char :: rest) (S (length A + length (enc v)))
      (S (length A + length (enc v))) (S (length done_)) (done_ ++ v' :: l).
Proof.
  intros Hp Hlen. cbn [convert_items].
  assert ((A ++ enc v ++ ","%char :: rest) !! (length A + length (enc v)) = Some ","%char) as ->.
  { rewrite lookup_app_r by lia. replace (length A + length (enc v) - length A) with (length (enc v)) by lia.
    by apply list_lookup_middle. }
  change (negb (Ascii.eqb "," ",")) with false. cbn [andb].
  rewrite item_slice, firstn_all, trim_enc, Unmarshal_enc by done.
  destruct (enc_head v Hp) as (c & t & E & _ & _ & Hbrace & _). rewrite E, Hbrace.
  destruct v as [| | | | |m|]; try (eexists; split; [by apply Marshal_enc|done]).
  destruct (Hconvert m Hp Hlen) as (o & Ho & Hm). exists o. split; [done|].
  unfold index_of. rewrite list_lookup_middle by done. cbn. rewrite <- E. rewrite Ho. cbn. by rewrite insert_here.
Qed.

Lemma convert_items_spec l : ∀ A done_ fuel,
  Forall (λ v, plain v = true ∧ length (enc v) < N) l →
  fuel + length A = length (A ++ comma_join (enc <$> l)) →
  ∃ l', convert_items convert fuel (A ++ comma_join (enc <$> l)) (length A) (length A) (length done_) (done_ ++ l)
    = Ok (done_ ++ l') ∧ Forall2 same_text l l'.
Proof.
  induction l as [|v l IH]; intros A done_ fuel Hl Hf.
  { exists []. split; [|constructor]. apply convert_items_end. by rewrite app_nil_r. }
  apply Forall_cons in Hl as [[Hp Hlen] Hl]. destruct l as [|v2 l].
  - cbn [fmap list_fmap comma_join] in *. exists [v]. split; [|repeat constructor; by apply Marshal_enc].
    pose proof (last_item A v fuel 0 (length done_) (done_ ++ [v]) Hp) as Hlast. rewrite !Nat.add_0_r in Hlast.
    apply Hlast; [lia|]. rewrite length_app in Hf. lia.
  - change (comma_join (enc <$> v :: v2 :: l)) with (enc v ++ ","%char :: comma_join (enc <$> v2 :: l)) in *.
    set (rest := comma_join (enc <$> v2 :: l)) in *. rewrite !length_app in Hf. cbn [length] in Hf.
    replace fuel with (length (enc v) + S (length rest)) by lia.
    pose proof (skip_item A v (","%char :: rest) (length (enc v)) 0 (S (length rest)) (length done_) (done_ ++ v :: v2 :: l) Hp) as Hskip.
    rewrite !Nat.add_0_r in Hskip. rewrite Hskip by (done || by left). clear Hskip.
    destruct (take_item A v rest done_ (v2 :: l) (length rest) Hp Hlen) as (v' & Hv' & ->).
    set (A' := A ++ enc v ++ [","%char]).
    assert (S (length A + length (enc v)) = length A') as -> by (unfold A'; rewrite !length_app; simpl; lia).
    assert (A ++ enc v ++ ","%char :: rest = A' ++ rest) as -> by (unfold A'; by rewrite <- !app_assoc).
    assert (S (length done_) = length (done_ ++ [v'])) as -> by (rewrite length_app; simpl; lia).
    replace (done_ ++ v' :: v2 :: l) with ((done_ ++ [v']) ++ v2 :: l) by (by rewrite <- app_assoc).
    destruct (IH A' (done_ ++ [v']) (length rest) Hl) as (l' & Hl' & Hall); [rewrite length_app; lia|].
    exists (v' :: l'). rewrite Hl', <- app_assoc. split; [done|by constructor].
Qed.

(** ** The value of a key *)
Lemma convert_value_spec v rest : plain v = true → length (enc v) < N →
  ∃ v', convert_value convert (enc v ++ rest) v = Ok v' ∧ same_text v v'.
Proof.
  intros Hp Hlen. destruct (enc_head v Hp) as (c & t & E & Hc & _ & Hbrace & Hbracket & _).
  unfold convert_value. rewrite E. cbn [app]. rewrite Hbrace, Hbracket, app_comm_cons, <- E.
  pose proof (λ p q, enc_prefix_invalid v p q Hp) as Hpre.
  destruct v as [| | | |l|m|]; try (eexists; split; [done|by apply Marshal_enc]); clear E Hbrace Hbracket.
  - pose proof (Unmarshal_enc _ Hp) as Hu. cbn [enc] in *. unfold brackets in *. rewrite app_comm_cons in *.
    rewrite shortest_spec; [|by unfold UnmarshalSlice; rewrite Hu|done|].
    2: { intros p q Epq Hne. rewrite UnmarshalSlice_invalid; [done|]. eapply (Hpre p (q ++ ["]"%char])); [done| |done|by destruct q].
         by rewrite Epq, <- app_assoc. }
    rewrite length_app. cbn [length app drop]. replace (S (length (comma_join (enc <$> l))) + 1 - 2) with
      (length (comma_join (enc <$> l))) by lia. rewrite drop_0, take_app_length.
    destruct (convert_items_spec l [] [] (length (comma_join (enc <$> l)))) as (l' & Hl' & Hall).
    + cbn [plain] in Hp. apply Forall_forall. intros w Hw. split.
      * rewrite forallb_forall in Hp. by apply Hp, list_elem_of_In.
      * apply length_item in Hw. rewrite length_app in Hlen. simpl in Hlen. lia.
    + simpl. lia.
    + cbn [app length] in Hl'. rewrite Hl'. cbn. eexists. split; [done|]. unfold same_text. cbn [Marshal enc].
      assert (mapM id (Marshal <$> l') = Some (enc <$> l)) as ->; [|done].
      apply mapM_Some, Forall2_fmap, Forall2_flip. exact Hall.
  - destruct (Hconvert m Hp Hlen) as (o & Ho & Hm). pose proof (UnmarshalMap_enc m Hp) as Hu.
    cbn [enc] in *. unfold braces in *. rewrite app_comm_cons in *.
    rewrite shortest_spec; [|by rewrite Hu|done|].
    2: { intros p q Epq Hne. rewrite UnmarshalMap_invalid; [done|]. eapply (Hpre p (q ++ ["}"%char])); [done| |done|by destruct q].
         by rewrite Epq, <- app_assoc. }
    cbn. exists o. split; [exact Ho|exact Hm].
Qed.
End items.

(** ** All keys *)
Lemma map_get_in {A} (m : list (string * A)) k a : NoDup (fst <$> m) → (k, a) ∈ m → map_get m k = Some a.
Proof.
  induction m as [|[k' a'] m IH]; [by intros _ ?%elem_of_nil|]. rewrite fmap_cons.
  intros [Hk Hnd]%NoDup_cons [E|Hin]%elem_of_cons; cbn [map_get]; [injection E as <- <-; by rewrite String.eqb_refl|].
  destruct (String.eqb_spec k' k) as [->|]; [|by apply IH]. destruct Hk. apply list_elem_of_fmap. by exists (k, a).
Qed.

Lemma map_set_replace {A} (m1 m2 : list (string * A)) k a b : ascending (fst <$> m1 ++ (k, a) :: m2) = true →
  map_set k b (m1 ++ (k, a) :: m2) = m1 ++ (k, b) :: m2.
Proof.
  induction m1 as [|[k' a'] m1 IH]; [cbn; by rewrite String.eqb_refl|].
  rewrite <- app_comm_cons, fmap_cons. intros [Hk Ha]%ascending_cons. cbn [app map_set].
  assert (key_lt k' k = true) as Hlt by (apply Hk; rewrite fmap_app; apply elem_of_app; right; by left).
  destruct (String.eqb_spec k' k) as [->|Hne]; [by rewrite key_lt_irrefl in Hlt|].
  unfold key_lt in Hlt. apply andb_prop in Hlt as [Hle _]. apply bool_decide_eq_true_1 in Hle.
  rewrite bool_decide_eq_false_2, IH by (done || by intros Hle'; apply Hne, (anti_symm String.le)). done.
Qed.

(** Where the keys of [m2] are, after the members [m1]. *)
Fixpoint marks (m1 m2 : list (string * any)) : list (nat * string) :=
  match m2 with
  | [] => []
  | p :: m2 => (length ("{"%char :: comma_join (members m1)), p.1) :: marks (m1 ++ [p]) m2
  end.

Lemma marks_keys m1 m2 : snd <$> marks m1 m2 = fst <$> m2.
Proof. revert m1. induction m2 as [|p m2 IH]; intros m1; [done|]. cbn. by rewrite IH. Qed.

Lemma marks_length m p : length (comma_join (members m)) < length (comma_join (members (m ++ [p]))).
Proof.
  rewrite members_app, length_app. cbn [members fmap list_fmap comma_join].
  pose proof (length_member p.1 (enc p.2)). destruct m as [|q m _] using rev_ind; [cbn; lia|].
  rewrite pre_snoc, length_app. cbn [length]. lia.
Qed.

Lemma marks_lower m1 m2 x : x ∈ marks m1 m2 → length ("{"%char :: comma_join (members m1)) <= x.1.
Proof.
  revert m1. induction m2 as [|p m2 IH]; intros m1; [by intros ?%elem_of_nil|]. cbn [marks].
  intros [->|Hx]%elem_of_cons; [done|]. apply IH in Hx. pose proof (marks_length m1 p). cbn [length] in *. lia.
Qed.

Lemma marks_sorted m1 m2 : StronglySorted (λ x y, x.1 < y.1) (marks m1 m2).
Proof.
  revert m1. induction m2 as [|p m2 IH]; intros m1; cbn [marks]; constructor; [apply IH|].
  apply Forall_forall. intros x Hx%marks_lower. pose proof (marks_length m1 p). cbn [length fst] in *. lia.
Qed.

#[local] Instance ki_le_trans : Transitive ki_le.
Proof. intros x y z. unfold ki_le. lia. Qed.
#[local] Instance ki_le_total : Total ki_le.
Proof. intros x y. unfold ki_le. lia. Qed.

Lemma sort_marks m1 m2 : merge_sort ki_le (marks m1 m2) = marks m1 m2.
Proof.
  pose proof (marks_sorted m1 m2) as Hs. apply (StronglySorted_unique_strong ki_le).
  - intros x y Hx Hy Hxy Hyx. rewrite merge_sort_Permutation in Hx. assert (x.1 = y.1) as E by (unfold ki_le in *; lia).
    clear Hxy Hyx. induction Hs as [|z l Hl IH Hz]; [by apply elem_of_nil in Hx|]. rewrite Forall_forall in Hz.
    apply elem_of_cons in Hx as [->|Hx], Hy as [->|Hy]; [done|apply Hz in Hy; lia|apply Hz in Hx; lia|by apply IH].
  - apply (StronglySorted_merge_sort ki_le).
  - clear -Hs. induction Hs as [|x l Hl IH Hx]; constructor; [done|]. eapply Forall_impl; [exact Hx|]. unfold ki_le. cbn. lia.
  - apply merge_sort_Permutation.
Qed.

(** A member whose value stands for that of another. *)
Definition same_member (p p' : string * any) : Prop := p.1 = p'.1 ∧ same_text p.2 p'.2.

Lemma same_keys m m' : Forall2 same_member m m' → fst <$> m = fst <$> m'.
Proof. induction 1 as [|p p' m m' [Hk _] _ IH]; [done|]. cbn. by rewrite Hk, IH. Qed.

Lemma order_key_spec N convert oks m1 m1' k v m2 : converts N convert →
  let m := m1 ++ (k, v) :: m2 in
  plain (AnyMap m) = true → length (enc v) < N → Forall2 same_member m1 m1' →
  ∃ v', same_text v v' ∧
  order_key convert (enc (AnyMap m)) (Ok (oks, m1' ++ (k, v) :: m2)) k
  = Ok (oks ++ [(length ("{"%char :: comma_join (members m1)), k)], (m1' ++ [(k, v')]) ++ m2).
Proof.
  intros Hc m Hp Hlen Hm1. destruct (plain_member _ _ _ _ Hp) as (Hk & Hv & Hnd).
  assert (fst <$> m1' ++ (k, v) :: m2 = fst <$> m) as Hkeys.
  { unfold m. rewrite !fmap_app. f_equal. symmetry. by apply same_keys. }
  unfold order_key. cbn [mbind outcome_bind].
  rewrite (find_key_spec m1 k v m2 _ _ []); [|done|by rewrite app_nil_r| |lia].
  2: { unfold m. rewrite members_split, app_assoc, (length_app (_ ++ kQuoted k)) by done. lia. }
  rewrite (map_get_in _ k v); [|by rewrite Hkeys|apply elem_of_app; right; by left].
  unfold m. rewrite (value_after_key m1 k v m2 Hp). cbn.
  destruct (convert_value_spec convert N Hc v (more m2) Hv Hlen) as (v' & Hv' & Hsame). rewrite Hv'. cbn.
  exists v'. split; [done|]. rewrite map_set_replace, <- app_assoc; [done|].
  rewrite Hkeys. cbn [plain] in Hp. by apply andb_prop in Hp as [? _].
Qed.

Lemma order_keys_spec N convert m1 m1' m2 oks : converts N convert →
  let m := m1 ++ m2 in
  plain (AnyMap m) = true → Forall (λ p, length (enc p.2) < N) m2 → Forall2 same_member m1 m1' →
  ∃ m2', Forall2 same_member (m1 ++ m2) (m1' ++ m2') ∧
  fold_left (order_key convert (enc (AnyMap m))) (fst <$> m2) (Ok (oks, m1' ++ m2))
  = Ok (oks ++ marks m1 m2, m1' ++ m2').
Proof.
  intros Hc. revert m1 m1' oks. induction m2 as [|[k v] m2 IH]; intros m1 m1' oks m Hp Hlen Hm1.
  { exists []. cbn. by rewrite !app_nil_r. }
  apply Forall_cons in Hlen as [Hl Hlen]. rewrite fmap_cons. cbn [fold_left fst].
  destruct (order_key_spec N convert oks m1 m1' k v m2 Hc Hp Hl Hm1) as (v' & Hv' & E).
  unfold m in *. rewrite E. clear m E.
  destruct (IH (m1 ++ [(k, v)]) (m1' ++ [(k, v')]) (oks ++ [(length ("{"%char :: comma_join (members m1)), k)]))
    as (m2' & Hm2 & Hfold).
  - by rewrite <- app_assoc.
  - done.
  - apply Forall2_app; [done|]. by repeat constructor.
  - exists ((k, v') :: m2'). rewrite <- !app_assoc in *. cbn [app] in *. split; [done|]. exact Hfold.
Qed.

(** The ordered map of the keys in their order is written as the map. *)
Lemma same_ordered m m' : plain (AnyMap m) = true → Forall2 same_member m m' →
  same_text (AnyMap m) (AnyOrdered (fst <$> m) m').
Proof.
  intros Hp Hm. unfold same_text. cbn [Marshal]. unfold MarshalJSON.
  assert (mapM (λ k, v ← (match map_get ((λ '(k, v), (k, Marshal v)) <$> m') k with Some v => v | None => Some (T "null") end);
                 Some (kQuoted k ++ ":"%char :: v)) (fst <$> m) = Some (members m)) as ->.
  - apply mapM_Some, Forall2_fmap, Forall_Forall2_diag, Forall_forall. intros [k v] Hin.
    apply list_elem_of_lookup in Hin as [i Hi]. destruct (Forall2_lookup_l _ _ _ _ _ Hm Hi) as ([k' v'] & Hi' & Hkk & Hv).
    cbn [fst snd] in *. subst k'. rewrite (map_get_in _ k (Marshal v')).
    + rewrite Hv. cbn [mbind option_bind]. cbn [plain] in Hp. apply andb_prop in Hp as [_ Hp]. rewrite forallb_forall in Hp.
      assert (In (k, v) m) as [Hk _]%Hp%andb_prop by (by eapply list_elem_of_In, list_elem_of_lookup_2).
      by rewrite plain_member_text.
    + assert (fst <$> ((λ '(k, v), (k, Marshal v)) <$> m') = fst <$> m') as ->
        by (rewrite <- list_fmap_compose; apply list_fmap_ext; by intros j [k0 v0] _).
      rewrite <- (same_keys _ _ Hm).
      cbn [plain] in Hp. apply andb_prop in Hp as [Ha _]. by apply ascending_NoDup.
    + apply list_elem_of_fmap. exists (k, v'). split; [done|]. by eapply list_elem_of_lookup_2.
  - cbn [mbind option_bind]. change (braces (comma_join (members m))) with (enc (AnyMap m)). by apply compact_enc.
Qed.

Lemma length_value k v m : (k, v) ∈ m → length (enc v) < length (enc (AnyMap m)).
Proof.
  intros (m1 & m2 & ->)%list_elem_of_split. cbn [enc]. fold (members (m1 ++ (k, v) :: m2)). unfold braces. cbn [length].
  rewrite members_app, !length_app, members_cons, comma_join_cons, length_app. pose proof (length_member k (enc v)).
  cbn [fst snd] in *. lia.
Qed.

(** [fuel] more than the length of the text is enough. *)
Lemma mapToOrderedMap_converts fuel : converts fuel (mapToOrderedMap fuel).
Proof.
  induction fuel as [|fuel IH]; intros m Hp Hlen; [lia|]. cbn [mapToOrderedMap].
  destruct (order_keys_spec fuel (mapToOrderedMap fuel) [] [] m [] IH Hp) as (m' & Hm & E); [|constructor|].
  { apply Forall_forall. intros [k v] Hin%length_value. cbn [snd]. lia. }
  cbn [app] in E. rewrite E. cbn. rewrite sort_marks, marks_keys. eexists. split; [done|]. by apply same_ordered.
Qed.

(** Reading the text of a plain map. *)
Lemma UnmarshalJSON_enc m : plain (AnyMap m) = true →
  ∃ values, UnmarshalJSON (enc (AnyMap m)) = Ok (AnyOrdered (fst <$> m) values) ∧
  same_text (AnyMap m) (AnyOrdered (fst <$> m) values).
Proof.
  intros Hp. unfold UnmarshalJSON. rewrite UnmarshalMap_enc by done. cbn [mapToOrderedMap].
  set (t := enc (AnyMap m)). destruct (order_keys_spec (length t) (mapToOrderedMap (length t)) [] [] m []
    (mapToOrderedMap_converts _) Hp) as (m' & Hm & E); [|constructor|].
  { apply Forall_forall. by intros [k v] Hin%length_value. }
  cbn [app] in E. fold t in E. rewrite E. cbn. rewrite sort_marks, marks_keys. exists m'. split; [done|].
  by apply same_ordered.
Qed.

End positions.

(** ** Witness: numbers up to 999 *)
#[local] Instance small_numbers : Float64 :=
  {| float64 := nat; is_number n := (n <? 1000)%nat; FormatFloat n := T (pretty n);
     ParseFloat t := Z.to_nat <$> natural t |}.

Definition good_number (n : nat) : bool :=
  number_text (FormatFloat n) && bool_decide (ParseFloat (FormatFloat n) = Some n).
Lemma small_numbers_good : forallb good_number (seq 0 1000) = true.
Proof. vm_compute. reflexivity. Qed.
Lemma small_number_good n : is_number n = true → good_number n = true.
Proof.
  intros Hn. pose proof small_numbers_good as Hall. rewrite forallb_forall in Hall. apply Hall, in_seq.
  cbn [is_number small_numbers] in Hn. apply Nat.ltb_lt in Hn. lia.
Qed.
#[local] Instance small_numbers_text : FloatText.
Proof.
  split; intros n [? Hp]%small_number_good%andb_prop; [done|]. by apply bool_decide_eq_true_1 in Hp.
Qed.

Definition usage_row : list (string * any) :=
  [("data_start", AnyString "2019-07-04T00:00:00Z");
   ("labels", AnyMap [("a", AnyString "namespace"); ("namespace", AnyString "{<b>}, : &")]);
   ("namespace", AnyString "labels");
   ("usage", AnySlice [AnyMap [("unit", AnyNil)]; AnyFloat 12; AnyMap [("usage", AnyFloat 7)]])].


(** What keys that are not plain come to: a key with a character that HTML
    escaping replaces, and a key that is a colon before a string, are lost. *)
Example keys_lost :
  NewFromMap [(":", AnyString "x"); ("a<b", AnyFloat 1); ("c", AnyNil)]
  = Ok (AnyOrdered ["c"] [(":", AnyString "x"); ("a<b", AnyFloat 1); ("c", AnyNil)]).
Proof. vm_compute. reflexivity. Qed.

(** The last item of an array is not converted. *)
Example last_item_kept :
  NewFromMap [("l", AnySlice [AnyMap []; AnyMap []])]
  = Ok (AnyOrdered ["l"] [("l", AnySlice [AnyOrdered [] []; AnyMap []])]).
Proof. vm_compute. reflexivity. Qed.
