(* ===== verification/HealthChecks.v ===== *)
(** * Concurrent health checks (src/pkg/operator/reporting/health.go,
    [TestReadFromPrestoSingleFlight], [TestWriteToPrestoSingleFlight])

    Concurrent checks share a query through a singleflight group
    (src/vendor/golang.org/x/sync/singleflight): the first caller leads and
    runs the query, those that find its call in the group's map wait for its
    answer.  The query forgets the key itself when it has ended; [doCall] then
    deletes the key once more, whoever's it is by then. *)

From S2P Require Export Prelude.
Open Scope nat_scope.

(** Where a caller is in [Do]. *)
Inductive caller :=
  | Arriving                                  (* before the lock *)
  | Waiting (call : nat)                      (* c.wg.Wait *)
  | Querying                                  (* the query runs *)
  | Answered (healthy : bool)                 (* it has ended, the deferred Forget is next *)
  | Forgotten (healthy : bool)                (* the function has returned *)
  | Finished (healthy : bool)                 (* c.wg.Done was called *)
  | Returned (healthy : bool) (call : nat).   (* the answer, and the call it is of *)

(** The entry of the key, by the number of the caller that leads, and all
    callers so far. *)
Record group := MkGroup { flight : option nat; callers : list caller }.
Definition set_caller (i : nat) (p : caller) (g : group) : group := MkGroup (flight g) (<[i := p]> (callers g)).
Definition set_flight (f : option nat) (g : group) : group := MkGroup f (callers g).

(** The result of a call, once waiting for it ends. *)
Definition call_result (call : nat) (p : caller) : option bool :=
  match p with
  | Finished v => Some v
  | Returned v c => if call =? c then Some v else None
  | _ => None
  end.

(** What the callers do. *)
Inductive work : group → group → Prop :=
  | lead g i : callers g !! i = Some Arriving → flight g = None →
      work g (set_caller i Querying (set_flight (Some i) g))
  | join g i c : callers g !! i = Some Arriving → flight g = Some c → work g (set_caller i (Waiting c) g)
  | answer g i healthy : callers g !! i = Some Querying → work g (set_caller i (Answered healthy) g)
  | forget g i healthy : callers g !! i = Some (Answered healthy) →
      work g (set_caller i (Forgotten healthy) (set_flight None g))
  | finish g i healthy : callers g !! i = Some (Forgotten healthy) → work g (set_caller i (Finished healthy) g)
  | delete g i healthy : callers g !! i = Some (Finished healthy) →
      work g (set_caller i (Returned healthy i) (set_flight None g))
  | wake g i c p healthy : callers g !! i = Some (Waiting c) → callers g !! c = Some p →
      call_result c p = Some healthy → work g (set_caller i (Returned healthy c) g).
Inductive step : group → group → Prop :=
  | arrive g : step g (MkGroup (flight g) (callers g ++ [Arriving]))
  | working g g' : work g g' → step g g'.
Definition reachable : group → Prop := rtc step (MkGroup None []).

(** ** Invariant *)
Definition leading (call : nat) (p : caller) : Prop :=
  match p with
  | Querying | Answered _ | Forgotten _ | Finished _ => True
  | Returned _ c => call = c
  | _ => False
  end.
(** The answer of a call that has one. *)
Definition caller_ok (l : list caller) (p : caller) : Prop :=
  match p with
  | Waiting c => ∃ q, l !! c = Some q ∧ leading c q
  | Returned v c => ∃ q, l !! c = Some q ∧ call_result c q = Some v
  | _ => True
  end.
Record group_ok (g : group) : Prop := {
  ok_flight c : flight g = Some c → ∃ p, callers g !! c = Some p ∧ (p = Querying ∨ ∃ v, p = Answered v);
  ok_callers i p : callers g !! i = Some p → caller_ok (callers g) p;
}.

(** A caller moves on; what others rely on stays. *)
Lemma caller_ok_insert l i p p' q : l !! i = Some p →
  (∀ c, leading c p → c = i → leading c p') → (∀ c v, c = i → call_result c p = Some v → call_result c p' = Some v) →
  caller_ok l q → caller_ok (<[i := p']> l) q.
Proof.
  intros Hi Hl Hr. pose proof (lookup_lt_Some _ _ _ Hi) as Hlt. destruct q as [|c| | | | |v c]; simpl; try done.
  - intros (q & Hq & Hlead). destruct (decide (i = c)) as [->|Hne].
    + rewrite list_lookup_insert_eq by done. exists p'. split; [done|]. apply Hl; [|done]. congruence.
    + rewrite list_lookup_insert_ne by done. by exists q.
  - intros (q & Hq & Hres). destruct (decide (i = c)) as [->|Hne].
    + rewrite list_lookup_insert_eq by done. exists p'. split; [done|]. apply Hr; [done|]. congruence.
    + rewrite list_lookup_insert_ne by done. by exists q.
Qed.

Lemma group_ok_move g i p p' f : callers g !! i = Some p → group_ok g →
  (∀ c, leading c p → c = i → leading c p') → (∀ c v, c = i → call_result c p = Some v → call_result c p' = Some v) →
  caller_ok (<[i := p']> (callers g)) p' →
  (∀ c, f = Some c → ∃ q, <[i := p']> (callers g) !! c = Some q ∧ (q = Querying ∨ ∃ v, q = Answered v)) →
  group_ok (set_caller i p' (set_flight f g)).
Proof.
  intros Hi [Hf Hc] Hl Hr Hp' Hf'. pose proof (lookup_lt_Some _ _ _ Hi) as Hlt. split; cbn [set_caller set_flight flight callers]; [done|].
  intros j q. destruct (decide (i = j)) as [<-|Hne].
  - rewrite list_lookup_insert_eq by done. by intros [= <-].
  - rewrite list_lookup_insert_ne by done. intros Hq%Hc. by eapply caller_ok_insert.
Qed.

(** The entry of the key survives a move of a caller that is not at its end. *)
Lemma flight_move g i p p' c : callers g !! i = Some p → group_ok g → flight g = Some c →
  (c = i → p' = Querying ∨ ∃ v, p' = Answered v) →
  ∃ q, <[i := p']> (callers g) !! c = Some q ∧ (q = Querying ∨ ∃ v, q = Answered v).
Proof.
  intros Hi [Hf _] Hc Hp'. destruct (Hf c Hc) as (q & Hq & Hq'). pose proof (lookup_lt_Some _ _ _ Hi) as Hlt.
  destruct (decide (i = c)) as [->|Hne].
  - rewrite list_lookup_insert_eq by done. exists p'. split; [done|]. by apply Hp'.
  - rewrite list_lookup_insert_ne by done. by exists q.
Qed.

Lemma work_ok g g' : group_ok g → work g g' → group_ok g'.
Proof.
  intros Hok Hw. pose proof Hok as [Hf Hc]. destruct Hw as [g i Hi Hn|g i c Hi Hj|g i v Hi|g i v Hi|g i v Hi|g i v Hi|g i c p v Hi Hp Hr];
    pose proof (lookup_lt_Some _ _ _ Hi) as Hlt.
  - eapply group_ok_move; [exact Hi|done|done|done|done|]. intros c [= <-]. exists Querying.
    rewrite list_lookup_insert_eq by done. auto.
  - assert (c ≠ i) as Hne by (intros ->; destruct (Hf i Hj) as (q & Hq & [->|[v ->]]); congruence).
    destruct g as [f l]. apply (group_ok_move (MkGroup f l) i Arriving (Waiting c) f); try done.
    + simpl. destruct (Hf c Hj) as (q & Hq & Hq'). exists q. rewrite list_lookup_insert_ne by done. split; [done|].
      by destruct Hq' as [->|[v ->]].
    + intros c' Hc'. eapply flight_move; [exact Hi|done|done|]. intros ->. cbn [flight] in *. congruence.
  - destruct g as [f l]. apply (group_ok_move (MkGroup f l) i Querying (Answered v) f); try done.
    intros c Hfc. eapply flight_move; [exact Hi|done|done|]. intros _. right. by exists v.
  - eapply group_ok_move; [exact Hi|done|done|done|done|done].
  - destruct g as [f l]. apply (group_ok_move (MkGroup f l) i (Forgotten v) (Finished v) f); try done.
    intros c Hfc. eapply flight_move; [exact Hi|done|done|]. intros ->.
    destruct (Hf i Hfc) as (q & Hq & [->|[v' ->]]); congruence.
  - eapply group_ok_move; [exact Hi|done| | | |done].
    + intros c _ ->. done.
    + intros c v' -> [= <-]. simpl. by rewrite Nat.eqb_refl.
    + simpl. exists (Returned v i). rewrite list_lookup_insert_eq by done. simpl. by rewrite Nat.eqb_refl.
  - assert (c ≠ i) as Hne by (intros ->; rewrite Hi in Hp; injection Hp as <-; done).
    destruct g as [f l]. apply (group_ok_move (MkGroup f l) i (Waiting c) (Returned v c) f); try done.
    + simpl. exists p. by rewrite list_lookup_insert_ne.
    + intros c' Hfc. eapply flight_move; [exact Hi|done|done|]. intros ->.
      destruct (Hf i Hfc) as (q & Hq & [->|[v' ->]]); congruence.
Qed.

Lemma caller_ok_app l l' p : caller_ok l p → caller_ok (l ++ l') p.
Proof.
  destruct p as [|c| | | | |v c]; simpl; try done; intros (q & Hq & ?); exists q; (split; [|done]); by apply lookup_app_l_Some.
Qed.

Lemma reachable_group_ok g : reachable g → group_ok g.
Proof.
  intros Hr. pattern g. eapply rtc_ind_r; [| |exact Hr].
  - by split.
  - clear. intros g g' _ [g0|g0 g1 Hw] Hok; [|by eapply work_ok]. destruct Hok as [Hf Hc]. split; cbn [flight callers].
    + intros c Hfc. destruct (Hf c Hfc) as (q & Hq & ?). exists q. split; [|done]. by apply lookup_app_l_Some.
    + intros i p [Hi|[_ Hi]]%lookup_app_Some; [by apply caller_ok_app, (Hc i)|].
      destruct (i - length (callers g0)); [|done]. by injection Hi as <-.
Qed.

(** ** Every caller is answered *)
Definition left_to_do (p : caller) : nat :=
  match p with
  | Arriving => 6 | Querying => 5 | Answered _ => 4 | Forgotten _ => 3 | Finished _ => 2 | Waiting _ => 1 | Returned _ _ => 0
  end.
Definition measure (g : group) : nat := sum_list_with left_to_do (callers g).

Lemma work_measure g g' : work g g' → measure g' < measure g.
Proof.
  assert (∀ l i p p', l !! i = Some p → left_to_do p' < left_to_do p →
    sum_list_with left_to_do (<[i := p']> l) < sum_list_with left_to_do l) as Hmove.
  { intros l i p p' Hi Hlt. pose proof (sum_insert left_to_do l i p p' Hi). lia. }
  destruct 1; unfold measure; cbn [set_caller set_flight callers]; eapply Hmove; eauto; simpl; lia.
Qed.

(** Everybody has the answer of a call whose leader has it too. *)
Definition all_answered (g : group) : Prop := ∀ i p, callers g !! i = Some p →
  ∃ healthy c, p = Returned healthy c ∧ callers g !! c = Some (Returned healthy c).

Lemma work_progress g : group_ok g → all_answered g ∨ ∃ g', work g g'.
Proof.
  intros Hok.
  assert (∀ i p, callers g !! i = Some p → (∃ v c, p = Returned v c) ∨ ∃ g', work g g') as Hone.
  { assert (∀ i p, callers g !! i = Some p → (∀ c, p ≠ Waiting c) → (∃ v c, p = Returned v c) ∨ ∃ g', work g g') as Hnw.
    { intros i [|c| |v|v|v|v c] Hi Hw; [|by destruct (Hw c)|..|by left; eauto]; right.
      - destruct (flight g) as [c|] eqn:Ef; eexists; [by eapply join|by eapply lead].
      - eexists. by apply (answer g i true).
      - eexists. by eapply forget.
      - eexists. by eapply finish.
      - eexists. by eapply delete. }
    intros i [|c| |v|v|v|v c] Hi; try (by eapply Hnw).
    pose proof (ok_callers _ Hok i _ Hi) as (q & Hq & Hlead). destruct q as [|c'| |v|v|v|v c'] eqn:Eq; try done.
    all: try (destruct (Hnw c q) as [(v' & c'' & E)|]; [by rewrite Eq|by rewrite Eq|congruence|by right]).
    simpl in Hlead. subst c'. right. eexists. eapply wake; [exact Hi|exact Hq|]. simpl. by rewrite Nat.eqb_refl. }
  destruct (decide (Exists (λ p, left_to_do p ≠ 0) (callers g))) as [He|Hn].
  - right. apply Exists_exists in He as (p & Hp & Hne). apply list_elem_of_lookup in Hp as [i Hi].
    destruct (Hone i p Hi) as [(v & c & ->)|]; done.
  - left. intros i p Hi. assert (left_to_do p = 0) as Hp.
    { apply dec_stable. intros Hp. apply Hn, Exists_exists. exists p. split; [by eapply list_elem_of_lookup_2|done]. }
    destruct p as [| | | | | |v c]; try done. exists v, c. split; [done|].
    destruct (ok_callers _ Hok i _ Hi) as (q & Hq & Hres). rewrite Hq.
    assert (left_to_do q = 0) as Hq0.
    { apply dec_stable. intros Hq'. apply Hn, Exists_exists. exists q. split; [by eapply list_elem_of_lookup_2|done]. }
    destruct q as [| | | | | |v' c']; try done. simpl in Hres. destruct (Nat.eqb_spec c c') as [<-|]; [|done]. congruence.
Qed.

(** C28: no health check hangs: from any state of the callers, however they
    arrived, every execution ends with all of them answered, each with the
    answer of a query that it or another caller ran and got as well. *)
Theorem health_checks_answered g : reachable g → eventually work all_answered g.
Proof.
  intros Hr%reachable_group_ok. revert g Hr. apply (eventually_measure work all_answered group_ok measure).
  - apply work_progress.
  - intros g g' Hok Hw. split; [by eapply work_ok|by apply work_measure].
Qed.

(** ** More than one query at a time *)

(** The first query ends and forgets the key, the second caller starts a query,
    the first [doCall] deletes the second caller's entry, and the third caller
    starts a query while the second one's runs. *)
Definition two_at_once : group := MkGroup (Some 2) [Returned true 0; Querying; Querying].

Lemma two_at_once_reachable : reachable two_at_once.
Proof.
  unfold reachable. do 3 (eapply rtc_l; [apply arrive|]). cbn [app callers flight].
  eapply rtc_l; [apply working, (lead _ 0); done|]. eapply rtc_l; [apply working, (answer _ 0 true); done|].
  eapply rtc_l; [apply working, (forget _ 0 true); done|]. eapply rtc_l; [apply working, (lead _ 1); done|].
  eapply rtc_l; [apply working, (finish _ 0 true); done|]. eapply rtc_l; [apply working, (delete _ 0 true); done|].
  eapply rtc_l; [apply working, (lead _ 2); done|]. apply rtc_refl.
Qed.

(** The group does not keep what it is for: that at most one query runs. *)
Lemma not_single_flight : ¬ ∀ g, reachable g → ∀ i j, callers g !! i = Some Querying → callers g !! j = Some Querying → i = j.
Proof. intros H. discriminate (H _ two_at_once_reachable 1 2 eq_refl eq_refl). Qed.

Lemma health_checks_answered_witness :
  callers two_at_once !! 1 = Some Querying ∧ eventually work all_answered two_at_once.
Proof. split; [reflexivity|exact (health_checks_answered two_at_once two_at_once_reachable)]. Defined.
