(* ===== verification/Test2json.v ===== *)
(** * Test output as events (src/gotools/test2json)

    The build converts the output of a test binary to a stream of JSON events:
    a line buffer finds the lines of what is written, a converter recognises
    those that report on tests, and a second line buffer cuts the rest into
    output events.  A callback is a function on the state it changes; [None] is
    a loop that never ends.  The events' JSON encoding is encoding/json's. *)

From S2P Require Export OrderedJson.
Open Scope nat_scope.

Definition newline : ascii := ascii_of_nat 10.
Definition tab : ascii := ascii_of_nat 9.

Fixpoint IndexByte (c : ascii) (l : text) : option nat :=
  match l with
  | [] => None
  | d :: l => if Ascii.eqb d c then Some 0 else S <$> IndexByte c l
  end.

(** ** UTF-8 *)

(** Bytes a sequence needs that starts with [c]. *)
Definition sequence_length (c : ascii) : nat :=
  if (byte c / 32 =? 6)%Z then 2 else if (byte c / 16 =? 14)%Z then 3 else if (byte c / 8 =? 30)%Z then 4 else 1.
Definition continuation (c : ascii) : bool := (byte c / 64 =? 2)%Z.

(** The length without an incomplete sequence at the end: the scan is over the
    last three bytes, backwards. *)
Fixpoint trim_back (n : nat) (i : nat) (back : list ascii) : nat :=
  match i, back with
  | O, _ | _, [] => n
  | S i', c :: back =>
      if continuation c then trim_back n i' back
      else if (4 - i <? sequence_length c)%nat then n - (4 - i) else n
  end.
Definition trimUTF8 (b : text) : nat := trim_back (length b) 3 (rev b).

(** Lower case letters beyond ASCII. *)
Class LowerCase := { lower_above : Z → bool }.
Definition IsLower `{LowerCase} (r : Z) : bool :=
  if (r <? 128)%Z then (97 <=? r)%Z && (r <=? 122)%Z else lower_above r.
Definition isBenchmarkName `{LowerCase} (b : text) : bool :=
  has_prefix (T "Benchmark") b &&
  match drop 9 b with
  | [] => true
  | c :: rest => negb (IsLower (fst (decode_rune (byte c) (byte <$> rest))))
  end.
Fixpoint drop_blanks (l : text) : text :=
  match l with c :: l' => if Ascii.eqb c " " then drop_blanks l' else l | [] => [] end.
Definition TrimRight_blanks (l : text) : text := rev (drop_blanks (rev l)).

(** ** Line buffers *)
Record lineBuffer := MkBuffer { lb_b : text; lb_mid : bool }.

Section buffer.
Context `{LowerCase} {S : Type}.
Variable cap : nat.
Variables line part : text → S → option S.

(** The lines in the buffer: the rest of it, how much was taken, and whether a
    long line is under way. *)
Fixpoint process_lines (fuel : nat) (rest : text) (i : nat) (mid : bool) (s : S) : option (text * nat * bool * S) :=
  match fuel, rest with
  | O, _ | _, [] => Some (rest, i, mid, s)
  | Datatypes.S fuel, _ =>
      match IndexByte newline rest with
      | None =>
          match IndexByte tab rest with
          | Some j =>
              if negb mid && isBenchmarkName (TrimRight_blanks (take j rest))
              then s ← part (take (j + 1) rest) s; Some (drop (j + 1) rest, i + (j + 1), true, s)
              else Some (rest, i, mid, s)
          | None => Some (rest, i, mid, s)
          end
      | Some j =>
          s ← (if mid then part else line) (take (j + 1) rest) s;
          process_lines fuel (drop (j + 1) rest) (i + (j + 1)) false s
      end
  end.

(** [lineBuffer.write]; a round that copies nothing repeats forever. *)
Fixpoint write (fuel : nat) (l : lineBuffer) (b : text) (s : S) : option (lineBuffer * S) :=
  match b with
  | [] => Some (l, s)
  | _ =>
      match fuel with
      | O => None
      | Datatypes.S fuel =>
          let m := min (cap - length (lb_b l)) (length b) in
          let buf := lb_b l ++ take m b in
          '(rest, i, mid, s) ← process_lines (length buf) buf 0 (lb_mid l) s;
          if (i =? 0) && (length buf =? cap) then
            let t := trimUTF8 buf in
            s ← part (take t buf) s;
            write fuel (MkBuffer (drop t buf) true) (drop m b) s
          else write fuel (MkBuffer rest mid) (drop m b) s
      end
  end.

(** [lineBuffer.flush]. *)
Definition flush (l : lineBuffer) (s : S) : option (lineBuffer * S) :=
  match lb_b l with
  | [] => Some (l, s)
  | b => s ← part b s; Some (MkBuffer [] (lb_mid l), s)
  end.
End buffer.

(** ** The converter *)
Section converter.
Context `{Float64} `{LowerCase}.

Record event := MkEvent {
  e_Time : option Time; e_Action : string; e_Package : string; e_Test : text;
  e_Elapsed : option float64; e_Output : option text;
}.
(** What reaches the output stream: an event, or the message that one could
    not be encoded. *)
Inductive written := WEvent (e : event) | WInternalError.

Record converter := MkConverter {
  testName : text;
  report : list event;        (* the pending reports, the last one at the end *)
  result : string;
  output : lineBuffer;
  stream : list written;
}.
Definition set_testName v c := MkConverter v (report c) (result c) (output c) (stream c).
Definition set_report v c := MkConverter (testName c) v (result c) (output c) (stream c).
Definition set_result v c := MkConverter (testName c) (report c) v (output c) (stream c).
Definition set_output v c := MkConverter (testName c) (report c) (result c) v (stream c).
Definition set_stream v c := MkConverter (testName c) (report c) (result c) (output c) v.

(** The mode (whether events have times), the package, the clock at each event
    and the sizes of the two buffers. *)
Variables (timestamp : bool) (pkg : string) (now : nat → Time) (inBuffer outBuffer : nat).

(** Encoding fails for a time that is not a number. *)
Definition encode_event (e : event) : written :=
  match e_Elapsed e with
  | Some x => if is_number x then WEvent e else WInternalError
  | None => WEvent e
  end.
Definition writeEvent (e : event) (c : converter) : converter :=
  let e := MkEvent (if timestamp then Some (now (length (stream c))) else None) (e_Action e) pkg
             (match e_Test e with [] => testName c | t => t end) (e_Elapsed e) (e_Output e) in
  set_stream (stream c ++ [encode_event e]) c.
Definition new_event (action : string) : event := MkEvent None action "" [] None None.
Definition writeOutputEvent (out : text) (c : converter) : option converter :=
  Some (writeEvent (MkEvent None "output" "" [] None (Some out)) c).

(** [c.output.write], [c.output.flush]. *)
Definition output_write (b : text) (c : converter) : option converter :=
  '(l, c) ← write outBuffer writeOutputEvent writeOutputEvent (S (length b)) (output c) b c;
  Some (set_output l c).
Definition output_flush (c : converter) : option converter :=
  '(l, c) ← flush writeOutputEvent (output c) c; Some (set_output l c).

(** [flushReport]: the pending reports from the last back to [depth]. *)
Definition flushReport (depth : nat) (c : converter) : converter :=
  let c := set_testName [] c in
  set_report (take depth (report c)) (fold_left (λ c e, writeEvent e c) (rev (drop depth (report c))) c).

Definition bigPass : text := T "PASS" ++ [newline].
Definition bigFail : text := T "FAIL" ++ [newline].
Definition updates : list text := T <$> ["=== RUN   "; "=== PAUSE "; "=== CONT  "].
Definition reports : list text := T <$> ["--- PASS: "; "--- FAIL: "; "--- SKIP: "; "--- BENCH: "].
Definition skipLinePrefix : text := T "?   " ++ [tab].
Definition skipLineSuffix : text := tab :: T "[no test files]" ++ [newline].
Definition has_suffix (suf s : text) : bool := has_prefix (rev suf) (rev s).

(** Levels of indentation by four blanks. *)
Fixpoint unindent (fuel : nat) (line : text) (indent : nat) : text * nat :=
  match fuel with
  | O => (line, indent)
  | S fuel => if has_prefix (T "    ") line then unindent fuel (drop 4 line) (S indent) else (line, indent)
  end.

Definition index_text (sub s : text) : option nat :=
  find (λ i, has_prefix sub (drop i s)) (seq 0 (S (length s))).
Definition trim_colon (s : text) : text :=
  match rev s with c :: l => if Ascii.eqb c ":" then rev l else s | [] => [] end.

(** The action and the name on a line that starts with one of the prefixes. *)
Definition action_and_name (actionColon : bool) (line : text) : string * text :=
  let i := if actionColon then match IndexByte ":" line with Some i => i + 1 | None => 0 end else 0 in
  let i := if i =? 0 then 10 else i in
  (ToLower (String.string_of_list_ascii (trim_colon (TrimSpace_bytes (take (i - 4) (drop 4 line))))),
   TrimSpace_bytes (drop i line)).

(** The elapsed time in a report, and the name before it. *)
Definition elapsed_and_name (name : text) : option float64 * text :=
  match index_text (T " (") name with
  | None => (None, name)
  | Some i =>
      ((if has_suffix (T "s)") name && timestamp
        then ParseFloat (take (length name - 2 - (i + 2)) (drop (i + 2) name)) else None), take i name)
  end.

(** [handleInputLine]. *)
Definition handle_report (origLine line : text) (indent : nat) (c : converter) : option converter :=
  let '(action, name) := action_and_name true line in
  let '(elapsed, name) := elapsed_and_name name in
  if length (report c) <? indent then output_write origLine c
  else
    let c := flushReport indent c in
    let e := MkEvent None action "" name elapsed None in
    output_write origLine (set_report (report c ++ [e]) (set_testName name c)).

Definition handle_update (line : text) (c : converter) : option converter :=
  let '(action, name) := action_and_name false line in
  let c := set_testName name (flushReport 0 c) in
  let e := new_event action in
  if String.eqb action "pause" then c ← output_write line c; Some (writeEvent e c)
  else output_write line (writeEvent e c).

Definition handleInputLine (line : text) (c : converter) : option converter :=
  if bool_decide (line = bigPass) || bool_decide (line = bigFail) then
    c ← output_write line (flushReport 0 c);
    Some (set_result (if bool_decide (line = bigPass) then "pass" else "fail") c)
  else
    let c := if has_prefix skipLinePrefix line && has_suffix skipLineSuffix line && (length (report c) =? 0)
             then set_result "skip" c else c in
    if existsb (λ magic, has_prefix magic line) updates then handle_update line c
    else
      let '(line', indent) := unindent (length line) line 0 in
      if existsb (λ magic, has_prefix magic line') reports then handle_report line line' indent c
      else output_write line c.

(** [NewConverter], [Write] and [Close]. *)
Definition NewConverter : lineBuffer * converter :=
  (MkBuffer [] false, MkConverter [] [] "" (MkBuffer [] false) []).
Definition Write (b : text) (p : lineBuffer * converter) : option (lineBuffer * converter) :=
  write inBuffer handleInputLine output_write (S (length b)) p.1 b p.2.
Definition Close (elapsed : float64) (p : lineBuffer * converter) : option (lineBuffer * converter) :=
  '(input, c) ← flush output_write p.1 p.2;
  c ← output_flush c;
  let e := new_event (if String.eqb (result c) "" then "fail" else result c) in
  let e := MkEvent None (e_Action e) "" [] (if timestamp then Some elapsed else None) None in
  Some (input, writeEvent e c).

Fixpoint writes (bs : list text) (p : lineBuffer * converter) : option (lineBuffer * converter) :=
  match bs with [] => Some p | b :: bs => p ← Write b p; writes bs p end.

(** A whole run: the converter is created, written to, and closed. *)
Definition convert_output (bs : list text) (elapsed : float64) : option (list written) :=
  p ← writes bs NewConverter; p ← Close elapsed p; Some (stream p.2).

(** [main] with a command to run: what it wrote and how it ended; the result
    has the exit code. *)
Definition run_command (outs : list text) (err : option error) (elapsed : float64) : option (list written * Z) :=
  p ← writes outs NewConverter;
  match err with
  | None => p ← Close elapsed p; Some (stream p.2, 0%Z)
  | Some err =>
      let n := length (concat outs) in      (* countWriter *)
      p ← (if 0 <? n then Some p else Write (T ("test2json: " +:+ Error err) ++ [newline]) p);
      p ← Close elapsed p; Some (stream p.2, 1%Z)
  end.
End converter.

(** ** Cutting text *)
Definition no_newline (l : text) : Prop := newline ∉ l.
(** Text that a newline can only end. *)
Definition one_line (l : text) : Prop := no_newline l ∨ ∃ l', l = l' ++ [newline] ∧ no_newline l'.

Lemma IndexByte_Some c l j : IndexByte c l = Some j →
  ∃ l1 l2, l = l1 ++ c :: l2 ∧ length l1 = j ∧ c ∉ l1 ∧ take (j + 1) l = l1 ++ [c] ∧ drop (j + 1) l = l2.
Proof.
  revert j. induction l as [|d l IH]; intros j; [done|]. simpl. destruct (Ascii.eqb_spec d c) as [->|Hne].
  - intros [= <-]. exists [], l. split_and!; try done. apply not_elem_of_nil.
  - destruct (IndexByte c l) as [k|]; [|done]. intros [= <-].
    destruct (IH k eq_refl) as (l1 & l2 & -> & <- & Hc & Ht & Hd). exists (d :: l1), l2. simpl. rewrite Ht, Hd.
    split_and!; try done. intros [->|Hin]%elem_of_cons; done.
Qed.
Lemma IndexByte_None c l : IndexByte c l = None → c ∉ l.
Proof.
  induction l as [|d l IH]; [intros _; apply not_elem_of_nil|]. simpl. destruct (Ascii.eqb_spec d c) as [->|Hne]; [done|].
  destruct (IndexByte c l); [done|]. intros _ [->|Hin]%elem_of_cons; [done|]. by apply IH.
Qed.

Lemma trim_back_bounds n i back : i <= 3 → trim_back n i back <= n ∧ n - 3 <= trim_back n i back.
Proof.
  revert back. induction i as [|i IH]; intros [|c back] Hi; cbn [trim_back]; try lia.
  destruct (continuation c); [apply IH; lia|]. case_match; lia.
Qed.

(** A full buffer gives up at least one byte and keeps at most three: the
    buffer must hold any UTF-8 sequence. *)
Lemma trimUTF8_bounds b : 4 <= length b → 0 < trimUTF8 b ∧ length b - 3 <= trimUTF8 b.
Proof. intros Hb. unfold trimUTF8. pose proof (trim_back_bounds (length b) 3 (rev b) ltac:(lia)). lia. Qed.

(** ** What a line buffer does with its callbacks *)
Section buffer_facts.
Context `{LowerCase} {S : Type}.
Variables (cap : nat) (line part : text → S → option S).
(** The state has been given [total], in pieces of one line. *)
Variables (total : S → text) (ok : S → Prop).
Definition appends (callback : text → S → option S) : Prop := ∀ x s, ok s → one_line x →
  ∃ s', callback x s = Some s' ∧ ok s' ∧ total s' = total s ++ x.
#[local] Set Default Proof Using "All".
Hypotheses (Hcap : 4 <= cap) (Hline : appends line) (Hpart : appends part).

Lemma process_lines_spec fuel rest i mid s : length rest <= fuel → ok s →
  ∃ taken rest' mid' s', process_lines line part fuel rest i mid s = Some (rest', i + length taken, mid', s') ∧
  rest = taken ++ rest' ∧ no_newline rest' ∧ ok s' ∧ total s' = total s ++ taken.
Proof.
  revert rest i mid s. induction fuel as [|fuel IH]; intros rest i mid s Hf Hok.
  { destruct rest; [|simpl in Hf; lia]. exists [], [], mid, s. rewrite !app_nil_r, Nat.add_0_r.
    split_and!; try done. apply not_elem_of_nil. }
  assert (∀ r, no_newline r → ∃ taken rest' mid' s', Some (r, i, mid, s) = Some (rest', i + length taken, mid', s') ∧
    r = taken ++ rest' ∧ no_newline rest' ∧ ok s' ∧ total s' = total s ++ taken) as Hstop.
  { intros r Hr. exists [], r, mid, s. by rewrite app_nil_r, Nat.add_0_r. }
  destruct rest as [|c rest]; [apply Hstop, not_elem_of_nil|]. cbn [process_lines].
  destruct (IndexByte newline (c :: rest)) as [j|] eqn:Ej.
  - destruct (IndexByte_Some _ _ _ Ej) as (l1 & l2 & E & Hl & Hn & Ht & Hd). rewrite Ht, Hd.
    assert (one_line (l1 ++ [newline])) as Hone by (right; by exists l1).
    assert (appends (if mid then part else line)) as Hcb by (by destruct mid).
    destruct (Hcb _ s Hok Hone) as (s1 & -> & Hok1 & Htot). cbn [mbind option_bind].
    destruct (IH l2 (i + (j + 1)) false s1) as (taken & rest' & mid' & s' & -> & -> & Hr & Hok' & Htot'); [|done|].
    { rewrite E, length_app in Hf. simpl in Hf. lia. }
    exists ((l1 ++ [newline]) ++ taken), rest', mid', s'. rewrite E, Htot', Htot, !length_app, <- Hl, <- !app_assoc. simpl.
    split_and!; try done. by rewrite !Nat.add_assoc.
  - apply IndexByte_None in Ej. destruct (IndexByte tab (c :: rest)) as [j|] eqn:Et; [|by apply Hstop].
    destruct (negb mid && _); [|by apply Hstop].
    destruct (IndexByte_Some _ _ _ Et) as (l1 & l2 & E & Hl & _ & Ht & Hd). rewrite Ht, Hd.
    assert (no_newline (l1 ++ [tab]) ∧ no_newline l2) as [Hn1 Hn2].
    { split; intros Hin; apply Ej; rewrite E; [|apply elem_of_app; right; by right].
      apply elem_of_app in Hin as [Hin| ->%list_elem_of_singleton]; apply elem_of_app; [by left|right; by left]. }
    destruct (Hpart (l1 ++ [tab]) s Hok) as (s1 & -> & Hok1 & Htot); [by left|]. cbn [mbind option_bind].
    exists (l1 ++ [tab]), l2, true, s1. rewrite length_app, Hl, E, <- app_assoc. by split_and!.
Qed.

(** Writing ends, and nothing is lost: what callbacks were given and what
    remains is what was there before and what was written. *)
Lemma write_spec fuel l b s : length (lb_b l) < cap → no_newline (lb_b l) → ok s → length b < fuel →
  ∃ l' s', write cap line part fuel l b s = Some (l', s') ∧ length (lb_b l') < cap ∧ no_newline (lb_b l') ∧ ok s' ∧
  total s' ++ lb_b l' = total s ++ lb_b l ++ b.
Proof.
  revert l b s. induction fuel as [|fuel IH]; intros l b s Hl Hn Hok Hf; [lia|].
  destruct b as [|c b0] eqn:Eb; [exists l, s; by rewrite app_nil_r|]. cbn [write]. rewrite <- Eb in *.
  set (m := min (cap - length (lb_b l)) (length b)). set (buf := lb_b l ++ take m b).
  assert (0 < m <= length b) as Hm by (unfold m; rewrite Eb; simpl; lia).
  assert (length buf <= cap) as Hbuf by (unfold buf; rewrite length_app, length_take; unfold m; lia).
  assert (lb_b l ++ b = buf ++ drop m b) as Hsplit by (unfold buf; by rewrite <- app_assoc, take_drop).
  destruct (process_lines_spec (length buf) buf 0 (lb_mid l) s) as (taken & rest & mid & s1 & -> & E & Hr & Hok1 & Htot);
    [lia|done|]. cbn [mbind option_bind Nat.add]. rewrite Hsplit.
  destruct ((length taken =? 0) && (length buf =? cap)) eqn:Et.
  - apply andb_prop in Et as [->%Nat.eqb_eq%length_zero_iff_nil Hfull%Nat.eqb_eq]. cbn [app] in E. subst rest.
    destruct (trimUTF8_bounds buf) as [Hpos Hkeep]; [lia|].
    assert (no_newline (take (trimUTF8 buf) buf) ∧ no_newline (drop (trimUTF8 buf) buf)) as [Hn1 Hn2].
    { unfold no_newline in *. rewrite <- (take_drop (trimUTF8 buf) buf), elem_of_app in Hr. tauto. }
    destruct (Hpart (take (trimUTF8 buf) buf) s1) as (s2 & -> & Hok2 & Htot2); [done|by left|]. cbn [mbind option_bind].
    destruct (IH (MkBuffer (drop (trimUTF8 buf) buf) true) (drop m b) s2) as (l' & s' & -> & H1 & H2 & H3 & H4);
      cbn [lb_b]; [rewrite length_drop; lia|done|done|rewrite length_drop; lia|].
    exists l', s'. split_and!; try done. rewrite H4, Htot2, Htot, app_nil_r. cbn [lb_b].
    by rewrite <- app_assoc, (app_assoc (take _ buf)), take_drop.
  - assert (length rest < cap) as Hrest.
    { rewrite E, length_app in Hbuf. apply andb_false_iff in Et as [Et%Nat.eqb_neq|Et%Nat.eqb_neq]; [lia|].
      rewrite E, length_app in Et. lia. }
    destruct (IH (MkBuffer rest mid) (drop m b) s1) as (l' & s' & -> & H1 & H2 & H3 & H4);
      cbn [lb_b]; [done|done|done|rewrite length_drop; lia|].
    exists l', s'. split_and!; try done. rewrite H4, Htot, E. cbn [lb_b]. by rewrite <- !app_assoc.
Qed.

Lemma flush_spec l s : no_newline (lb_b l) → ok s →
  ∃ l' s', flush part l s = Some (l', s') ∧ lb_b l' = [] ∧ ok s' ∧ total s' = total s ++ lb_b l.
Proof.
  intros Hn Hok. unfold flush. destruct (lb_b l) as [|c b] eqn:E.
  - exists l, s. by rewrite app_nil_r.
  - destruct (Hpart (c :: b) s) as (s' & -> & Hok' & Htot); [done|by left|]. by exists (MkBuffer [] (lb_mid l)), s'.
Qed.
End buffer_facts.

(** ** What the converter puts out *)
Section converter_facts.
Context {F64 : Float64} {LC : LowerCase}.
Variables (timestamp : bool) (pkg : string) (now : nat → Time) (inBuffer outBuffer : nat).
Hypotheses (Hin : 4 <= inBuffer) (Hout : 4 <= outBuffer).
#[local] Set Default Proof Using "All".

Definition output_of (w : written) : option text := match w with WEvent e => e_Output e | WInternalError => None end.
(** The text of the output events. *)
Definition outputs (ws : list written) : text := concat (omap output_of ws).
Definition lines_ok (ws : list written) : Prop := Forall one_line (omap output_of ws).

Definition given (c : converter) : text := outputs (stream c) ++ lb_b (output c).
Definition converter_ok (c : converter) : Prop :=
  length (lb_b (output c)) < outBuffer ∧ no_newline (lb_b (output c)) ∧ lines_ok (stream c) ∧
  Forall (λ e, e_Output e = None) (report c).

Lemma output_of_quiet e : e_Output e = None → output_of (encode_event e) = None.
Proof. intros He. unfold encode_event. destruct (e_Elapsed e) as [x|]; [by destruct (is_number x)|done]. Qed.

(** What is put out by [c'] is that of [c] and [b] after it. *)
Definition puts (c : converter) (b : text) (c' : converter) : Prop := converter_ok c' ∧ given c' = given c ++ b.

Lemma puts_nil c : converter_ok c → puts c [] c.
Proof. intros Hok. split; [done|]. by rewrite app_nil_r. Qed.
Lemma puts_trans c b c' b' c'' : puts c b c' → puts c' b' c'' → puts c (b ++ b') c''.
Proof. intros [_ E] [Hok E']. split; [done|]. by rewrite E', E, app_assoc. Qed.

Lemma writeEvent_quiet e c : e_Output e = None → converter_ok c → puts c [] (writeEvent timestamp pkg now e c).
Proof.
  intros He (H1 & H2 & H3 & H4). unfold puts, converter_ok, given, lines_ok, outputs, writeEvent in *.
  cbn [set_stream output stream report]. rewrite omap_app. cbn [omap list_omap].
  rewrite output_of_quiet, !app_nil_r by done. done.
Qed.

Definition piece_ok (c0 c : converter) : Prop := lines_ok (stream c) ∧ report c = report c0.
Lemma writeOutputEvent_appends c0 : appends (λ c, outputs (stream c)) (piece_ok c0) (writeOutputEvent timestamp pkg now).
Proof.
  intros x c [Hok Hr] Hx. eexists. split; [reflexivity|]. unfold piece_ok, lines_ok, outputs, writeEvent in *.
  cbn [set_stream stream report]. rewrite !omap_app, concat_app. cbn. rewrite app_nil_r. split; [|done].
  split; [|done]. apply Forall_app. split; [done|by constructor].
Qed.

Lemma output_write_spec b c : converter_ok c →
  ∃ c', output_write timestamp pkg now outBuffer b c = Some c' ∧ puts c b c'.
Proof.
  intros (H1 & H2 & H3 & H4). unfold output_write.
  destruct (write_spec outBuffer _ _ _ _ Hout (writeOutputEvent_appends c) (writeOutputEvent_appends c) (S (length b)) (output c) b c)
    as (l' & c' & -> & H1' & H2' & [H3' Hr] & E); [done|done|done|lia|].
  eexists. split; [done|]. unfold puts, converter_ok, given. cbn [set_output output stream report].
  rewrite Hr, <- app_assoc. by split_and!.
Qed.

Lemma output_flush_spec c : converter_ok c →
  ∃ c', output_flush timestamp pkg now c = Some c' ∧ lines_ok (stream c') ∧ outputs (stream c') = given c.
Proof.
  intros (H1 & H2 & H3 & H4). unfold output_flush.
  destruct (flush_spec outBuffer _ _ (λ c, outputs (stream c)) (piece_ok c) Hout (writeOutputEvent_appends c) (writeOutputEvent_appends c) (output c) c)
    as (l' & c' & -> & Hl & [H3' _] & E); [done|done|]. eexists. split; [done|]. cbn [set_output stream]. by split.
Qed.

Lemma fold_writeEvent es c : Forall (λ e, e_Output e = None) es → converter_ok c →
  puts c [] (fold_left (λ c e, writeEvent timestamp pkg now e c) es c).
Proof.
  intros Hes. revert c. induction Hes as [|e es He _ IH]; intros c Hok; [by apply puts_nil|]. cbn [fold_left].
  destruct (writeEvent_quiet e c He Hok) as [Hok' Hg]. apply (puts_trans _ [] (writeEvent timestamp pkg now e c) []); [by split|].
  by apply IH.
Qed.

Lemma flushReport_spec n c : converter_ok c → puts c [] (flushReport timestamp pkg now n c).
Proof.
  intros (H1 & H2 & H3 & H4). unfold flushReport. set (c0 := set_testName [] c).
  assert (converter_ok c0) as Hok0 by done. rewrite <- (take_drop n (report c)) in H4. apply Forall_app in H4 as [Ht Hd].
  destruct (fold_writeEvent (rev (drop n (report c0))) c0) as [(F1 & F2 & F3 & F4) F]; [by apply Forall_rev|done|].
  by repeat split.
Qed.

Lemma puts_change c c' f : puts c [] c' → (∀ c, output (f c) = output c ∧ stream (f c) = stream c) →
  Forall (λ e, e_Output e = None) (report (f c')) → puts c [] (f c').
Proof.
  intros [(H1 & H2 & H3 & H4) E] Hf Hr. destruct (Hf c') as [Eo Es]. unfold puts, converter_ok, given in *.
  rewrite Eo, Es. by split_and!.
Qed.

Lemma then_output b c c' : puts c [] c' → ∃ c'', output_write timestamp pkg now outBuffer b c' = Some c'' ∧ puts c b c''.
Proof.
  intros Hc. destruct (output_write_spec b c') as (c'' & -> & Hc'); [apply Hc|]. exists c''. split; [done|].
  by apply (puts_trans _ [] c').
Qed.

(** Every line is put out once, whatever it is. *)
Lemma handleInputLine_spec line c : converter_ok c →
  ∃ c', handleInputLine timestamp pkg now outBuffer line c = Some c' ∧ puts c line c'.
Proof.
  intros Hok. unfold handleInputLine.
  destruct (bool_decide (line = bigPass) || bool_decide (line = bigFail)).
  { destruct (then_output line c (flushReport timestamp pkg now 0 c)) as (c' & -> & [Hc' E]); [by apply flushReport_spec|].
    eexists. split; [done|]. split; [exact Hc'|exact E]. }
  set (c1 := if (_ : bool) then set_result "skip" c else c).
  assert (puts c [] c1) as Hc1.
  { unfold c1. case_match; [|by apply puts_nil]. split; [exact Hok|]. by rewrite app_nil_r. }
  assert (converter_ok c1) as Hok1 by apply Hc1.
  destruct (existsb _ updates).
  - unfold handle_update. destruct (action_and_name false line) as [action name].
    set (c2 := set_testName name (flushReport timestamp pkg now 0 c1)).
    assert (puts c [] c2) as Hc2.
    { apply (puts_trans _ [] c1 [] _); [done|]. pose proof (flushReport_spec 0 c1 Hok1) as [H1 H2]. split; [exact H1|exact H2]. }
    destruct (String.eqb action "pause").
    + destruct (then_output line c c2 Hc2) as (c3 & -> & Hc3). eexists. split; [done|].
      rewrite <- (app_nil_r line). eapply puts_trans; [exact Hc3|]. by apply writeEvent_quiet; [|apply Hc3].
    + apply then_output. apply (puts_trans _ [] c2 []); [done|]. by apply writeEvent_quiet; [|apply Hc2].
  - destruct (unindent _ _ _) as [line' indent]. destruct (existsb _ reports); [|by apply then_output].
    unfold handle_report. destruct (action_and_name true line') as [action name].
    destruct (elapsed_and_name timestamp name) as [elapsed name']. case_match; [by apply then_output|].
    apply then_output. set (c2 := flushReport timestamp pkg now indent c1).
    assert (puts c [] c2) as Hc2 by (apply (puts_trans _ [] c1 [] _); [done|by apply flushReport_spec]).
    destruct Hc2 as [(H1 & H2 & H3 & H4) E]. split; [|exact E]. repeat split; try done.
    cbn [set_report report]. apply Forall_app. split; [done|by constructor].
Qed.

Lemma handleInputLine_appends : appends given converter_ok (handleInputLine timestamp pkg now outBuffer).
Proof. intros x c Hok _. by apply handleInputLine_spec. Qed.
Lemma output_write_appends : appends given converter_ok (output_write timestamp pkg now outBuffer).
Proof. intros x c Hok _. by apply output_write_spec. Qed.

Lemma writes_spec bs p : length (lb_b p.1) < inBuffer → no_newline (lb_b p.1) → converter_ok p.2 →
  ∃ p', writes timestamp pkg now inBuffer outBuffer bs p = Some p' ∧ no_newline (lb_b p'.1) ∧ converter_ok p'.2 ∧
  given p'.2 ++ lb_b p'.1 = given p.2 ++ lb_b p.1 ++ concat bs.
Proof.
  revert p. induction bs as [|b bs IH]; intros [l c] H1 H2 H3; cbn [writes concat fst snd] in *.
  { exists (l, c). cbn [fst snd]. by rewrite app_nil_r. }
  unfold Write. cbn [fst snd].
  destruct (write_spec inBuffer _ _ _ _ Hin handleInputLine_appends output_write_appends (S (length b)) l b c)
    as (l1 & c1 & -> & H1' & H2' & H3' & E); [done|done|done|lia|]. cbn [mbind option_bind].
  destruct (IH (l1, c1)) as (p' & -> & H4 & H5 & E'); [done|done|done|]. exists p'. split_and!; try done.
  cbn [fst snd] in *. by rewrite E', app_assoc, E, <- !app_assoc.
Qed.

End converter_facts.

(** ** Witness: a failing run *)
#[local] Instance whole_seconds : Float64 :=
  {| float64 := Z; is_number _ := true; FormatFloat z := T (pretty z); ParseFloat := natural |}.
#[local] Instance ascii_only : LowerCase := {| lower_above _ := false |}.

Definition failing_run : list text :=
  [T "=== RUN   TestImport" ++ [newline] ++ T "2 met"; T "rics" ++ [newline] ++ T "    --- PASS: TestImport/empty (0s)" ++ [newline];
   T "--- FAIL: TestImport (1s)" ++ [newline] ++ T "exit status 2"].


Definition action_of (w : written) : string * string :=
  match w with WEvent e => (e_Action e, String.string_of_list_ascii (e_Test e)) | WInternalError => ("", "") end.

(** A run that breaks off without a final PASS or FAIL: the report still
    pending is never written, and the event for the whole package names the
    last test. *)
Example pending_report_lost :
  option_map (map action_of) (convert_output false "" (λ _, 0%Z) 4096 1024 failing_run 1%Z)
  = Some [("run", "TestImport"); ("output", "TestImport"); ("output", "TestImport"); ("output", "TestImport");
          ("output", "TestImport"); ("output", "TestImport"); ("fail", "TestImport")].
Proof. vm_compute. reflexivity. Qed.

(** With a buffer of three bytes the loop never ends. *)
Example small_buffer_loops :
  convert_output false "" (λ _, 0%Z) 3 1024 [ascii_of_nat <$> [240; 159; 152; 128]] 1%Z = None.
Proof. vm_compute. reflexivity. Qed.
