(* ===== verification/Listers.v ===== *)
(** * Informer caches and listers
    (src/pkg/generated/listers/metering/v1, over tools/cache of client-go)

    An informer keeps the resources of a kind in a store with an index by
    namespace, brings it up to date with every delta it takes off its queue,
    and tells the event handlers.  The generated listers read that store.
    The rest of the development has [lister_get] and [lister_list] of [Env];
    here is what they stand for, with the theorem that they show exactly the
    resources the informer has heard of. *)

From S2P Require Export Mem.

(** The order in which Go ranges over a map and over a set. *)
Class RangeOrder := {
  range_items : ∀ {A}, gmap string A → list (string * A);
  range_items_perm A (m : gmap string A) : range_items m ≡ₚ map_to_list m;
  range_keys : gset string → list string;
  range_keys_perm s : range_keys s ≡ₚ elements s;
}.

(** ** The store ([threadSafeMap], [cache]) *)
Abbreviation IndexFunc := (ObjectMeta → list string).
Abbreviation cache_Index := (gmap string (gset string)).

Definition NamespaceIndex : string := "namespace".
Definition MetaNamespaceIndexFunc : IndexFunc := λ m, [Namespace m].

Definition index_insert (key : string) (values : list string) (index : cache_Index) : cache_Index :=
  foldl (λ index v, <[v := default ∅ (index !! v) ∪ {[key]}]> index) index values.
Definition index_delete (key : string) (values : list string) (index : cache_Index) : cache_Index :=
  foldl (λ index v, match index !! v with Some set => <[v := set ∖ {[key]}]> index | None => index end) index values.

(** What is done to each index, by its name; a missing one is nil. *)
Definition each_index (f : IndexFunc → option cache_Index → option cache_Index) (indexers : gmap string IndexFunc)
    (indices : gmap string cache_Index) : gmap string cache_Index :=
  merge (λ indexFunc index, match indexFunc with Some indexFunc => f indexFunc index | None => index end) indexers indices.

Section store.
Context (k : kind).
Abbreviation R := (obj k).

Record store := Store {
  items : gmap string R;
  indexers : gmap string IndexFunc;
  indices : gmap string cache_Index;
}.

Definition deleteFromIndices (o : R) (key : string) (indexers : gmap string IndexFunc) : gmap string cache_Index → gmap string cache_Index :=
  each_index (λ indexFunc index, index_delete key (indexFunc (meta k o)) <$> index) indexers.
Definition updateIndices (oldObj : option R) (newObj : R) (key : string) (indexers : gmap string IndexFunc)
    (indices : gmap string cache_Index) : gmap string cache_Index :=
  let indices := match oldObj with Some o => deleteFromIndices o key indexers indices | None => indices end in
  each_index (λ indexFunc index, Some (index_insert key (indexFunc (meta k newObj)) (default ∅ index))) indexers indices.

(** [NewIndexer], and the methods of the store under its lock. *)
Definition NewIndexer (indexers : gmap string IndexFunc) : store := Store ∅ indexers ∅.
Definition indexer_Add (o : R) (c : store) : store :=
  let key := MetaNamespaceKey (meta k o) in
  Store (<[key := o]> (items c)) (indexers c) (updateIndices (items c !! key) o key (indexers c) (indices c)).
Definition indexer_Update : R → store → store := indexer_Add.
Definition indexer_Delete (key : string) (c : store) : store :=
  match items c !! key with
  | Some o => Store (delete key (items c)) (indexers c) (deleteFromIndices o key (indexers c) (indices c))
  | None => c
  end.
Definition GetByKey (key : string) (c : store) : option R := items c !! key.

Context {RO : RangeOrder}.

Definition Items (c : store) : list R := snd <$> range_items (items c).
(** [Index], whose items may be nil if the index is wrong. *)
Definition Index_ (indexName : string) (o : ObjectMeta) (c : store) : outcome (list (option R)) :=
  match indexers c !! indexName with
  | None => Err (Errorf "Index with name %s does not exist" [FStr indexName])
  | Some indexFunc =>
      let index := default ∅ (indices c !! indexName) in
      let returnKeySet := foldl (λ s indexKey, s ∪ default ∅ (index !! indexKey)) ∅ (indexFunc o) in
      Ok ((λ key, items c !! key) <$> range_keys returnKeySet)
  end.

(** ** Listers *)
Definition errNotObject : error := New "object does not implement the Object interfaces".

Section selector.
(** A label selector. *)
Context (Matches : gmap string string → bool).
Definition selects (o : R) : bool := Matches (Labels (meta k o)).

Definition ListAll (c : store) : list R := filter (λ o, selects o = true) (Items c).

Fixpoint append_matching (l : list (option R)) : outcome (list R) :=
  match l with
  | [] => Ok []
  | None :: _ => Err errNotObject
  | Some o :: l => ret ← append_matching l; Ok (if selects o then o :: ret else ret)
  end.
Definition namespace_meta (namespace : string) : ObjectMeta :=
  {| Name := ""; Namespace := namespace; ResourceVersion := ""; Labels := ∅; Annotations := ∅;
     OwnerReferences := []; Finalizers := []; DeletionTimestamp := None |}.
Definition ListAllByNamespace (namespace : string) (c : store) : outcome (list R) :=
  if String.eqb namespace "" then append_matching (Some <$> Items c)
  else match Index_ NamespaceIndex (namespace_meta namespace) c with
       | Err _ => Ok (filter (λ o, Namespace (meta k o) = namespace ∧ selects o = true) (Items c))
       | Ok items => append_matching items
       | Panic p => Panic p
       end.
End selector.

Definition resource_of : string :=
  match k with
  | KReport => "report" | KReportQuery => "reportquery" | KReportDataSource => "reportdatasource"
  | KPrestoTable => "prestotable" | KHiveTable => "hivetable" | KStorageLocation => "storagelocation"
  end.
Definition NewNotFound (name : string) : error :=
  MkError KNotFound (Sprintf "%s %q not found" [FStr (resource_of +:+ "." +:+ GroupName); FStr name]).

(** The generated lister of the kind. *)
Definition lister_List (Matches : gmap string string → bool) (c : store) : outcome (list R) := Ok (ListAll Matches c).
Definition namespaceLister_List (Matches : gmap string string → bool) (namespace : string) (c : store) : outcome (list R) :=
  ListAllByNamespace Matches namespace c.
Definition namespaceLister_Get (namespace name : string) (c : store) : outcome R :=
  match GetByKey (namespace +:+ "/" +:+ name) c with
  | Some o => Ok o
  | None => Err (NewNotFound name)
  end.

(** A lister of the kind ([List], and [List] and [Get] of one namespace). *)
Record Lister := {
  lister_all : (gmap string string → bool) → store → outcome (list R);
  lister_namespace : string → (gmap string string → bool) → store → outcome (list R);
  lister_one : string → string → store → outcome R;
}.
Definition NewLister : Lister :=
  {| lister_all := lister_List; lister_namespace := λ namespace Matches, namespaceLister_List Matches namespace;
     lister_one := namespaceLister_Get |}.

(** ** The informer ([sharedIndexInformer.HandleDeltas])

    A deletion the watch missed comes as a tombstone, with the key and the
    last known state of the object. *)
Inductive delta :=
  | Changed (o : R)  (* Sync, Added, Updated *)
  | Deleted (o : R)
  | DeletedFinalStateUnknown (key : string) (o : R).
Inductive notification :=
  | addNotification (newObj : R)
  | updateNotification (oldObj newObj : R)
  | deleteNotification (oldObj : R).

Definition HandleDelta (d : delta) (c : store) : store * notification :=
  match d with
  | Changed o =>
      match GetByKey (MetaNamespaceKey (meta k o)) c with
      | Some old => (indexer_Update o c, updateNotification old o)
      | None => (indexer_Add o c, addNotification o)
      end
  | Deleted o => (indexer_Delete (MetaNamespaceKey (meta k o)) c, deleteNotification o)
  | DeletedFinalStateUnknown key o => (indexer_Delete key c, deleteNotification o)
  end.
Fixpoint HandleDeltas (ds : list delta) (c : store) : store * list notification :=
  match ds with
  | [] => (c, [])
  | d :: ds => let '(c, n) := HandleDelta d c in let '(c, ns) := HandleDeltas ds c in (c, n :: ns)
  end.

(** The indexers of the informers of the factory ([defaultInformer]). *)
Definition defaultIndexers : gmap string IndexFunc := {[NamespaceIndex := MetaNamespaceIndexFunc]}.
End store.

(** The six generated listers. *)
Section listers.
Context {RO : RangeOrder}.
Definition hiveTableLister : Lister KHiveTable := NewLister KHiveTable.
Definition prestoTableLister : Lister KPrestoTable := NewLister KPrestoTable.
Definition reportLister : Lister KReport := NewLister KReport.
Definition reportDataSourceLister : Lister KReportDataSource := NewLister KReportDataSource.
Definition reportQueryLister : Lister KReportQuery := NewLister KReportQuery.
Definition storageLocationLister : Lister KStorageLocation := NewLister KStorageLocation.
End listers.

Arguments items {k} _.
Arguments indexers {k} _.
Arguments indices {k} _.
Arguments Store {k} _ _ _.
Arguments Changed {k} o.
Arguments Deleted {k} o.
Arguments DeletedFinalStateUnknown {k} key o.
Arguments addNotification {k} newObj.
Arguments updateNotification {k} oldObj newObj.
Arguments deleteNotification {k} oldObj.

(** ** Specification: what an informer has heard of *)
Section view.
Context {k : kind}.
Definition key_of_obj (o : obj k) : string * string := (Namespace (meta k o), Name (meta k o)).
Definition object_of (d : delta k) : obj k :=
  match d with Changed o | Deleted o | DeletedFinalStateUnknown _ o => o end.

(** The resources after a delta, and what a handler is told of it. *)
Definition hear (v : gmap (string * string) (obj k)) (d : delta k) : gmap (string * string) (obj k) :=
  match d with
  | Changed o => <[key_of_obj o := o]> v
  | Deleted o | DeletedFinalStateUnknown _ o => delete (key_of_obj o) v
  end.
Definition tell (v : gmap (string * string) (obj k)) (d : delta k) : notification k :=
  match d with
  | Changed o => match v !! key_of_obj o with Some old => updateNotification old o | None => addNotification o end
  | Deleted o | DeletedFinalStateUnknown _ o => deleteNotification o
  end.
Fixpoint tell_all (v : gmap (string * string) (obj k)) (ds : list (delta k)) : list (notification k) :=
  match ds with [] => [] | d :: ds => tell v d :: tell_all (hear v d) ds end.
Definition values (v : gmap (string * string) (obj k)) : list (obj k) := snd <$> map_to_list v.

(** Names as the API server admits them, and tombstones with the key of their
    object. *)
Definition no_slash (s : string) : Prop := Forall (λ c, c ≠ "/"%char) (String.list_ascii_of_string s).
Definition well_named (o : obj k) : Prop :=
  Namespace (meta k o) ≠ "" ∧ no_slash (Namespace (meta k o)) ∧ no_slash (Name (meta k o)).
Definition well_formed (d : delta k) : Prop :=
  well_named (object_of d) ∧
  match d with DeletedFinalStateUnknown key o => key = MetaNamespaceKey (meta k o) | _ => True end.
End view.

(** ** Facts *)
Lemma slash_inj ns name ns' name' : no_slash ns' → no_slash name' →
  ns +:+ "/" +:+ name = ns' +:+ "/" +:+ name' → ns = ns' ∧ name = name'.
Proof.
  revert ns'. induction ns as [|c ns IH]; intros [|c' ns']; unfold no_slash; simpl.
  - intros _ _ [= E]. change (name = name') in E. by subst.
  - by intros [Hc _]%Forall_cons _ [= <- _].
  - intros _ Hn [= -> E]. change (ns +:+ "/" +:+ name = name') in E. subst name'. exfalso. clear IH.
    induction ns as [|c ns IH]; simpl in Hn.
    + by apply Forall_cons in Hn as [? _].
    + apply Forall_cons in Hn as [_ Hn]. by apply IH.
  - intros [_ Hns]%Forall_cons Hn [= -> E]. by destruct (IH ns' Hns Hn E) as [-> ->].
Qed.

Lemma MetaNamespaceKey_ns {k} (o : obj k) : well_named o →
  MetaNamespaceKey (meta k o) = Namespace (meta k o) +:+ "/" +:+ Name (meta k o).
Proof. intros [H _]. unfold MetaNamespaceKey. by rewrite decide_False. Qed.

Lemma lookup_each_index f I i n :
  each_index f I i !! n = match I !! n with Some g => f g (i !! n) | None => i !! n end.
Proof. unfold each_index. rewrite lookup_merge. by destruct (I !! n), (i !! n). Qed.

(** Keys that an index has under a value. *)
Definition indexed (c_indices : gmap string cache_Index) (n v : string) : gset string := default ∅ (default ∅ (c_indices !! n) !! v).

Lemma NoDup_values {K A} `{Countable K} (m : gmap K A) (f : A → K) :
  (∀ i x, m !! i = Some x → i = f x) → NoDup (snd <$> map_to_list m).
Proof.
  intros Hf. apply NoDup_fmap_2_strong; [|apply NoDup_map_to_list].
  intros [i x] [j y] Hi%elem_of_map_to_list Hj%elem_of_map_to_list E. simpl in E. subst y.
  by rewrite (Hf i x Hi), (Hf j x Hj).
Qed.

Lemma filter_fmap {A B} (f : A → B) (P : B → Prop) `{∀ x, Decision (P x)} (l : list A) :
  filter P (f <$> l) = f <$> filter (λ x, P (f x)) l.
Proof.
  induction l as [|x l IH]; [done|]. rewrite fmap_cons, !filter_cons. case_decide; [|done]. by rewrite fmap_cons, IH.
Qed.

Section refinement.
Context {k : kind} {RO : RangeOrder} (I : gmap string IndexFunc).
#[local] Set Default Proof Using "Type".

(** The store holds the resources of the view under their keys, and its index
    the keys of every namespace. *)
Record caches (c : store k) (v : gmap (string * string) (obj k)) : Prop := {
  caches_indexers : indexers c = I;
  caches_items ns name : items c !! (ns +:+ "/" +:+ name) = v !! (ns, name);
  caches_keys key o : items c !! key = Some o → well_named o ∧ key = MetaNamespaceKey (meta k o);
  caches_view p o : v !! p = Some o → well_named o ∧ p = key_of_obj o;
  caches_index ns key : I !! NamespaceIndex = Some MetaNamespaceIndexFunc →
    key ∈ indexed (indices c) NamespaceIndex ns ↔ ∃ o, items c !! key = Some o ∧ Namespace (meta k o) = ns;
}.

Lemma caches_new : caches (NewIndexer k I) ∅.
Proof.
  split; simpl; try done.
  intros ns key _. unfold indexed. rewrite lookup_empty. simpl. rewrite lookup_empty. simpl.
  split; [by intros ?%elem_of_empty|by intros (? & ? & _)].
Qed.

Lemma indexed_delete o key i ns key' : I !! NamespaceIndex = Some MetaNamespaceIndexFunc →
  key' ∈ indexed (deleteFromIndices k o key I i) NamespaceIndex ns ↔
  key' ∈ indexed i NamespaceIndex ns ∧ (key' = key → Namespace (meta k o) ≠ ns).
Proof.
  intros E. unfold indexed, deleteFromIndices. rewrite lookup_each_index, E.
  destruct (i !! NamespaceIndex) as [x|]; simpl; [|set_solver]. unfold index_delete. simpl.
  destruct (x !! Namespace (meta k o)) as [s|] eqn:Es.
  - destruct (decide (Namespace (meta k o) = ns)) as [<-|Hne].
    + rewrite lookup_insert_eq, Es. simpl. set_solver.
    + rewrite lookup_insert_ne by done. set_solver.
  - split; [|by intros [? _]]. intros Hk. split; [done|]. intros _ <-. rewrite Es in Hk. simpl in Hk. set_solver.
Qed.

Lemma indexed_insert o key i ns key' : I !! NamespaceIndex = Some MetaNamespaceIndexFunc →
  key' ∈ indexed (each_index (λ f x, Some (index_insert key (f (meta k o)) (default ∅ x))) I i) NamespaceIndex ns ↔
  key' ∈ indexed i NamespaceIndex ns ∨ key' = key ∧ Namespace (meta k o) = ns.
Proof.
  intros E. unfold indexed. rewrite lookup_each_index, E. simpl. unfold index_insert. simpl.
  destruct (decide (Namespace (meta k o) = ns)) as [<-|Hne].
  - rewrite lookup_insert_eq. simpl. set_solver.
  - rewrite lookup_insert_ne by done. set_solver.
Qed.

Lemma caches_add c v o : well_named o → caches c v → caches (indexer_Add k o c) (<[key_of_obj o := o]> v).
Proof.
  intros Hw [HIc Hit Hk Hv Hix]. pose proof (MetaNamespaceKey_ns o Hw) as Hkey. pose proof Hw as (_ & Hns & Hname).
  split; unfold indexer_Add; simpl; [done| | | |].
  - intros ns name. rewrite Hkey. destruct (decide ((ns, name) = key_of_obj o)) as [E|Hne].
    + rewrite E. injection E as -> ->. by rewrite !lookup_insert_eq.
    + rewrite !lookup_insert_ne; [apply Hit|by intros E; apply Hne|]. intros E. apply Hne. symmetry in E.
      apply slash_inj in E as [-> ->]; done.
  - intros key o' [[<- <-]|[_ H]]%lookup_insert_Some; [done|by apply Hk].
  - intros p o' [[<- <-]|[_ H]]%lookup_insert_Some; [done|by apply Hv].
  - intros ns key E. unfold updateIndices. rewrite HIc, indexed_insert by done. set (key0 := MetaNamespaceKey (meta k o)).
    assert (key ∈ indexed (match items c !! key0 with Some old => deleteFromIndices k old key0 I (indices c) | None => indices c end)
              NamespaceIndex ns ↔ key ≠ key0 ∧ ∃ o, items c !! key = Some o ∧ Namespace (meta k o) = ns) as ->.
    { destruct (items c !! key0) as [old|] eqn:Eold; [rewrite indexed_delete by done|]; rewrite Hix by done.
      - split.
        + intros [(x & Hx & Hxn) Hne]. split; [|by eauto]. intros ->. rewrite Eold in Hx. injection Hx as <-. by apply Hne.
        + intros [Hne Hx]. by split.
      - split; [|by intros [_ ?]]. intros (x & Hx & Hxn). split; [|by eauto]. intros ->. by rewrite Eold in Hx. }
    destruct (decide (key = key0)) as [->|Hne].
    + rewrite lookup_insert_eq. split; [intros [[? _]|[_ ?]]; [done|by eauto]|intros (? & [= <-] & ?); by right].
    + rewrite lookup_insert_ne by done. split; [intros [[_ ?]|[? _]]; done|intros ?; by left].
Qed.

Lemma caches_delete c v o : well_named o → caches c v → caches (indexer_Delete k (MetaNamespaceKey (meta k o)) c) (delete (key_of_obj o) v).
Proof.
  intros Hw Hc. pose proof Hc as [HIc Hit Hk Hv Hix]. pose proof (MetaNamespaceKey_ns o Hw) as Hkey. pose proof Hw as (_ & Hns & Hname).
  unfold indexer_Delete. destruct (items c !! MetaNamespaceKey (meta k o)) as [old|] eqn:Eold.
  - destruct (Hk _ _ Eold) as [Hwo Hkeyo]. split; simpl; [done| | | |].
    + intros ns name. rewrite Hkey. destruct (decide ((ns, name) = key_of_obj o)) as [E|Hne].
      * rewrite E. injection E as -> ->. by rewrite !lookup_delete_eq.
      * rewrite !lookup_delete_ne; [apply Hit|by intros E; apply Hne|]. intros E. apply Hne. symmetry in E.
        apply slash_inj in E as [-> ->]; done.
    + intros key o' [_ H]%lookup_delete_Some. by apply Hk.
    + intros p o' [_ H]%lookup_delete_Some. by apply Hv.
    + intros ns key E. rewrite HIc, indexed_delete, Hix by done.
      destruct (decide (key = MetaNamespaceKey (meta k o))) as [->|Hne].
      * rewrite lookup_delete_eq, Eold. split; [|by intros (? & ? & _)]. intros [(x & [= <-] & Hx) Hn]. by destruct Hn.
      * rewrite lookup_delete_ne by done. split; [by intros [? _]|]. by intros.
  - rewrite delete_id; [done|]. unfold key_of_obj. by rewrite <- Hit, <- Hkey.
Qed.

Lemma HandleDelta_hear c v d : well_formed d → caches c v →
  caches (HandleDelta k d c).1 (hear v d) ∧ (HandleDelta k d c).2 = tell v d.
Proof.
  intros [Hw Hd] Hc. destruct d as [o|o|key o]; simpl in *.
  - unfold GetByKey. rewrite (MetaNamespaceKey_ns o Hw), (caches_items _ _ Hc). unfold key_of_obj.
    destruct (v !! _); simpl; (split; [by apply caches_add|done]).
  - split; [by apply caches_delete|done].
  - subst key. split; [by apply caches_delete|done].
Qed.

Lemma HandleDeltas_hear ds c v : Forall well_formed ds → caches c v →
  caches (HandleDeltas k ds c).1 (foldl hear v ds) ∧ (HandleDeltas k ds c).2 = tell_all v ds.
Proof.
  revert c v. induction ds as [|d ds IH]; intros c v; [done|]. intros [Hd Hds]%Forall_cons Hc. simpl.
  destruct (HandleDelta_hear c v d Hd Hc) as [Hc' Hn]. destruct (HandleDelta k d c) as [c' n]. simpl in *.
  destruct (IH c' (hear v d) Hds Hc') as [Hc'' Hns]. destruct (HandleDeltas k ds c') as [c'' ns]. simpl in *.
  split; [done|by subst].
Qed.

(** *** What the listers read *)
Lemma caches_Items c v : caches c v → Items k c ≡ₚ values v.
Proof.
  intros Hc. unfold Items, values. rewrite (range_items_perm _ (items c)). apply NoDup_Permutation.
  - apply (NoDup_values _ (λ o, MetaNamespaceKey (meta k o))). intros i x Hx. by apply (caches_keys _ _ Hc) in Hx as [_ ?].
  - apply (NoDup_values _ key_of_obj). intros i x Hx. by apply (caches_view _ _ Hc) in Hx as [_ ?].
  - intros o. rewrite !list_elem_of_fmap. split.
    + intros ([key x] & -> & Hx%elem_of_map_to_list). destruct (caches_keys _ _ Hc _ _ Hx) as [Hw ->].
      rewrite (MetaNamespaceKey_ns x Hw), (caches_items _ _ Hc) in Hx. exists (key_of_obj x, x).
      split; [done|by apply elem_of_map_to_list].
    + intros ([p x] & -> & Hx%elem_of_map_to_list). destruct (caches_view _ _ Hc _ _ Hx) as [Hw ->].
      unfold key_of_obj in Hx. rewrite <- (caches_items _ _ Hc) in Hx. eexists (_, x). split; [done|].
      by apply elem_of_map_to_list.
Qed.

Lemma append_matching_all Matches l :
  append_matching k Matches (Some <$> l) = Ok (filter (λ o, selects k Matches o = true) l).
Proof.
  induction l as [|o l IH]; [done|]. rewrite fmap_cons, filter_cons. cbn [append_matching]. rewrite IH.
  simpl. by destruct (selects k Matches o).
Qed.

(** The items an index finds are those a search finds. *)
Lemma Index_namespace c v ns : caches c v → I !! NamespaceIndex = Some MetaNamespaceIndexFunc →
  ∃ l, Index_ k NamespaceIndex (namespace_meta ns) c = Ok (Some <$> l) ∧
  l ≡ₚ filter (λ o, Namespace (meta k o) = ns) (Items k c).
Proof.
  intros Hc E. unfold Index_. rewrite (caches_indexers _ _ Hc), E. simpl. rewrite (left_id_L ∅ (∪)).
  change (default ∅ (default ∅ (indices c !! NamespaceIndex) !! ns)) with (indexed (indices c) NamespaceIndex ns).
  set (keys := range_keys (indexed (indices c) NamespaceIndex ns)).
  set (pairs := filter (λ p, Namespace (meta k p.2) = ns) (range_items (items c))).
  assert (∀ p, p ∈ pairs ↔ items c !! p.1 = Some p.2 ∧ Namespace (meta k p.2) = ns) as Hpairs.
  { intros [key o]. unfold pairs. rewrite list_elem_of_filter, (range_items_perm _ (items c)), elem_of_map_to_list. naive_solver. }
  assert (keys ≡ₚ fst <$> pairs) as Hkeys.
  { unfold keys. rewrite range_keys_perm. apply NoDup_Permutation; [apply NoDup_elements| |].
    - apply NoDup_fmap_2_strong.
      + intros [i x] [j y] [Hi _]%Hpairs [Hj _]%Hpairs. simpl in *. intros ->. congruence.
      + apply NoDup_filter. rewrite (range_items_perm _ (items c)). apply NoDup_map_to_list.
    - intros key. rewrite elem_of_elements, (caches_index _ _ Hc) by done. rewrite list_elem_of_fmap. split.
      + intros (o & Ho & Hn). exists (key, o). by rewrite Hpairs.
      + intros ([i x] & -> & [Hi Hn]%Hpairs). by exists x. }
  assert ((λ key, items c !! key) <$> keys ≡ₚ Some <$> (snd <$> pairs)) as Hperm.
  { rewrite Hkeys, <- !list_fmap_compose. apply Permutation_refl', list_fmap_ext.
    intros j p Hp%list_elem_of_lookup_2. apply Hpairs in Hp as [Hp _]. exact Hp. }
  destruct (Permutation_map_inv _ _ Hperm) as (l & Hl & Hll). exists l. split; [f_equal; exact Hl|].
  rewrite <- Hll. unfold pairs, Items. by rewrite filter_fmap.
Qed.

Lemma caches_read c v : I !! NamespaceIndex = Some MetaNamespaceIndexFunc ∨ I !! NamespaceIndex = None → caches c v →
  (∀ ns name, namespaceLister_Get k ns name c =
              match v !! (ns, name) with Some o => Ok o | None => Err (NewNotFound k name) end) ∧
  (∀ Matches, ∃ l, lister_List k Matches c = Ok l ∧ l ≡ₚ filter (λ o, selects k Matches o = true) (values v)) ∧
  (∀ Matches ns, ∃ l, namespaceLister_List k Matches ns c = Ok l ∧
   l ≡ₚ filter (λ o, (ns = "" ∨ Namespace (meta k o) = ns) ∧ selects k Matches o = true) (values v)).
Proof.
  intros HI Hc. split_and!.
  - intros ns name. unfold namespaceLister_Get, GetByKey. by rewrite (caches_items _ _ Hc).
  - intros Matches. eexists. split; [done|]. unfold ListAll. by rewrite (caches_Items _ _ Hc).
  - intros Matches ns. setoid_rewrite <- (caches_Items _ _ Hc). unfold namespaceLister_List, ListAllByNamespace.
    destruct (String.eqb_spec ns "") as [->|Hns].
    { eexists. split; [apply append_matching_all|]. apply Permutation_refl', list_filter_iff. naive_solver. }
    destruct HI as [E|E].
    + destruct (Index_namespace c v ns Hc E) as (l & -> & Hl). eexists. split; [apply append_matching_all|].
      rewrite Hl, list_filter_filter. apply Permutation_refl', list_filter_iff. naive_solver.
    + unfold Index_. rewrite (caches_indexers _ _ Hc), E. eexists. split; [done|].
      apply Permutation_refl', list_filter_iff. naive_solver.
Qed.
End refinement.

(** A lister returns the resource asked for, and right after a change the one
    the informer was given. *)
Lemma lister_names {k} I (c : store k) v ns name o : caches I c v → namespaceLister_Get k ns name c = Ok o →
  Namespace (meta k o) = ns ∧ Name (meta k o) = name.
Proof.
  intros Hc. unfold namespaceLister_Get, GetByKey. rewrite (caches_items _ _ _ Hc).
  destruct (v !! (ns, name)) as [x|] eqn:E; [|done]. intros [= ->]. by apply (caches_view _ _ _ Hc) in E as [_ [= -> ->]].
Qed.

Lemma lister_after_update {k} I (c : store k) v o : well_named o → caches I c v →
  namespaceLister_Get k (Namespace (meta k o)) (Name (meta k o)) (indexer_Update k o c) = Ok o.
Proof.
  intros Hw Hc. unfold namespaceLister_Get, GetByKey. rewrite (caches_items _ _ _ (caches_add _ _ _ _ Hw Hc)).
  by rewrite lookup_insert_eq.
Qed.

(** C34: a lister shows exactly what its informer heard of.  After any sequence
    of changes, deletions and tombstones, a lister of the kind finds under a
    namespace and name the last state of that resource, or reports that it is
    not found; its lists have each resource that matches once, in the
    namespace asked for, whether the index by namespace is there or the code
    falls back to a search; and the event handlers were told of every delta,
    with the state that was cached before as the old one. *)
Theorem lister_exact {RO : RangeOrder} k I (ds : list (delta k)) :
  I !! NamespaceIndex = Some MetaNamespaceIndexFunc ∨ I !! NamespaceIndex = None → Forall well_formed ds →
  let c := (HandleDeltas k ds (NewIndexer k I)).1 in
  let v := foldl hear ∅ ds in
  (HandleDeltas k ds (NewIndexer k I)).2 = tell_all ∅ ds ∧
  (∀ ns name, namespaceLister_Get k ns name c =
              match v !! (ns, name) with Some o => Ok o | None => Err (NewNotFound k name) end) ∧
  (∀ Matches, ∃ l, lister_List k Matches c = Ok l ∧ l ≡ₚ filter (λ o, selects k Matches o = true) (values v)) ∧
  (∀ Matches ns, ∃ l, namespaceLister_List k Matches ns c = Ok l ∧
   l ≡ₚ filter (λ o, (ns = "" ∨ Namespace (meta k o) = ns) ∧ selects k Matches o = true) (values v)).
Proof.
  intros HI Hds. destruct (HandleDeltas_hear I ds _ _ Hds (caches_new I)) as [Hc Hn].
  split; [exact Hn|]. by apply (caches_read I).
Qed.

(** ** A concrete cache *)
#[local] Instance stored_order : RangeOrder :=
  {| range_items := λ A, map_to_list; range_items_perm := λ A m, reflexivity _;
     range_keys := elements; range_keys_perm := λ s, reflexivity _ |}.
Definition location (ns name path : string) : StorageLocation :=
  {| sl_Meta := meta_of ns name; sl_Hive := None; sl_DatabaseName := ""; sl_Location := path |}.
Definition heard_deltas : list (delta KStorageLocation) :=
  [Changed (k := KStorageLocation) (location "a" "x" "1"); Changed (k := KStorageLocation) (location "b" "x" "2");
   Changed (k := KStorageLocation) (location "a" "x" "3"); Changed (k := KStorageLocation) (location "b" "y" "4");
   DeletedFinalStateUnknown (k := KStorageLocation) "b/x" (location "b" "x" "2")].

Lemma lister_exact_witness :
  let c := (HandleDeltas KStorageLocation heard_deltas (NewIndexer KStorageLocation defaultIndexers)).1 in
  (HandleDeltas KStorageLocation heard_deltas (NewIndexer KStorageLocation defaultIndexers)).2 =
    [addNotification (k := KStorageLocation) (location "a" "x" "1");
     addNotification (k := KStorageLocation) (location "b" "x" "2");
     updateNotification (k := KStorageLocation) (location "a" "x" "1") (location "a" "x" "3");
     addNotification (k := KStorageLocation) (location "b" "y" "4");
     deleteNotification (k := KStorageLocation) (location "b" "x" "2")] ∧
  namespaceLister_Get KStorageLocation "a" "x" c = Ok (location "a" "x" "3") ∧
  namespaceLister_Get KStorageLocation "b" "x" c =
    Err (MkError KNotFound (Sprintf "%s %q not found" [FStr "storagelocation.metering.openshift.io"; FStr "x"])) ∧
  ∃ l, namespaceLister_List KStorageLocation (λ _, true) "b" c = Ok l ∧ l ≡ₚ [location "b" "y" "4" : obj KStorageLocation].
Proof.
  destruct (lister_exact KStorageLocation defaultIndexers heard_deltas) as (H1 & H2 & _ & H4).
  - left. reflexivity.
  - repeat constructor; vm_compute; done.
  - split; [rewrite H1; vm_compute; reflexivity|]. split; [rewrite H2; vm_compute; reflexivity|].
    split; [rewrite H2; vm_compute; reflexivity|]. destruct (H4 (λ _, true) "b") as (l & E & Hl). exists l.
    split; [exact E|]. rewrite Hl. vm_compute. reflexivity.
Defined.
