(* ===== verification/Caches.v ===== *)
(** * The operator on informer caches

    Effects leaves open how [lister_get] and [lister_list] answer.  Here an
    environment is given the caches of Listers: each kind has a store that an
    informer keeps up to date, and the listers read it.  What Deps asks of its
    getters then holds, whatever the rest of the environment does. *)

From S2P Require Export Deps Listers.

Section caches.
Context {RO : RangeOrder} {S : Type} {E : Env S}.

(** A store as deltas make it. *)
Definition kept (k : kind) : Type := { c : store k | ∃ v, caches defaultIndexers c v }.
Record cached := Cached { beneath : S; cache_of : ∀ k, kept k }.

Definition lifted {A} (f : S → A * S) (s : cached) : A * cached :=
  let '(a, b) := f (beneath s) in (a, Cached b (cache_of s)).

(** The environment; a lister without a namespace lists all of them. *)
#[export] Instance cached_env : Env cached := {|
  client_get := λ k ns n, lifted (client_get k ns n);
  client_list := λ k ns, lifted (client_list k ns);
  client_create := λ k o, lifted (client_create k o);
  client_update := λ k o, lifted (client_update k o);
  lister_get := λ k ns n s, (namespaceLister_Get k ns n (proj1_sig (cache_of s k)), s);
  lister_list := λ k ns s, (namespaceLister_List k (λ _, true) ns (proj1_sig (cache_of s k)), s);
  clock_now := lifted clock_now;
  wait_jitter := λ d, lifted (wait_jitter d);
  poll_attempts := lifted poll_attempts;
  cron_Parse := cron_Parse;
  cron_ParseStandard := cron_ParseStandard;
  db_exec := λ a, lifted (db_exec a);
  presto_query := λ q, lifted (presto_query q);
  prom_query := λ q r, lifted (prom_query q r);
  ctx_err := lifted ctx_err;
  last_timestamp := λ n, lifted (last_timestamp n);
|}.

(** An informer takes in a delta. *)
Lemma kept_delta k (c : kept k) d : well_formed d → ∃ v, caches defaultIndexers (HandleDelta k d (proj1_sig c)).1 v.
Proof. intros Hd. destruct c as [c [v Hc]]. exists (hear v d). by apply HandleDelta_hear. Qed.
Definition take_in (k : kind) (d : delta k) (Hd : well_formed d) (c : kept k) : kept k := exist _ _ (kept_delta k c d Hd).

Lemma cached_get_names k ns n s o s' : lister_get k ns n s = (Ok o, s') → Namespace (meta k o) = ns ∧ Name (meta k o) = n.
Proof. intros [= H _]. destruct (cache_of s k) as [c [v Hc]]. by eapply lister_names. Qed.

(** A list has the resources of its namespace, with the names they are found
    under. *)
Lemma cached_list_found k ns s l s' o : lister_list k ns s = (Ok l, s') → o ∈ l →
  (ns = "" ∨ Namespace (meta k o) = ns) ∧ lister_get k (Namespace (meta k o)) (Name (meta k o)) s = (Ok o, s).
Proof.
  intros [= H _] Ho. simpl. destruct (cache_of s k) as [c [v Hc]]. simpl in *.
  destruct (caches_read defaultIndexers c v (or_introl eq_refl) Hc) as (Hget & _ & Hlist).
  destruct (Hlist (λ _, true) ns) as (l' & E' & Hl). rewrite E' in H. injection H as <-. rewrite Hl in Ho.
  apply list_elem_of_filter in Ho as [[Hns _] Ho]. split; [done|]. rewrite Hget.
  apply list_elem_of_fmap in Ho as ([p x] & -> & Hx%elem_of_map_to_list). simpl.
  destruct (caches_view _ _ _ Hc _ _ Hx) as [_ ->]. unfold key_of_obj in Hx. by rewrite Hx.
Qed.

#[export] Instance cached_getters : GetterNames (S := cached) listerResolver.
Proof.
  split; intros ns n w o w'; simpl;
    unfold NewReportQueryListerGetter, NewReportDataSourceListerGetter, NewReportListerGetter, ListerGet;
    intros [_ H]%read_trace;
    first [apply (cached_get_names KReportQuery) in H|apply (cached_get_names KReportDataSource) in H|
           apply (cached_get_names KReport) in H]; apply H.
Qed.
End caches.
