(* ===== verification/Clients.v ===== *)
(** * Clients of the custom resources
    (src/pkg/generated/clientset/versioned/typed/metering/v1, over rest.Request
    of client-go)

    The generated clients are six copies of the same code, with the name of
    their resource; a call builds a request step by step and sends it.  The
    rest of the development has [client_get], [client_create], [client_update]
    of [Env] for the answers; here is what is asked for, with the theorem that
    a call reaches the resource it names and no other.  How options and bodies
    are encoded is a parameter. *)

From S2P Require Export AwsUsage.
Open Scope Z_scope.

(** ** Options and what encodes them *)
Record GetOptions := { go_ResourceVersion : string; go_IncludeUninitialized : bool }.
Record ListOptions := {
  LabelSelector : string;
  FieldSelector : string;
  IncludeUninitialized : bool;
  lo_Watch : bool;
  lo_ResourceVersion : string;
  TimeoutSeconds : option Z;
  Limit : Z;
  Continue : string;
}.
Abbreviation Values := (gmap string (list string)).

Class ClientLibrary := {
  DeleteOptions : Type;
  EncodeGetOptions : GetOptions → outcome Values;
  EncodeListOptions : ListOptions → outcome Values;
  EncodeObject : ∀ k, obj k → outcome string;
  EncodeDeleteOptions : DeleteOptions → outcome string;
}.

(** ** Requests ([rest.Request]) *)
Record Request := {
  verb : string;
  contentType : option string;
  pathPrefix : string;
  params : Values;
  namespace : string;
  namespaceSet : bool;
  resource : string;
  resourceName : string;
  subresource : string;
  timeout : Duration;
  body : option string;
  err : option error;
}.

(** [NewRequest] of a client for the API group ([setConfigDefaults]). *)
Definition versionedAPIPath : string := "/apis/" +:+ GroupName +:+ "/v1".
Definition NewRequest (clientTimeout : Duration) (verb : string) : Request :=
  {| verb := verb; contentType := None; pathPrefix := versionedAPIPath; params := ∅; namespace := "";
     namespaceSet := false; resource := ""; resourceName := ""; subresource := ""; timeout := clientTimeout;
     body := None; err := None |}.

Definition IsValidPathSegmentName (name : string) : list string :=
  if String.eqb name "." then ["may not be '.'"]
  else if String.eqb name ".." then ["may not be '..'"]
  else (if Contains name "/" then ["may not contain '/'"] else []) ++
       (if Contains name "%" then ["may not contain '%'"] else []).

Definition fails (e : error) (r : Request) : Request :=
  {| verb := verb r; contentType := contentType r; pathPrefix := pathPrefix r; params := params r;
     namespace := namespace r; namespaceSet := namespaceSet r; resource := resource r; resourceName := resourceName r;
     subresource := subresource r; timeout := timeout r; body := body r; err := Some e |}.
Definition set_namespace (s : string) (r : Request) : Request :=
  {| verb := verb r; contentType := contentType r; pathPrefix := pathPrefix r; params := params r;
     namespace := s; namespaceSet := true; resource := resource r; resourceName := resourceName r;
     subresource := subresource r; timeout := timeout r; body := body r; err := err r |}.
Definition set_path (res name sub : string) (r : Request) : Request :=
  {| verb := verb r; contentType := contentType r; pathPrefix := pathPrefix r; params := params r;
     namespace := namespace r; namespaceSet := namespaceSet r; resource := res; resourceName := name;
     subresource := sub; timeout := timeout r; body := body r; err := err r |}.
Definition set_query (ps : Values) (t : Duration) (r : Request) : Request :=
  {| verb := verb r; contentType := contentType r; pathPrefix := pathPrefix r; params := ps;
     namespace := namespace r; namespaceSet := namespaceSet r; resource := resource r; resourceName := resourceName r;
     subresource := subresource r; timeout := t; body := body r; err := err r |}.
Definition set_body (type : option string) (b : option string) (r : Request) : Request :=
  {| verb := verb r; contentType := type; pathPrefix := pathPrefix r; params := params r;
     namespace := namespace r; namespaceSet := namespaceSet r; resource := resource r; resourceName := resourceName r;
     subresource := subresource r; timeout := timeout r; body := b; err := err r |}.

(** A setter does nothing after an error, which the request keeps. *)
Definition setter (f : Request → Request) (r : Request) : Request :=
  match err r with Some _ => r | None => f r end.

Definition invalid (what name : string) (msgs : list string) : error :=
  Errorf "invalid %s %q: %v" [FStr what; FStr name; FStr ("[" +:+ Join msgs " " +:+ "]")].

Definition Namespace_ (s : string) : Request → Request := setter (λ r,
  if namespaceSet r then fails (Errorf "namespace already set to %q, cannot change to %q" [FStr (namespace r); FStr s]) r
  else match IsValidPathSegmentName s with [] => set_namespace s r | msgs => fails (invalid "namespace" s msgs) r end).
Definition Resource_ (s : string) : Request → Request := setter (λ r,
  if negb (String.eqb (resource r) "") then
    fails (Errorf "resource already set to %q, cannot change to %q" [FStr (resource r); FStr s]) r
  else match IsValidPathSegmentName s with
       | [] => set_path s (resourceName r) (subresource r) r
       | msgs => fails (invalid "resource" s msgs) r
       end).
Definition Name_ (s : string) : Request → Request := setter (λ r,
  if String.eqb s "" then fails (New "resource name may not be empty") r
  else if negb (String.eqb (resourceName r) "") then
    fails (Errorf "resource name already set to %q, cannot change to %q" [FStr (resourceName r); FStr s]) r
  else match IsValidPathSegmentName s with
       | [] => set_path (resource r) s (subresource r) r
       | msgs => fails (invalid "resource name" s msgs) r
       end).
Definition SubResource (subs : list string) : Request → Request := setter (λ r,
  if negb (String.eqb (subresource r) "") then
    fails (Errorf "subresource already set to %q, cannot change to %q" [FStr (resource r); FStr (path_Join subs)]) r
  else match list_find (λ s, IsValidPathSegmentName s ≠ []) subs with
       | Some (_, s) => fails (invalid "subresource" s (IsValidPathSegmentName s)) r
       | None => set_path (resource r) (resourceName r) (path_Join subs) r
       end).
Definition VersionedParams (encoded : outcome Values) : Request → Request := setter (λ r,
  match encoded with
  | Ok ps => set_query (union_with (λ a b, Some (a ++ b)) (params r) ps) (timeout r) r
  | Err e => fails e r
  | Panic p => fails (New p) r
  end).
Definition Timeout_ (d : Duration) : Request → Request := setter (λ r, set_query (params r) d r).
(** [Body], of an object that is encoded, of bytes, or of a nil pointer. *)
Definition Body_object (encoded : outcome string) : Request → Request := setter (λ r,
  match encoded with
  | Ok data => set_body (Some "application/json") (Some data) r
  | Err e => fails e r
  | Panic p => fails (New p) r
  end).
Definition Body_bytes (data : string) : Request → Request := setter (λ r, set_body (contentType r) (Some data) r).
Definition Body_nil : Request → Request := id.

(** The path of [URL]. *)
Definition URL_path (r : Request) : string :=
  let p := pathPrefix r in
  let p := if namespaceSet r && negb (String.eqb (namespace r) "") then path_Join [p; "namespaces"; namespace r] else p in
  let p := if negb (String.eqb (resource r) "") then path_Join [p; ToLower (resource r)] else p in
  if negb (String.eqb (resourceName r) "") || negb (String.eqb (subresource r) "")
  then path_Join [p; resourceName r; subresource r; ""] else p.

(** What goes over the wire; a timeout of 0 is none. *)
Record wire := Wire {
  w_Verb : string;
  w_Path : string;
  w_Query : Values;
  w_Timeout : Duration;
  w_ContentType : option string;
  w_Body : option string;
}.
Definition wire_of (r : Request) : wire :=
  Wire (verb r) (URL_path r) (params r) (timeout r) (contentType r) (body r).

(** [Do] up to the first attempt, and [Watch]. *)
Definition Do (r : Request) : outcome wire :=
  match err r with
  | Some e => Err e
  | None =>
      if (String.eqb (verb r) "GET" || String.eqb (verb r) "PUT" || String.eqb (verb r) "DELETE") && namespaceSet r &&
         negb (String.eqb (resourceName r) "") && String.eqb (namespace r) ""
      then Err (New "an empty namespace may not be set when a resource name is provided")
      else if String.eqb (verb r) "POST" && namespaceSet r && String.eqb (namespace r) ""
      then Err (New "an empty namespace may not be set during creation")
      else Ok (wire_of r)
  end.
Definition Watch (r : Request) : outcome wire :=
  match err r with Some e => Err e | None => Ok (wire_of r) end.

(** ** The generated clients *)
#[local] Notation "x |> f" := (f x) (at level 50, left associativity, only parsing).

(** The resource of each client. *)
Definition plural (k : kind) : string :=
  match k with
  | KReport => "reports" | KReportQuery => "reportqueries" | KReportDataSource => "reportdatasources"
  | KPrestoTable => "prestotables" | KHiveTable => "hivetables" | KStorageLocation => "storagelocations"
  end.

Section client.
Context {CL : ClientLibrary} (clientTimeout : Duration) (k : kind) (ns : string).

Definition start (verb : string) : Request :=
  NewRequest clientTimeout verb |> Namespace_ ns |> Resource_ (plural k).
Definition list_timeout (opts : ListOptions) : Duration :=
  match TimeoutSeconds opts with Some s => int64 (s * Second) | None => 0 end.
Definition set_Watch (opts : ListOptions) : ListOptions :=
  {| LabelSelector := LabelSelector opts; FieldSelector := FieldSelector opts;
     IncludeUninitialized := IncludeUninitialized opts; lo_Watch := true; lo_ResourceVersion := lo_ResourceVersion opts;
     TimeoutSeconds := TimeoutSeconds opts; Limit := Limit opts; Continue := Continue opts |}.
Definition Body_DeleteOptions (options : option DeleteOptions) : Request → Request :=
  match options with Some o => Body_object (EncodeDeleteOptions o) | None => Body_nil end.

Definition client_Get (name : string) (options : GetOptions) : outcome wire :=
  start "GET" |> Name_ name |> VersionedParams (EncodeGetOptions options) |> Do.
Definition client_List (opts : ListOptions) : outcome wire :=
  start "GET" |> VersionedParams (EncodeListOptions opts) |> Timeout_ (list_timeout opts) |> Do.
Definition client_Watch (opts : ListOptions) : outcome wire :=
  let timeout := list_timeout opts in
  let opts := set_Watch opts in
  start "GET" |> VersionedParams (EncodeListOptions opts) |> Timeout_ timeout |> Watch.
Definition client_Create (o : obj k) : outcome wire :=
  start "POST" |> Body_object (EncodeObject k o) |> Do.
Definition client_Update (o : obj k) : outcome wire :=
  start "PUT" |> Name_ (Name (meta k o)) |> Body_object (EncodeObject k o) |> Do.
Definition client_UpdateStatus (o : obj k) : outcome wire :=
  start "PUT" |> Name_ (Name (meta k o)) |> SubResource ["status"] |> Body_object (EncodeObject k o) |> Do.
Definition client_Delete (name : string) (options : option DeleteOptions) : outcome wire :=
  start "DELETE" |> Name_ name |> Body_DeleteOptions options |> Do.
Definition client_DeleteCollection (options : option DeleteOptions) (listOptions : ListOptions) : outcome wire :=
  start "DELETE" |> VersionedParams (EncodeListOptions listOptions) |> Timeout_ (list_timeout listOptions)
    |> Body_DeleteOptions options |> Do.
Definition client_Patch (name pt data : string) (subresources : list string) : outcome wire :=
  NewRequest clientTimeout "PATCH" |> set_body (Some pt) None |> Namespace_ ns |> Resource_ (plural k)
    |> SubResource subresources |> Name_ name |> Body_bytes data |> Do.
End client.

(** ** The methods of a client, and what they address *)
Section calls.
Context {CL : ClientLibrary}.

Inductive call (k : kind) :=
  | CallGet (name : string) (options : GetOptions)
  | CallList (opts : ListOptions)
  | CallWatch (opts : ListOptions)
  | CallCreate (o : obj k)
  | CallUpdate (o : obj k)
  | CallUpdateStatus (o : obj k)
  | CallDelete (name : string) (options : option DeleteOptions)
  | CallDeleteCollection (options : option DeleteOptions) (listOptions : ListOptions)
  | CallPatch (name pt data : string) (subresources : list string).

Definition issue (clientTimeout : Duration) (k : kind) (ns : string) (c : call k) : outcome wire :=
  match c with
  | CallGet _ name options => client_Get clientTimeout k ns name options
  | CallList _ opts => client_List clientTimeout k ns opts
  | CallWatch _ opts => client_Watch clientTimeout k ns opts
  | CallCreate _ o => client_Create clientTimeout k ns o
  | CallUpdate _ o => client_Update clientTimeout k ns o
  | CallUpdateStatus _ o => client_UpdateStatus clientTimeout k ns o
  | CallDelete _ name options => client_Delete clientTimeout k ns name options
  | CallDeleteCollection _ options listOptions => client_DeleteCollection clientTimeout k ns options listOptions
  | CallPatch _ name pt data subresources => client_Patch clientTimeout k ns name pt data subresources
  end.

(** The six clients ([MeteringV1Client]). *)
Definition hiveTables := λ clientTimeout ns, issue clientTimeout KHiveTable ns.
Definition prestoTables := λ clientTimeout ns, issue clientTimeout KPrestoTable ns.
Definition reports := λ clientTimeout ns, issue clientTimeout KReport ns.
Definition reportDataSources := λ clientTimeout ns, issue clientTimeout KReportDataSource ns.
Definition reportQueries := λ clientTimeout ns, issue clientTimeout KReportQuery ns.
Definition storageLocations := λ clientTimeout ns, issue clientTimeout KStorageLocation ns.

Definition call_verb {k} (c : call k) : string :=
  match c with
  | CallGet _ _ _ | CallList _ _ | CallWatch _ _ => "GET"
  | CallCreate _ _ => "POST"
  | CallUpdate _ _ | CallUpdateStatus _ _ => "PUT"
  | CallDelete _ _ _ | CallDeleteCollection _ _ _ => "DELETE"
  | CallPatch _ _ _ _ _ => "PATCH"
  end.
(** The object and subresource of a call, nothing for a collection. *)
Definition call_name {k} (c : call k) : option string :=
  match c with
  | CallGet _ name _ | CallDelete _ name _ | CallPatch _ name _ _ _ => Some name
  | CallUpdate _ o | CallUpdateStatus _ o => Some (Name (meta k o))
  | CallList _ _ | CallWatch _ _ | CallCreate _ _ | CallDeleteCollection _ _ _ => None
  end.
Definition call_subs {k} (c : call k) : list string :=
  match c with
  | CallUpdateStatus _ _ => ["status"]
  | CallPatch _ _ _ _ subresources => filter (λ s, s ≠ "") subresources
  | _ => []
  end.
Definition call_target {k} (c : call k) : list string := option_list (call_name c) ++ call_subs c.

Definition path_of (segs : list string) : string := "/" +:+ Join segs "/".
Definition address (k : kind) (ns : string) (target : list string) : list string :=
  ["apis"; GroupName; "v1"] ++ (if String.eqb ns "" then [] else ["namespaces"; ns]) ++ plural k :: target.
End calls.

(** ** Facts on paths *)
Lemma segments_Join l : l ≠ [] → segments (Join l "/") = concat (segments <$> l).
Proof.
  induction l as [|s [|t l] IH]; intros Hl; [done|by simpl; rewrite app_nil_r|].
  change (Join (s :: t :: l) "/") with (s +:+ "/" +:+ Join (t :: l) "/").
  rewrite segments_slash, IH by done. done.
Qed.

Lemma segments_names l : Forall is_name l → concat (segments <$> l) = l.
Proof. induction 1 as [|s l Hs _ IH]; [done|]. rewrite fmap_cons. simpl. by rewrite IH, (name_segment _ Hs). Qed.

Lemma clean_segments rooted l out : Forall (λ s, s = "" ∨ is_name s) l →
  fold_left (clean_step rooted) l out = rev (filter (λ s, s ≠ "") l) ++ out.
Proof.
  intros H. revert out. induction H as [|s l Hs _ IH]; intros out; [done|]. simpl. rewrite IH. destruct Hs as [->|Hs].
  - by rewrite filter_cons_False by naive_solver.
  - rewrite clean_step_name by done. rewrite filter_cons_True by exact (proj1 (name_plain _ Hs)).
    simpl. by rewrite <- app_assoc.
Qed.

Lemma filter_names l : Forall is_name l → filter (λ s, s ≠ "") l = l.
Proof. intros H. apply filter_id. eapply Forall_impl; [exact H|]. by intros s [_ [? _]]. Qed.

Lemma segments_path_of segs : segs ≠ [] → Forall is_name segs → segments (path_of segs) = "" :: segs.
Proof.
  intros Hne H. unfold path_of. change (segments ("/" +:+ Join segs "/")) with ("" :: segments (Join segs "/")).
  by rewrite segments_Join, segments_names.
Qed.

(** Joining a path with elements that may be empty. *)
Lemma path_Join_path segs l : segs ≠ [] → Forall is_name segs →
  Forall (λ s, s = "" ∨ is_name s) (concat (segments <$> l)) →
  path_Join (path_of segs :: l) = path_of (segs ++ filter (λ s, s ≠ "") (concat (segments <$> l))).
Proof.
  intros Hne Hs Hl. change (path_Join (path_of segs :: l)) with (Clean (Join (path_of segs :: l) "/")). unfold Clean.
  assert (HasPrefix (Join (path_of segs :: l) "/") "/" = true) as ->.
  { assert (∀ s, HasPrefix ("/" +:+ s) "/" = true) as Hp by by intros []. destruct l; apply Hp. }
  rewrite segments_Join, fmap_cons by done. cbn [concat]. rewrite segments_path_of by done.
  change (("" :: segs) ++ concat (segments <$> l)) with ("" :: (segs ++ concat (segments <$> l))). rewrite clean_segments.
  - rewrite app_nil_r, rev_involutive, filter_cons_False by naive_solver. by rewrite filter_app, filter_names.
  - constructor; [by left|]. apply Forall_app. split; [|done]. eapply Forall_impl; [exact Hs|]. by right.
Qed.

Lemma path_Join_plain segs l : segs ≠ [] → Forall is_name segs → Forall is_name l →
  path_Join (path_of segs :: l) = path_of (segs ++ l).
Proof.
  intros Hne Hs Hl. pose proof (segments_names l Hl) as E. rewrite path_Join_path, E; [|done|done|].
  - by rewrite filter_names.
  - rewrite E. eapply Forall_impl; [exact Hl|]. by right.
Qed.

Lemma path_Join_names l : Forall (λ s, s = "" ∨ is_name s) l → path_Join l = Join (filter (λ s, s ≠ "") l) "/".
Proof.
  induction l as [|s l IH]; [done|]. intros [[->|Hs] Hl]%Forall_cons; [by rewrite filter_cons_False by naive_solver; apply IH|].
  rewrite filter_cons_True by exact (proj1 (name_plain _ Hs)). cbn [path_Join].
  rewrite (proj2 (String.eqb_neq _ _) (proj1 (name_plain _ Hs))). unfold Clean.
  assert (HasPrefix (Join (s :: l) "/") "/" = false) as ->.
  { destruct l as [|t l]; [|by apply name_not_rooted]. rewrite <- (str_app_nil (Join [s] "/")). by apply name_not_rooted. }
  rewrite segments_Join, fmap_cons by done. cbn [concat]. rewrite (name_segment _ Hs).
  assert (concat (segments <$> l) = l) as ->.
  { clear -Hl. induction Hl as [|s l [->|Hs] _ IH]; [done|rewrite fmap_cons; simpl; by rewrite IH|].
    rewrite fmap_cons. simpl. by rewrite (name_segment _ Hs), IH. }
  rewrite clean_segments by (by constructor; [right|]). rewrite app_nil_r, rev_involutive.
  change ([s] ++ l) with (s :: l). by rewrite filter_cons_True by exact (proj1 (name_plain _ Hs)).
Qed.

Lemma path_of_inj a b : a ≠ [] → b ≠ [] → Forall is_name a → Forall is_name b → path_of a = path_of b → a = b.
Proof. intros Ha Hb Hna Hnb E%(f_equal segments). rewrite !segments_path_of in E by done. by injection E. Qed.

Lemma Contains_slash s : Contains s "/" = false → segments s = [s].
Proof.
  unfold Contains, Go.Index. induction s as [|c s IH]; [done|].
  cbn [String.index String.prefix segments]. unfold slash.
  destruct (ascii_dec "/" c) as [<-|Hc]; [destruct s; discriminate|].
  rewrite (proj2 (Ascii.eqb_neq c "/")) by congruence.
  destruct (String.index 0 "/" s); [done|]. intros _. by rewrite IH.
Qed.

Lemma valid_segment s : IsValidPathSegmentName s = [] → s = "" ∨ is_name s.
Proof.
  unfold IsValidPathSegmentName. destruct (String.eqb_spec s "."); [done|]. destruct (String.eqb_spec s ".."); [done|].
  destruct (Contains s "/") eqn:Hc; [done|]. intros _. destruct (decide (s = "")) as [->|]; [by left|].
  right. split; [by apply Contains_slash|done].
Qed.

Ltac is_name_const := split; [vm_compute; reflexivity|split_and!; discriminate].
Lemma plural_name k : is_name (plural k).
Proof. destruct k; is_name_const. Qed.
Definition api_path : list string := ["apis"; GroupName; "v1"].
Lemma api_path_names : Forall is_name api_path.
Proof. repeat (apply Forall_cons; split; [is_name_const|]). done. Qed.
Lemma plural_inj k k' : plural k = plural k' → k = k'.
Proof. by destruct k, k'. Qed.

(** ** Requests under construction

    What is known of a request if no setter failed: its namespace, the object
    and the subresources set. *)
Record built (v : string) (k : kind) (ns : string) (name : option string) (subs : list string) (r : Request) : Prop := {
  built_verb : verb r = v;
  built_prefix : pathPrefix r = versionedAPIPath;
  built_ns : namespaceSet r = true ∧ namespace r = ns ∧ (ns = "" ∨ is_name ns);
  built_resource : resource r = plural k;
  built_name : resourceName r = default "" name ∧ ∀ n, name = Some n → is_name n;
  built_subs : subresource r = Join subs "/" ∧ Forall is_name subs;
}.
Definition building v k ns name subs (r : Request) : Prop := err r = None → built v k ns name subs r.

Section building.
Context (v : string) (k : kind) (ns : string).

Lemma building_start r : verb r = v → pathPrefix r = versionedAPIPath → namespaceSet r = false → resource r = "" →
  resourceName r = "" → subresource r = "" → building v k ns None [] (Resource_ (plural k) (Namespace_ ns r)).
Proof.
  intros Hv Hp Hn Hr Hna Hsub. unfold building, Resource_, Namespace_, setter.
  destruct (err r) eqn:He; [rewrite !He; congruence|]. rewrite Hn.
  destruct (IsValidPathSegmentName ns) eqn:Hns; [|done]. simpl. rewrite He, Hr. simpl.
  destruct (IsValidPathSegmentName (plural k)) eqn:Hk; [|done]. intros _. split; simpl; try done.
  split_and!; [done|done|by apply valid_segment].
Qed.

Lemma building_Name s subs r : building v k ns None subs r → building v k ns (Some s) subs (Name_ s r).
Proof.
  intros Hb. unfold building, Name_, setter. destruct (err r) eqn:He; [rewrite He; congruence|].
  destruct (Hb He) as [H1 H2 H3 H4 [H5 _] H6]. destruct (String.eqb_spec s "") as [|Hs]; [done|]. rewrite H5. simpl.
  destruct (IsValidPathSegmentName s) eqn:Hv; [|done]. intros _. split; simpl; try done.
  split; [done|]. intros n [= <-]. by destruct (valid_segment s Hv).
Qed.

Lemma building_Sub name subs r : building v k ns name [] r →
  building v k ns name (filter (λ s, s ≠ "") subs) (SubResource subs r).
Proof.
  intros Hb. unfold building, SubResource, setter. destruct (err r) eqn:He; [rewrite He; congruence|].
  destruct (Hb He) as [H1 H2 H3 H4 H5 [H6 _]]. rewrite H6. simpl.
  destruct (list_find _ subs) as [[i s]|] eqn:Hf; [done|]. intros _. split; simpl; try done.
  apply list_find_None in Hf. assert (Forall (λ s, s = "" ∨ is_name s) subs) as Hs.
  { eapply Forall_impl; [exact Hf|]. intros s Hs. by apply valid_segment, dec_stable. }
  clear -Hs. split; [by apply path_Join_names|].
  apply Forall_forall. intros s [Hne Hin]%list_elem_of_filter. rewrite Forall_forall in Hs. by destruct (Hs s Hin).
Qed.

(** The setters that leave the path alone. *)
Lemma building_same name subs f r : building v k ns name subs r →
  (err (f r) = None → err r = None ∧ verb (f r) = verb r ∧ pathPrefix (f r) = pathPrefix r ∧
   namespaceSet (f r) = namespaceSet r ∧ namespace (f r) = namespace r ∧ resource (f r) = resource r ∧
   resourceName (f r) = resourceName r ∧ subresource (f r) = subresource r) →
  building v k ns name subs (f r).
Proof.
  intros Hb Hf He. destruct (Hf He) as (He' & E1 & E2 & E3 & E4 & E5 & E6 & E7). destruct (Hb He') as [].
  split; by rewrite ?E1, ?E2, ?E3, ?E4, ?E5, ?E6, ?E7.
Qed.

Ltac leaves_path r := intros Hb; apply building_same; [exact Hb|];
  unfold VersionedParams, Timeout_, Body_object, Body_bytes, setter; destruct (err r) eqn:He; [congruence|].
Lemma building_params name subs ps r : building v k ns name subs r → building v k ns name subs (VersionedParams ps r).
Proof. leaves_path r. by destruct ps. Qed.
Lemma building_timeout name subs t r : building v k ns name subs r → building v k ns name subs (Timeout_ t r).
Proof. by leaves_path r. Qed.
Lemma building_object name subs b r : building v k ns name subs r → building v k ns name subs (Body_object b r).
Proof. leaves_path r. by destruct b. Qed.
Lemma building_bytes name subs b r : building v k ns name subs r → building v k ns name subs (Body_bytes b r).
Proof. by leaves_path r. Qed.

(** *** The finished request *)
Lemma plural_lower : ToLower (plural k) = plural k.
Proof. by destruct k. Qed.

Lemma address_names target : (ns = "" ∨ is_name ns) → Forall is_name target → Forall is_name (address k ns target).
Proof.
  intros Hns Ht. unfold address. apply Forall_app. split.
  { exact api_path_names. }
  apply Forall_app. split; [|by constructor; [apply plural_name|]].
  destruct (String.eqb_spec ns "") as [|Hne]; [done|]. destruct Hns as [|Hns]; [done|].
  apply Forall_cons. split; [is_name_const|by constructor].
Qed.

Lemma built_path name subs r : built v k ns name subs r → (name = None → subs = []) →
  Forall is_name (option_list name ++ subs) ∧ URL_path r = path_of (address k ns (option_list name ++ subs)).
Proof.
  intros [_ Hp (Hset & Hn & Hns) Hr [Hname Hok] [Hsub Hsubs]] Hnone.
  assert (Forall is_name (option_list name ++ subs)) as Hall.
  { apply Forall_app. split; [|done]. destruct name as [n|]; [|done]. repeat constructor; by apply Hok. }
  split; [done|]. unfold URL_path. rewrite Hp, Hset, Hn, Hr, Hname, Hsub. simpl negb.
  change versionedAPIPath with (path_of api_path).
  assert ((if true && negb (String.eqb ns "") then path_Join [path_of api_path; "namespaces"; ns] else path_of api_path) =
          path_of (api_path ++ if String.eqb ns "" then [] else ["namespaces"; ns])) as ->.
  { destruct (String.eqb_spec ns "") as [|Hne]; [by rewrite app_nil_r|]. destruct Hns as [|Hns]; [done|].
    by apply path_Join_plain; [|apply api_path_names|apply Forall_cons; split; [is_name_const|constructor]]. }
  rewrite plural_lower, (proj2 (String.eqb_neq _ _) (proj1 (name_plain _ (plural_name k)))). simpl negb.
  pose proof (address_names [] Hns (Forall_nil_2 _)) as Haddr. unfold address in *.
  change ["apis"; GroupName; "v1"] with api_path in *.
  set (base := if String.eqb ns "" then [] else ["namespaces"; ns]) in *.
  rewrite app_assoc in Haddr. pose proof Haddr as [Hbase _]%Forall_app.
  rewrite (path_Join_plain (api_path ++ base) [plural k]), <- app_assoc by (done || by constructor; [apply plural_name|]).
  destruct name as [n|]; [|by rewrite (Hnone eq_refl)]. simpl default.
  assert (n ≠ "") as Hne by exact (proj1 (name_plain _ (Hok n eq_refl))).
  rewrite (proj2 (String.eqb_neq _ _) Hne). simpl negb. cbn [orb].
  assert (concat (segments <$> [n; Join subs "/"; ""]) = n :: segments (Join subs "/") ++ [""]) as E.
  { simpl. by rewrite (name_segment _ (Hok n eq_refl)). }
  assert (Forall (λ s, s = "" ∨ is_name s) (segments (Join subs "/")) ∧ filter (λ s, s ≠ "") (segments (Join subs "/")) = subs)
    as [Hj1 Hj2].
  { destruct subs as [|s subs]; [split; [repeat constructor|done]|]. rewrite segments_Join, segments_names, filter_names by done.
    split; [|done]. eapply Forall_impl; [exact Hsubs|]. by right. }
  rewrite path_Join_path, E.
  - rewrite filter_cons_True by done. rewrite filter_app, Hj2. simpl. rewrite app_nil_r, <- !app_assoc. done.
  - done.
  - by rewrite app_assoc.
  - rewrite E. constructor; [right; by apply Hok|]. apply Forall_app. split; [done|]. by constructor; [left|].
Qed.
End building.

(** ** Calls *)
Create HintDb building.
#[export] Hint Resolve building_Name building_params building_timeout building_object building_bytes : building.

Lemma Do_Ok r w : Do r = Ok w → err r = None ∧ w = wire_of r ∧
  (namespaceSet r = true → namespace r = "" → verb r ≠ "POST" ∧
   (verb r = "GET" ∨ verb r = "PUT" ∨ verb r = "DELETE" → resourceName r = "")).
Proof.
  unfold Do. destruct (err r); [done|]. intros H. split; [done|].
  destruct (String.eqb_spec (resourceName r) "") as [Hn|Hn], (String.eqb_spec (namespace r) "") as [Hns|Hns],
    (namespaceSet r), (String.eqb_spec (verb r) "POST") as [Hp|Hp], (String.eqb_spec (verb r) "GET") as [Hg|Hg],
    (String.eqb_spec (verb r) "PUT") as [Hu|Hu], (String.eqb_spec (verb r) "DELETE") as [Hd|Hd];
    simpl in H; simplify_eq; (split; [done|]); intros; naive_solver.
Qed.

Lemma Watch_Ok r w : Watch r = Ok w → err r = None ∧ w = wire_of r.
Proof. unfold Watch. destruct (err r); [done|]. by intros [= <-]. Qed.

Section issue.
Context {CL : ClientLibrary}.

Lemma building_delete v k ns name subs options r :
  building v k ns name subs r → building v k ns name subs (Body_DeleteOptions options r).
Proof. destruct options; simpl; [apply building_object|done]. Qed.

Lemma building_client t v k ns : building v k ns None [] (start t k ns v).
Proof. by apply building_start. Qed.

(** The request of a call that is sent. *)
Lemma issue_built t k ns (c : call k) w : issue t k ns c = Ok w → ∃ r, w = wire_of r ∧
  built (call_verb c) k ns (call_name c) (call_subs c) r ∧
  (ns = "" → call_verb c = "PATCH" ∨ call_name c = None ∧ call_verb c ≠ "POST").
Proof.
  assert (∀ r v, building v k ns (call_name c) (call_subs c) r → call_verb c = v → Do r = Ok w → ∃ r, w = wire_of r ∧
    built (call_verb c) k ns (call_name c) (call_subs c) r ∧
    (ns = "" → call_verb c = "PATCH" ∨ call_name c = None ∧ call_verb c ≠ "POST")) as Hdo.
  { intros r v Hb <- (He & -> & Hg)%Do_Ok. exists r. split; [done|]. pose proof (Hb He) as Hbt. split; [done|].
    destruct Hbt as [Hv _ (Hs & Hn & _) _ [Hname Hok] _]. intros ->. destruct (Hg Hs Hn) as [Hpost Hnone]. rewrite Hv in *.
    assert (call_verb c = "GET" ∨ call_verb c = "PUT" ∨ call_verb c = "DELETE" → call_name c = None) as Hc.
    { intros Hverb. rewrite (Hnone Hverb) in Hname. destruct (call_name c) as [n|]; [|done].
      simpl in Hname. subst n. by destruct (name_plain _ (Hok _ eq_refl)). }
    destruct c; simpl in *; auto; right; split; auto. }
  destruct c; simpl; unfold client_Get, client_List, client_Create, client_Update, client_UpdateStatus, client_Delete,
    client_DeleteCollection, client_Patch; try refine (Hdo _ _ _ eq_refl); eauto using building_client, building_delete with building.
  - unfold client_Watch. intros [He ->]%Watch_Ok. eexists. split; [done|]. split; [|by right].
    assert (∀ r v, building v k ns None [] r → err r = None → built v k ns None [] r) as Hb by done.
    apply Hb; [|done]. eauto using building_client with building.
  - apply building_object, (building_Sub _ _ _ _ ["status"]). eauto using building_client with building.
  - apply building_bytes, building_Name. apply building_Sub. by apply building_start.
Qed.

Lemma address_inj k ns target k' ns' target' :
  address k ns target = address k' ns' target' → k = k' ∧ ns = ns' ∧ target = target'.
Proof.
  unfold address. simpl. intros [= E]. destruct (String.eqb_spec ns "") as [->|], (String.eqb_spec ns' "") as [->|]; simpl in E.
  - injection E as E ->. by apply plural_inj in E as ->.
  - injection E as E _. by destruct k.
  - injection E as E _. by destruct k'.
  - injection E as -> E ->. by apply plural_inj in E as ->.
Qed.

(** What a call encodes can be encoded, and its names are segments of a path. *)
Definition is_Ok {A} (o : outcome A) : bool := match o with Ok _ => true | _ => false end.
Definition encodes {k} (c : call k) : bool :=
  let delete options := match options with Some o => is_Ok (EncodeDeleteOptions o) | None => true end in
  match c with
  | CallGet _ _ options => is_Ok (EncodeGetOptions options)
  | CallList _ opts => is_Ok (EncodeListOptions opts)
  | CallWatch _ opts => is_Ok (EncodeListOptions (set_Watch opts))
  | CallCreate _ o | CallUpdate _ o | CallUpdateStatus _ o => is_Ok (EncodeObject k o)
  | CallDelete _ _ options => delete options
  | CallDeleteCollection _ options listOptions => delete options && is_Ok (EncodeListOptions listOptions)
  | CallPatch _ _ _ _ _ => true
  end.
Definition plain_segment (s : string) : bool :=
  match IsValidPathSegmentName s with [] => negb (String.eqb s "") | _ => false end.
Definition named_well {k} (ns : string) (c : call k) : bool :=
  plain_segment ns && forallb plain_segment (option_list (call_name c)) &&
  match c with CallPatch _ _ _ _ subresources => forallb plain_segment subresources | _ => true end.

Lemma plain_segment_spec s : plain_segment s = true → IsValidPathSegmentName s = [] ∧ String.eqb s "" = false.
Proof.
  unfold plain_segment. destruct (IsValidPathSegmentName s); [|done]. by destruct (String.eqb s "").
Qed.

(** A request without an error, and the setters that keep it so. *)
Definition good v k ns name subs (r : Request) : Prop := err r = None ∧ built v k ns name subs r.

Lemma good_building v k ns name subs r : building v k ns name subs r → err r = None → good v k ns name subs r.
Proof. intros Hb He. split; [done|by apply Hb]. Qed.
Lemma building_good v k ns name subs r : good v k ns name subs r → building v k ns name subs r.
Proof. by intros [_ H] _. Qed.
Ltac keeps_good He := apply good_building; [eauto using building_good, building_delete with building|];
  unfold Name_, VersionedParams, Timeout_, Body_object, Body_bytes, SubResource, setter; rewrite He.

Lemma good_start t v k ns : IsValidPathSegmentName ns = [] → good v k ns None [] (start t k ns v).
Proof.
  intros Hns. apply good_building; [apply building_client|]. unfold start, Resource_, Namespace_, setter. simpl.
  rewrite Hns. simpl. by destruct k.
Qed.
Lemma good_Name v k ns subs s r : plain_segment s = true → good v k ns None subs r → good v k ns (Some s) subs (Name_ s r).
Proof.
  intros [Hs Hne]%plain_segment_spec H. pose proof H as [He Hb]. keeps_good He.
  rewrite Hne, (proj1 (built_name _ _ _ _ _ _ Hb)), Hs. done.
Qed.
Lemma good_Sub v k ns name subs r : forallb plain_segment subs = true → good v k ns name [] r →
  good v k ns name (filter (λ s, s ≠ "") subs) (SubResource subs r).
Proof.
  intros Hs H. pose proof H as [He Hb]. apply good_building; [by apply building_Sub, building_good|].
  unfold SubResource, setter. rewrite He, (proj1 (built_subs _ _ _ _ _ _ Hb)). simpl.
  destruct (list_find _ subs) as [[i s]|] eqn:Hf; [|done]. apply list_find_Some in Hf as (Hi & Hne & _).
  rewrite forallb_forall in Hs. apply list_elem_of_lookup_2, list_elem_of_In in Hi.
  by apply Hs, plain_segment_spec in Hi as [Hi _].
Qed.
Lemma good_params v k ns name subs ps r : is_Ok ps = true → good v k ns name subs r → good v k ns name subs (VersionedParams ps r).
Proof. intros Hps H. pose proof H as [He _]. keeps_good He. by destruct ps. Qed.
Lemma good_timeout v k ns name subs d r : good v k ns name subs r → good v k ns name subs (Timeout_ d r).
Proof. intros H. pose proof H as [He _]. by keeps_good He. Qed.
Lemma good_object v k ns name subs b r : is_Ok b = true → good v k ns name subs r → good v k ns name subs (Body_object b r).
Proof. intros Hbody H. pose proof H as [He _]. keeps_good He. by destruct b. Qed.
Lemma good_bytes v k ns name subs b r : good v k ns name subs r → good v k ns name subs (Body_bytes b r).
Proof. intros H. pose proof H as [He _]. by keeps_good He. Qed.
Lemma good_delete v k ns name subs options r :
  match options with Some o => is_Ok (EncodeDeleteOptions o) | None => true end = true →
  good v k ns name subs r → good v k ns name subs (Body_DeleteOptions options r).
Proof. destruct options; simpl; [apply good_object|done]. Qed.

Lemma Do_good v k ns name subs r : String.eqb ns "" = false → good v k ns name subs r → ∃ w, Do r = Ok w.
Proof.
  intros Hns [He Hb]. destruct (built_ns _ _ _ _ _ _ Hb) as (_ & En & _). unfold Do. rewrite He, En, Hns.
  rewrite !andb_false_r. eauto.
Qed.

#[local] Hint Resolve good_start good_Name good_Sub good_params good_timeout good_object good_bytes good_delete : building.

Lemma issue_sent t k ns (c : call k) : encodes c = true → named_well ns c = true → ∃ w, issue t k ns c = Ok w.
Proof.
  intros He Hn. unfold named_well in Hn. apply andb_prop in Hn as [[Hns Hname]%andb_prop Hsubs].
  apply plain_segment_spec in Hns as [Hns Hns'].
  destruct c; simpl in He, Hname; rewrite ?andb_true_r in Hname;
    try (apply andb_prop in He as [He He']);
    try (eapply Do_good; [exact Hns'|]; eauto 6 with building; fail).
  - destruct (good_params "GET" k ns None [] (EncodeListOptions (set_Watch opts)) (start t k ns "GET")) as [H _];
      [done|by apply good_start|]. simpl. unfold client_Watch, Watch.
    destruct (good_timeout "GET" k ns None [] (list_timeout opts) (VersionedParams (EncodeListOptions (set_Watch opts)) (start t k ns "GET")))
      as [H' _]; [eauto with building|]. rewrite H'. eauto.
  - eapply Do_good; [exact Hns'|]. apply good_bytes, good_Name; [done|]. apply good_Sub; [done|].
    apply good_building; [by apply building_start|]. unfold Resource_, Namespace_, setter. simpl. rewrite Hns. simpl. by destruct k.
Qed.
End issue.

(** ** Theorems *)

(** C36: a client call reaches the resource it names and no other.  A call
    with a namespace and names that are plain path segments is sent; what is
    sent has the verb of the call and the path of its resource, in which a
    call for one object has the object's name, so that none is ever taken for
    a call on the collection; without a namespace only collections can be
    read, watched and deleted, and objects patched; and no two calls have the
    same path unless they are for the same kind, namespace, name and
    subresource. *)
Theorem requests_addressed {CL : ClientLibrary} t k ns (c : call k) :
  (encodes c = true → named_well ns c = true → ∃ w, issue t k ns c = Ok w) ∧
  ∀ w, issue t k ns c = Ok w →
  w_Verb w = call_verb c ∧ w_Path w = path_of (address k ns (call_target c)) ∧ Forall is_name (call_target c) ∧
  (ns = "" → call_verb c = "PATCH" ∨ call_name c = None ∧ call_verb c ≠ "POST") ∧
  ∀ t' k' ns' (c' : call k') w', issue t' k' ns' c' = Ok w' → w_Path w' = w_Path w →
  k' = k ∧ ns' = ns ∧ call_target c' = call_target c.
Proof.
  assert (∀ t k ns (c : call k) w, issue t k ns c = Ok w →
    w_Verb w = call_verb c ∧ (Forall is_name (call_target c) ∧ w_Path w = path_of (address k ns (call_target c))) ∧
    (ns = "" ∨ is_name ns) ∧ (ns = "" → call_verb c = "PATCH" ∨ call_name c = None ∧ call_verb c ≠ "POST")) as Hissue.
  { intros t' k' ns' c' w (r & -> & Hb & Hns)%issue_built. simpl. split; [apply (built_verb _ _ _ _ _ _ Hb)|].
    split; [|split; [apply (built_ns _ _ _ _ _ _ Hb)|exact Hns]].
    apply (built_path _ _ _ _ _ _ Hb). by destruct c'. }
  split; [apply issue_sent|]. intros w (Hv & [Ht Hp] & Hns & Hempty)%Hissue. split_and!; try done.
  intros t' k' ns' c' w' (_ & [Ht' Hp'] & Hns' & _)%Hissue Hpath. rewrite Hp, Hp' in Hpath.
  apply path_of_inj in Hpath; [|by destruct ns'|by destruct ns|by apply address_names|by apply address_names].
  by apply address_inj in Hpath as (-> & -> & ->).
Qed.

(** ** A concrete client *)
#[local] Instance plain_client : ClientLibrary :=
  {| DeleteOptions := unit; EncodeGetOptions := λ _, Ok ∅; EncodeListOptions := λ _, Ok ∅;
     EncodeObject := λ k o, Ok (Name (meta k o)); EncodeDeleteOptions := λ _, Ok "{}" |}.
Definition sample_query : obj KReportQuery :=
  {| q_Meta := meta_of "metering" "usage"; q_Spec := {| qs_Columns := []; qs_Query := ""; qs_Inputs := [] |} |}.

Lemma requests_addressed_witness :
  (∃ w, issue 0 KReportQuery "metering" (CallUpdateStatus KReportQuery sample_query) = Ok w ∧ w_Verb w = "PUT" ∧
   w_Path w = "/apis/metering.openshift.io/v1/namespaces/metering/reportqueries/usage/status") ∧
  ¬ ∃ w, issue 0 KReportQuery "metering" (CallDelete KReportQuery "" None) = Ok w ∧ w_Verb w = "DELETE".
Proof.
  destruct (requests_addressed 0 KReportQuery "metering" (CallUpdateStatus KReportQuery sample_query)) as [H1 H2].
  destruct (H1 eq_refl eq_refl) as [w Hw]. destruct (H2 w Hw) as (Hv & Hp & _). split.
  - exists w. split; [exact Hw|]. split; [exact Hv|]. rewrite Hp. vm_compute. reflexivity.
  - intros (w' & H & _).
    destruct (proj2 (requests_addressed 0 KReportQuery "metering" (CallDelete KReportQuery "" None)) w' H) as (_ & _ & Hn & _).
    apply Forall_cons in Hn as [Hn _]. by destruct (name_plain _ Hn).
Defined.
