(* ===== verification/Informers.v ===== *)
(** * The informer factory
    (src/pkg/generated/informers/externalversions, and the informers
    [newReportingOperator] of src/pkg/operator/operator.go asks it for)

    One factory makes the informers of an operator, one for each kind, starts
    them and waits until their caches are filled.  Startup runs the operator
    with it. *)

From S2P Require Export WorkQueue.
From S2P Require Import Listers Clients.
Open Scope Z_scope.

Definition kind_number (k : kind) : nat :=
  match k with
  | KReport => 0 | KReportQuery => 1 | KReportDataSource => 2 | KPrestoTable => 3 | KHiveTable => 4 | KStorageLocation => 5
  end.
Definition numbered_kind (n : nat) : kind :=
  match n with
  | 0 => KReport | 1 => KReportQuery | 2 => KReportDataSource | 3 => KPrestoTable | 4 => KHiveTable | _ => KStorageLocation
  end%nat.
#[export] Instance kind_countable : Countable kind.
Proof. refine (inj_countable' kind_number numbered_kind _). by intros []. Defined.

(** ** Informers

    The type of an informer's objects is their kind. *)
Abbreviation TweakListOptionsFunc := (ListOptions → ListOptions).
Record sharedInformer := {
  inf_kind : kind;
  inf_namespace : string;
  inf_tweak : option TweakListOptionsFunc;
  inf_resyncPeriod : Duration;
  inf_indexers : gmap string IndexFunc;
}.
Definition NewFilteredInformer (k : kind) (namespace : string) (resyncPeriod : Duration) (indexers : gmap string IndexFunc)
    (tweak : option TweakListOptionsFunc) : sharedInformer :=
  {| inf_kind := k; inf_namespace := namespace; inf_tweak := tweak; inf_resyncPeriod := resyncPeriod;
     inf_indexers := indexers |}.

(** What it asks the API server for ([ListFunc], [WatchFunc]). *)
Section requests.
Context {CL : ClientLibrary} (clientTimeout : Duration).
Definition tweaked (i : sharedInformer) (options : ListOptions) : ListOptions :=
  match inf_tweak i with Some tweak => tweak options | None => options end.
Definition ListFunc (i : sharedInformer) (options : ListOptions) : outcome wire :=
  client_List clientTimeout (inf_kind i) (inf_namespace i) (tweaked i options).
Definition WatchFunc (i : sharedInformer) (options : ListOptions) : outcome wire :=
  client_Watch clientTimeout (inf_kind i) (inf_namespace i) (tweaked i options).
End requests.

(** ** The factory ([sharedInformerFactory]) *)
Record factory := Factory {
  f_namespace : string;
  f_tweak : option TweakListOptionsFunc;
  defaultResync : Duration;
  customResync : gmap kind Duration;
  informers : gmap kind sharedInformer;
  startedInformers : gset kind;
}.

Abbreviation SharedInformerOption := (factory → factory).
Definition WithCustomResyncConfig (resyncConfig : gmap kind Duration) : SharedInformerOption := λ f,
  Factory (f_namespace f) (f_tweak f) (defaultResync f) (resyncConfig ∪ customResync f) (informers f) (startedInformers f).
Definition WithTweakListOptions (tweak : option TweakListOptionsFunc) : SharedInformerOption := λ f,
  Factory (f_namespace f) tweak (defaultResync f) (customResync f) (informers f) (startedInformers f).
Definition WithNamespace (namespace : string) : SharedInformerOption := λ f,
  Factory namespace (f_tweak f) (defaultResync f) (customResync f) (informers f) (startedInformers f).

Definition NewSharedInformerFactoryWithOptions (defaultResync : Duration) (options : list SharedInformerOption) : factory :=
  foldl (λ f opt, opt f) (Factory "" None defaultResync ∅ ∅ ∅) options.
Definition NewSharedInformerFactory (defaultResync : Duration) : factory :=
  NewSharedInformerFactoryWithOptions defaultResync [].
Definition NewFilteredSharedInformerFactory (defaultResync : Duration) (namespace : string)
    (tweak : option TweakListOptionsFunc) : factory :=
  NewSharedInformerFactoryWithOptions defaultResync [WithNamespace namespace; WithTweakListOptions tweak].

Definition InformerFor (k : kind) (newFunc : Duration → sharedInformer) (f : factory) : sharedInformer * factory :=
  match informers f !! k with
  | Some informer => (informer, f)
  | None =>
      let resyncPeriod := default (defaultResync f) (customResync f !! k) in
      let informer := newFunc resyncPeriod in
      (informer, Factory (f_namespace f) (f_tweak f) (defaultResync f) (customResync f) (<[k := informer]> (informers f))
                   (startedInformers f))
  end.

(** [Metering().V1().<Kind>s().Informer()], and [Lister()], which reads the
    store of the same informer. *)
Definition defaultInformer (k : kind) (f : factory) (resyncPeriod : Duration) : sharedInformer :=
  NewFilteredInformer k (f_namespace f) resyncPeriod defaultIndexers (f_tweak f).
Definition Informer (k : kind) (f : factory) : sharedInformer * factory := InformerFor k (defaultInformer k f) f.

(** The six kinds ([version]). *)
Definition hiveTableInformer : factory → sharedInformer * factory := Informer KHiveTable.
Definition prestoTableInformer : factory → sharedInformer * factory := Informer KPrestoTable.
Definition reportInformer : factory → sharedInformer * factory := Informer KReport.
Definition reportDataSourceInformer : factory → sharedInformer * factory := Informer KReportDataSource.
Definition reportQueryInformer : factory → sharedInformer * factory := Informer KReportQuery.
Definition storageLocationInformer : factory → sharedInformer * factory := Informer KStorageLocation.

(** [Start]: the informers to run, each in a goroutine of its own. *)
Definition Start (f : factory) : list kind * factory :=
  let unstarted := filter (λ k, k ∉ startedInformers f) (fst <$> map_to_list (informers f)) in
  (unstarted, Factory (f_namespace f) (f_tweak f) (defaultResync f) (customResync f) (informers f)
                (startedInformers f ∪ list_to_set unstarted)).

(** [WaitForCacheSync]: the informers it waits for. *)
Definition awaited_informers (f : factory) : gset kind := dom (informers f) ∩ startedInformers f.

(** [ForResource], with the kind for the informer. *)
Definition ForResource (group version resource : string) : outcome kind :=
  let matches (k : kind) := String.eqb group GroupName && String.eqb version "v1" && String.eqb resource (plural k) in
  if matches KHiveTable then Ok KHiveTable
  else if matches KPrestoTable then Ok KPrestoTable
  else if matches KReport then Ok KReport
  else if matches KReportDataSource then Ok KReportDataSource
  else if matches KReportQuery then Ok KReportQuery
  else if matches KStorageLocation then Ok KStorageLocation
  else Err (Errorf "no informer found for %v" [FStr (group +:+ "/" +:+ version +:+ ", Resource=" +:+ resource)]).

(** ** The operator's informers ([newReportingOperator])

    For the dependency resolver, for the listers, for the event handlers. *)
Definition defaultResyncPeriod : Duration := 15 * Minute.
Definition informers_asked_for : list kind :=
  [KReportQuery; KReportDataSource; KReport] ++
  [KPrestoTable; KHiveTable; KReportDataSource; KReportQuery; KReport; KStorageLocation] ++
  [KReport; KReportDataSource; KReportQuery; KPrestoTable; KHiveTable; KStorageLocation].
Definition operator_factory (informerNamespace : string) : factory :=
  foldl (λ f k, (Informer k f).2) (NewFilteredSharedInformerFactory defaultResyncPeriod informerNamespace None)
    informers_asked_for.

(** ** Facts *)
Definition all_kinds : gset kind :=
  list_to_set [KReport; KReportQuery; KReportDataSource; KPrestoTable; KHiveTable; KStorageLocation].
Lemma all_kinds_spec k : k ∈ all_kinds.
Proof. unfold all_kinds. rewrite elem_of_list_to_set. destruct k; set_solver. Qed.

(** A second call gives the informer of the first. *)
Lemma InformerFor_shared k newFunc newFunc' f :
  let '(informer, f') := InformerFor k newFunc f in InformerFor k newFunc' f' = (informer, f').
Proof.
  unfold InformerFor. destruct (informers f !! k) as [i|] eqn:E; [by rewrite E|].
  cbn [informers]. by rewrite lookup_insert_eq.
Qed.

Lemma ForResource_plural k : ForResource GroupName "v1" (plural k) = Ok k.
Proof. by destruct k. Qed.

(** Calls on a factory, with the informers that were run. *)
Inductive factory_op := AskFor (k : kind) | CallStart.
Definition factory_run (op : factory_op) (s : factory * list kind) : factory * list kind :=
  match op with
  | AskFor k => ((Informer k s.1).2, s.2)
  | CallStart => let '(l, f) := Start s.1 in (f, s.2 ++ l)
  end.

Record factory_ok (s : factory * list kind) : Prop := {
  ok_started : startedInformers s.1 = list_to_set s.2;
  ok_once : NoDup s.2;
  ok_known : startedInformers s.1 ⊆ dom (informers s.1);
  ok_informers k i : informers s.1 !! k = Some i → inf_kind i = k ∧ inf_namespace i = f_namespace s.1;
}.

Lemma factory_run_ok op s : factory_ok s → factory_ok (factory_run op s) ∧ f_namespace (factory_run op s).1 = f_namespace s.1.
Proof.
  intros [Hs Hn Hk Hi]. destruct s as [f l]. simpl in *. destruct op as [k|]; simpl.
  - unfold Informer, InformerFor. destruct (informers f !! k) as [i|] eqn:E; [done|]. split; [|done].
    split; simpl; [done|done|rewrite dom_insert; set_solver|].
    intros k' i [[<- <-]|[_ H]]%lookup_insert_Some; [done|by apply Hi].
  - split; [|done]. set (un := filter _ _). split; simpl.
    + by rewrite list_to_set_app_L, Hs.
    + apply NoDup_app. split; [done|]. split.
      * intros k Hk' [Hu _]%list_elem_of_filter. apply Hu. rewrite Hs. by apply elem_of_list_to_set.
      * apply NoDup_filter, NoDup_fst_map_to_list.
    + intros k [Hk'|Hk']%elem_of_union; [by apply Hk|]. apply elem_of_list_to_set, list_elem_of_filter in Hk' as [_ Hk'].
      apply list_elem_of_fmap in Hk' as ([k' i] & -> & Hm%elem_of_map_to_list). by apply elem_of_dom_2 in Hm.
    + apply Hi.
Qed.

Lemma factory_runs_ok ops s : factory_ok s →
  factory_ok (foldl (λ s op, factory_run op s) s ops) ∧ f_namespace (foldl (λ s op, factory_run op s) s ops).1 = f_namespace s.1.
Proof.
  revert s. induction ops as [|op ops IH]; intros s Hs; [done|]. simpl.
  destruct (factory_run_ok op s Hs) as [Hok <-]. by apply IH.
Qed.

Lemma Start_all f : startedInformers (Start f).2 = startedInformers f ∪ dom (informers f).
Proof.
  unfold Start. simpl. apply set_eq. intros k. rewrite !elem_of_union, elem_of_list_to_set, list_elem_of_filter.
  assert (k ∈ fst <$> map_to_list (informers f) ↔ k ∈ dom (informers f)) as ->.
  { rewrite list_elem_of_fmap, elem_of_dom. split.
    - intros ([k' i] & -> & H%elem_of_map_to_list). by exists i.
    - intros [i H]. exists (k, i). by rewrite elem_of_map_to_list. }
  destruct (decide (k ∈ startedInformers f)); naive_solver.
Qed.

(** The operator's factory has an informer for every kind, none started, and
    all watch the same namespace. *)
Lemma operator_factory_informers ns : dom (informers (operator_factory ns)) = all_kinds ∧
  startedInformers (operator_factory ns) = ∅ ∧
  ∀ k i, informers (operator_factory ns) !! k = Some i → inf_kind i = k ∧ inf_namespace i = ns.
Proof.
  split; [vm_compute; reflexivity|]. split; [reflexivity|]. intros k i. destruct k; vm_compute; by intros [= <-].
Qed.

(** any calls on a factory: an informer runs at most once however often the
    factory is started, runs only if it was asked for, and after [Start] every
    informer asked for so far runs; all informers watch the namespace of the
    factory. *)
Theorem informers_run_once namespace ops (s := foldl (λ s op, factory_run op s)
    (NewFilteredSharedInformerFactory defaultResyncPeriod namespace None, []) ops) :
  NoDup s.2 ∧ (∀ k, k ∈ s.2 → is_Some (informers s.1 !! k)) ∧
  (∀ k i, informers s.1 !! k = Some i → inf_kind i = k ∧ inf_namespace i = namespace) ∧
  (∀ k, is_Some (informers s.1 !! k) → k ∈ (factory_run CallStart s).2).
Proof.
  destruct (factory_runs_ok ops (NewFilteredSharedInformerFactory defaultResyncPeriod namespace None, []))
    as [Hok Hns]; [split; simpl; [done|apply NoDup_nil_2|set_solver|done]|].
  fold s in Hok, Hns. pose proof (factory_run_ok CallStart s Hok) as [Hok' _]. destruct Hok as [H1 H2 H3 H4].
  split_and!; [done| | |].
  - intros k Hk. apply elem_of_dom, H3. rewrite H1. by apply elem_of_list_to_set.
  - intros k i Hi. destruct (H4 k i Hi) as [-> ->]. split; [done|]. exact Hns.
  - intros k Hk. destruct Hok' as [E _ _ _]. rewrite <- (elem_of_list_to_set (C := gset kind)), <- E.
    change (startedInformers (factory_run CallStart s).1) with (startedInformers (Start s.1).2).
    rewrite Start_all. apply elem_of_union_r. by apply elem_of_dom.
Qed.

(** An informer lists the collection of its own kind in its own namespace. *)
Lemma ListFunc_path {CL : ClientLibrary} t i options w : ListFunc t i options = Ok w →
  w_Verb w = "GET" ∧ w_Path w = path_of (address (inf_kind i) (inf_namespace i) []).
Proof.
  intros (r & -> & Hb & _)%(issue_built t (inf_kind i) (inf_namespace i) (CallList _ (tweaked i options))).
  split; [apply (built_verb _ _ _ _ _ _ Hb)|]. by apply (built_path _ _ _ _ _ _ Hb).
Qed.
