(* ===== verification/Startup.v ===== *)
(** * Start and stop of the operator (src/pkg/operator/operator.go, [Run])

    The connections [Run] opens are a computation over the files and libraries
    it uses.  What follows is concurrent: [Run] itself, its three servers, the
    leader elector, the workers and the shutdown are goroutines, and an
    execution is a sequence of their steps. *)

From S2P Require Export Informers.
Open Scope Z_scope.

(** ** Configuration ([operator.Config], the fields [Run] reads) *)
Record PrometheusConfig := {
  Address : string;
  SkipTLSVerify : bool;
  BearerToken : string;
  BearerTokenFile : string;
  CAFile : string;
}.

Record Config := {
  HiveHost : string;
  HiveUseTLS : bool;
  HiveCAFile : string;
  HiveTLSInsecureSkipVerify : bool;
  HiveUseClientCertAuth : bool;
  HiveClientCertFile : string;
  HiveClientKeyFile : string;
  PrestoHost : string;
  PrestoUseTLS : bool;
  PrestoCAFile : string;
  PrestoTLSInsecureSkipVerify : bool;
  PrestoUseClientCertAuth : bool;
  PrestoClientCertFile : string;
  PrestoClientKeyFile : string;
  LeaderLeaseDuration : Duration;
  cfg_PrometheusConfig : PrometheusConfig;
}.

(** ** Connections *)

(** [tls.Config]: the text the root certificates are read from, a client certificate. *)
Record ClientTLS := { RootCAs : string; InsecureSkipVerify : bool; Certificates : list string }.

Record TransportConfig := {
  TLS_CAFile : string;
  TLS_Insecure : bool;
  tr_BearerToken : string;
  tr_BearerTokenFile : string;
}.

Record URL := { Scheme : string; Query : gmap string (list string); Rest : string }.

(** The files and the libraries a connection is made with. *)
Class Dialers := {
  ReadFile : string → outcome string;
  LoadX509KeyPair : string → string → outcome string;
  Stat : string → outcome unit;
  url_Parse : string → outcome URL;
  url_String : URL → string;
  hive_NewConnector : option ClientTLS → string → outcome unit;
  presto_Open : option ClientTLS → string → outcome unit;
  transport_New : TransportConfig → outcome unit;
  promapi_NewClient : string → TransportConfig → outcome unit;
  leaderelection_Valid : Duration → Duration → Duration → outcome unit;
}.

Definition wrap_err {A} (f : error → error) (o : outcome A) : outcome A :=
  match o with Ok a => Ok a | Err e => Err (f e) | Panic p => Panic p end.

Section connections.
Context {DI : Dialers} (cfg : Config).

(** The client side of TLS, the same for both databases but for the errors. *)
Definition client_tls (caFile : string) (insecure useClientCert : bool) (certFile keyFile : string)
    (caErr certErr : string) : outcome ClientTLS :=
  rootCert ← wrap_err (λ err, Errorf caErr [FStr (Error err)]) (ReadFile caFile);
  if useClientCert then
    clientCert ← wrap_err (λ err, Errorf certErr [FStr (Error err)]) (LoadX509KeyPair certFile keyFile);
    Ok {| RootCAs := rootCert; InsecureSkipVerify := insecure; Certificates := [clientCert] |}
  else Ok {| RootCAs := rootCert; InsecureSkipVerify := insecure; Certificates := [] |}.

Definition connect_hive : outcome unit :=
  dialer ← (if HiveUseTLS cfg then
              hiveTLSConfig ← client_tls (HiveCAFile cfg) (HiveTLSInsecureSkipVerify cfg)
                (HiveUseClientCertAuth cfg) (HiveClientCertFile cfg) (HiveClientKeyFile cfg)
                "error loading Hive CA File: %s" "error loading Hive client cert/key: %v";
              Ok (Some hiveTLSConfig)
            else Ok None);
  hive_NewConnector dialer (Sprintf "hive://%s?batch=500" [FStr (HiveHost cfg)]).

Definition prestoUsername : string := "reporting-operator".

(** [val.Set]. *)
Definition set_query (k v : string) (u : URL) : URL :=
  {| Scheme := Scheme u; Query := <[k := [v]]> (Query u); Rest := Rest u |}.

Definition presto_url (tls : option ClientTLS) (u : URL) : URL :=
  let u := set_query "schema" "default" (set_query "catalog" "hive" u) in
  match tls with
  | Some _ =>
      let u := set_query "custom_client" "httpClient" u in
      {| Scheme := "https"; Query := Query u; Rest := Rest u |}
  | None => u
  end.

Definition connect_presto : outcome unit :=
  prestoURL ← url_Parse (Sprintf "http://%s@%s?" [FStr prestoUsername; FStr (PrestoHost cfg)]);
  tls ← (if PrestoUseTLS cfg then
           prestoTLSConfig ← client_tls (PrestoCAFile cfg) (PrestoTLSInsecureSkipVerify cfg)
             (PrestoUseClientCertAuth cfg) (PrestoClientCertFile cfg) (PrestoClientKeyFile cfg)
             "presto: Error loading SSL Cert File: %v" "presto: Error loading SSL Client cert/key file: %v";
           Ok (Some prestoTLSConfig)
         else Ok None);
  presto_Open tls (url_String (presto_url tls prestoURL)).

(** The transport of [newPrometheusConnFromURL]. *)
Definition prometheus_transport : outcome TransportConfig :=
  let p := cfg_PrometheusConfig cfg in
  caFile ← (if String.eqb (CAFile p) "" then Ok "" else _ ← Stat (CAFile p); Ok (CAFile p));
  Ok {| TLS_CAFile := if SkipTLSVerify p then "" else caFile;
        TLS_Insecure := SkipTLSVerify p;
        tr_BearerToken := BearerToken p;
        tr_BearerTokenFile := BearerTokenFile p |}.

Definition newPrometheusConn (address : string) (roundTripper : TransportConfig) : outcome unit :=
  wrap_err (λ err, Errorf "can't connect to prometheus: %v" [FStr (Error err)]) (promapi_NewClient address roundTripper).

Definition newPrometheusConnFromURL (url : string) : outcome unit :=
  transportConfig ← prometheus_transport;
  _ ← transport_New transportConfig;
  newPrometheusConn url transportConfig.

(** What [Run] opens before its HTTP server starts. *)
Definition connect : outcome unit :=
  _ ← connect_hive;
  _ ← connect_presto;
  newPrometheusConnFromURL (Address (cfg_PrometheusConfig cfg)).

(** The leader elector's parameters. *)
Definition new_elector : outcome unit :=
  wrap_err (λ err, Errorf "error creating leader elector: %v" [FStr (Error err)])
    (leaderelection_Valid (LeaderLeaseDuration cfg) (Z.quot (LeaderLeaseDuration cfg) 2) (2 * Second)).
End connections.

(** ** Goroutines *)

(** Where [Run] is: connecting to the databases; polling Presto; waiting for
    the caches; at its [select], not yet blocked in it; blocked in it; waiting
    for the other goroutines to stop; returned. *)
Inductive phase :=
  | Connecting | Polling | Syncing | Electing | Waiting | Stopping
  | Returned (err : option error).

(** A server's goroutine, and the one that shuts the server down. *)
Inductive serving := Unstarted | Serving | Closed | Failed (err : error) | Gone.
Inductive shutter := NotAsked | Asked | Finished.
Record server := Server { srv_serving : serving; srv_shutter : shutter }.

(** [leader.Run]: [Leaving] once the context of the workers is cancelled,
    [Left] once [OnStoppedLeading] was called. *)
Inductive elector := NotRunning | Acquiring | Leading | Leaving | Left.

(** [OnStartedLeading]: not called, called, starting the workers left. *)
Inductive callback := NotCalled | Called | Starting (rest : list nat).

(** A worker under [wait.Until]: about to look at the stop channel, in the
    worker function's loop, waiting for the next round, returned. *)
Inductive loop := Checking | Inside | Pausing | Ended.

(** The informers: their factory; whether [go informerFactory.Start] has yet to
    run; the caches that have been filled; and the informers that
    [WaitForCacheSync] found started, once it has looked. *)
Record Caches := {
  informerFactory : factory;
  to_start : bool;
  hasSynced : gset kind;
  awaited : option (gset kind);
}.
Definition set_to_start (b : bool) (f : factory) (c : Caches) : Caches :=
  {| informerFactory := f; to_start := b; hasSynced := hasSynced c; awaited := awaited c |}.
Definition set_hasSynced (ks : gset kind) (c : Caches) : Caches :=
  {| informerFactory := informerFactory c; to_start := to_start c; hasSynced := ks; awaited := awaited c |}.
Definition set_awaited (ks : gset kind) (c : Caches) : Caches :=
  {| informerFactory := informerFactory c; to_start := to_start c; hasSynced := hasSynced c; awaited := Some ks |}.

Record state := State {
  main : phase;
  initialized : bool;
  caches : Caches;
  stopped : bool; (* the context given to [Run] *)
  lost : bool; (* [lostLeaderCtx] *)
  servers : list server;
  srvErrChan : list error;
  elect : elector;
  onStartedLeading : callback;
  goroutines : list (nat * loop); (* the workers, each with its kind *)
  pools : list pool;
  to_shut : list nat; (* the queues [shutdownQueues] has left *)
  wg : Z;
}.

#[export] Instance loop_eq_dec : EqDecision loop.
Proof. solve_decision. Defined.

(** Which goroutines a state has: [Run] has just started the metrics and the
    profiling server; the third server is the HTTP API's. *)
Definition kinds : list (nat * Z) :=
  [(4%nat, storageLocation_maxRequeues); (10%nat, hiveTable_maxRequeues); (10%nat, prestoTable_maxRequeues);
   (8%nat, reportDataSource_maxRequeues); (4%nat, reportQuery_maxRequeues); (6%nat, report_maxRequeues)].
Definition worker_kinds : list nat := concat (imap (λ k '(threads, _), replicate threads k) kinds).
(** [op.queueList]: reports, data sources, queries, Presto tables, Hive tables, storage locations. *)
Definition queueList : list nat := [5%nat; 3%nat; 4%nat; 2%nat; 1%nat; 0%nat].

Definition initial (informerNamespace : string) : state :=
  {| main := Connecting; initialized := false;
     caches := {| informerFactory := operator_factory informerNamespace; to_start := false; hasSynced := ∅; awaited := None |};
     stopped := false; lost := false;
     servers := [Server Serving NotAsked; Server Serving NotAsked; Server Unstarted NotAsked];
     srvErrChan := []; elect := NotRunning; onStartedLeading := NotCalled; goroutines := [];
     pools := replicate (length kinds) (Pool q_New ∅); to_shut := []; wg := 2 |}.

Definition set_main (p : phase) (s : state) : state :=
  State p (initialized s) (caches s) (stopped s) (lost s) (servers s) (srvErrChan s) (elect s)
    (onStartedLeading s) (goroutines s) (pools s) (to_shut s) (wg s).
Definition setInitialized (s : state) : state :=
  State (main s) true (caches s) (stopped s) (lost s) (servers s) (srvErrChan s) (elect s)
    (onStartedLeading s) (goroutines s) (pools s) (to_shut s) (wg s).
Definition isInitialized : state → bool := initialized.
Definition set_caches (c : Caches) (s : state) : state :=
  State (main s) (initialized s) c (stopped s) (lost s) (servers s) (srvErrChan s) (elect s)
    (onStartedLeading s) (goroutines s) (pools s) (to_shut s) (wg s).
Definition set_stopped (s : state) : state :=
  State (main s) (initialized s) (caches s) true (lost s) (servers s) (srvErrChan s) (elect s)
    (onStartedLeading s) (goroutines s) (pools s) (to_shut s) (wg s).
Definition set_lost (s : state) : state :=
  State (main s) (initialized s) (caches s) (stopped s) true (servers s) (srvErrChan s) (elect s)
    (onStartedLeading s) (goroutines s) (pools s) (to_shut s) (wg s).
Definition set_servers (l : list server) (errs : list error) (s : state) : state :=
  State (main s) (initialized s) (caches s) (stopped s) (lost s) l errs (elect s)
    (onStartedLeading s) (goroutines s) (pools s) (to_shut s) (wg s).
Definition set_elect (e : elector) (c : callback) (s : state) : state :=
  State (main s) (initialized s) (caches s) (stopped s) (lost s) (servers s) (srvErrChan s) e
    c (goroutines s) (pools s) (to_shut s) (wg s).
Definition set_goroutines (l : list (nat * loop)) (s : state) : state :=
  State (main s) (initialized s) (caches s) (stopped s) (lost s) (servers s) (srvErrChan s) (elect s)
    (onStartedLeading s) l (pools s) (to_shut s) (wg s).
Definition set_pools (l : list pool) (queues : list nat) (s : state) : state :=
  State (main s) (initialized s) (caches s) (stopped s) (lost s) (servers s) (srvErrChan s) (elect s)
    (onStartedLeading s) (goroutines s) l queues (wg s).
Definition wg_Add (n : Z) (s : state) : state :=
  State (main s) (initialized s) (caches s) (stopped s) (lost s) (servers s) (srvErrChan s) (elect s)
    (onStartedLeading s) (goroutines s) (pools s) (to_shut s) (wg s + n).

(** How the type of an informer's objects is printed. *)
Definition type_name (k : kind) : string :=
  "*v1." +:+ match k with
             | KReport => "Report" | KReportQuery => "ReportQuery" | KReportDataSource => "ReportDataSource"
             | KPrestoTable => "PrestoTable" | KHiveTable => "HiveTable" | KStorageLocation => "StorageLocation"
             end.

(** *** The cases of [Run]'s [select] *)
Inductive wakeup := StopSignal | LeadershipLost | ServerError.

Definition ready (w : wakeup) (s : state) : bool :=
  match w with
  | StopSignal => stopped s
  | LeadershipLost => lost s
  | ServerError => match srvErrChan s with [] => false | _ => true end
  end.

Definition ask (sv : server) : server := Server (srv_serving sv) Asked.

(** What [Run] does in each: the shutdown, or an error. *)
Definition proceed (w : wakeup) (s : state) : state :=
  match w with
  | StopSignal =>
      wg_Add 3 (set_main Stopping (set_pools (pools s) queueList (set_servers (ask <$> servers s) (srvErrChan s) s)))
  | LeadershipLost => set_main (Returned (Some (New "lost leadership election"))) s
  | ServerError =>
      match srvErrChan s with
      | err :: rest =>
          set_main (Returned (Some (Errorf "server process failed, err: %v" [FStr (Error err)])))
            (set_servers (servers s) rest s)
      | [] => s
      end
  end.

(** A case that becomes ready wakes [Run] when it is blocked. *)
Definition wake (w : wakeup) (s : state) : state :=
  match main s with Waiting => proceed w s | _ => s end.

(** The stop channel of the workers: cancelled with [Run]'s context, or when
    [leader.Run] returns. *)
Definition closed (s : state) : bool :=
  stopped s || match elect s with Leaving | Left => true | _ => false end.

Definition server_error (i : nat) (err : error) : error :=
  Errorf (match i with
          | 0%nat => "Prometheus metrics server error: %v"
          | 1%nat => "pprof server error: %v"
          | _ => "HTTP API server error: %v"
          end) [FStr (Error err)].

(** *** The steps *)
Section steps.
Context {DI : Dialers} (cfg : Config).

Inductive step : state → state → Prop :=
  (* [Run] up to its [select] *)
  | run_cannot_connect s err :
      main s = Connecting → connect cfg = Err err → step s (set_main (Returned (Some err)) s)
  | run_connected s :
      main s = Connecting → connect cfg = Ok tt →
      step s (wg_Add 1 (set_main Polling
                          (set_servers (<[2%nat := Server Serving NotAsked]> (servers s)) (srvErrChan s) s)))
  | run_read_Presto s :
      main s = Polling →
      step s (set_caches (set_to_start true (informerFactory (caches s)) (caches s)) (setInitialized (set_main Syncing s)))
  | run_poll_stopped s :
      main s = Polling → stopped s = true →
      step s (set_main (Returned (Some (MkError KWaitTimeout "timed out waiting for the condition"))) s)
  | run_waits s :
      main s = Syncing → awaited (caches s) = None →
      step s (set_caches (set_awaited (awaited_informers (informerFactory (caches s))) (caches s)) s)
  | run_synced s ks :
      main s = Syncing → awaited (caches s) = Some ks → ks ⊆ hasSynced (caches s) → new_elector cfg = Ok tt →
      step s (set_elect Acquiring NotCalled (set_main Electing s))
  | run_no_elector s ks err :
      main s = Syncing → awaited (caches s) = Some ks → ks ⊆ hasSynced (caches s) → new_elector cfg = Err err →
      step s (set_main (Returned (Some err)) s)
  | run_not_synced s ks k :
      main s = Syncing → awaited (caches s) = Some ks → k ∈ ks → stopped s = true →
      step s (set_main (Returned (Some (Errorf "cache for %s not synced in time" [FStr (type_name k)]))) s)
  (* [go informerFactory.Start], and an informer whose cache is filled *)
  | informers_start s :
      to_start (caches s) = true →
      step s (set_caches (set_to_start false (Start (informerFactory (caches s))).2 (caches s)) s)
  | informer_syncs s k :
      k ∈ startedInformers (informerFactory (caches s)) →
      step s (set_caches (set_hasSynced ({[k]} ∪ hasSynced (caches s)) (caches s)) s)
  (* the [select], and the end of the shutdown *)
  | run_selects s w :
      main s = Electing → ready w s = true → step s (proceed w s)
  | run_blocks s :
      main s = Electing → (∀ w, ready w s = false) → step s (set_main Waiting s)
  | run_returns s :
      main s = Stopping → wg s = 0 → step s (set_main (Returned None) s)
  (* the signal handler of the command cancels the context *)
  | stop_signal s :
      stopped s = false → step s (wake StopSignal (set_stopped s))
  (* the servers *)
  | server_fails s i sv err :
      servers s !! i = Some sv → srv_serving sv = Serving ∨ srv_serving sv = Closed →
      step s (set_servers (<[i := Server (Failed (server_error i err)) (srv_shutter sv)]> (servers s)) (srvErrChan s) s)
  | server_reports s i sv err :
      servers s !! i = Some sv → srv_serving sv = Failed err → (length (srvErrChan s) < 3)%nat →
      step s (wake ServerError (wg_Add (-1)
                                  (set_servers (<[i := Server Gone (srv_shutter sv)]> (servers s)) (srvErrChan s ++ [err]) s)))
  | server_shut_down s i sv :
      servers s !! i = Some sv → srv_shutter sv = Asked →
      step s (wg_Add (-1) (set_servers
                             (<[i := Server (match srv_serving sv with Serving => Closed | v => v end) Finished]> (servers s))
                             (srvErrChan s) s))
  (* the leader elector *)
  | elector_acquires s :
      elect s = Acquiring → step s (set_elect Leading Called s)
  | elector_gives_up s :
      elect s = Acquiring → stopped s = true → step s (set_elect Leaving (onStartedLeading s) s)
  | elector_leaves s :
      elect s = Leading → step s (set_elect Leaving (onStartedLeading s) s)
  | elector_left s :
      elect s = Leaving → step s (wake LeadershipLost (set_lost (set_elect Left (onStartedLeading s) s)))
  (* [OnStartedLeading]: [startWorkers] *)
  | leading_called s :
      onStartedLeading s = Called → step s (set_elect (elect s) (Starting worker_kinds) s)
  | worker_started s k rest :
      onStartedLeading s = Starting (k :: rest) →
      step s (wg_Add 1 (set_goroutines (goroutines s ++ [(k, Checking)]) (set_elect (elect s) (Starting rest) s)))
  (* [wait.Until] around the worker functions *)
  | worker_enters s i k :
      goroutines s !! i = Some (k, Checking) → closed s = false →
      step s (set_goroutines (<[i := (k, Inside)]> (goroutines s)) s)
  | worker_quits s i k p q :
      goroutines s !! i = Some (k, Inside) → pools s !! k = Some p → p_workers p !! i = None →
      q_Get (p_queue p) = Some (None, q) →
      step s (set_goroutines (<[i := (k, Pausing)]> (goroutines s)) s)
  | worker_again s i k :
      goroutines s !! i = Some (k, Pausing) →
      step s (set_goroutines (<[i := (k, Checking)]> (goroutines s)) s)
  | worker_ends s i k l :
      goroutines s !! i = Some (k, l) → l = Checking ∨ l = Pausing → closed s = true →
      step s (wg_Add (-1) (set_goroutines (<[i := (k, Ended)]> (goroutines s)) s))
  (* a queue and the workers in its loop, from the time the informers run *)
  | pool_steps s k threads maxRequeues p p' :
      initialized s = true → kinds !! k = Some (threads, maxRequeues) → pools s !! k = Some p →
      WorkQueue.step maxRequeues p p' → shuttingDown (p_queue p') = shuttingDown (p_queue p) →
      (∀ i, p_workers p !! i = None → p_workers p' !! i ≠ None → goroutines s !! i = Some (k, Inside)) →
      step s (set_pools (<[k := p']> (pools s)) (to_shut s) s)
  (* [shutdownQueues] *)
  | queue_shut s k rest p :
      to_shut s = k :: rest → pools s !! k = Some p →
      step s (set_pools (<[k := Pool (q_ShutDown (p_queue p)) (p_workers p)]> (pools s)) rest s).

Definition reachable (s : state) : Prop := ∃ informerNamespace, rtc step (initial informerNamespace) s.
Lemma reachable_next s s' : reachable s → step s s' → reachable s'.
Proof. intros [ns Hr] Hst. exists ns. by eapply rtc_r. Qed.
End steps.

(** ** Invariants *)
#[local] Opaque operator_factory.

(** Take a step apart: the state as its fields, [Run] woken or not. *)
Ltac step_cases H s :=
  destruct H; destruct s; simpl in *; unfold wake, proceed in *; simpl in *;
  repeat (case_match; simpl in *); simplify_eq/=.

(** *** Caches: [Start] starts all informers at once, and only started ones
    fill their cache. *)
Definition waited (c : Caches) : Prop := ∃ ks, awaited c = Some ks ∧ ks ⊆ hasSynced c.
Record filled (c : Caches) : Prop := {
  filled_informers : dom (informers (informerFactory c)) = all_kinds;
  filled_started : startedInformers (informerFactory c) = ∅ ∨ startedInformers (informerFactory c) = all_kinds;
  filled_synced : hasSynced c ⊆ startedInformers (informerFactory c);
  filled_awaited ks : awaited c = Some ks → ks = ∅ ∨ ks = all_kinds;
}.

(** *** Order: Presto is read, [WaitForCacheSync] returns, the lease is
    acquired, and only then are workers started. *)
Record in_order (s : state) : Prop := {
  order_elector : main s = Connecting ∨ main s = Polling ∨ main s = Syncing → elect s = NotRunning;
  order_read : main s = Syncing → initialized s = true;
  order_elected : elect s ≠ NotRunning → initialized s = true;
  order_led : onStartedLeading s ≠ NotCalled → elect s ≠ NotRunning ∧ elect s ≠ Acquiring;
  order_started : goroutines s ≠ [] → onStartedLeading s ≠ NotCalled;
}.

(** *** Counting: the wait group counts the goroutines [Run] waits for, and
    every server has room for its error in the channel. *)
Definition live (sv : server) : nat :=
  match srv_serving sv with Serving | Closed | Failed _ => 1 | Unstarted | Gone => 0 end.
Definition pending (sv : server) : nat := match srv_shutter sv with Asked => 1 | _ => 0 end.
Definition unsent (sv : server) : nat := match srv_serving sv with Gone => 0 | _ => 1 end.
Definition running (g : nat * loop) : nat := match g with (_, Ended) => 0 | _ => 1 end.
Definition waited_for (s : state) : nat :=
  sum_list_with live (servers s) + sum_list_with pending (servers s) + sum_list_with running (goroutines s).

Definition stopping (p : phase) : Prop := p = Stopping ∨ p = Returned None.

Record counted (s : state) : Prop := {
  counted_wg : wg s = Z.of_nat (waited_for s);
  counted_room : (length (srvErrChan s) + sum_list_with unsent (servers s) ≤ 3)%nat;
  counted_servers : length (servers s) = 3%nat;
  counted_third : main s = Connecting → servers s !! 2%nat = Some (Server Unstarted NotAsked);
  counted_asked : ¬ stopping (main s) → Forall (λ sv, srv_shutter sv = NotAsked) (servers s);
}.

(** *** Places: every pool is one of WorkQueue's, its busy workers are in
    their loops, and every worker has a pool. *)
Record placed (s : state) : Prop := {
  placed_pools : length (pools s) = length kinds;
  placed_reachable k threads maxRequeues p :
    kinds !! k = Some (threads, maxRequeues) → pools s !! k = Some p → WorkQueue.reachable maxRequeues p;
  placed_busy k p i w :
    pools s !! k = Some p → p_workers p !! i = Some w → goroutines s !! i = Some (k, Inside);
  placed_workers : Forall (λ g, (g.1 < length kinds)%nat) (goroutines s);
  placed_starting rest : onStartedLeading s = Starting rest → Forall (λ k, (k < length kinds)%nat) rest;
}.

(** *** Halting: what holds once [Run] is stopping. *)
Record halting (s : state) : Prop := {
  halting_stopped : stopping (main s) → stopped s = true;
  halting_started : (∀ err, main s ≠ Returned (Some err)) →
    ∀ i sv, servers s !! i = Some sv → main s ≠ Connecting ∨ i ≠ 2%nat → srv_serving sv ≠ Unstarted;
  halting_asked : stopping (main s) →
    Forall (λ sv, srv_shutter sv ≠ NotAsked ∧ (srv_serving sv = Serving → srv_shutter sv = Asked)) (servers s);
  halting_queues : stopping (main s) →
    ∀ k p, pools s !! k = Some p → k ∈ to_shut s ∨ shuttingDown (p_queue p) = true;
  halting_to_shut : Forall (λ k, (k < length kinds)%nat) (to_shut s);
  halting_done : main s = Returned None →
    Forall (λ sv, sv = Server Gone Finished) (servers s) ∧
    Forall (λ g, g.2 = Checking ∨ g.2 = Ended) (goroutines s);
}.

Lemma ask_pending l :
  Forall (λ sv, srv_shutter sv = NotAsked) l →
  sum_list_with pending (ask <$> l) = (sum_list_with pending l + length l)%nat ∧
  sum_list_with live (ask <$> l) = sum_list_with live l ∧
  sum_list_with unsent (ask <$> l) = sum_list_with unsent l.
Proof.
  induction 1 as [|[v sh] l Hsv _ (IH1 & IH2 & IH3)]; [done|]. simpl in Hsv. subst sh.
  rewrite fmap_cons. simpl. rewrite IH1, IH2, IH3. unfold pending, live, unsent. simpl. lia.
Qed.

Section invariants.
Context {DI : Dialers} (cfg : Config).

Lemma in_order_step s s' : step cfg s s' → in_order s → in_order s'.
Proof.
  intros Hst [H1 H2 H3 H4 H5]. step_cases Hst s; split; simpl; try (intuition congruence); naive_solver.
Qed.

Lemma proceed_counted w s :
  ready w s = true → ¬ stopping (main s) → main s ≠ Connecting → counted s → counted (proceed w s).
Proof.
  intros Hr Hn Hc [Hwg Hroom Hlen Hthird Hasked]. specialize (Hasked Hn).
  destruct s as [p ini syn st lo svs errs el cb gs ps q wg]. unfold waited_for in *. simpl in *.
  destruct w; simpl in *; [| |destruct errs as [|err errs]; simpl in *]; try done.
  - destruct (ask_pending svs Hasked) as (E1 & E2 & E3).
    split; unfold waited_for; simpl; rewrite ?E1, ?E2, ?E3, ?length_fmap; try done; try lia.
    intros Hns. destruct Hns. by left.
  - split; unfold waited_for; simpl; try done; lia.
Qed.

Lemma wake_counted w s : ready w s = true → counted s → counted (wake w s).
Proof.
  intros Hr H. unfold wake. destruct (main s) eqn:E; try done. apply proceed_counted; rewrite ?E; try done.
  intros [Hp|Hp]; done.
Qed.

(** A step of one server's goroutines, and a step of one worker. *)
Lemma counted_server s s' i sv sv' :
  counted s → servers s !! i = Some sv → servers s' = <[i := sv']> (servers s) →
  main s' = main s → goroutines s' = goroutines s →
  wg s' = wg s + Z.of_nat (live sv' + pending sv') - Z.of_nat (live sv + pending sv) →
  (length (srvErrChan s') + unsent sv' ≤ length (srvErrChan s) + unsent sv)%nat →
  (srv_shutter sv = NotAsked → srv_shutter sv' = NotAsked) → (main s = Connecting → sv ≠ Server Unstarted NotAsked) →
  counted s'.
Proof.
  intros [Hwg Hroom Hlen Hthird Hasked] Hi Esv Em Eg Ewg Hle Hsh Hc. unfold waited_for in *.
  pose proof (sum_insert live _ _ _ sv' Hi). pose proof (sum_insert pending _ _ _ sv' Hi).
  pose proof (sum_insert unsent _ _ _ sv' Hi).
  split; unfold waited_for; rewrite ?Esv, ?Em, ?Eg, ?length_insert; try done; try lia.
  - intros Hcon. rewrite list_lookup_insert_ne; [by apply Hthird|].
    intros ->. apply Hc; [done|]. specialize (Hthird Hcon). congruence.
  - intros Hn. apply Forall_insert; [by apply Hasked|]. apply Hsh.
    exact (Forall_lookup_1 _ _ _ _ (Hasked Hn) Hi).
Qed.

Lemma counted_worker s s' i k l l' :
  counted s → goroutines s !! i = Some (k, l) → goroutines s' = <[i := (k, l')]> (goroutines s) →
  main s' = main s → servers s' = servers s → srvErrChan s' = srvErrChan s →
  wg s' = wg s + Z.of_nat (running (k, l')) - Z.of_nat (running (k, l)) →
  counted s'.
Proof.
  intros [Hwg Hroom Hlen Hthird Hasked] Hi Eg Em Esv Ech Ewg. unfold waited_for in *.
  pose proof (sum_insert running _ _ _ (k, l') Hi).
  split; unfold waited_for; rewrite ?Esv, ?Em, ?Eg, ?Ech; try done; lia.
Qed.

(** A step of anything else; [Run] may move on but does not yet stop. *)
Lemma counted_other s s' :
  counted s → servers s' = servers s → goroutines s' = goroutines s → srvErrChan s' = srvErrChan s → wg s' = wg s →
  (main s' = Connecting → main s = Connecting) → (stopping (main s) → stopping (main s')) → counted s'.
Proof.
  intros [Hwg Hroom Hlen Hthird Hasked] Esv Eg Ech Ewg Hc Hs. unfold waited_for in *.
  split; unfold waited_for; rewrite ?Esv, ?Eg, ?Ech; try done; tauto || lia.
Qed.

Ltac server_arith sv :=
  destruct sv as [v sh]; unfold live, pending, unsent; simpl in *; intros; destruct_or?; simplify_eq/=;
  try destruct v; simpl; (done || lia || congruence).

Lemma counted_step s s' : step cfg s s' → counted s → counted s'.
Proof.
  intros Hst H.
  destruct Hst; try (eapply counted_other; simpl; [exact H|done..|unfold stopping; intuition congruence|
                                                   unfold stopping; intuition congruence]);
    pose proof H as [Hwg Hroom Hlen Hthird Hasked].
  - assert (counted (set_main Polling s)) as Hp.
    { eapply counted_other; simpl; [exact H|done..|unfold stopping; intuition congruence]. }
    eapply (counted_server _ _ 2%nat (Server Unstarted NotAsked) (Server Serving NotAsked) Hp); simpl; try done; [by apply Hthird|unfold live, pending; simpl; lia].
  - apply proceed_counted; try done; rewrite H0; [by intros [?|?]|done].
  - apply wake_counted; [done|]. by eapply counted_other.
  - eapply (counted_server s _ i sv); simpl; try done; server_arith sv.
  - apply wake_counted; [by destruct (srvErrChan s)|].
    eapply (counted_server s _ i sv); simpl; rewrite ?length_app; try done; server_arith sv.
  - eapply (counted_server s _ i sv); simpl; try done; server_arith sv.
  - apply wake_counted; [done|]. by eapply counted_other.
  - split; unfold waited_for in *; simpl; rewrite ?sum_list_with_app; simpl; try done; lia.
  - eapply (counted_worker s _ i k Checking Inside); simpl; try done; unfold running; simpl; lia.
  - eapply (counted_worker s _ i k Inside Pausing); simpl; try done; unfold running; simpl; lia.
  - eapply (counted_worker s _ i k Pausing Checking); simpl; try done; unfold running; simpl; lia.
  - eapply (counted_worker s _ i k l Ended); simpl; try done; destruct_or!; subst; unfold running; simpl; lia.
Qed.

Lemma placed_same s s' :
  placed s → pools s' = pools s → goroutines s' = goroutines s →
  (∀ rest, onStartedLeading s' = Starting rest → onStartedLeading s = Starting rest) → placed s'.
Proof. intros [H1 H2 H3 H4 H5] Ep Eg Ec. split; rewrite ?Ep, ?Eg; eauto. Qed.

Lemma wake_frame w s :
  pools (wake w s) = pools s ∧ goroutines (wake w s) = goroutines s ∧
  onStartedLeading (wake w s) = onStartedLeading s ∧ elect (wake w s) = elect s.
Proof. unfold wake, proceed. destruct (main s), w, (srvErrChan s); done. Qed.

Lemma placed_wake w s : placed s → placed (wake w s).
Proof. destruct (wake_frame w s) as (Ep & Eg & Ec & _). intros H. apply (placed_same s); congruence. Qed.

(** A worker that is not in its loop moves on; one in its loop leaves it when idle. *)
Lemma placed_worker s s' i k l l' :
  placed s → goroutines s !! i = Some (k, l) →
  (∀ p w, pools s !! k = Some p → p_workers p !! i ≠ Some w) →
  pools s' = pools s → goroutines s' = <[i := (k, l')]> (goroutines s) →
  onStartedLeading s' = onStartedLeading s → placed s'.
Proof.
  intros [H1 H2 H3 H4 H5] Hi Hidle Ep Eg Ec. split; rewrite ?Ep, ?Eg, ?Ec; [done|done| |..|done].
  - intros k' p j w Hp Hw. specialize (H3 _ _ _ _ Hp Hw).
    rewrite list_lookup_insert_ne; [done|]. intros <-. rewrite H3 in Hi. simplify_eq. by eapply Hidle.
  - apply Forall_insert; [done|]. exact (Forall_lookup_1 _ _ _ _ H4 Hi).
Qed.

Lemma placed_pool s k p p' queues :
  placed s → pools s !! k = Some p →
  (∀ threads maxRequeues, kinds !! k = Some (threads, maxRequeues) →
   WorkQueue.reachable maxRequeues p → WorkQueue.reachable maxRequeues p') →
  (∀ i w, p_workers p' !! i = Some w → goroutines s !! i = Some (k, Inside)) →
  placed (set_pools (<[k := p']> (pools s)) queues s).
Proof.
  intros [H1 H2 H3 H4 H5] Hp Hr Hw. pose proof (lookup_lt_Some _ _ _ Hp).
  split; simpl; rewrite ?length_insert; [done| | |done|done].
  - intros j threads m r Hj. destruct (decide (k = j)) as [<-|]; [|rewrite list_lookup_insert_ne by done; by eapply H2].
    rewrite list_lookup_insert_eq by done. intros [= <-]. by eapply Hr, H2.
  - intros j r i w. destruct (decide (k = j)) as [<-|]; [|rewrite list_lookup_insert_ne by done; by eapply H3].
    rewrite list_lookup_insert_eq by done. intros [= <-]. apply Hw.
Qed.

Lemma worker_kinds_placed : Forall (λ k, (k < length kinds)%nat) worker_kinds.
Proof. apply (bool_decide_eq_true_1 _). vm_compute. reflexivity. Qed.

Lemma placed_step s s' : step cfg s s' → placed s → placed s'.
Proof.
  intros Hst H. pose proof H as [H1 H2 H3 H4 H5].
  destruct Hst as [| | | | | | | | | |s w Hm Hr| | | | | | | | | | |s Hc|s k rest Hc|s i k Hi Hcl|s i k p q Hi Hp Hw Hget
                   |s i k Hi|s i k l Hi Hl Hcl|s k threads m p p' Hini Hk Hp Hst Hsh Hnew|s k rest p Hq Hp];
    try apply placed_wake; try (eapply placed_same; simpl; [exact H|done..|done||congruence]).
  - destruct w; simpl; [..|destruct (srvErrChan s)]; eapply placed_same; (exact H || done).
  - split; simpl; try done. intros rest [= <-]. apply worker_kinds_placed.
  - specialize (H5 _ Hc). apply Forall_cons in H5 as [Hk Hrest]. split; simpl; try done.
    + intros j p i w Hp Hw. apply lookup_app_l_Some. by eapply H3.
    + apply Forall_app. split; [done|]. by apply Forall_singleton.
    + by intros rest' [= <-].
  - eapply (placed_worker s _ i k Checking Inside); simpl; try done. intros p w Hp Hw.
    specialize (H3 _ _ _ _ Hp Hw). congruence.
  - eapply (placed_worker s _ i k Inside Pausing); simpl; try done. intros p' w Hp'. congruence.
  - eapply (placed_worker s _ i k Pausing Checking); simpl; try done. intros p w Hp Hw.
    specialize (H3 _ _ _ _ Hp Hw). congruence.
  - eapply (placed_worker s _ i k l Ended); simpl; try done. intros p w Hp Hw.
    specialize (H3 _ _ _ _ Hp Hw). destruct Hl; congruence.
  - apply (placed_pool s k p); [done|done| |].
    + intros threads' m' Hk' Hr. simplify_eq. by eapply reachable_step.
    + intros i w Hw. destruct (p_workers p !! i) eqn:E; [by eapply H3|]. apply Hnew; [done|congruence].
  - apply (placed_pool s k p); [done|done| |intros i w Hw; by eapply H3].
    intros threads m _ Hr. destruct p as [q ws]. eapply reachable_step; [exact Hr|apply step_shutdown].
Qed.

(** A step that neither begins nor ends the shutdown, nor touches what it stops. *)
Lemma halting_other s s' :
  halting s → servers s' = servers s → goroutines s' = goroutines s → pools s' = pools s → to_shut s' = to_shut s →
  (stopped s = true → stopped s' = true) → (stopping (main s') → main s' = main s) →
  (main s = Connecting → main s' = Connecting ∨ ∃ err, main s' = Returned (Some err)) →
  (∀ err, main s = Returned (Some err) → main s' = main s) → halting s'.
Proof.
  intros [H1 H2 H3 H4 H6 H5] Esv Eg Ep Eq Hs Hm Hc Hr.
  split; rewrite ?Esv, ?Eg, ?Ep, ?Eq.
  - intros Hst. apply Hs, H1. by rewrite <- Hm.
  - intros Hn i sv Hi Hor. apply (H2 (λ err Herr, Hn err (eq_trans (Hr err Herr) Herr)) i sv Hi).
    destruct Hor as [Hor|]; [left|by right]. intros Hcon. destruct (Hc Hcon) as [|[err ?]]; [done|by eapply Hn].
  - intros Hst. apply H3. by rewrite <- Hm.
  - intros Hst. apply H4. by rewrite <- Hm.
  - done.
  - intros Hd. apply H5. rewrite <- Hm; [done|]. by right.
Qed.

Lemma queueList_all k : (k < length kinds)%nat → k ∈ queueList.
Proof. intros Hk. do 6 (destruct k as [|k]; [apply (bool_decide_eq_true_1 _); reflexivity|]). simpl in Hk. lia. Qed.

Lemma halting_proceed w s :
  ready w s = true → main s = Electing ∨ main s = Waiting → placed s → halting s → halting (proceed w s).
Proof.
  intros Hr Hm Hp [H1 H2 H3 H4 H6 H5].
  assert (¬ stopping (main s)) as Hn by (intros [?|?]; destruct Hm; congruence).
  assert (∀ err, main s ≠ Returned (Some err)) as Hne by (intros err; destruct Hm; congruence).
  assert (main s ≠ Connecting) as Hnc by (destruct Hm; congruence).
  destruct w; simpl in *.
  - split; simpl; try done.
    + intros _ i sv (sv' & -> & Hi)%list_lookup_fmap_Some _. simpl.
      by eapply H2; [| |left].
    + intros _. apply Forall_fmap, Forall_forall. by intros sv _.
    + intros _ k p Hk%lookup_lt_Some. left. apply queueList_all. by rewrite <- (placed_pools _ Hp).
    + apply (bool_decide_eq_true_1 _). reflexivity.
  - split; simpl; try (by intros [|]); try done. intros He. by destruct (He _ eq_refl).
  - destruct (srvErrChan s); [by split|]. split; simpl; try (by intros [|]); try done.
    intros He. by destruct (He _ eq_refl).
Qed.

Lemma halting_wake w s : ready w s = true → placed s → halting s → halting (wake w s).
Proof.
  intros Hr Hp H. unfold wake. destruct (main s) eqn:E; try done. apply halting_proceed; auto.
Qed.

Lemma halting_server s s' i sv sv' :
  halting s → servers s !! i = Some sv → servers s' = <[i := sv']> (servers s) →
  main s' = main s → stopped s' = stopped s → goroutines s' = goroutines s → pools s' = pools s → to_shut s' = to_shut s →
  (srv_serving sv' = Unstarted → srv_serving sv = Unstarted) → srv_serving sv' ≠ Serving →
  (srv_shutter sv ≠ NotAsked → srv_shutter sv' ≠ NotAsked) → sv ≠ Server Gone Finished → halting s'.
Proof.
  intros [H1 H2 H3 H4 H6 H5] Hi Esv Em Es Eg Ep Eq Hun Hse Hsh Hgo. pose proof (lookup_lt_Some _ _ _ Hi).
  split; rewrite ?Esv, ?Em, ?Es, ?Eg, ?Ep, ?Eq; try done.
  - intros Hn j sw. destruct (decide (i = j)) as [<-|]; [|rewrite list_lookup_insert_ne by done; by apply H2].
    rewrite list_lookup_insert_eq by done. intros [= <-] Hor Hs. by apply (H2 Hn i sv Hi Hor), Hun.
  - intros Hst. specialize (H3 Hst). apply Forall_insert; [done|].
    destruct (Forall_lookup_1 _ _ _ _ H3 Hi) as [Hna _]. split; [by apply Hsh|done].
  - intros Hd. destruct (H5 Hd) as [Hall _]. destruct Hgo. exact (Forall_lookup_1 _ _ _ _ Hall Hi).
Qed.

Lemma halting_workers s s' :
  halting s → main s' = main s → stopped s' = stopped s → servers s' = servers s → pools s' = pools s → to_shut s' = to_shut s →
  (main s = Returned None → Forall (λ g, g.2 = Checking ∨ g.2 = Ended) (goroutines s) →
   Forall (λ g, g.2 = Checking ∨ g.2 = Ended) (goroutines s')) → halting s'.
Proof.
  intros [H1 H2 H3 H4 H6 H5] Em Es Esv Ep Eq Hg. split; rewrite ?Esv, ?Em, ?Es, ?Ep, ?Eq; try done.
  intros Hd. destruct (H5 Hd). split; [done|]. by apply Hg.
Qed.

Lemma halting_pool s k p p' queues :
  halting s → pools s !! k = Some p →
  (k ∈ to_shut s → k ∉ queues → shuttingDown (p_queue p') = true) →
  (shuttingDown (p_queue p) = true → shuttingDown (p_queue p') = true) →
  (∀ j, j ∈ to_shut s → j = k ∨ j ∈ queues) → Forall (λ k, (k < length kinds)%nat) queues →
  halting (set_pools (<[k := p']> (pools s)) queues s).
Proof.
  intros [H1 H2 H3 H4 H6 H5] Hp Hk Hs Hq Hall. split; simpl; try done.
  intros Hst j r Hj. pose proof (lookup_lt_Some _ _ _ Hp).
  destruct (decide (k = j)) as [<-|Hne].
  - rewrite list_lookup_insert_eq in Hj by done. simplify_eq.
    destruct (H4 Hst k p Hp) as [Hin|]; [|right; by apply Hs].
    destruct (decide (k ∈ queues)); [by left|]. right. by apply Hk.
  - rewrite list_lookup_insert_ne in Hj by done. destruct (H4 Hst j r Hj) as [Hin|]; [|by right].
    destruct (Hq j Hin) as [->|]; [done|by left].
Qed.

(** Nobody is waited for any more. *)
Lemma sum_list_with_zero {A} (f : A → nat) l : sum_list_with f l = 0%nat → Forall (λ x, f x = 0%nat) l.
Proof. induction l as [|x l IH]; simpl; [done|]. intros Hz. constructor; [lia|apply IH; lia]. Qed.

Lemma halting_returns s :
  main s = Stopping → wg s = 0 → counted s → halting s → halting (set_main (Returned None) s).
Proof.
  intros Hm Hwg [Hc _ _ _ _] [H1 H2 H3 H4 H6 H5].
  assert (stopping (main s)) as Hst by by left. unfold waited_for in Hc.
  split; simpl; try tauto.
  - intros _ i sv Hi _. apply (H2 ltac:(congruence) i sv Hi). left. congruence.
  - intros _. specialize (H3 Hst). split.
    + assert (Forall (λ sv, live sv = 0%nat) (servers s)) as Hl by (apply sum_list_with_zero; lia).
      assert (Forall (λ sv, pending sv = 0%nat) (servers s)) as Hp by (apply sum_list_with_zero; lia).
      apply Forall_forall. intros [v sh] Hin. apply list_elem_of_lookup in Hin as [i Hi].
      pose proof (Forall_lookup_1 _ _ _ _ Hl Hi) as Hv. pose proof (Forall_lookup_1 _ _ _ _ Hp Hi) as Hsh.
      pose proof (Forall_lookup_1 _ _ _ _ H3 Hi) as [Hna _].
      assert (v ≠ Unstarted) by (apply (H2 ltac:(congruence) i _ Hi); left; congruence).
      unfold live, pending in *. simpl in *. destruct v, sh; done.
    + assert (Forall (λ g, running g = 0%nat) (goroutines s)) as Hg by (apply sum_list_with_zero; lia).
      eapply Forall_impl; [exact Hg|]. intros [k []]; simpl; auto; done.
Qed.

Lemma halting_step s s' :
  step cfg s s' → in_order s → counted s → placed s → halting s → halting s'.
Proof.
  intros Hst Ho Hc Hpl H. pose proof H as [H1 H2 H3 H4 H6 H5].
  destruct Hst as [| | | | | | | | | |s w Hm Hr| | | |s i sv err Hi Hse|s i sv err Hi Hse Hlen|s i sv Hi Hsh
                   | | | |s He|s Hcb|s k rest Hcb|s i k Hi Hcl|s i k p q Hi Hp Hw Hget
                   |s i k Hi|s i k l Hi Hl Hcl|s k threads m p p' Hini Hk Hp Hst Hsh Hnew|s k rest p Hq Hp];
    try (eapply halting_other; simpl; [exact H|done..|unfold stopping; intuition congruence|
                                       naive_solver congruence|intuition congruence]).
  - split; simpl; try (by intros [|]); try done. intros _ i sv.
    destruct (decide (2%nat = i)) as [<-|Hne].
    + rewrite list_lookup_insert_eq by (rewrite (counted_servers _ Hc); lia). by intros [= <-].
    + rewrite list_lookup_insert_ne by done. intros Hi _. apply (H2 ltac:(congruence) i sv Hi). by right.
  - apply halting_proceed; auto.
  - by apply halting_returns.
  - apply halting_wake; [done|by eapply placed_same|]. eapply halting_other; simpl; eauto.
  - eapply (halting_server s _ i sv); simpl; try done; destruct sv; naive_solver.
  - apply halting_wake; [by destruct (srvErrChan s)|by eapply placed_same|].
    eapply (halting_server s _ i sv); simpl; try done; destruct sv; naive_solver.
  - eapply (halting_server s _ i sv); simpl; try done; destruct sv as [[]]; naive_solver.
  - apply halting_wake; [done|by eapply placed_same|]. by eapply halting_workers.
  - eapply halting_workers; simpl; try done. intros _ Hg. apply Forall_app. split; [done|]. constructor; [by left|done].
  - eapply halting_workers; simpl; try done. intros Hd _. unfold closed in Hcl. rewrite H1 in Hcl; [done|by right].
  - eapply halting_workers; simpl; try done. intros _ Hg. by destruct (Forall_lookup_1 _ _ _ _ Hg Hi).
  - eapply halting_workers; simpl; try done. intros _ Hg. by destruct (Forall_lookup_1 _ _ _ _ Hg Hi).
  - eapply halting_workers; simpl; try done. intros _ Hg. apply Forall_insert; [done|by right].
  - apply (halting_pool s k p); [done|done|done|congruence|by right|done].
  - apply (halting_pool s k p); simpl; [done|done|done|done| |by rewrite Hq in H6; inversion H6].
    rewrite Hq. intros j [->|]%elem_of_cons; [by left|by right].
Qed.

(** Everything that holds of the states [Run] gets into. *)
Record sound (s : state) : Prop := {
  sound_order : in_order s;
  sound_counted : counted s;
  sound_placed : placed s;
  sound_halting : halting s;
  sound_filled : filled (caches s);
  sound_waited : elect s ≠ NotRunning → waited (caches s);
}.

Lemma initial_pools ns k p : pools (initial ns) !! k = Some p → p = Pool q_New ∅.
Proof.
  change (pools (initial ns)) with (replicate (length kinds) (Pool q_New ∅)).
  intros Hp%list_elem_of_lookup_2. by apply elem_of_replicate in Hp as [-> _].
Qed.

Lemma initial_filled ns : filled (caches (initial ns)).
Proof.
  destruct (operator_factory_informers ns) as (Hd & Hs & _). split; simpl; [exact Hd|by left|set_solver|done].
Qed.

Lemma initial_sound ns : sound (initial ns).
Proof.
  split; [| | | |apply initial_filled|done]; split; simpl; try done; try (by intros [|]); try (by intros []).
  - by repeat constructor.
  - intros k threads m p _ ->%(initial_pools ns). apply reachable_init.
  - intros k p i w ->%(initial_pools ns) Hw. simpl in Hw. by rewrite lookup_empty in Hw.
  - intros _ i sv Hi [|Hne]; [done|]. destruct i as [|[|[|i]]]; simplify_eq/=; done.
Qed.

Lemma filled_step s s' : step cfg s s' → filled (caches s) → filled (caches s').
Proof.
  intros Hst H. pose proof H as [H1 H2 H3 H4].
  assert (∀ w s, caches (wake w s) = caches s) as Hw by (intros w t; unfold wake, proceed; repeat case_match; done).
  assert (∀ w s, caches (proceed w s) = caches s) as Hp by (intros w t; unfold proceed; repeat case_match; done).
  destruct Hst; rewrite ?Hw, ?Hp; try exact H; simpl.
  - by split.
  - split; simpl; [done..|]. intros ks [= <-]. unfold awaited_informers. rewrite H1. destruct H2 as [->| ->]; [left|right]; set_solver.
  - split; simpl; [done| | |done].
    + right. change (startedInformers (Start (informerFactory (caches s))).2 = all_kinds). rewrite Start_all, H1.
      apply set_eq. intros k. pose proof (all_kinds_spec k). set_solver.
    + etransitivity; [exact H3|]. change (startedInformers (informerFactory (caches s)) ⊆ startedInformers (Start (informerFactory (caches s))).2).
      rewrite Start_all. set_solver.
  - split; simpl; [done|done|set_solver|done].
Qed.

Lemma waited_step s s' : step cfg s s' →
  (elect s ≠ NotRunning → waited (caches s)) → (elect s' ≠ NotRunning → waited (caches s')).
Proof.
  intros Hst H.
  assert (∀ w s, caches (wake w s) = caches s ∧ elect (wake w s) = elect s) as Hw
    by (intros w t; unfold wake, proceed; repeat case_match; done).
  assert (∀ w s, caches (proceed w s) = caches s ∧ elect (proceed w s) = elect s) as Hp
    by (intros w t; unfold proceed; repeat case_match; done).
  destruct Hst; rewrite ?(proj1 (Hw _ _)), ?(proj2 (Hw _ _)), ?(proj1 (Hp _ _)), ?(proj2 (Hp _ _)); simpl; try exact H;
    try (intros _; apply H; congruence).
  - intros He. destruct (H He) as (ks & Hks & _). congruence.
  - intros _. by exists ks.
  - intros He. destruct (H He) as (ks & Hks & Hsub). exists ks. split; [done|]. set_solver.
Qed.

Lemma reachable_sound s : reachable cfg s → sound s.
Proof.
  intros [ns Hr]. pattern s. revert s Hr. apply rtc_ind_r; [apply initial_sound|].
  intros s s' _ Hst [Ho Hc Hp Hh Hf Hw]. split; eauto using in_order_step, counted_step, placed_step, halting_step, filled_step, waited_step.
Qed.
End invariants.

(** ** Termination of the shutdown

    A measure that every step decreases once the queues are shut down: what
    the servers, the elector, the workers and the queues still have to do. *)
Definition serving_left (v : serving) : nat :=
  match v with Serving => 3 | Closed => 2 | Failed _ => 1 | Unstarted | Gone => 0 end.
Definition server_left (sv : server) : nat := serving_left (srv_serving sv) + pending sv.
Definition loop_left (g : nat * loop) : nat :=
  match g with (_, Inside) => 3 | (_, Pausing) => 2 | (_, Checking) => 1 | (_, Ended) => 0 end.
Definition callback_left (c : callback) : nat :=
  match c with NotCalled => 0 | Called => 2 * length worker_kinds + 1 | Starting rest => 2 * length rest end.
Definition electing_left (e : elector) : nat :=
  match e with Acquiring => callback_left Called + 3 | Leading => 2 | Leaving => 1 | NotRunning | Left => 0 end.
Definition worker_left (w : worker) : nat := match w with Handling _ => 2 | Finishing _ => 1 end.
Definition workers_left (ws : gmap nat worker) : nat := map_fold (λ _ w n, (worker_left w + n)%nat) 0%nat ws.
Definition pool_left (p : pool) : nat :=
  3 * size (q_dirty (p_queue p)) + workers_left (p_workers p) + length (q_waiting (p_queue p)).
Definition caches_left (c : Caches) : nat := (if to_start c then 1 else 0) + size (all_kinds ∖ hasSynced c).
Lemma caches_left_syncs c k : k ∉ hasSynced c → (caches_left (set_hasSynced ({[k]} ∪ hasSynced c) c) < caches_left c)%nat.
Proof.
  intros Hk. pose proof (all_kinds_spec k) as Ha. unfold caches_left. simpl. revert Ha. generalize all_kinds as K. intros K Ha.
  assert (size (K ∖ ({[k]} ∪ hasSynced c)) < size (K ∖ hasSynced c))%nat; [|lia].
  apply subset_size. split; [set_solver|]. intros Hsub. set_solver.
Qed.

Definition left_to_do (s : state) : nat :=
  (match main s with Stopping => 1 | _ => 0 end) + caches_left (caches s)
  + sum_list_with server_left (servers s) + electing_left (elect s) + callback_left (onStartedLeading s)
  + sum_list_with loop_left (goroutines s) + sum_list_with pool_left (pools s).

Lemma workers_left_insert (ws : gmap nat worker) i w :
  ws !! i = None → workers_left (<[i := w]> ws) = (worker_left w + workers_left ws)%nat.
Proof. intros Hi. unfold workers_left. rewrite map_fold_insert_L; [done|intros; lia|done]. Qed.
Lemma workers_left_delete (ws : gmap nat worker) i w :
  ws !! i = Some w → workers_left ws = (worker_left w + workers_left (delete i ws))%nat.
Proof. intros Hi. unfold workers_left. apply (map_fold_delete_L (λ _ w n, (worker_left w + n)%nat)); [intros; lia|done]. Qed.
Lemma workers_left_update (ws : gmap nat worker) i v w :
  ws !! i = Some v → (workers_left (<[i := w]> ws) + worker_left v = worker_left w + workers_left ws)%nat.
Proof.
  intros Hi. rewrite (workers_left_delete ws i v Hi), <- insert_delete_eq.
  rewrite workers_left_insert by apply lookup_delete_eq. lia.
Qed.

(** A shut down queue takes nothing more: its workers finish what is left. *)
Lemma pool_decreases m p p' :
  WorkQueue.reachable m p → WorkQueue.step m p p' → shuttingDown (p_queue p) = true →
  p' = p ∨ (pool_left p' < pool_left p)%nat.
Proof.
  intros [Hq _ _ _]%reachable_ok Hst Hs.
  destruct Hst as [x q ws|x q ws|x l1 l2 q ws Hw|i x q q' ws Hi Hget|i key err q ws Hi|i str q ws Hi
    |i x q ws Hi|q ws]; simpl in *; unfold pool_left; simpl.
  - left. unfold q_Add. by rewrite Hs.
  - left. unfold q_AddAfter. by rewrite Hs.
  - right. unfold q_Add. simpl. rewrite Hs. simpl. rewrite Hw, !length_app. simpl. lia.
  - right. rewrite workers_left_insert by done.
    unfold q_Get in Hget. destruct (q_queue q) as [|y l] eqn:E; [by rewrite Hs in Hget|].
    injection Hget as <- <-. simpl.
    assert (y ∈ q_dirty q) as Hy by (apply (ok_queue _ Hq); rewrite E; by left).
    rewrite size_difference by set_solver. rewrite size_singleton.
    assert (size (q_dirty q) ≠ 0%nat) by (apply size_non_empty_iff; set_solver). lia.
  - right. pose proof (workers_left_update ws i _ (Finishing (inl key)) Hi) as Hu. simpl in Hu.
    assert (q_dirty (handleErr err (inl key) m q) = q_dirty q ∧ q_waiting (handleErr err (inl key) m q) = q_waiting q)
      as [-> ->]; [|lia].
    unfold handleErr, q_AddRateLimited, q_AddAfter. destruct err; [destruct (_ || _)|]; simpl; by rewrite ?Hs.
  - right. pose proof (workers_left_update ws i _ (Finishing (inr str)) Hi) as Hu. simpl in *. lia.
  - right. rewrite (workers_left_delete ws i _ Hi). simpl. lia.
  - left. unfold q_ShutDown. destruct q. simpl in *. by rewrite Hs.
Qed.

Section shutdown.
Context {DI : Dialers} (cfg : Config).

(** [Run] waits for the others, and every queue is shut down. *)
Definition winding_down (s : state) : Prop := main s = Stopping ∧ to_shut s = [].

Lemma winding_down_queues s k p :
  sound s → winding_down s → pools s !! k = Some p → shuttingDown (p_queue p) = true.
Proof.
  intros [_ _ _ Hh] [Hm Hq] Hp. destruct (halting_queues _ Hh (or_introl Hm) k p Hp) as [Hin|]; [|done].
  rewrite Hq in Hin. by apply elem_of_nil in Hin.
Qed.

Lemma wake_winding_down w s : main s = Stopping → wake w s = s.
Proof. intros Hm. unfold wake. by rewrite Hm. Qed.

Lemma step_winds_down s s' :
  sound s → winding_down s → step cfg s s' →
  s' = s ∨ (left_to_do s' < left_to_do s)%nat ∧ (winding_down s' ∨ main s' = Returned None).
Proof.
  intros Hs [Hm Hq] Hst.
  assert (stopped s = true) as Hstop by (apply (halting_stopped _ (sound_halting _ Hs)); by left).
  destruct Hst as [| | | | | | | |s Hts|s kd Hkd|s w Hm' Hr| | | |s i sv err Hi Hse|s i sv err Hi Hse Hlen|s i sv Hi Hsh
                   |s He|s He|s He|s He|s Hcb|s k rest Hcb|s i k Hi Hcl|s i k p q Hi Hp Hw Hget
                   |s i k Hi|s i k l Hi Hl Hcl|s k threads m p p' Hini Hk Hp Hst Hsh Hnew|s k rest p Hq' Hp];
    try congruence; rewrite ?wake_winding_down by done.
  17: { pose proof (placed_reachable _ (sound_placed _ Hs) _ _ _ _ Hk Hp) as Hr.
        destruct (pool_decreases _ _ _ Hr Hst (winding_down_queues s k p Hs (conj Hm Hq) Hp)) as [->|Hlt].
        - left. rewrite list_insert_id by done. by destruct s.
        - right. split; [|left; by split]. unfold left_to_do. simpl.
          pose proof (sum_insert pool_left _ _ _ p' Hp). lia. }
  2: { destruct (decide (kd ∈ hasSynced (caches s))) as [Hin|Hnin].
       - left. assert ({[kd]} ∪ hasSynced (caches s) = hasSynced (caches s)) as -> by set_solver.
         by destruct s as [? ? [] ? ? ? ? ? ? ? ? ? ?].
       - right. split; [|left; by split]. unfold left_to_do. simpl.
         pose proof (caches_left_syncs (caches s) kd Hnin). lia. }
  all: right; (split; [|(left; by split) || by right]); unfold left_to_do; simpl.
  - unfold caches_left. simpl. rewrite Hts. lia.
  - rewrite Hm. lia.
  - pose proof (sum_insert server_left _ _ _ (Server (Failed (server_error i err)) (srv_shutter sv)) Hi) as Hsum.
    unfold server_left, pending in *. simpl in Hsum. destruct Hse as [E|E]; rewrite E in Hsum; simpl in *; lia.
  - pose proof (sum_insert server_left _ _ _ (Server Gone (srv_shutter sv)) Hi) as Hsum.
    unfold server_left, pending in *. simpl in Hsum. rewrite Hse in Hsum. simpl in *. lia.
  - set (v := match srv_serving sv with Serving => Closed | v => v end).
    pose proof (sum_insert server_left _ _ _ (Server v Finished) Hi) as Hsum.
    assert (serving_left v ≤ serving_left (srv_serving sv))%nat by (unfold v; destruct (srv_serving sv); simpl; lia).
    unfold server_left, pending in *. simpl in Hsum. rewrite Hsh in Hsum. simpl in *. lia.
  - rewrite He. unfold electing_left. simpl. lia.
  - rewrite He. unfold electing_left. simpl. lia.
  - rewrite He. simpl. lia.
  - rewrite He. simpl. lia.
  - rewrite Hcb. simpl. lia.
  - rewrite Hcb, sum_list_with_app. simpl. lia.
  - unfold closed in Hcl. by rewrite Hstop in Hcl.
  - pose proof (sum_insert loop_left _ _ _ (k, Pausing) Hi) as Hsum. simpl in Hsum. lia.
  - pose proof (sum_insert loop_left _ _ _ (k, Checking) Hi) as Hsum. simpl in Hsum. lia.
  - pose proof (sum_insert loop_left _ _ _ (k, Ended) Hi) as Hsum. destruct Hl; subst l; simpl in Hsum; lia.
Qed.

Lemma sum_list_with_positive {A} (f : A → nat) l :
  sum_list_with f l ≠ 0%nat → ∃ i x, l !! i = Some x ∧ f x ≠ 0%nat.
Proof.
  induction l as [|x l IH]; simpl; [done|]. intros Hs. destruct (decide (f x = 0%nat)) as [Hx|Hx].
  - destruct IH as (i & y & Hi & Hy); [lia|]. by exists (Datatypes.S i), y.
  - by exists 0%nat, x.
Qed.

Lemma differs {A} (f : state → A) s s' : f s' ≠ f s → s' ≠ s.
Proof. by intros Hf ->. Qed.

(** Each goroutine [Run] waits for can move on. *)
Lemma server_moves s i sv :
  sound s → winding_down s → servers s !! i = Some sv → live sv ≠ 0%nat ∨ pending sv ≠ 0%nat →
  ∃ s', step cfg s s' ∧ s' ≠ s.
Proof.
  intros Hs [Hm Hq] Hi Hor. pose proof (sound_counted _ Hs) as Hc.
  pose proof (halting_asked _ (sound_halting _ Hs) (or_introl Hm)) as Ha.
  destruct (Forall_lookup_1 _ _ _ _ Ha Hi) as [Hna Hask]. destruct sv as [v sh]. unfold live, pending in Hor. simpl in *.
  assert (sh = Asked ∨ sh = Finished) as [->| ->] by (destruct sh; auto; done).
  { eexists. split; [by eapply server_shut_down|]. apply (differs wg). simpl. lia. }
  assert (v = Closed ∨ ∃ err, v = Failed err) as [->|[err ->]].
  { destruct v; naive_solver. }
  - exists (set_servers (<[i := Server (Failed (server_error i (New "http: Server closed"))) Finished]> (servers s))
              (srvErrChan s) s).
    split; [eapply (server_fails cfg s i _ _ Hi); by right|]. apply (differs (λ s, servers s !! i)). simpl.
    rewrite Hi, list_lookup_insert_eq by (by eapply lookup_lt_Some). done.
  - eexists. split; [eapply (server_reports cfg s i _ err Hi); [done|]|].
    + pose proof (counted_room _ Hc) as Hroom.
      pose proof (sum_list_with_in _ unsent _ (list_elem_of_lookup_2 _ _ _ Hi)) as Hin.
      unfold unsent in Hin at 1. simpl in Hin. lia.
    + rewrite wake_winding_down by done. apply (differs wg). simpl. lia.
Qed.

(** A step of a queue that moves worker [i], who is in its loop. *)
Lemma pool_moves s i k threads m p p' :
  initialized s = true → kinds !! k = Some (threads, m) → pools s !! k = Some p → goroutines s !! i = Some (k, Inside) →
  WorkQueue.step m p p' → shuttingDown (p_queue p') = shuttingDown (p_queue p) →
  (∀ j, i ≠ j → p_workers p' !! j = p_workers p !! j) → p_workers p' !! i ≠ p_workers p !! i →
  ∃ s', step cfg s s' ∧ s' ≠ s.
Proof.
  intros Hini Hkind Hpool Hi Hst Hsh Hj Hne. exists (set_pools (<[k := p']> (pools s)) (to_shut s) s). split.
  - eapply (pool_steps cfg s k threads m p p'); try done. intros j H1 H2.
    destruct (decide (i = j)) as [<-|Hij]; [done|]. by rewrite (Hj j Hij) in H2.
  - apply (differs (λ s, p ← pools s !! k; p_workers p !! i)). simpl. rewrite Hpool.
    rewrite list_lookup_insert_eq by (by eapply lookup_lt_Some). done.
Qed.

Lemma worker_in_loop_moves s i k p :
  sound s → winding_down s → goroutines s !! i = Some (k, Inside) → pools s !! k = Some p →
  ∃ s', step cfg s s' ∧ s' ≠ s.
Proof.
  intros Hs Hw Hi Hpool.
  pose proof (Forall_lookup_1 _ _ _ _ (placed_workers _ (sound_placed _ Hs)) Hi) as Hk.
  destruct (lookup_lt_is_Some_2 kinds k Hk) as [[threads m] Hkind].
  pose proof (winding_down_queues s k p Hs Hw Hpool) as Hsh.
  assert (initialized s = true) as Hini.
  { apply (order_elected _ (sound_order _ Hs)). apply (order_led _ (sound_order _ Hs)), (order_started _ (sound_order _ Hs)).
    intros E. by rewrite E in Hi. }
  pose proof (λ p', pool_moves s i k threads m p p' Hini Hkind Hpool Hi) as Hmoves.
  destruct p as [q ws]. simpl in *. destruct (ws !! i) as [[[key|str]|x]|] eqn:Hwi.
  - apply (Hmoves _ (step_handled m i key None q ws Hwi)); simpl;
    [done|intros j Hj; by rewrite lookup_insert_ne|by rewrite lookup_insert_eq].
  - apply (Hmoves _ (step_not_a_key m i str q ws Hwi)); simpl;
    [done|intros j Hj; by rewrite lookup_insert_ne|by rewrite lookup_insert_eq].
  - apply (Hmoves _ (step_done m i x q ws Hwi)); simpl;
    [done|intros j Hj; by rewrite lookup_delete_ne|by rewrite lookup_delete_eq].
  - unfold q_Get in *. destruct (q_queue q) as [|x rest] eqn:Hq.
    + exists (set_goroutines (<[i := (k, Pausing)]> (goroutines s)) s). split.
      * apply (worker_quits cfg s i k (Pool q ws) q Hi Hpool Hwi). simpl. unfold q_Get. by rewrite Hq, Hsh.
      * apply (differs (λ s, goroutines s !! i)). simpl.
        rewrite Hi, list_lookup_insert_eq by (by eapply lookup_lt_Some). done.
    + eapply (Hmoves _ (step_get m i x q _ ws Hwi ltac:(unfold q_Get; by rewrite Hq))); simpl;
      [done|intros j Hj; by rewrite lookup_insert_ne|by rewrite lookup_insert_eq].
Qed.

Lemma worker_moves s i k l :
  sound s → winding_down s → goroutines s !! i = Some (k, l) → l ≠ Ended → ∃ s', step cfg s s' ∧ s' ≠ s.
Proof.
  intros Hs Hw Hi Hl. destruct (decide (l = Inside)) as [->|Hin].
  - pose proof (Forall_lookup_1 _ _ _ _ (placed_workers _ (sound_placed _ Hs)) Hi) as Hk.
    destruct (lookup_lt_is_Some_2 (pools s) k) as [p Hpool]; [by rewrite (placed_pools _ (sound_placed _ Hs))|].
    by eapply worker_in_loop_moves.
  - eexists. split; [eapply (worker_ends cfg s i k l Hi)|apply (differs wg); simpl; lia]; [destruct l; auto; done|].
    unfold closed. by rewrite (halting_stopped _ (sound_halting _ Hs) (or_introl (proj1 Hw))).
Qed.

Lemma progress s : sound s → winding_down s → ∃ s', step cfg s s' ∧ s' ≠ s.
Proof.
  intros Hs Hw. pose proof (counted_wg _ (sound_counted _ Hs)) as Hwg.
  destruct (decide (waited_for s = 0%nat)) as [Hz|Hnz].
  { exists (set_main (Returned None) s). split; [apply run_returns; [apply Hw|lia]|].
    apply (differs main). simpl. by rewrite (proj1 Hw). }
  unfold waited_for in Hnz.
  destruct (decide (sum_list_with live (servers s) = 0%nat)) as [Hl|Hl].
  - destruct (decide (sum_list_with pending (servers s) = 0%nat)) as [Hp|Hp].
    + destruct (sum_list_with_positive running (goroutines s)) as (i & [k l] & Hi & Hr); [lia|].
      apply (worker_moves s i k l Hs Hw Hi). by intros ->.
    + destruct (sum_list_with_positive pending (servers s)) as (i & sv & Hi & Hpe); [done|].
      eapply server_moves; eauto.
  - destruct (sum_list_with_positive live (servers s)) as (i & sv & Hi & Hlive); [done|].
    eapply server_moves; eauto.
Qed.

(** Steps that count: calls on a queue that ignores them leave the state as it
    is. *)
Definition proper_step (s s' : state) : Prop := step cfg s s' ∧ s' ≠ s.

(** ** Theorems *)

(** C11: the operator starts and stops in order.  A worker handles an item only
    after Presto was read, [WaitForCacheSync] returned and the lease was
    acquired, and only inside its loop; the wait was either for no informer at
    all, or for the six of the operator, whose caches were then filled; each
    queue with its workers behaves as
    WorkQueue's; [Run] returns nil only after a stop signal, when its servers
    have ended and no worker holds an item, and nothing starts again. *)
Theorem run_in_order s :
  reachable cfg s →
  (∀ k p i w, pools s !! k = Some p → p_workers p !! i = Some w →
   isInitialized s = true ∧ waited (caches s) ∧ elect s ≠ NotRunning ∧ elect s ≠ Acquiring ∧
   goroutines s !! i = Some (k, Inside)) ∧
  (waited (caches s) → awaited (caches s) = Some ∅ ∨ hasSynced (caches s) = all_kinds) ∧
  (∀ k threads maxRequeues p, kinds !! k = Some (threads, maxRequeues) → pools s !! k = Some p →
   WorkQueue.reachable maxRequeues p) ∧
  (main s = Returned None →
   stopped s = true ∧ Forall (λ sv, sv = Server Gone Finished) (servers s) ∧
   Forall (λ g, g.2 = Checking ∨ g.2 = Ended) (goroutines s) ∧
   (∀ k p, pools s !! k = Some p → p_workers p = ∅) ∧
   (∀ s', step cfg s s' → main s' = Returned None)).
Proof.
  intros [Ho Hc Hp Hh Hf Hwt]%reachable_sound. split_and!.
  - intros k p i w Hpool Hw. pose proof (placed_busy _ Hp _ _ _ _ Hpool Hw) as Hi.
    assert (goroutines s ≠ []) as Hne by (intros E; by rewrite E in Hi).
    destruct (order_led _ Ho (order_started _ Ho Hne)) as [Hr Ha].
    split_and!; [by apply (order_elected _ Ho)|by apply Hwt|done..].
  - intros (ks & Hks & Hsub). destruct (filled_awaited _ Hf ks Hks) as [->| ->]; [by left|right].
    apply (anti_symm (⊆)); [|done]. intros k _. apply all_kinds_spec.
  - apply (placed_reachable _ Hp).
  - intros Hm. destruct (halting_done _ Hh Hm) as [Hsv Hg].
    split_and!; [apply (halting_stopped _ Hh); by right|done|done| |].
    + intros k p Hpool. apply map_empty. intros i. destruct (p_workers p !! i) as [w|] eqn:Hw; [|done].
      pose proof (placed_busy _ Hp _ _ _ _ Hpool Hw) as Hi.
      by destruct (Forall_lookup_1 _ _ _ _ Hg Hi).
    + intros s' Hst. destruct Hst; simpl in *; unfold wake; simpl; rewrite ?Hm; simpl; congruence.
Qed.

Lemma winding_down_completes s :
  sound s → main s = Stopping → to_shut s = [] → eventually proper_step (λ s', main s' = Returned None) s.
Proof.
  intros Hr Hm Hq. remember (left_to_do s) as n eqn:Hn. revert s Hn Hr Hm Hq.
  induction n as [n IH] using lt_wf_ind. intros s -> Hs Hm Hq.
  apply eventually_later; [by apply progress|]. intros s' [Hst Hne].
  destruct (step_winds_down s s' Hs (conj Hm Hq) Hst) as [|[Hlt [[Hm' Hq']|Hd]]]; [done| |by apply eventually_now].
  eapply IH; [exact Hlt|done| |done|done].
  destruct Hs. split; eauto using in_order_step, counted_step, placed_step, halting_step, filled_step, waited_step.
Qed.

(** C15: a stop ends.  Once [Run] answers the stop signal, [shutdownQueues] can
    always shut down its next queue, and when it has shut down all of them,
    every execution of the servers, the elector and the workers gets to [Run]
    returning nil: no goroutine is stuck, and there is an end to their steps. *)
Theorem shutdown_completes s :
  reachable cfg s → main s = Stopping →
  (∀ k rest, to_shut s = k :: rest → ∃ s', step cfg s s' ∧ main s' = Stopping ∧ to_shut s' = rest) ∧
  (to_shut s = [] → eventually proper_step (λ s', main s' = Returned None) s).
Proof.
  intros Hr%reachable_sound Hm. split; [|by apply winding_down_completes]. intros k rest Hq.
  pose proof (halting_to_shut _ (sound_halting _ Hr)) as Hk. rewrite Hq in Hk. apply Forall_cons in Hk as [Hk _].
  destruct (lookup_lt_is_Some_2 (pools s) k) as [p Hp]; [by rewrite (placed_pools _ (sound_placed _ Hr))|].
  eexists. split; [by eapply queue_shut|]. done.
Qed.
End shutdown.

(** ** Executions *)
Section executions.
Context {DI : Dialers} (cfg : Config).
Context (Hconnect : connect cfg = Ok tt) (Helector : new_elector cfg = Ok tt).

(** [Run] has read Presto. *)
Definition up : state := initial "".
Definition connected : state :=
  wg_Add 1 (set_main Polling (set_servers (<[2%nat := Server Serving NotAsked]> (servers up)) (srvErrChan up) up)).
Definition read_Presto : state :=
  set_caches (set_to_start true (informerFactory (caches connected)) (caches connected)) (setInitialized (set_main Syncing connected)).

Lemma read_Presto_reachable : reachable cfg read_Presto.
Proof using Hconnect.
  exists "". eapply rtc_r; [|by apply run_read_Presto]. eapply rtc_r; [|by apply run_connected]. apply rtc_refl.
Qed.

(** The informers are started, and their caches filled, before it looks. *)
Definition started_factory : factory := (Start (operator_factory "")).2.
Definition full_caches : Caches :=
  {| informerFactory := started_factory; to_start := false; hasSynced := all_kinds; awaited := Some all_kinds |}.
(** It looks before they are started. *)
Definition empty_caches : Caches :=
  {| informerFactory := started_factory; to_start := false; hasSynced := ∅; awaited := Some ∅ |}.

Lemma started_factory_all : startedInformers started_factory = all_kinds.
Proof using.
  unfold started_factory. destruct (operator_factory_informers "") as (Hd & Hs & _). rewrite Start_all, Hd, Hs. set_solver.
Qed.

Definition sync (s : state) (k : kind) : state := set_caches (set_hasSynced ({[k]} ∪ hasSynced (caches s)) (caches s)) s.
Lemma syncs_reachable ks s : reachable cfg s → (∀ k, k ∈ startedInformers (informerFactory (caches s))) →
  reachable cfg (foldl sync s ks).
Proof using.
  revert s. induction ks as [|k ks IH]; intros s Hr Hs; [exact Hr|]. simpl. apply IH; [|exact Hs].
  eapply reachable_next; [exact Hr|apply informer_syncs, Hs].
Qed.

Definition set_started (s : state) : state :=
  set_caches (set_to_start false (Start (informerFactory (caches s))).2 (caches s)) s.
Definition set_waiting (s : state) : state :=
  set_caches (set_awaited (awaited_informers (informerFactory (caches s))) (caches s)) s.

Lemma full_caches_reachable : reachable cfg (set_caches full_caches read_Presto).
Proof using Hconnect.
  assert (set_waiting (foldl sync (set_started read_Presto)
            [KReport; KReportQuery; KReportDataSource; KPrestoTable; KHiveTable; KStorageLocation]) =
          set_caches full_caches read_Presto) as <- by (vm_compute; reflexivity).
  eapply reachable_next; [|apply run_waits; reflexivity]. apply syncs_reachable.
  - eapply reachable_next; [apply read_Presto_reachable|by apply informers_start].
  - intros k. change (k ∈ startedInformers started_factory). rewrite started_factory_all. apply all_kinds_spec.
Qed.

Lemma empty_caches_reachable : reachable cfg (set_caches empty_caches read_Presto).
Proof using Hconnect.
  assert (set_started (set_waiting read_Presto) = set_caches empty_caches read_Presto) as <- by (vm_compute; reflexivity).
  eapply reachable_next; [|by apply informers_start].
  eapply reachable_next; [apply read_Presto_reachable|apply run_waits; reflexivity].
Qed.

(** From there it goes on in the same way. *)
Section selected.
Context (c : Caches) (Hc : reachable cfg (set_caches c read_Presto)) (Hwaited : waited c).

Definition at_select : state := set_elect Acquiring NotCalled (set_main Electing (set_caches c read_Presto)).

Lemma at_select_reachable : reachable cfg at_select.
Proof using Hc Hwaited Helector.
  destruct Hwaited as (ks & Hks & Hsub). eapply reachable_next; [exact Hc|by eapply run_synced].
Qed.

Lemma stop_as_lost_election :
  ∃ s, reachable cfg s ∧ stopped s = true ∧ onStartedLeading s = NotCalled ∧
  main s = Returned (Some (New "lost leadership election")).
Proof using Hc Hwaited Helector.
  pose (s1 := set_stopped at_select). pose (s2 := set_elect Leaving NotCalled s1).
  pose (s3 := set_lost (set_elect Left NotCalled s2)).
  exists (set_main (Returned (Some (New "lost leadership election"))) s3). split; [|done].
  apply (reachable_next cfg s3); [|by apply (run_selects cfg s3 LeadershipLost)].
  apply (reachable_next cfg s2); [|by apply (elector_left cfg s2)].
  apply (reachable_next cfg s1); [|by apply (elector_gives_up cfg s1)].
  apply (reachable_next cfg at_select); [apply at_select_reachable|by apply (stop_signal cfg at_select)].
Qed.

(** [Run] is elected, a worker starts and takes an item, and then the operator
    is told to stop. *)
Definition item_a : WorkQueue.item := inl "ns/a".
Definition leading : state :=
  wg_Add 1 (set_goroutines [(0%nat, Checking)] (set_elect Leading (Starting (tail worker_kinds))
                                                  (set_main Waiting at_select))).
Definition pool_busy : pool := Pool taken_a (<[0%nat := Handling item_a]> ∅).
Definition in_loop : state := set_goroutines [(0%nat, Inside)] leading.
Definition queued : state := set_pools (<[0%nat := Pool queued_a ∅]> (pools in_loop)) (to_shut in_loop) in_loop.
Definition handling : state := set_pools (<[0%nat := pool_busy]> (pools queued)) (to_shut queued) queued.
Definition told_to_stop : state := wake StopSignal (set_stopped handling).

Lemma in_loop_reachable : reachable cfg in_loop.
Proof using Hc Hwaited Helector.
  apply (reachable_next cfg leading); [|by apply (worker_enters cfg leading 0%nat 0%nat)].
  set (s3 := set_main Waiting at_select). set (s2 := set_elect Leading Called s3).
  set (s1 := set_elect Leading (Starting worker_kinds) s2).
  apply (reachable_next cfg s1); [|by apply (worker_started cfg s1)].
  apply (reachable_next cfg s2); [|by apply (leading_called cfg s2)].
  apply (reachable_next cfg s3); [|by apply (elector_acquires cfg s3)].
  apply (reachable_next cfg at_select); [apply at_select_reachable|apply run_blocks; [done|by intros []]].
Qed.

Lemma handling_reachable : reachable cfg handling.
Proof using Hc Hwaited Helector.
  apply (reachable_next cfg queued).
  - apply (reachable_next cfg in_loop); [apply in_loop_reachable|].
    eapply (pool_steps cfg in_loop 0%nat 4%nat (-1) (Pool q_New ∅)); try done. apply step_add.
  - eapply (pool_steps cfg queued 0%nat 4%nat (-1) (Pool queued_a ∅)); try done; [by apply step_get|].
    intros i _ Hne. destruct i; [done|]. unfold pool_busy in Hne. simpl in Hne.
    by rewrite lookup_insert_ne in Hne.
Qed.

(** [shutdownQueues], one queue. *)
Definition shut_next (s : state) : state :=
  match to_shut s with
  | k :: rest =>
      match pools s !! k with
      | Some p => set_pools (<[k := Pool (q_ShutDown (p_queue p)) (p_workers p)]> (pools s)) rest s
      | None => s
      end
  | [] => s
  end.
Definition queues_down : state := Nat.iter 6 shut_next told_to_stop.

Lemma shut_next_reachable s : reachable cfg s → reachable cfg (shut_next s).
Proof using.
  intros Hr. unfold shut_next. destruct (to_shut s) as [|k rest] eqn:Hq; [done|].
  destruct (pools s !! k) as [p|] eqn:Hp; [|done]. eapply (reachable_next cfg); [exact Hr|by apply queue_shut].
Qed.

Lemma queues_down_reachable : reachable cfg queues_down.
Proof using Hc Hwaited Helector.
  unfold queues_down. do 6 apply shut_next_reachable. eapply (reachable_next cfg); [apply handling_reachable|by apply stop_signal].
Qed.
End selected.

Lemma full_caches_waited : waited full_caches.
Proof using. by exists all_kinds. Qed.
Lemma empty_caches_waited : waited empty_caches.
Proof using. by exists ∅. Qed.

(** a stop signal that arrives before [Run] blocks in its [select] also ends
    the elector, and [Run] may then report that it lost the election,
    although it never was the leader. *)
Theorem stop_reported_as_lost_election :
  ∃ s, reachable cfg s ∧ stopped s = true ∧ onStartedLeading s = NotCalled ∧
  main s = Returned (Some (New "lost leadership election")).
Proof using Hconnect Helector. exact (stop_as_lost_election _ full_caches_reachable full_caches_waited). Qed.

(** [Start] is called in a goroutine of its own, and [WaitForCacheSync] waits
    for started informers only: it may find none and return at once, and the
    workers then handle items while no cache is filled. *)
Theorem caches_not_waited_for :
  ∃ s k p i, reachable cfg s ∧ pools s !! k = Some p ∧ p_workers p !! i = Some (Handling item_a) ∧
  startedInformers (informerFactory (caches s)) = all_kinds ∧ hasSynced (caches s) = ∅.
Proof using Hconnect Helector.
  exists (handling empty_caches), 0%nat, pool_busy, 0%nat.
  split; [exact (handling_reachable _ empty_caches_reachable empty_caches_waited)|].
  split; [reflexivity|]. split; [reflexivity|]. split; [exact started_factory_all|reflexivity].
Qed.
End executions.

#[local] Instance open_dialers : Dialers :=
  {| ReadFile _ := Ok ""; LoadX509KeyPair _ _ := Ok ""; Stat _ := Ok tt;
     url_Parse _ := Ok {| Scheme := "http"; Query := ∅; Rest := "reporting-operator@presto:8080" |};
     url_String := Rest; hive_NewConnector _ _ := Ok tt; presto_Open _ _ := Ok tt; transport_New _ := Ok tt;
     promapi_NewClient _ _ := Ok tt; leaderelection_Valid _ _ _ := Ok tt |}.
Definition demo_config : Config :=
  {| HiveHost := "hive:10000"; HiveUseTLS := false; HiveCAFile := ""; HiveTLSInsecureSkipVerify := false;
     HiveUseClientCertAuth := false; HiveClientCertFile := ""; HiveClientKeyFile := "";
     PrestoHost := "presto:8080"; PrestoUseTLS := false; PrestoCAFile := ""; PrestoTLSInsecureSkipVerify := false;
     PrestoUseClientCertAuth := false; PrestoClientCertFile := ""; PrestoClientKeyFile := "";
     LeaderLeaseDuration := 60 * Second;
     cfg_PrometheusConfig := {| Address := "http://prometheus:9090"; SkipTLSVerify := false; BearerToken := "";
                                BearerTokenFile := ""; CAFile := "" |} |}.

Lemma run_in_order_witness :
  (∃ k p i w, pools (handling full_caches) !! k = Some p ∧ p_workers p !! i = Some w) ∧
  (∀ k p i w, pools (handling full_caches) !! k = Some p → p_workers p !! i = Some w →
     isInitialized (handling full_caches) = true ∧ waited (caches (handling full_caches)) ∧ elect (handling full_caches) ≠ NotRunning ∧
     elect (handling full_caches) ≠ Acquiring ∧ goroutines (handling full_caches) !! i = Some (k, Inside)) ∧
  (waited (caches (handling full_caches)) → awaited (caches (handling full_caches)) = Some ∅ ∨ hasSynced (caches (handling full_caches)) = all_kinds) ∧
  (∀ k threads maxRequeues p, kinds !! k = Some (threads, maxRequeues) → pools (handling full_caches) !! k = Some p →
     WorkQueue.reachable maxRequeues p) ∧
  (main (handling full_caches) = Returned None →
     stopped (handling full_caches) = true ∧ Forall (λ sv, sv = Server Gone Finished) (servers (handling full_caches)) ∧
     Forall (λ g, g.2 = Checking ∨ g.2 = Ended) (goroutines (handling full_caches)) ∧
     (∀ k p, pools (handling full_caches) !! k = Some p → p_workers p = ∅) ∧
     (∀ s', step demo_config (handling full_caches) s' → main s' = Returned None)).
Proof.
  split; [by exists 0%nat, pool_busy, 0%nat, (Handling item_a)|].
  exact (run_in_order demo_config (handling full_caches) (handling_reachable demo_config eq_refl full_caches (full_caches_reachable demo_config eq_refl) full_caches_waited)).
Defined.

Lemma shutdown_completes_witness :
  (∃ k i p, pools (queues_down full_caches) !! k = Some p ∧ p_workers p !! i = Some (Handling item_a)) ∧
  eventually (proper_step demo_config) (λ s', main s' = Returned None) (queues_down full_caches).
Proof.
  split; [by exists 0%nat, 0%nat; eexists|].
  exact (proj2 (shutdown_completes demo_config (queues_down full_caches)
           (queues_down_reachable demo_config eq_refl full_caches (full_caches_reachable demo_config eq_refl) full_caches_waited) eq_refl) eq_refl).
Defined.
