(* ===== verification/CommandLine.v ===== *)
(** * The command line (src/cmd/reporting-operator/start.go, and [operator.New])

    Every setting is a flag of the start command, given by its default, an
    environment variable, and the arguments.  The flags are pflag's
    (src/vendor/github.com/spf13/pflag); how it reads a number, a duration or
    a list from text is a parameter.  [log.Fatal] ends the process: an error
    here. *)

From S2P Require Export Startup Json.
Open Scope Z_scope.

(** ** Flags *)

(** [pflag.Value]; a list remembers whether it was set before. *)
Inductive flag_value :=
  | FlagString (s : string)
  | FlagBool (b : bool)
  | FlagInt (z : Z)
  | FlagDuration (d : Duration)
  | FlagSlice (l : list string) (changed : bool).
Record Flag := MkFlag { fl_Name : string; fl_Value : flag_value; fl_Changed : bool }.
Abbreviation FlagSet := (list Flag).

Class FlagText := {
  ParseInt : string → outcome Z;
  ParseDuration : string → outcome Duration;
  readAsCSV : string → outcome (list string);
}.

(** [strconv.ParseBool]. *)
Definition ParseBool (s : string) : outcome bool :=
  if bool_decide (s ∈ ["1"; "t"; "T"; "true"; "TRUE"; "True"]) then Ok true
  else if bool_decide (s ∈ ["0"; "f"; "F"; "false"; "FALSE"; "False"]) then Ok false
  else Err (Errorf "strconv.ParseBool: parsing %q: invalid syntax" [FStr s]).

(** A scalar that does not parse is zero; a list that does not parse stays. *)
Definition scalar {A} (zero : A) (o : outcome A) : A * option error :=
  match o with Ok a => (a, None) | Err e => (zero, Some e) | Panic p => (zero, Some (New p)) end.

Section flags.
Context {FT : FlagText}.

(** [Value.Set]. *)
Definition set_value (v : flag_value) (s : string) : flag_value * option error :=
  match v with
  | FlagString _ => (FlagString s, None)
  | FlagBool _ => let '(b, err) := scalar false (ParseBool s) in (FlagBool b, err)
  | FlagInt _ => let '(z, err) := scalar 0 (ParseInt s) in (FlagInt z, err)
  | FlagDuration _ => let '(d, err) := scalar 0 (ParseDuration s) in (FlagDuration d, err)
  | FlagSlice l changed =>
      match readAsCSV s with
      | Ok l' => (FlagSlice (if changed then l ++ l' else l') true, None)
      | Err e => (v, Some e)
      | Panic p => (v, Some (New p))
      end
  end.

(** [FlagSet.Set] on the flag of that name. *)
Definition set_flag (value : string) (f : Flag) : Flag * option error :=
  match set_value (fl_Value f) value with
  | (v, None) => (MkFlag (fl_Name f) v true, None)
  | (v, Some err) =>
      (MkFlag (fl_Name f) v (fl_Changed f),
       Some (Errorf "invalid argument %q for %q flag: %v" [FStr value; FStr ("--" +:+ fl_Name f); FStr (Error err)]))
  end.

Definition env_key (prefix name : string) : string :=
  prefix +:+ "_" +:+ ToUpper (replace_byte "-" "_" name).

(** What [SetFlagsFromEnv] does to one flag. *)
Definition flag_from_env (Getenv : string → string) (prefix : string) (f : Flag) : Flag * option error :=
  if fl_Changed f then (f, None)
  else
    let key := env_key prefix (fl_Name f) in
    let val := Getenv key in
    if String.eqb val "" then (f, None)
    else
      match set_flag val f with
      | (f, Some serr) => (f, Some (Errorf "invalid value %q for %s: %v" [FStr val; FStr key; FStr (Error serr)]))
      | r => r
      end.

(** All flags, by name; the last error is returned. *)
Definition SetFlagsFromEnv (Getenv : string → string) (fs : FlagSet) (prefix : string) : FlagSet * option error :=
  fold_left (λ '(done, err) f,
    let '(f, serr) := flag_from_env Getenv prefix f in
    (done ++ [f], match serr with Some _ => serr | None => err end)) (sort_by fl_Name fs) ([], None).

(** [FlagSet.Set]. *)
Fixpoint Set_ (fs : FlagSet) (name value : string) : outcome FlagSet :=
  match fs with
  | [] => Err (Errorf "no such flag -%v" [FStr name])
  | f :: fs =>
      if String.eqb (fl_Name f) name then
        match set_flag value f with
        | (f, None) => Ok (f :: fs)
        | (_, Some err) => Err err
        end
      else fs ← Set_ fs name value; Ok (f :: fs)
  end.

(** Parsing the arguments sets the flags they name, in their order. *)
Fixpoint Parse (fs : FlagSet) (args : list (string * string)) : outcome FlagSet :=
  match args with
  | [] => Ok fs
  | (name, value) :: args => fs ← Set_ fs name value; Parse fs args
  end.

(** [main]: the arguments are first parsed as flags of the root command, which
    has none, so no flag of the start command is set before the environment is
    read; then the start command parses them. *)
Definition main (Getenv : string → string) (startFlags : FlagSet) (args : list (string * string)) : outcome FlagSet :=
  match SetFlagsFromEnv Getenv startFlags "REPORTING_OPERATOR" with
  | (_, Some err) => Err (Errorf "error setting flags from environment variables: %v" [FStr (Error err)])
  | (fs, None) => wrap_err (λ err, Errorf "error executing command: %v" [FStr (Error err)]) (Parse fs args)
  end.
End flags.

(** ** The flags of the start command ([init]) *)
Definition DefaultPrometheusQueryInterval : Duration := 5 * Minute.
Definition DefaultPrometheusQueryStepSize : Duration := Minute.
Definition DefaultPrometheusQueryChunkSize : Duration := 5 * Minute.
Definition DefaultPrometheusDataSourceMaxQueryRangeDuration : Duration := 10 * Minute.
Definition DefaultPrometheusDataSourceMaxBackfillImportDuration : Duration := 2 * Hour.
Definition defaultLeaseDuration : Duration := 60 * Second.

Definition startFlags : FlagSet :=
  [MkFlag "log-level" (FlagString "debug") false;
   MkFlag "log-timestamp" (FlagBool true) false;
   MkFlag "disable-timestamp" (FlagBool false) false;
   MkFlag "kubeconfig" (FlagString "") false;
   MkFlag "namespace" (FlagString "") false;
   MkFlag "all-namespaces" (FlagBool false) false;
   MkFlag "target-namespaces" (FlagSlice [] false) false;
   MkFlag "api-listen" (FlagString "127.0.0.1:8080") false;
   MkFlag "metrics-listen" (FlagString "127.0.0.1:8082") false;
   MkFlag "pprof-listen" (FlagString "127.0.0.1:6060") false;
   MkFlag "hive-host" (FlagString "hive:10000") false;
   MkFlag "hive-use-tls" (FlagBool false) false;
   MkFlag "hive-tls-insecure-skip-verify" (FlagBool false) false;
   MkFlag "hive-ca-file" (FlagString "") false;
   MkFlag "hive-use-auth" (FlagBool false) false;
   MkFlag "hive-client-cert-file" (FlagString "") false;
   MkFlag "hive-client-key-file" (FlagString "") false;
   MkFlag "presto-host" (FlagString "presto:8080") false;
   MkFlag "presto-use-tls" (FlagBool false) false;
   MkFlag "presto-tls-insecure-skip-verify" (FlagBool false) false;
   MkFlag "presto-ca-file" (FlagString "") false;
   MkFlag "presto-use-auth" (FlagBool false) false;
   MkFlag "presto-client-cert-file" (FlagString "") false;
   MkFlag "presto-client-key-file" (FlagString "") false;
   MkFlag "prometheus-host" (FlagString "http://prometheus-k8s.monitoring.svc:9090/") false;
   MkFlag "prometheus-skip-tls-verify" (FlagBool false) false;
   MkFlag "prometheus-bearer-token" (FlagString "") false;
   MkFlag "prometheus-bearer-token-file" (FlagString "") false;
   MkFlag "prometheus-ca-file" (FlagString "") false;
   MkFlag "disable-prometheus-metrics-importer" (FlagBool false) false;
   MkFlag "log-dml-queries" (FlagBool false) false;
   MkFlag "log-ddl-queries" (FlagBool false) false;
   MkFlag "enable-finalizers" (FlagBool false) false;
   MkFlag "prometheus-metrics-importer-interval" (FlagDuration DefaultPrometheusQueryInterval) false;
   MkFlag "prometheus-metrics-importer-step-size" (FlagDuration DefaultPrometheusQueryStepSize) false;
   MkFlag "prometheus-metrics-importer-chunk-size" (FlagDuration DefaultPrometheusQueryChunkSize) false;
   MkFlag "presto-max-query-length" (FlagInt 0) false;
   MkFlag "prometheus-datasource-max-query-range-duration" (FlagDuration DefaultPrometheusDataSourceMaxQueryRangeDuration) false;
   MkFlag "prometheus-datasource-max-import-backfill-duration" (FlagDuration DefaultPrometheusDataSourceMaxBackfillImportDuration) false;
   MkFlag "prometheus-datasource-import-from" (FlagString "") false;
   MkFlag "lease-duration" (FlagDuration defaultLeaseDuration) false;
   MkFlag "use-tls" (FlagBool false) false;
   MkFlag "tls-cert" (FlagString "") false;
   MkFlag "tls-key" (FlagString "") false;
   MkFlag "metrics-use-tls" (FlagBool false) false;
   MkFlag "metrics-tls-cert" (FlagString "") false;
   MkFlag "metrics-tls-key" (FlagString "") false].

(** ** Configuration *)
Definition flag (fs : FlagSet) (name : string) : option flag_value :=
  fl_Value <$> head (filter (λ f, fl_Name f = name) fs).
Definition flag_string (fs : FlagSet) (name : string) : string :=
  match flag fs name with Some (FlagString s) => s | _ => "" end.
Definition flag_bool (fs : FlagSet) (name : string) : bool :=
  match flag fs name with Some (FlagBool b) => b | _ => false end.
Definition flag_int (fs : FlagSet) (name : string) : Z :=
  match flag fs name with Some (FlagInt z) => z | _ => 0 end.
Definition flag_duration (fs : FlagSet) (name : string) : Duration :=
  match flag fs name with Some (FlagDuration d) => d | _ => 0 end.
Definition flag_slice (fs : FlagSet) (name : string) : list string :=
  match flag fs name with Some (FlagSlice l _) => l | _ => [] end.

(** [cfg], by the parts of the operator that read it. *)
Definition controllers_config (fs : FlagSet) (namespace : string) (importFrom : option Time) : Operator.Config :=
  {| OwnNamespace := namespace;
     AllNamespaces := flag_bool fs "all-namespaces";
     TargetNamespaces := flag_slice fs "target-namespaces";
     DisablePrometheusMetricsImporter := flag_bool fs "disable-prometheus-metrics-importer";
     EnableFinalizers := flag_bool fs "enable-finalizers";
     cfg_QueryConfig :=
       {| QueryInterval := Some (flag_duration fs "prometheus-metrics-importer-interval");
          StepSize := Some (flag_duration fs "prometheus-metrics-importer-step-size");
          ChunkSize := Some (flag_duration fs "prometheus-metrics-importer-chunk-size") |};
     PrometheusDataSourceMaxQueryRangeDuration :=
       flag_duration fs "prometheus-datasource-max-query-range-duration";
     PrometheusDataSourceMaxBackfillImportDuration :=
       flag_duration fs "prometheus-datasource-max-import-backfill-duration";
     PrometheusDataSourceGlobalImportFromTime := importFrom |}.

Definition run_config (fs : FlagSet) : Startup.Config :=
  {| HiveHost := flag_string fs "hive-host";
     HiveUseTLS := flag_bool fs "hive-use-tls";
     HiveCAFile := flag_string fs "hive-ca-file";
     HiveTLSInsecureSkipVerify := flag_bool fs "hive-tls-insecure-skip-verify";
     HiveUseClientCertAuth := flag_bool fs "hive-use-auth";
     HiveClientCertFile := flag_string fs "hive-client-cert-file";
     HiveClientKeyFile := flag_string fs "hive-client-key-file";
     PrestoHost := flag_string fs "presto-host";
     PrestoUseTLS := flag_bool fs "presto-use-tls";
     PrestoCAFile := flag_string fs "presto-ca-file";
     PrestoTLSInsecureSkipVerify := flag_bool fs "presto-tls-insecure-skip-verify";
     PrestoUseClientCertAuth := flag_bool fs "presto-use-auth";
     PrestoClientCertFile := flag_string fs "presto-client-cert-file";
     PrestoClientKeyFile := flag_string fs "presto-client-key-file";
     LeaderLeaseDuration := flag_duration fs "lease-duration";
     cfg_PrometheusConfig :=
       {| Address := flag_string fs "prometheus-host";
          SkipTLSVerify := flag_bool fs "prometheus-skip-tls-verify";
          BearerToken := flag_string fs "prometheus-bearer-token";
          BearerTokenFile := flag_string fs "prometheus-bearer-token-file";
          CAFile := flag_string fs "prometheus-ca-file" |} |}.

Definition api_tls (fs : FlagSet) : TLSConfig :=
  {| UseTLS := flag_bool fs "use-tls"; TLSCert := flag_string fs "tls-cert"; TLSKey := flag_string fs "tls-key" |}.
Definition metrics_tls (fs : FlagSet) : TLSConfig :=
  {| UseTLS := flag_bool fs "metrics-use-tls"; TLSCert := flag_string fs "metrics-tls-cert";
     TLSKey := flag_string fs "metrics-tls-key" |}.

(** ** Starting the operator *)

(** The host the process runs on and its access to the cluster. *)
Class Host := {
  Hostname : outcome string;
  (* a client configuration from a file, or from where the process runs when there is none *)
  LoadFromFile : string → outcome unit;
  ClientConfig : string → outcome unit;
  corev1_NewForConfig : outcome unit;
  cbClientset_NewForConfig : outcome unit;
}.

Definition ParseLevel (lvl : string) : outcome string :=
  let lvl := ToLower lvl in
  if String.eqb lvl "warning" then Ok "warn"
  else if bool_decide (lvl ∈ ["panic"; "fatal"; "error"; "warn"; "info"; "debug"]) then Ok lvl
  else Err (Errorf "not a valid logrus Level: %q" [FStr lvl]).

Section start.
Context `{!FlagText, !Dialers, !Host}.

(** [operator.New]: the namespace its informers watch. *)
Definition New (fs : FlagSet) (cfg : Operator.Config) : outcome string :=
  _ ← Valid (api_tls fs);
  _ ← Valid (metrics_tls fs);
  let kubeconfig := flag_string fs "kubeconfig" in
  _ ← (if String.eqb kubeconfig "" then Ok tt else LoadFromFile kubeconfig);
  _ ← wrap_err (λ err, Errorf "Unable to get Kubernetes client config: %v" [FStr (Error err)])
        (ClientConfig kubeconfig);
  _ ← wrap_err (λ err, Errorf "Unable to create Kubernetes client: %v" [FStr (Error err)]) corev1_NewForConfig;
  _ ← wrap_err (λ err, Errorf "Unable to create Metering client: %v" [FStr (Error err)]) cbClientset_NewForConfig;
  informerNamespace cfg.

(** [newLogger] and [startReporting] up to [Run]. *)
Definition startReporting (fs : FlagSet) : outcome (Operator.Config * Startup.Config * string) :=
  _ ← wrap_err (λ err, Errorf "invalid log level: %s" [FStr (flag_string fs "log-level")])
        (ParseLevel (flag_string fs "log-level"));
  let namespace := flag_string fs "namespace" in
  namespace ← (if String.eqb namespace "" then
                 wrap_err (λ err, Go.New "could not determine namespace")
                   (ReadFile "/var/run/secrets/kubernetes.io/serviceaccount/namespace")
               else Ok namespace);
  _ ← wrap_err (λ err, Errorf "unable to get hostname, err: %s" [FStr (Error err)]) Hostname;
  let from := flag_string fs "prometheus-datasource-import-from" in
  importFrom ← (if String.eqb from "" then Ok None
                else match parse_RFC3339_zone (String.list_ascii_of_string from) with
                     | Some t => Ok (Some (fst t))
                     | None => Err (Errorf "Invalid RFC3339 timestamp for --prometheus-datasource-import-from, %s"
                                      [FStr from])
                     end);
  let cfg := controllers_config fs namespace importFrom in
  informerNamespace ← wrap_err (λ err, Errorf "unable to setup reporting-operator: %v" [FStr (Error err)]) (New fs cfg);
  Ok (cfg, run_config fs, informerNamespace).
End start.

(** ** What a flag ends up as *)
Section precedence.
Context {FT : FlagText}.

(** Names are unique; looking one up. *)
Definition names (fs : FlagSet) : list string := fl_Name <$> fs.

Lemma names_cons f fs : names (f :: fs) = fl_Name f :: names fs.
Proof. done. Qed.

Lemma flag_cons f fs name : flag (f :: fs) name = if String.eqb (fl_Name f) name then Some (fl_Value f) else flag fs name.
Proof.
  unfold flag. destruct (String.eqb_spec (fl_Name f) name) as [E|E].
  - by rewrite filter_cons_True.
  - by rewrite filter_cons_False.
Qed.

Lemma flag_in fs f : NoDup (names fs) → f ∈ fs → flag fs (fl_Name f) = Some (fl_Value f).
Proof.
  induction fs as [|g fs IH]; [by intros _ ?%elem_of_nil|]. intros [Hg Hnd]%NoDup_cons [->|Hin]%elem_of_cons.
  - by rewrite flag_cons, String.eqb_refl.
  - rewrite flag_cons. destruct (String.eqb_spec (fl_Name g) (fl_Name f)) as [E|E]; [|by apply IH].
    destruct Hg. rewrite E. by apply list_elem_of_fmap_2.
Qed.

Lemma set_flag_name value f : fl_Name (fst (set_flag value f)) = fl_Name f.
Proof. unfold set_flag. by destruct (set_value _ _) as [v [e|]]. Qed.
Lemma set_flag_value value f : fl_Value (fst (set_flag value f)) = fst (set_value (fl_Value f) value).
Proof. unfold set_flag. by destruct (set_value _ _) as [v [e|]]. Qed.
Lemma set_flag_error value f : is_Some (snd (set_flag value f)) ↔ is_Some (snd (set_value (fl_Value f) value)).
Proof. unfold set_flag. destruct (set_value _ _) as [v [e|]]; simpl; by rewrite ?is_Some_alt. Qed.

(** *** The environment *)
Definition env_values (Getenv : string → string) (prefix : string) (f : Flag) : list string :=
  let val := Getenv (env_key prefix (fl_Name f)) in
  if fl_Changed f || String.eqb val "" then [] else [val].

Definition set_all (v : flag_value) (settings : list string) : flag_value :=
  fold_left (λ v s, fst (set_value v s)) settings v.

Lemma flag_from_env_spec Getenv prefix f :
  fl_Name (fst (flag_from_env Getenv prefix f)) = fl_Name f ∧
  fl_Value (fst (flag_from_env Getenv prefix f)) = set_all (fl_Value f) (env_values Getenv prefix f) ∧
  (is_Some (snd (flag_from_env Getenv prefix f)) ↔
   ∃ val, env_values Getenv prefix f = [val] ∧ is_Some (snd (set_value (fl_Value f) val))).
Proof.
  unfold flag_from_env, env_values. destruct (fl_Changed f); simpl.
  { split_and!; [done|done|]. split; [by intros []|by intros (? & ? & _)]. }
  destruct (String.eqb (Getenv _) "") eqn:E; simpl.
  { split_and!; [done|done|]. split; [by intros []|by intros (? & ? & _)]. }
  set (val := Getenv (env_key prefix (fl_Name f))) in *.
  pose proof (set_flag_name val f) as Hn. pose proof (set_flag_value val f) as Hv.
  pose proof (set_flag_error val f) as He.
  destruct (set_flag val f) as [g [serr|]]; simpl in *; (split_and!; [done|done|]); split; try done.
  - intros _. exists val. split; [done|]. by apply He.
  - intros (v & [= <-] & Hs). by apply He in Hs.
Qed.
(** Every flag is visited once; an error anywhere is one of the result. *)
Lemma SetFlagsFromEnv_fold Getenv prefix l done err :
  fold_left (λ '(done, err) f,
    let '(f, serr) := flag_from_env Getenv prefix f in
    (done ++ [f], match serr with Some _ => serr | None => err end)) l (done, err)
  = (done ++ (fst ∘ flag_from_env Getenv prefix <$> l),
     match last (omap (snd ∘ flag_from_env Getenv prefix) l) with Some e => Some e | None => err end).
Proof.
  revert done err. induction l as [|f l IH]; intros done err; simpl; [by rewrite app_nil_r|].
  destruct (flag_from_env Getenv prefix f) as [g [serr|]] eqn:E; rewrite IH; unfold compose; simpl; rewrite ?E; simpl.
  - rewrite <- app_assoc. simpl. rewrite last_cons. by destruct (last _).
  - by rewrite <- app_assoc.
Qed.

Lemma SetFlagsFromEnv_ok Getenv fs prefix fs' :
  SetFlagsFromEnv Getenv fs prefix = (fs', None) →
  fs' = (fst ∘ flag_from_env Getenv prefix <$> sort_by fl_Name fs) ∧
  ∀ f, f ∈ fs → snd (flag_from_env Getenv prefix f) = None.
Proof.
  unfold SetFlagsFromEnv. rewrite SetFlagsFromEnv_fold. simpl.
  destruct (last _) as [e|] eqn:E; [done|]. intros [= <-]. split; [done|]. intros f Hin.
  apply last_None in E. destruct (snd (flag_from_env Getenv prefix f)) as [e|] eqn:Ef; [|done].
  assert (e ∈ omap (snd ∘ flag_from_env Getenv prefix) (sort_by fl_Name fs)) as He.
  { apply list_elem_of_omap. exists f. split; [|done]. by rewrite (sort_by_Permutation fl_Name fs). }
  rewrite E in He. by apply elem_of_nil in He.
Qed.

Lemma SetFlagsFromEnv_flag Getenv fs prefix fs' f :
  SetFlagsFromEnv Getenv fs prefix = (fs', None) → NoDup (names fs) → f ∈ fs →
  names fs' ≡ₚ names fs ∧ flag fs' (fl_Name f) = Some (set_all (fl_Value f) (env_values Getenv prefix f)).
Proof.
  intros [-> _]%SetFlagsFromEnv_ok Hnd Hin.
  destruct (flag_from_env_spec Getenv prefix f) as (En & Ev & _).
  assert (names (fst ∘ flag_from_env Getenv prefix <$> sort_by fl_Name fs) = names (sort_by fl_Name fs)) as Hn.
  { unfold names. rewrite <- list_fmap_compose. apply list_fmap_ext. intros _ g _. simpl. apply flag_from_env_spec. }
  assert (names (sort_by fl_Name fs) ≡ₚ names fs) as Hp by (unfold names; by rewrite sort_by_Permutation).
  split; [by rewrite Hn|]. rewrite <- Ev, <- En. apply flag_in; [by rewrite Hn, Hp|].
  apply list_elem_of_fmap. exists f. split; [done|]. by rewrite (sort_by_Permutation fl_Name fs).
Qed.

(** *** The arguments *)
Definition arg_values (args : list (string * string)) (name : string) : list string :=
  snd <$> filter (λ a, a.1 = name) args.

Lemma Set_spec fs name value fs' n :
  Set_ fs name value = Ok fs' →
  names fs' = names fs ∧
  flag fs' n = (if String.eqb name n then (λ v, fst (set_value v value)) <$> flag fs n else flag fs n).
Proof.
  revert fs'. induction fs as [|f fs IH]; intros fs' H; simpl in H; [done|].
  destruct (String.eqb_spec (fl_Name f) name) as [E|E].
  - pose proof (set_flag_name value f) as Hn. pose proof (set_flag_value value f) as Hv.
    destruct (set_flag value f) as [g [e|]]; [done|]. simpl in *. injection H as <-.
    split; [by rewrite !names_cons, Hn|]. rewrite !flag_cons, Hn, Hv, E. by destruct (String.eqb_spec name n).
  - destruct (Set_ fs name value) as [fs1|e|p]; try done. injection H as <-. destruct (IH fs1 eq_refl) as [Hn Hf].
    split; [by rewrite !names_cons, Hn|]. rewrite !flag_cons, Hf.
    destruct (String.eqb_spec (fl_Name f) n) as [E'|]; [|done]. destruct (String.eqb_spec name n); [congruence|done].
Qed.

Lemma Parse_spec fs args fs' n v :
  Parse fs args = Ok fs' → flag fs n = Some v → flag fs' n = Some (set_all v (arg_values args n)).
Proof.
  revert fs v. induction args as [|[name value] args IH]; intros fs v H Hv; simpl in H; [by injection H as <-|].
  destruct (Set_ fs name value) as [fs1|e|p] eqn:E; try done.
  destruct (Set_spec _ _ _ _ n E) as [_ Hf]. unfold arg_values.
  destruct (String.eqb_spec name n) as [->|Hne]; rewrite Hv in Hf; simpl in Hf.
  - rewrite filter_cons_True by done. simpl. by eapply IH.
  - rewrite filter_cons_False by done. by eapply IH.
Qed.

(** Settings of a scalar replace each other, settings of a list add up. *)
Lemma set_all_scalar v settings :
  match v with FlagSlice _ _ => False | _ => True end →
  set_all v settings = match last settings with Some s => fst (set_value v s) | None => v end.
Proof.
  revert v. induction settings as [|s settings IH]; intros v Hv; [done|].
  unfold set_all in *. simpl. rewrite last_cons.
  assert (∀ s', fst (set_value (fst (set_value v s)) s') = fst (set_value v s')) as Hs.
  { intros s'. destruct v; simpl; try done; repeat (destruct (scalar _ _); simpl); done. }
  rewrite IH by (destruct v; simpl; try done; by destruct (scalar _ _)).
  destruct (last settings) as [s'|]; [apply Hs|done].
Qed.
(** C37: what a flag is set to.  The environment is read before any argument, so
    when the operator starts, a scalar has the last value it is given in the
    arguments, else the one of its environment variable, else its default; a
    list is the variable's items followed by those of all arguments, not the
    arguments' alone; and a variable that does not parse is fatal even for a
    flag the arguments set. *)
Theorem flags_precedence Getenv fs args f :
  NoDup (names fs) → f ∈ fs → fl_Changed f = false →
  let settings := env_values Getenv "REPORTING_OPERATOR" f ++ arg_values args (fl_Name f) in
  (∀ fs', main Getenv fs args = Ok fs' →
     match fl_Value f with
     | FlagSlice _ _ => flag fs' (fl_Name f) = Some (set_all (fl_Value f) settings)
     | v => flag fs' (fl_Name f) = Some (match last settings with Some s => fst (set_value v s) | None => v end)
     end) ∧
  (∀ val err, env_values Getenv "REPORTING_OPERATOR" f = [val] → snd (set_value (fl_Value f) val) = Some err →
     ∃ err', main Getenv fs args = Err err').
Proof.
  intros Hnd Hin Hch settings. split.
  - intros fs' Hmain. unfold main in Hmain.
    destruct (SetFlagsFromEnv Getenv fs "REPORTING_OPERATOR") as [fs1 [e|]] eqn:E; [done|].
    destruct (Parse fs1 args) as [fs2|e|p] eqn:Ep; try done. injection Hmain as <-.
    destruct (SetFlagsFromEnv_flag _ _ _ _ _ E Hnd Hin) as [_ Hf].
    pose proof (Parse_spec _ _ _ _ _ Ep Hf) as Hp.
    assert (flag fs2 (fl_Name f) = Some (set_all (fl_Value f) settings)) as Hall.
    { rewrite Hp. unfold settings, set_all. by rewrite fold_left_app. }
    destruct (fl_Value f) eqn:Ev; [..|done]; rewrite Hall; by rewrite set_all_scalar.
  - intros val err Hval Herr. unfold main.
    destruct (SetFlagsFromEnv Getenv fs "REPORTING_OPERATOR") as [fs1 [e|]] eqn:E; [by eexists|].
    apply SetFlagsFromEnv_ok in E as [_ Hnone]. specialize (Hnone f Hin).
    destruct (flag_from_env_spec Getenv "REPORTING_OPERATOR" f) as (_ & _ & Hs).
    assert (is_Some (snd (flag_from_env Getenv "REPORTING_OPERATOR" f))) as [x Hx]; [|congruence].
    apply Hs. exists val. split; [done|]. by exists err.
Qed.
End precedence.

(** ** The start command's flags *)

(** No two flags share an environment variable. *)
Lemma env_keys_distinct : NoDup (env_key "REPORTING_OPERATOR" <$> names startFlags).
Proof. apply (bool_decide_eq_true_1 _). vm_compute. reflexivity. Qed.

(** Lists without quotes. *)
Fixpoint split_commas (s : string) : list string :=
  match s with
  | "" => [""]
  | String c s =>
      if Ascii.eqb c "," then "" :: split_commas s
      else match split_commas s with w :: l => String c w :: l | [] => [] end
  end.
#[local] Instance plain_text : FlagText :=
  {| ParseInt _ := Ok 0; ParseDuration _ := Err (Go.New "time: invalid duration"); readAsCSV s := Ok (split_commas s) |}.

Definition target_namespaces : Flag := MkFlag "target-namespaces" (FlagSlice [] false) false.
Definition team_env (key : string) : string :=
  if String.eqb key "REPORTING_OPERATOR_TARGET_NAMESPACES" then "team-a" else "".

Lemma flags_precedence_witness :
  let args := [("target-namespaces", "team-b,team-c")] in
  let settings := env_values team_env "REPORTING_OPERATOR" target_namespaces ++ arg_values args "target-namespaces" in
  (∀ fs', main team_env startFlags args = Ok fs' → flag fs' "target-namespaces" = Some (set_all (FlagSlice [] false) settings)) ∧
  set_all (FlagSlice [] false) settings = FlagSlice ["team-a"; "team-b"; "team-c"] true.
Proof.
  intros args settings. split; [|vm_compute; reflexivity].
  apply (proj1 (flags_precedence team_env startFlags args target_namespaces
    ltac:(apply (bool_decide_eq_true_1 _); vm_compute; reflexivity)
    ltac:(unfold startFlags, target_namespaces; repeat first [left; reflexivity | right]) eq_refl)).
Defined.
