(* ===== verification/Prometheus.v ===== *)
(** * Prometheus collectors
    (src/vendor/github.com/prometheus/client_golang/prometheus: desc.go,
    labels.go, vec.go, registry.go, counter.go, histogram.go)

    The part of the client library the operator uses: descriptors and their
    registration, and vectors of counters, gauges and histograms, whose
    series are made when they are first asked for.  The hashes that identify
    a descriptor or a series are the values they are made from. *)

From S2P Require Export Columns.
Open Scope Z_scope.

(** [utf8.ValidString]. *)
Fixpoint valid_utf8 (skip : nat) (bs : list Z) : bool :=
  match bs with
  | [] => true
  | b :: bs =>
      match skip with
      | S k => valid_utf8 k bs
      | O => let '(_, w) := decode_rune b bs in ((b <? 0x80) || (1 <? w)%nat) && valid_utf8 (pred w) bs
      end
  end.
Definition ValidString (s : string) : bool := valid_utf8 0 (str_bytes s).

(** ** Descriptors *)
Inductive metric_type := CounterType | GaugeType | HistogramType | SummaryType.
#[export] Instance metric_type_eq_dec : EqDecision metric_type.
Proof. solve_decision. Defined.

Record Opts := {
  o_Namespace : string;
  o_Subsystem : string;
  o_Name : string;
  o_Help : string;
  o_ConstLabels : gmap string string;
  o_Buckets : list Z;            (* of a histogram *)
}.

(** A vector; a collector that is not one has no labels. *)
Record Vec := MkVec { v_type : metric_type; v_opts : Opts; v_labels : list string }.

Definition BuildFQName (namespace subsystem name : string) : string :=
  if String.eqb name "" then ""
  else Join (filter (λ s, s ≠ "") [namespace; subsystem; name]) "_".
Definition fqName (v : Vec) : string :=
  BuildFQName (o_Namespace (v_opts v)) (o_Subsystem (v_opts v)) (o_Name (v_opts v)).

(** [LabelName.IsValid], and [IsValidMetricName], which also accepts a colon;
    both only look at ASCII characters, so at the bytes. *)
Definition name_byte (colon first : bool) (b : Z) : bool :=
  cont 97 122 b || cont 65 90 b || (b =? 95) || (cont 48 57 b && negb first) || (colon && (b =? 58)).
Definition valid_name (colon : bool) (s : string) : bool :=
  match str_bytes s with
  | [] => false
  | b :: bs => name_byte colon true b && forallb (name_byte colon false) bs
  end.
Definition IsValidMetricName : string → bool := valid_name true.
Definition checkLabelName (l : string) : bool := valid_name false l && negb (HasPrefix l "__").

(** [desc.err], as [NewDesc] leaves it. *)
Definition invalid_label (l : string) : error := Errorf "%q is not a valid label name" [FStr l].
Definition desc_err (v : Vec) : option error :=
  let const := map_to_list (o_ConstLabels (v_opts v)) in
  if String.eqb (o_Help (v_opts v)) "" then Some (New "empty help string")
  else if negb (IsValidMetricName (fqName v)) then
    Some (Errorf "%q is not a valid metric name" [FStr (fqName v)])
  else match list_find (λ l, checkLabelName l = false) const.*1 with
  | Some (_, l) => Some (invalid_label l)
  | None =>
      match list_find (λ s, ValidString s = false) (fqName v :: const.*2) with
      | Some (_, s) => Some (Errorf "label value %q is not valid UTF-8" [FStr s])
      | None =>
          match list_find (λ l, checkLabelName l = false) (v_labels v) with
          | Some (_, l) => Some (invalid_label l)
          | None =>
              if decide (NoDup (const.*1 ++ v_labels v)) then None else Some (New "duplicate label names")
          end
      end
  end.

(** What [id] and [dimHash] are hashes of. *)
Definition desc_id (v : Vec) : string * gmap string string := (fqName v, o_ConstLabels (v_opts v)).
Definition desc_dim (v : Vec) : string * (gset string * gset string) :=
  (o_Help (v_opts v), (dom (o_ConstLabels (v_opts v)), list_to_set (v_labels v))).

(** ** Registration *)
Record Registry := MkRegistry {
  descIDs : gset (string * gmap string string);
  dimsByName : gmap string (string * (gset string * gset string));
}.
Definition NewRegistry : Registry := MkRegistry ∅ ∅.

(** [Register] for a collector with one descriptor. *)
Definition Register (v : Vec) (r : Registry) : Registry * option error :=
  match desc_err v with
  | Some err => (r, Some (Errorf "descriptor %s is invalid: %s" [FStr (fqName v); FStr (Error err)]))
  | None =>
      if match dimsByName r !! fqName v with Some d => negb (bool_decide (d = desc_dim v)) | None => false end then
        (r, Some (Errorf "a previously registered descriptor with the same fully-qualified name as %s has different label names or a different help string"
                    [FStr (fqName v)]))
      else if decide (desc_id v ∈ descIDs r) then (r, Some (New "duplicate metrics collector registration attempted"))
      else (MkRegistry ({[desc_id v]} ∪ descIDs r) (<[fqName v := desc_dim v]> (dimsByName r)), None)
  end.

Definition MustRegister (v : Vec) (r : Registry) : outcome Registry :=
  match Register v r with (r, None) => Ok r | (_, Some err) => Panic (Error err) end.
Fixpoint register_all (vs : list Vec) (r : Registry) : outcome Registry :=
  match vs with [] => Ok r | v :: vs => r ← MustRegister v r; register_all vs r end.

(** ** Series

    A series is found by the name of its vector and its label values, in the
    order of the vector's labels.  Values are integers here: everything the
    operator adds to a counter or a gauge is one, and below 2^53 a float64
    holds it exactly.  A histogram keeps what was observed, as durations. *)
Abbreviation series := (string * list string)%type.
Inductive sample := Num (z : Z) | Observed (l : list Duration).
Abbreviation Samples := (gmap series sample).

Definition value (k : series) (m : Samples) : Z := match m !! k with Some (Num z) => z | _ => 0 end.
Definition observations (k : series) (m : Samples) : list Duration :=
  match m !! k with Some (Observed l) => l | _ => [] end.

Fixpoint increasing (l : list Z) : bool :=
  match l with x :: (y :: _) as l' => (x <? y) && increasing l' | _ => true end.

(** What [newMetric] refuses; summaries are only made without labels here. *)
Definition new_sample (v : Vec) : outcome sample :=
  match v_type v with
  | HistogramType =>
      if member "le" (v_labels v ++ (map_to_list (o_ConstLabels (v_opts v))).*1) then
        Panic (fmt_q "le" +:+ " is not allowed as label name in histograms")
      else if negb (increasing (o_Buckets (v_opts v))) then Panic "histogram buckets must be in increasing order"
      else Ok (Observed [])
  | SummaryType => Ok (Observed [])
  | _ => Ok (Num 0)
  end.

Definition errInconsistentCardinality : string := "inconsistent label cardinality".

(** [getOrCreateMetric]. *)
Definition get_or_create (v : Vec) (lvs : list string) (m : Samples) : outcome (series * Samples) :=
  let k := (fqName v, lvs) in
  match m !! k with
  | Some _ => Ok (k, m)
  | None => s ← new_sample v; Ok (k, <[k := s]> m)
  end.

Definition WithLabelValues (v : Vec) (lvs : list string) (m : Samples) : outcome (series * Samples) :=
  if negb (length lvs =? length (v_labels v))%nat then Panic errInconsistentCardinality
  else match list_find (λ s, ValidString s = false) lvs with
  | Some (_, s) => Panic (Sprintf "label value %q is not valid UTF-8" [FStr s])
  | None => get_or_create v lvs m
  end.

(** [With]; Go ranges over the labels in any order, which matters only to
    which of several values that are not UTF-8 a panic names. *)
Definition With (v : Vec) (labels : gmap string string) (m : Samples) : outcome (series * Samples) :=
  if negb (size labels =? length (v_labels v))%nat then Panic errInconsistentCardinality
  else match list_find (λ p, ValidString p.2 = false) (map_to_list labels) with
  | Some (_, (name, s)) => Panic (Sprintf "label %s: value %q is not valid UTF-8" [FStr name; FStr s])
  | None =>
      match mapM (λ l, labels !! l) (v_labels v) with
      | Some lvs => get_or_create v lvs m
      | None => Panic "label name missing in label map"
      end
  end.

(** A collector without labels has its series from the start. *)
Definition NewCollector (v : Vec) (m : Samples) : outcome (series * Samples) := get_or_create v [] m.

Definition add_value (k : series) (n : Z) (m : Samples) : Samples := <[k := Num (value k m + n)]> m.
Definition set_value (k : series) (n : Z) (m : Samples) : Samples := <[k := Num n]> m.
(** [counter.Add]. *)
Definition Add_counter (k : series) (n : Z) (m : Samples) : outcome Samples :=
  if n <? 0 then Panic "counter cannot decrease in value" else Ok (add_value k n m).
Definition Observe (k : series) (d : Duration) (m : Samples) : Samples :=
  <[k := Observed (observations k m ++ [d])]> m.

(** ** Facts *)
Lemma get_or_create_inv v lvs m k m' :
  get_or_create v lvs m = Ok (k, m') →
  k = (fqName v, lvs) ∧
  (∀ j, value j m' = value j m) ∧ (∀ j, observations j m' = observations j m) ∧
  (∀ j, j ≠ k → m' !! j = m !! j).
Proof.
  unfold get_or_create. destruct (m !! (fqName v, lvs)) as [s|] eqn:E.
  { intros [= <- <-]. done. }
  destruct (new_sample v) as [s| |] eqn:Es; intros [= <- <-].
  assert (s = Num 0 ∨ s = Observed []) as Hs.
  { unfold new_sample in Es. destruct (v_type v); repeat case_match; simplify_eq; tauto. }
  unfold value, observations. split_and!; [done|..]; intros j; destruct (decide (j = (fqName v, lvs))) as [->|Hj].
  1,3: rewrite lookup_insert_eq, E; by destruct Hs as [-> | ->].
  1,2: by rewrite lookup_insert_ne.
  - done.
  - intros _. by rewrite lookup_insert_ne.
Qed.

Lemma With_inv v labels m k m' :
  With v labels m = Ok (k, m') →
  ∃ lvs, mapM (λ l, labels !! l) (v_labels v) = Some lvs ∧ get_or_create v lvs m = Ok (k, m').
Proof. unfold With. intros H. repeat case_match; try done. by eexists. Qed.

Lemma get_or_create_ok v lvs m s :
  new_sample v = Ok s → ∃ m', get_or_create v lvs m = Ok ((fqName v, lvs), m').
Proof. intros Hs. unfold get_or_create. destruct (m !! _); rewrite ?Hs; by eexists. Qed.

(** Labels of the vector's names, all of them UTF-8, are accepted. *)
Lemma With_ok v labels m lvs s :
  size labels = length (v_labels v) → map_Forall (λ _ s, ValidString s = true) labels →
  mapM (λ l, labels !! l) (v_labels v) = Some lvs → new_sample v = Ok s →
  ∃ m', With v labels m = Ok ((fqName v, lvs), m').
Proof.
  intros Hsize Hvalid Hl Hs. unfold With. rewrite Hsize, Nat.eqb_refl. simpl negb. cbv iota.
  destruct (list_find _ _) as [[i [n l]]|] eqn:E; [|rewrite Hl; by eapply get_or_create_ok].
  apply list_find_Some in E as (Hi & Hn & _). apply list_elem_of_lookup_2, elem_of_map_to_list in Hi.
  apply Hvalid in Hi. simpl in Hn. congruence.
Qed.

Lemma WithLabelValues_inv v lvs m k m' :
  WithLabelValues v lvs m = Ok (k, m') → get_or_create v lvs m = Ok (k, m') ∧ Forall (λ s, ValidString s = true) lvs.
Proof.
  unfold WithLabelValues. intros H. repeat case_match; try done. split; [done|].
  apply Forall_forall. intros s Hs. destruct (ValidString s) eqn:E; [done|].
  match goal with Hf : list_find _ _ = None |- _ => rewrite list_find_None in Hf; rewrite Forall_forall in Hf end.
  by destruct (H1 s).
Qed.

Lemma value_add k j n m : value j (add_value k n m) = value j m + (if decide (j = k) then n else 0).
Proof.
  unfold add_value, value at 1. case_decide as E; [subst; by rewrite lookup_insert_eq|].
  rewrite lookup_insert_ne by done. unfold value. lia.
Qed.
Lemma observations_observe k j d m :
  observations j (Observe k d m) = observations j m ++ (if decide (j = k) then [d] else []).
Proof.
  unfold Observe, observations at 1. case_decide as E; [subst; by rewrite lookup_insert_eq|].
  rewrite lookup_insert_ne by done. unfold observations. by rewrite app_nil_r.
Qed.
Lemma lookup_add_ne k j n m : j ≠ k → add_value k n m !! j = m !! j.
Proof. intros. unfold add_value. by rewrite lookup_insert_ne. Qed.
Lemma lookup_observe_ne k j d m : j ≠ k → Observe k d m !! j = m !! j.
Proof. intros. unfold Observe. by rewrite lookup_insert_ne. Qed.
Lemma value_lookup j m m' : m' !! j = m !! j → value j m' = value j m ∧ observations j m' = observations j m.
Proof. unfold value, observations. by intros ->. Qed.

(** A registry knows the name of every descriptor it has. *)
Definition registry_ok (r : Registry) : Prop := ∀ id, id ∈ descIDs r → is_Some (dimsByName r !! id.1).

Lemma Register_fresh v r :
  registry_ok r → desc_err v = None → dimsByName r !! fqName v = None →
  Register v r = (MkRegistry ({[desc_id v]} ∪ descIDs r) (<[fqName v := desc_dim v]> (dimsByName r)), None).
Proof.
  intros Hr He Hd. unfold Register. rewrite He, Hd. case_decide as Hid; [|done].
  apply Hr in Hid. unfold desc_id in Hid. simpl in Hid. rewrite Hd in Hid. by destruct Hid.
Qed.

Lemma registry_ok_add v r :
  registry_ok r → registry_ok (MkRegistry ({[desc_id v]} ∪ descIDs r) (<[fqName v := desc_dim v]> (dimsByName r))).
Proof.
  intros Hr id. simpl. rewrite elem_of_union, elem_of_singleton.
  destruct (decide (fqName v = id.1)) as [<-|Hne]; [rewrite lookup_insert_eq; by eexists|].
  rewrite lookup_insert_ne by done. intros [->|Hid]; [done|by apply Hr].
Qed.

(** Collectors with different names, none of them known yet, all register. *)
Lemma register_all_fresh vs r :
  registry_ok r → Forall (λ v, desc_err v = None) vs → NoDup (fqName <$> vs) →
  Forall (λ v, dimsByName r !! fqName v = None) vs →
  ∃ r', register_all vs r = Ok r' ∧ registry_ok r' ∧
  (∀ name, name ∉ fqName <$> vs → dimsByName r' !! name = dimsByName r !! name) ∧
  ∀ v, v ∈ vs → dimsByName r' !! fqName v = Some (desc_dim v).
Proof.
  revert r. induction vs as [|v vs IH]; intros r Hr He Hnd Hf; [exists r; split_and!; done || set_solver|].
  apply Forall_cons in He as [Hev He]. apply NoDup_cons in Hnd as [Hv Hnd].
  apply Forall_cons in Hf as [Hfv Hf].
  destruct (IH (MkRegistry ({[desc_id v]} ∪ descIDs r) (<[fqName v := desc_dim v]> (dimsByName r))))
    as (r' & Hrun & Hr' & Hname & Hown); [by apply registry_ok_add|done|done| |].
  { apply Forall_forall. intros v' Hv'. simpl. rewrite lookup_insert_ne; [by eapply Forall_forall in Hf|].
    intros E. apply Hv. rewrite E. by apply list_elem_of_fmap_2. }
  exists r'. split_and!; [|done|..].
  - simpl. unfold MustRegister. rewrite Register_fresh by done. exact Hrun.
  - intros name [Hne Hnot]%not_elem_of_cons. rewrite Hname by done. simpl. by rewrite lookup_insert_ne.
  - intros v' [->|Hv']%elem_of_cons; [|by apply Hown].
    rewrite Hname by done. simpl. by rewrite lookup_insert_eq.
Qed.

(** Text in ASCII, numbers among it, is valid UTF-8. *)
Lemma ValidString_ascii s : Forall (λ b, b < 0x80) (str_bytes s) → ValidString s = true.
Proof.
  unfold ValidString. generalize (str_bytes s). intros bs H. induction H as [|b bs Hb _ IH]; [done|].
  simpl. unfold decode_rune. apply Z.ltb_lt in Hb. rewrite Hb. simpl. exact IH.
Qed.

Lemma pretty_N_ascii n s :
  Forall (λ b, b < 0x80) (str_bytes s) → Forall (λ b, b < 0x80) (str_bytes (pretty_N_go n s)).
Proof.
  revert s. induction (N.lt_wf_0 n) as [n _ IH]. intros s Hs.
  destruct (decide (0 < n)%N) as [Hn|Hn].
  - rewrite pretty_N_go_step by done. apply IH; [apply N.div_lt; lia|].
    change (Forall (λ b, b < 0x80) (byte_of (pretty_N_char (n `mod` 10)) :: str_bytes s)). constructor; [|done].
    unfold pretty_N_char. destruct (n `mod` 10)%N as [|p]; [done|]. repeat (destruct p as [p|p|]; try done).
  - assert (n = 0%N) as -> by lia. by rewrite pretty_N_go_0.
Qed.

Lemma ValidString_pretty (z : Z) : ValidString (pretty z) = true.
Proof.
  assert (∀ p : positive, Forall (λ b, b < 0x80) (str_bytes (pretty p))) as Hp.
  { intros p. unfold pretty, pretty_positive, pretty, pretty_N. rewrite decide_False by done.
    apply pretty_N_ascii. constructor. }
  apply ValidString_ascii. unfold pretty, pretty_Z. destruct z as [|p|p]; [|apply Hp|].
  - apply Forall_cons. split; [done|constructor].
  - apply Forall_cons. split; [done|apply Hp].
Qed.
