(* ===== verification/Metrics.v ===== *)
(** * Metrics of the operator
    (the collectors of src/pkg/operator/promsum.go, reports.go and
    hivetables.go, src/pkg/util/chiprometheus/middleware.go,
    src/pkg/util/workqueue/prometheus, src/pkg/util/reflector/prometheus)

    Which collectors the program registers, and what its activities do to
    their series: imports through the counters of their trace, requests
    through the router's middleware, work queues through the metrics of
    client-go. *)

From S2P Require Export Prometheus Http ReportRuns WorkQueue.
Open Scope Z_scope.

(** ** Collectors *)
Definition prometheusMetricNamespace : string := "metering".
Definition plain_opts (namespace subsystem name help : string) : Opts :=
  {| o_Namespace := namespace; o_Subsystem := subsystem; o_Name := name; o_Help := help;
     o_ConstLabels := ∅; o_Buckets := [] |}.
Definition with_buckets (l : list Z) (o : Opts) : Opts :=
  {| o_Namespace := o_Namespace o; o_Subsystem := o_Subsystem o; o_Name := o_Name o; o_Help := o_Help o;
     o_ConstLabels := o_ConstLabels o; o_Buckets := l |}.

(** *** promsum.go *)
Definition prometheusReportDatasourceLabels : list string := ["reportdatasource"; "namespace"; "table_name"].
Definition datasource_counter (name help : string) : Vec :=
  MkVec CounterType (plain_opts prometheusMetricNamespace "" name help) prometheusReportDatasourceLabels.
Definition datasource_histogram (name help : string) (buckets : list Z) : Vec :=
  MkVec HistogramType (with_buckets buckets (plain_opts prometheusMetricNamespace "" name help))
    prometheusReportDatasourceLabels.

Definition prometheusReportDatasourceMetricsScrapedCounter : Vec :=
  datasource_counter "prometheus_reportdatasource_metrics_scraped_total"
    "Number of Prometheus metrics returned by a PrometheusQuery for a ReportDataSource.".
Definition prometheusReportDatasourceMetricsImportedCounter : Vec :=
  datasource_counter "prometheus_reportdatasource_metrics_imported_total"
    "Number of Prometheus ReportDatasource metrics imported.".
Definition prometheusReportDatasourceTotalImportsCounter : Vec :=
  datasource_counter "prometheus_reportdatasource_imports_total"
    "Number of Prometheus ReportDatasource metrics imports.".
Definition prometheusReportDatasourceFailedImportsCounter : Vec :=
  datasource_counter "prometheus_reportdatasource_failed_imports_total"
    "Number of failed Prometheus ReportDatasource metrics imports.".
Definition prometheusReportDatasourceTotalPrometheusQueriesCounter : Vec :=
  datasource_counter "prometheus_reportdatasource_prometheus_queries_total"
    "Number of Prometheus ReportDatasource Prometheus queries made for the ReportDataSource since start up.".
Definition prometheusReportDatasourceFailedPrometheusQueriesCounter : Vec :=
  datasource_counter "prometheus_reportdatasource_failed_prometheus_queries_total"
    "Number of failed Prometheus ReportDatasource Prometheus queries made for the ReportDataSource since start up.".
Definition prometheusReportDatasourceTotalPrestoStoresCounter : Vec :=
  datasource_counter "prometheus_reportdatasource_presto_stores_total"
    "Number of Prometheus ReportDatasource calls to store all metrics collected into Presto.".
Definition prometheusReportDatasourceFailedPrestoStoresCounter : Vec :=
  datasource_counter "prometheus_reportdatasource_failed_presto_stores_total"
    "Number of failed Prometheus ReportDatasource calls to store all metrics collected into Presto.".
Definition prometheusReportDatasourceImportDurationHistogram : Vec :=
  datasource_histogram "prometheus_reportdatasource_import_duration_seconds"
    "Duration to import Prometheus metrics into Presto." [30; 60; 300].
Definition prometheusReportDatasourcePrometheusQueryDurationHistogram : Vec :=
  datasource_histogram "prometheus_reportdatasource_prometheus_query_duration_seconds"
    "Duration for a Prometheus query to return metrics to reporting-operator." [2; 10; 30; 60].
Definition prometheusReportDatasourcePrestoreStoreDurationHistogram : Vec :=
  datasource_histogram "prometheus_reportdatasource_presto_store_duration_seconds"
    "Duration to store all metrics fetched into Presto." [2; 10; 30; 60; 300].
Definition prometheusReportDatasourceRunningImportsGauge : Vec :=
  MkVec GaugeType (plain_opts prometheusMetricNamespace "" "prometheus_reportdatasource_running_imports"
                     "Number of Prometheus ReportDatasource imports currently running.") [].

(** [init], in the order of the calls. *)
Definition promsum_collectors : list Vec :=
  [prometheusReportDatasourceMetricsScrapedCounter; prometheusReportDatasourceMetricsImportedCounter;
   prometheusReportDatasourceTotalImportsCounter; prometheusReportDatasourceFailedImportsCounter;
   prometheusReportDatasourceTotalPrometheusQueriesCounter;
   prometheusReportDatasourceFailedPrometheusQueriesCounter;
   prometheusReportDatasourceTotalPrestoStoresCounter; prometheusReportDatasourceFailedPrestoStoresCounter;
   prometheusReportDatasourceImportDurationHistogram;
   prometheusReportDatasourcePrometheusQueryDurationHistogram;
   prometheusReportDatasourcePrestoreStoreDurationHistogram; prometheusReportDatasourceRunningImportsGauge].

(** *** reports.go and hivetables.go *)
Definition reportPrometheusMetricLabels : list string := ["report"; "namespace"; "reportquery"; "table_name"].
Definition report_opts (name : string) : Opts :=
  plain_opts prometheusMetricNamespace "" name "Duration to generate a Report.".
Definition generateReportTotalCounter : Vec :=
  MkVec CounterType (report_opts "generate_reports_total") reportPrometheusMetricLabels.
Definition generateReportFailedCounter : Vec :=
  MkVec CounterType (report_opts "generate_reports_failed_total") reportPrometheusMetricLabels.
Definition generateReportDurationHistogram : Vec :=
  MkVec HistogramType (with_buckets [60; 300; 600] (report_opts "generate_report_duration_seconds"))
    reportPrometheusMetricLabels.
Definition reports_collectors : list Vec :=
  [generateReportFailedCounter; generateReportTotalCounter; generateReportDurationHistogram].

Definition hiveTablePartitionsGauge : Vec :=
  MkVec GaugeType (plain_opts "metering" "" "table_partitions" "Current number of partitions in a HiveTable.")
    ["table_name"].
Definition hivetables_collectors : list Vec := [hiveTablePartitionsGauge].

(** *** util/reflector/prometheus *)
Definition reflectorSubsystem : string := "reflector".
Definition reflector_vec (t : metric_type) (name help : string) : Vec :=
  MkVec t (plain_opts "" reflectorSubsystem name help) ["name"].
Definition listsTotal : Vec :=
  reflector_vec CounterType "lists_total" "Total number of API lists done by the reflectors".
Definition listsDuration : Vec :=
  reflector_vec SummaryType "list_duration_seconds"
    "How long an API list takes to return and decode for the reflectors".
Definition itemsPerList : Vec :=
  reflector_vec SummaryType "items_per_list" "How many items an API list returns to the reflectors".
Definition watchesTotal : Vec :=
  reflector_vec CounterType "watches_total" "Total number of API watches done by the reflectors".
Definition shortWatchesTotal : Vec :=
  reflector_vec CounterType "short_watches_total" "Total number of short API watches done by the reflectors".
Definition watchDuration : Vec :=
  reflector_vec SummaryType "watch_duration_seconds"
    "How long an API watch takes to return and decode for the reflectors".
Definition itemsPerWatch : Vec :=
  reflector_vec SummaryType "items_per_watch" "How many items an API watch returns to the reflectors".
Definition lastResourceVersion : Vec :=
  reflector_vec GaugeType "last_resource_version" "Last resource version seen for the reflectors".
Definition reflector_collectors : list Vec :=
  [listsTotal; listsDuration; itemsPerList; watchesTotal; shortWatchesTotal; watchDuration; itemsPerWatch;
   lastResourceVersion].

(** What the provider gives a reflector: its series in each vector. *)
Definition reflector_metrics (name : string) (m : Samples) : outcome (list series * Samples) :=
  foldr (λ v o, '(ks, m) ← o; '(k, m) ← WithLabelValues v [name] m; Ok (k :: ks, m)) (Ok ([], m)) reflector_collectors.

(** *** util/workqueue/prometheus

    The metrics of a queue, in the order client-go asks the provider for
    them; registering them reports no error. *)
Definition queue_metric (t : metric_type) (queue name help : string) : Vec :=
  MkVec t (plain_opts "" queue name help) [].
Definition NewDepthMetric (name : string) : Vec :=
  queue_metric GaugeType name "depth" ("Current depth of workqueue: " +:+ name).
Definition NewAddsMetric (name : string) : Vec :=
  queue_metric CounterType name "adds" ("Total number of adds handled by workqueue: " +:+ name).
Definition NewLatencyMetric (name : string) : Vec :=
  queue_metric SummaryType name "queue_latency"
    ("How long an item stays in workqueue" +:+ name +:+ " before being requested.").
Definition NewWorkDurationMetric (name : string) : Vec :=
  queue_metric SummaryType name "work_duration"
    ("How long processing an item from workqueue" +:+ name +:+ " takes.").
Definition NewUnfinishedWorkSecondsMetric (name : string) : Vec :=
  queue_metric GaugeType name "unfinished_work_seconds"
    ("How many seconds of work " +:+ name +:+ " has done that is in progress and hasn't been observed by work_duration. Large values indicate stuck threads. One can deduce the number of stuck threads by observing the rate at which this increases.").
Definition NewLongestRunningProcessorMicrosecondsMetric (name : string) : Vec :=
  queue_metric GaugeType name "longest_running_processor_microseconds"
    ("How many microseconds has the longest running processor for " +:+ name +:+ " been running.").
Definition NewRetriesMetric (name : string) : Vec :=
  queue_metric CounterType name "retries" ("Total number of retries handled by workqueue: " +:+ name).
Definition queue_collectors (name : string) : list Vec :=
  [NewDepthMetric name; NewAddsMetric name; NewLatencyMetric name; NewWorkDurationMetric name;
   NewUnfinishedWorkSecondsMetric name; NewLongestRunningProcessorMicrosecondsMetric name; NewRetriesMetric name].
Definition register_queue (name : string) (r : Registry) : Registry :=
  fold_left (λ r v, (Register v r).1) (queue_collectors name) r.

(** The queues of the operator ([newReportingOperator]). *)
Definition queue_names : list string :=
  ["reports"; "reportdatasources"; "reportqueries"; "prestotables"; "hivetables"; "storagelocation"].

(** *** util/chiprometheus *)
Definition dflBuckets : list Z := [300; 1200; 5000].
Definition reqsName : string := "_requests_total".
Definition latencyName : string := "_request_duration_milliseconds".

Record Middleware := MkMiddleware { reqs : Vec; latency : Vec }.

Definition middleware_vec (t : metric_type) (service name help : string) (buckets : list Z) : Vec :=
  MkVec t {| o_Namespace := ""; o_Subsystem := ""; o_Name := replace_byte "-" "_" (service +:+ name);
             o_Help := help; o_ConstLabels := {[ "service" := service ]}; o_Buckets := buckets |}
    ["code"; "method"; "path"].
Definition middleware_of (name : string) (buckets : list Z) : Middleware :=
  {| reqs := middleware_vec CounterType name reqsName
       "How many HTTP requests processed, partitioned by status code, method and HTTP path." [];
     latency := middleware_vec HistogramType name latencyName
       "How long it took to process the request, partitioned by status code, method and HTTP path."
       (match buckets with [] => dflBuckets | _ => buckets end) |}.
Definition NewMiddleware (name : string) (buckets : list Z) (r : Registry) : outcome (Middleware * Registry) :=
  let m := middleware_of name buckets in
  r ← MustRegister (reqs m) r;
  r ← MustRegister (latency m) r;
  Ok (m, r).

(** [Status] of chi's wrapper around the writer: zero as long as the handler
    has written nothing. *)
Definition wrapped_status (ops : list wop) : Z :=
  match rs_Sent (fold_left apply_op ops (MkResponse ∅ None [])) with Some (code, _) => code | None => 0 end.

(** [handler]: [next] is what the handler behind it did, in the time
    [elapsed].  A panic goes on to the server, which drops the connection. *)
Definition handler (c : Middleware) (method path : string) (elapsed : Duration) (next : outcome (list wop))
    (m : Samples) : outcome (list wop) * Samples :=
  match next with
  | Ok ops =>
      let labels := [pretty (wrapped_status ops); method; path] in
      match WithLabelValues (reqs c) labels m with
      | Ok (k, m) =>
          let m := add_value k 1 m in
          match WithLabelValues (latency c) labels m with
          | Ok (k, m) => (Ok ops, Observe k elapsed m)
          | Err err => (Err err, m)
          | Panic p => (Panic p, m)
          end
      | Err err => (Err err, m)
      | Panic p => (Panic p, m)
      end
  | Err err => (Err err, m)
  | Panic p => (Panic p, m)
  end.

(** Requests to the router, in the order in which their handlers end. *)
Record completion := {
  cp_Method : string;
  cp_Path : string;
  cp_Elapsed : Duration;
  cp_Next : outcome (list wop);
}.
Definition complete (c : Middleware) (m : Samples) (cp : completion) : Samples :=
  (handler c (cp_Method cp) (cp_Path cp) (cp_Elapsed cp) (cp_Next cp) m).2.

Definition prometheusMiddleware : Middleware := middleware_of "reporting-operator" [].

Section router.
Context {S : Type} `{!Env S} {MO : MapOrder} {HL : HttpLibrary} {RO : RowOrder} {RT : Router}
    (collectorFunc : prometheusImporterFunc S).

(** A request through the router with its middleware. *)
Definition serve_metered (path : string) (r : Request) (elapsed : Duration) (w : world S) (m : Samples)
    : outcome (list wop) * world S * Samples :=
  let '(next, w) := serve collectorFunc path r w in
  let '(out, m) := handler prometheusMiddleware (rq_Method r) path elapsed next m in
  (out, w, m).
End router.

(** *** The program's start

    Package variables and [init] functions run in the order of the imports,
    then of the file names; the queues are made by [operator.New]. *)
Definition init_collectors : list Vec :=
  reflector_collectors ++ [reqs prometheusMiddleware; latency prometheusMiddleware] ++
  hivetables_collectors ++ promsum_collectors ++ reports_collectors.

(** ** Counters of an import *)
Record ImporterMetricsCollectors := MkCollectors {
  TotalImportsCounter : series;
  FailedImportsCounter : series;
  ImportDurationHistogram : series;
  ImportsRunning : series;
  TotalPrometheusQueriesCounter : series;
  FailedPrometheusQueriesCounter : series;
  PrometheusQueryDurationHistogram : series;
  TotalPrestoStoresCounter : series;
  FailedPrestoStoresCounter : series;
  PrestoStoreDurationHistogram : series;
  MetricsScrapedCounter : series;
  MetricsImportedCounter : series;
}.

(** Series of the gauge without labels, made with it. *)
Definition running_imports : series := (fqName prometheusReportDatasourceRunningImportsGauge, []).

Definition newPromImporterMetricsCollectors (reportDataSource : ReportDataSource) (prestoTable : PrestoTable)
    (cfg : Importer.Config) (m : Samples) : outcome (ImporterMetricsCollectors * Samples) :=
  let promLabels : gmap string string :=
    <["reportdatasource" := Name (ds_Meta reportDataSource)]>
    (<["namespace" := Namespace (ds_Meta reportDataSource)]>
     (<["table_name" := cfg_PrestoTableName cfg]> ∅)) in
  '(totalImportsCounter, m) ← With prometheusReportDatasourceTotalImportsCounter promLabels m;
  '(failedImportsCounter, m) ← With prometheusReportDatasourceFailedImportsCounter promLabels m;
  '(totalPrometheusQueriesCounter, m) ← With prometheusReportDatasourceTotalPrometheusQueriesCounter promLabels m;
  '(failedPrometheusQueriesCounter, m) ← With prometheusReportDatasourceFailedPrometheusQueriesCounter promLabels m;
  '(totalPrestoStoresCounter, m) ← With prometheusReportDatasourceTotalPrestoStoresCounter promLabels m;
  '(failedPrestoStoresCounter, m) ← With prometheusReportDatasourceFailedPrestoStoresCounter promLabels m;
  '(promQueryMetricsScrapedCounter, m) ← With prometheusReportDatasourceMetricsScrapedCounter promLabels m;
  '(promQueryDurationHistogram, m) ← With prometheusReportDatasourcePrometheusQueryDurationHistogram promLabels m;
  '(metricsImportedCounter, m) ← With prometheusReportDatasourceMetricsImportedCounter promLabels m;
  '(importDurationHistogram, m) ← With prometheusReportDatasourceImportDurationHistogram promLabels m;
  '(prestoStoreDurationHistogram, m) ← With prometheusReportDatasourcePrestoreStoreDurationHistogram promLabels m;
  Ok ({| TotalImportsCounter := totalImportsCounter; FailedImportsCounter := failedImportsCounter;
         ImportDurationHistogram := importDurationHistogram; ImportsRunning := running_imports;
         TotalPrometheusQueriesCounter := totalPrometheusQueriesCounter;
         FailedPrometheusQueriesCounter := failedPrometheusQueriesCounter;
         PrometheusQueryDurationHistogram := promQueryDurationHistogram;
         TotalPrestoStoresCounter := totalPrestoStoresCounter;
         FailedPrestoStoresCounter := failedPrestoStoresCounter;
         PrestoStoreDurationHistogram := prestoStoreDurationHistogram;
         MetricsScrapedCounter := promQueryMetricsScrapedCounter;
         MetricsImportedCounter := metricsImportedCounter |}, m).

(** The series an import's events count in. *)
Definition counter_series (mc : ImporterMetricsCollectors) (c : counter) : option series :=
  match c with
  | ImportsRunningGauge => Some (ImportsRunning mc)
  | TotalImports => Some (TotalImportsCounter mc)
  | FailedImports => Some (FailedImportsCounter mc)
  | TotalPrometheusQueries => Some (TotalPrometheusQueriesCounter mc)
  | FailedPrometheusQueries => Some (FailedPrometheusQueriesCounter mc)
  | TotalPrestoStores => Some (TotalPrestoStoresCounter mc)
  | FailedPrestoStores => Some (FailedPrestoStoresCounter mc)
  | MetricsScraped => Some (MetricsScrapedCounter mc)
  | MetricsImported => Some (MetricsImportedCounter mc)
  | GenerateReportTotal | GenerateReportFailed | HiveTablePartitions => None
  end.

(** Those of a run of a report, from [runReport]; and the gauge of a Hive
    table. *)
Record ReportCollectors := {
  genReportTotalCounter : series;
  genReportFailedCounter : series;
  genReportDurationObserver : series;
}.
Definition newReportCollectors (report : Report) (tableName : string) (m : Samples)
    : outcome (ReportCollectors * Samples) :=
  let metricLabels : gmap string string :=
    <["report" := Name (r_Meta report)]> (<["namespace" := Namespace (r_Meta report)]>
    (<["reportquery" := rs_QueryName (r_Spec report)]> (<["table_name" := tableName]> ∅))) in
  '(total, m) ← With generateReportTotalCounter metricLabels m;
  '(failed, m) ← With generateReportFailedCounter metricLabels m;
  '(duration, m) ← With generateReportDurationHistogram metricLabels m;
  Ok ({| genReportTotalCounter := total; genReportFailedCounter := failed; genReportDurationObserver := duration |}, m).
Definition report_series (rc : ReportCollectors) (c : counter) : option series :=
  match c with
  | GenerateReportTotal => Some (genReportTotalCounter rc)
  | GenerateReportFailed => Some (genReportFailedCounter rc)
  | _ => None
  end.
Definition table_partitions (tableName : string) (c : counter) : option series :=
  match c with HiveTablePartitions => Some (fqName hiveTablePartitionsGauge, [tableName]) | _ => None end.

(** One event of a run whose counters count in the series given, and the
    events of several runs at once in the order they happen: every change of
    a series is atomic. *)
Abbreviation tagged := ((counter → option series) * event)%type.
Definition record_event (e : tagged) (m : Samples) : outcome Samples :=
  match ev_action e.2 with
  | ACounter c n =>
      match e.1 c with
      | Some k =>
          match c with
          | ImportsRunningGauge => Ok (add_value k n m)
          | HiveTablePartitions => Ok (set_value k n m)
          | _ => Add_counter k n m
          end
      | None => Ok m
      end
  | _ => Ok m
  end.
Fixpoint record_events (l : list tagged) (m : Samples) : outcome Samples :=
  match l with [] => Ok m | e :: l => m ← record_event e m; record_events l m end.

(** ** Facts about series *)

(** Counters only go up, and no gauge is set. *)
Definition counting (e : event) : Prop :=
  match ev_action e with
  | ACounter HiveTablePartitions _ => False
  | ACounter ImportsRunningGauge _ => True
  | ACounter _ n => 0 ≤ n
  | _ => True
  end.

(** By how much events change a series. *)
Definition change (k : series) (e : tagged) : Z :=
  match ev_action e.2 with ACounter c n => if decide (e.1 c = Some k) then n else 0 | _ => 0 end.
Definition changes (k : series) (l : list tagged) : Z := foldr (λ e z, change k e + z) 0 l.

Lemma changes_app k l1 l2 : changes k (l1 ++ l2) = changes k l1 + changes k l2.
Proof. unfold changes. induction l1 as [|e l1 IH]; simpl; lia. Qed.
Lemma changes_cons k e l : changes k (e :: l) = change k e + changes k l.
Proof. done. Qed.
#[export] Instance changes_perm k : Proper ((≡ₚ) ==> (=)) (changes k).
Proof. intros l1 l2 H. unfold changes. induction H; simpl; lia. Qed.

Lemma record_event_change e m : counting e.2 →
  ∃ m', record_event e m = Ok m' ∧ ∀ k, value k m' = value k m + change k e.
Proof.
  unfold counting, record_event, change. intros H.
  destruct (ev_action e.2); try by (exists m; split; [done|]; intros; lia).
  destruct (e.1 c) as [j|] eqn:E; [|exists m; split; [done|]; intros; rewrite decide_False by congruence; lia].
  exists (add_value j n m). split.
  { unfold Add_counter. destruct c; try done; by rewrite (proj2 (Z.ltb_ge _ _)) by done. }
  intros k. rewrite value_add. repeat case_decide; simplify_eq; lia.
Qed.

(** Events never panic, and a series has grown by what they count in it,
    whatever their order. *)
Lemma record_events_changes l m : Forall (λ e, counting e.2) l →
  ∃ m', record_events l m = Ok m' ∧ ∀ k, value k m' = value k m + changes k l.
Proof.
  intros H. revert m. induction H as [|e l He _ IH]; intros m; simpl.
  { exists m. split; [done|]. intros. unfold changes. simpl. lia. }
  destruct (record_event_change e m He) as (m1 & -> & H1).
  destruct (IH m1) as (m2 & Hm2 & H2). exists m2. split; [exact Hm2|].
  intros k. rewrite H2, H1. unfold changes. simpl. lia.
Qed.

(** *** The series of a data source *)
Definition datasource_labels (ds : ReportDataSource) (cfg : Importer.Config) : list string :=
  [Name (ds_Meta ds); Namespace (ds_Meta ds); cfg_PrestoTableName cfg].
Definition collectors_of (lvs : list string) : ImporterMetricsCollectors :=
  {| TotalImportsCounter := (fqName prometheusReportDatasourceTotalImportsCounter, lvs);
     FailedImportsCounter := (fqName prometheusReportDatasourceFailedImportsCounter, lvs);
     ImportDurationHistogram := (fqName prometheusReportDatasourceImportDurationHistogram, lvs);
     ImportsRunning := running_imports;
     TotalPrometheusQueriesCounter := (fqName prometheusReportDatasourceTotalPrometheusQueriesCounter, lvs);
     FailedPrometheusQueriesCounter := (fqName prometheusReportDatasourceFailedPrometheusQueriesCounter, lvs);
     PrometheusQueryDurationHistogram := (fqName prometheusReportDatasourcePrometheusQueryDurationHistogram, lvs);
     TotalPrestoStoresCounter := (fqName prometheusReportDatasourceTotalPrestoStoresCounter, lvs);
     FailedPrestoStoresCounter := (fqName prometheusReportDatasourceFailedPrestoStoresCounter, lvs);
     PrestoStoreDurationHistogram := (fqName prometheusReportDatasourcePrestoreStoreDurationHistogram, lvs);
     MetricsScrapedCounter := (fqName prometheusReportDatasourceMetricsScrapedCounter, lvs);
     MetricsImportedCounter := (fqName prometheusReportDatasourceMetricsImportedCounter, lvs) |}.

Lemma With_datasource v ds cfg m k m' :
  v_labels v = prometheusReportDatasourceLabels →
  With v (<["reportdatasource" := Name (ds_Meta ds)]> (<["namespace" := Namespace (ds_Meta ds)]>
          (<["table_name" := cfg_PrestoTableName cfg]> ∅))) m = Ok (k, m') →
  k = (fqName v, datasource_labels ds cfg) ∧ (∀ j, value j m' = value j m).
Proof.
  intros Hl (lvs & Hm & Hk)%With_inv. apply get_or_create_inv in Hk as (-> & Hv & _ & _). split; [|done].
  rewrite Hl in Hm. unfold prometheusReportDatasourceLabels in Hm. simpl in Hm.
  rewrite lookup_insert_ne, lookup_insert_eq in Hm by done. simpl in Hm.
  rewrite !lookup_insert_ne, lookup_insert_eq in Hm by done. by injection Hm as <-.
Qed.

Lemma outcome_bind_Ok {A B} (o : outcome A) (f : A → outcome B) b :
  o ≫= f = Ok b → ∃ a, o = Ok a ∧ f a = Ok b.
Proof. destruct o; naive_solver. Qed.

(** Making the collectors leaves every value as it was. *)
Lemma newPromImporterMetricsCollectors_inv ds pt cfg m mc m' :
  newPromImporterMetricsCollectors ds pt cfg m = Ok (mc, m') →
  mc = collectors_of (datasource_labels ds cfg) ∧ ∀ j, value j m' = value j m.
Proof.
  unfold newPromImporterMetricsCollectors. intros H.
  repeat match type of H with
  | mbind _ _ = Ok _ => let p := fresh "p" in let E := fresh "E" in
      apply outcome_bind_Ok in H as (p & E & H); destruct p;
      apply With_datasource in E as [-> E]; [|reflexivity]
  end.
  injection H as <- <-. split; [done|]. intros j.
  repeat match goal with E : ∀ j, value j ?x = value j _ |- value _ ?x = _ => rewrite E; clear E end. done.
Qed.

(** Names that are UTF-8, as those of all resources are, make no trouble. *)
Lemma newPromImporterMetricsCollectors_ok ds pt cfg m :
  Forall (λ s, ValidString s = true) (datasource_labels ds cfg) →
  ∃ m', newPromImporterMetricsCollectors ds pt cfg m = Ok (collectors_of (datasource_labels ds cfg), m').
Proof.
  unfold datasource_labels. rewrite !Forall_cons. intros (H1 & H2 & H3 & _). unfold newPromImporterMetricsCollectors.
  assert (∀ v m, v_labels v = prometheusReportDatasourceLabels → (∃ s, new_sample v = Ok s) →
          ∃ m', With v (<["reportdatasource" := Name (ds_Meta ds)]> (<["namespace" := Namespace (ds_Meta ds)]>
                  (<["table_name" := cfg_PrestoTableName cfg]> ∅))) m =
                Ok ((fqName v, datasource_labels ds cfg), m')) as Hw.
  { intros v m0 Hl [s Hs]. eapply With_ok; [| | |exact Hs]; rewrite ?Hl.
    - by rewrite !map_size_insert_None, map_size_empty by by simplify_map_eq.
    - by repeat apply map_Forall_insert_2.
    - simpl. by simplify_map_eq. }
  repeat match goal with
  | |- context [With ?v _ ?m ≫= _] =>
      let m' := fresh "m" in let E := fresh "E" in
      destruct (Hw v m) as [m' E]; [reflexivity|by eexists|]; rewrite E; clear E; cbv beta iota zeta; cbn [mbind outcome_bind]
  end.
  by eexists.
Qed.

(** ** Imports *)
Section imports.
Context {S : Type} `{!Env S}.

(** The events of the loop over the ranges. *)
Definition loop_event (e : event) : Prop := counting e ∧ count_of TotalImports e = 0.

Lemma emits_import_ranges cfg l res : emits loop_event (import_ranges (S := S) cfg l res).
Proof.
  revert res. induction l as [|r l IH]; intros res; simpl; unfold cancelled; [emits_tac|].
  unfold store_range, exec. emits_tac; first [apply IH|by split|split; [unfold counting; simpl; lia|done]].
Qed.

(** An import counts itself once. *)
Lemma ImportFromTimeRange_events startTime endTime cfg inc w res err w' t :
  ImportFromTimeRange startTime endTime cfg inc w = (Ok (res, err), w') → trace w' = trace w ++ t →
  Forall counting t ∧ count TotalImports t = 1.
Proof.
  unfold ImportFromTimeRange. intros H Ht. run_inv.
  destruct (getTimeRangesChunked _ _ _ _ _ _) as [[|r l]|] eqn:Hl; [| |done].
  - run_inv. simpl in *. rewrite <- !app_assoc in *. simplify_list_eq. split; [by repeat constructor|done].
  - run_inv. match goal with H : import_ranges ?cfg ?l ?res ?w = _ |- _ =>
      destruct (emits_import_ranges cfg l res w) as (t1 & Ht1 & Hf); rewrite H in Ht1 end.
    simpl in *. rewrite Ht1, <- !app_assoc in Ht. apply app_inv_head in Ht as <-. split.
    + apply Forall_app. split; [by repeat constructor|]. apply Forall_app. split; [by repeat constructor|].
      apply Forall_app. split; [|by repeat constructor].
      eapply Forall_impl; [exact Hf|]. by intros e [He _].
    + rewrite !count_app.
      assert (count TotalImports t1 = 0) as ->; [|reflexivity].
      clear - Hf. induction Hf as [|e t [_ He] _ IH]; [done|]. unfold count in *. simpl. by rewrite He, IH.
Qed.

Lemma store_range_failures cfg tr metrics res w r w' :
  store_range cfg tr metrics res w = (Ok r, w') →
  ∃ t, trace w' = trace w ++ t ∧ count FailedImports t = match r with inl _ => 0 | inr _ => 1 end.
Proof.
  unfold store_range. case_decide as Hms; intros H; [run_inv; exists []; by rewrite app_nil_r|].
  run_inv. match goal with H : try _ _ = _ |- _ => apply try_effect_inv in H end.
  simpl in *. case_match; run_inv; simpl in *; eexists; (split; [trace_tac|reflexivity]).
Qed.

(** An import counts one failure at most, none if it ends without error. *)
Definition failures_of (err : option error) (n : Z) : Prop := 0 ≤ n ≤ 1 ∧ (err = None → n = 0).

Lemma import_ranges_failures cfg l res w res' err w' :
  import_ranges cfg l res w = (Ok (res', err), w') →
  ∃ t, trace w' = trace w ++ t ∧ failures_of err (count FailedImports t).
Proof.
  unfold failures_of.
  revert res w. induction l as [|r l IH]; intros res w H; simpl in H; unfold cancelled in *.
  { run_inv. exists []. by rewrite app_nil_r. }
  run_inv. case_match; run_inv; [exists []; by rewrite app_nil_r|].
  repeat match goal with H : try _ _ = _ |- _ => apply try_effect_inv in H end.
  match goal with v : PromValue + error |- _ => destruct v as [[matrix|ty]|e] end; run_inv; simpl in *;
    [|by (eexists; split; [trace_tac|])..].
  case_match; run_inv; [by (eexists; split; [trace_tac|])|].
  match goal with H : store_range _ _ _ _ _ = _ |- _ => apply store_range_failures in H as (t1 & Ht1 & Hres) end.
  match goal with H : context [match ?v with inl _ => _ | inr _ => _ end] |- _ => destruct v as [res1|e1] end;
    [|run_inv].
  - match goal with H : import_ranges _ _ _ _ = _ |- _ => apply IH in H as (t2 & Ht2 & Hn & Hok) end.
    eexists. split; [trace_tac|]. rewrite !count_app, Hres. revert Hn Hok. generalize (count FailedImports t2).
    clear. intros n Hn Hok. lazy -[Z.add Z.le]. split; [lia|]. intros. rewrite Hok by done. done.
  - eexists. split; [trace_tac|]. rewrite !count_app, Hres. clear. by split.
Qed.

Lemma ImportFromTimeRange_failures startTime endTime cfg inc w res err w' t :
  ImportFromTimeRange startTime endTime cfg inc w = (Ok (res, err), w') → trace w' = trace w ++ t →
  failures_of err (count FailedImports t).
Proof.
  unfold ImportFromTimeRange. intros H Ht. run_inv.
  destruct (getTimeRangesChunked _ _ _ _ _ _) as [[|r l]|] eqn:Hl; [| |done].
  - run_inv. simpl in *. rewrite <- !app_assoc in *. simplify_list_eq. by split.
  - run_inv. match goal with H : import_ranges _ _ _ _ = _ |- _ => apply import_ranges_failures in H as (t1 & Ht1 & Hf) end.
    simpl in *. rewrite Ht1, <- !app_assoc in Ht. apply app_inv_head in Ht as <-.
    rewrite !count_app. revert Hf. unfold failures_of. generalize (count FailedImports t1). clear.
    intros n [Hn Hok]. lazy -[Z.add Z.le]. split; [lia|]. intros. rewrite Hok by done. done.
Qed.

(** What an import's events count in its own collectors. *)
Lemma changes_own lvs c k t :
  counter_series (collectors_of lvs) c = Some k →
  changes k (pair (counter_series (collectors_of lvs)) <$> t) = count c t.
Proof.
  intros Hk.
  assert (∀ c', counter_series (collectors_of lvs) c' = Some k ↔ c' = c) as Hinj.
  { intros c'. split; [|by intros ->]. destruct c, c'; simplify_eq/=; vm_compute in *; congruence. }
  induction t as [|e t IH]; [done|]. rewrite fmap_cons, changes_cons, IH.
  change (count c (e :: t)) with (count_of c e + count c t). f_equal.
  unfold change, count_of. cbn [fst snd]. destruct (ev_action e); try done.
  specialize (Hinj c0). repeat case_decide; tauto || done.
Qed.

(** The events around the loop cancel out in the gauge. *)
Lemma count_import c t : c ≠ TotalImports →
  count c ([Ev (ACounter ImportsRunningGauge 1) true; Ev (ACounter TotalImports 1) true] ++ t ++
           [Ev (ACounter ImportsRunningGauge (-1)) true]) = count c t.
Proof.
  intros Hc. rewrite !count_app. generalize (count c t). intros n.
  destruct c; try done; lazy -[Z.add]; lia.
Qed.

Lemma changes_none k l : Forall (λ e : tagged, ∀ c, e.1 c ≠ Some k) l → changes k l = 0.
Proof.
  intros H. induction H as [|e l He _ IH]; [done|]. rewrite changes_cons, IH, Z.add_0_r.
  unfold change. destruct (ev_action e.2); try done. by rewrite decide_False.
Qed.

(** Other activities: whatever else counts meanwhile, in series that are not
    of the data source. *)
Definition foreign (lvs : list string) (e : tagged) : Prop :=
  counting e.2 ∧ ∀ c k, e.1 c = Some k → k.2 ≠ lvs.

(** C30: an import shows in the metrics of its own data source and nowhere else,
    whatever runs beside it. However the events of the import are interleaved
    with those of other activities, no counter panics; afterwards the
    counter of imported metrics of the data source has grown by the metrics
    the import reports, that of imports by one, that of failures by one at
    most and not at all after an import without error; every other series,
    the gauge of running imports among them, has changed by what the other
    activities did to it. *)
Theorem import_series_exact startTime endTime cfg inc w res err w' ds pt m0 mc m1 others :
  newPromImporterMetricsCollectors ds pt cfg m0 = Ok (mc, m1) →
  ImportFromTimeRange startTime endTime cfg inc w = (Ok (res, err), w') →
  Forall (foreign (datasource_labels ds cfg)) others →
  ∃ t, trace w' = trace w ++ t ∧
  ∀ l, l ≡ₚ (pair (counter_series mc) <$> t) ++ others →
  ∃ m2, record_events l m1 = Ok m2 ∧
  value (MetricsImportedCounter mc) m2 = value (MetricsImportedCounter mc) m0 + Z.of_nat (length (Metrics res)) ∧
  value (TotalImportsCounter mc) m2 = value (TotalImportsCounter mc) m0 + 1 ∧
  failures_of err (value (FailedImportsCounter mc) m2 - value (FailedImportsCounter mc) m0) ∧
  ∀ k, k.2 ≠ datasource_labels ds cfg → value k m2 = value k m0 + changes k others.
Proof.
  intros [-> Hm1]%newPromImporterMetricsCollectors_inv Hrun Hothers.
  destruct (ImportFromTimeRange_run _ _ _ _ _ _ _ _ Hrun) as (ranges & t & n & _ & Ht & _ & _ & [_ Himp _ _ Hgauge _]).
  eexists. split; [exact Ht|]. intros l Hl.
  destruct (ImportFromTimeRange_events _ _ _ _ _ _ _ _ _ Hrun Ht) as [Hcounting Htotal].
  pose proof (ImportFromTimeRange_failures _ _ _ _ _ _ _ _ _ Hrun Ht) as Hfail.
  set (t' := _ ++ t ++ _) in *. set (lvs := datasource_labels ds cfg) in *.
  destruct (record_events_changes l m1) as (m2 & Hm2 & Hv).
  { rewrite Hl. apply Forall_app. split; [by apply Forall_fmap|].
    eapply Forall_impl; [exact Hothers|]. by intros e []. }
  exists m2. split; [done|].
  assert (∀ k, value k m2 = value k m0 + changes k (pair (counter_series (collectors_of lvs)) <$> t') + changes k others)
    as Hk by (intros k; rewrite Hv, Hl, changes_app, Hm1; lia).
  assert (∀ k, k.2 = lvs → changes k others = 0) as Hnone.
  { intros k Hk2. apply changes_none. eapply Forall_impl; [exact Hothers|]. intros e [_ He] c E.
    by apply He in E. }
  split_and!.
  - rewrite Hk, (changes_own _ MetricsImported), Hnone by done. unfold t'. rewrite count_import, Himp by done. lia.
  - rewrite Hk, (changes_own _ TotalImports), Hnone, Htotal by done. lia.
  - rewrite Hk, (changes_own _ FailedImports), Hnone by done.
    replace (_ + _ + 0 - _) with (count FailedImports t') by lia. exact Hfail.
  - intros k Hne. rewrite Hk. destruct (decide (k = running_imports)) as [->|Hr].
    + rewrite (changes_own _ ImportsRunningGauge) by done. unfold t'. rewrite count_import, Hgauge by done. lia.
    + rewrite changes_none; [lia|]. apply Forall_fmap, Forall_true. intros e c E. simpl in E.
      destruct c; simplify_eq/=; done.
Qed.
End imports.

(** ** Requests *)

(** Whether a handler has sent anything. *)
Definition wrote (ops : list wop) : bool :=
  existsb (λ op, match op with SetHeader _ _ => false | _ => true end) ops.

Lemma apply_ops_sent ops r p : rs_Sent r = Some p → rs_Sent (fold_left apply_op ops r) = Some p.
Proof.
  revert r. induction ops as [|op ops IH]; intros r Hr; [done|]. simpl. apply IH.
  destruct op; simpl; unfold send_header; by rewrite ?Hr.
Qed.

Lemma apply_ops_wrote ops r : rs_Sent r = None →
  is_Some (rs_Sent (fold_left apply_op ops r)) ↔ wrote ops = true.
Proof.
  revert r. induction ops as [|op ops IH]; intros r Hr; simpl.
  { rewrite Hr. split; [by intros [? ?]|done]. }
  destruct op; simpl.
  - by apply IH.
  - split; [done|]. intros _. erewrite apply_ops_sent; [by eexists|]. unfold send_header. by rewrite Hr.
  - split; [done|]. intros _. erewrite apply_ops_sent; [by eexists|]. unfold send_header. rewrite Hr. done.
Qed.

(** The middleware sees the status the client gets, if the handler has sent
    one: net/http's own 200 comes after it. *)
Lemma wrapped_status_client ops :
  wrapped_status ops = if wrote ops then status (respond ops) else 0.
Proof.
  pose proof (apply_ops_wrote ops (MkResponse ∅ None []) eq_refl) as Hw.
  unfold wrapped_status, status, respond, send_header.
  destruct (rs_Sent (fold_left apply_op ops _)) as [[code h]|] eqn:E.
  - rewrite E. rewrite (proj1 Hw) by by eexists. done.
  - destruct (wrote ops); [|done]. destruct (proj2 Hw eq_refl). done.
Qed.

(** Does a request end with this code, method and path? *)
Definition counted (code method path : string) (cp : completion) : bool :=
  match cp_Next cp with
  | Ok ops =>
      String.eqb code (pretty (if wrote ops then status (respond ops) else 0)) &&
      String.eqb method (cp_Method cp) && String.eqb path (cp_Path cp)
  | _ => false
  end.

(** What of a request the library accepts as labels. *)
Definition utf8_request (cp : completion) : bool := ValidString (cp_Method cp) && ValidString (cp_Path cp).

Lemma WithLabelValues_middleware v cp (z : Z) m :
  v ∈ [reqs prometheusMiddleware; latency prometheusMiddleware] →
  ∃ r, WithLabelValues v [pretty z; cp_Method cp; cp_Path cp] m = r ∧
  if utf8_request cp then
    ∃ m', r = Ok ((fqName v, [pretty z; cp_Method cp; cp_Path cp]), m') ∧
    (∀ j, value j m' = value j m) ∧ (∀ j, observations j m' = observations j m) ∧
    (∀ j, j.1 ≠ fqName v → m' !! j = m !! j)
  else ∃ p, r = Panic p.
Proof.
  intros Hv. eexists. split; [reflexivity|]. unfold WithLabelValues.
  replace (length (v_labels v)) with 3%nat by (set_unfold in Hv; naive_solver). simpl negb. cbv iota.
  destruct (list_find (λ s, ValidString s = false) [pretty z; cp_Method cp; cp_Path cp]) as [[i s]|] eqn:E.
  - apply list_find_Some in E as (Hs & Hf & _). unfold utf8_request.
    destruct i as [|[|[|i]]]; simpl in Hs; simplify_eq.
    + by rewrite ValidString_pretty in Hf.
    + rewrite Hf. by eexists.
    + rewrite Hf, andb_false_r. by eexists.
  - apply list_find_None in E. rewrite !Forall_cons in E. destruct E as (_ & H1 & H2 & _).
    unfold utf8_request. apply not_false_iff_true in H1, H2. rewrite H1, H2. simpl andb. cbv iota.
    assert (∃ s, new_sample v = Ok s) as [s Hs].
    { set_unfold in Hv. destruct Hv as [->|[->|?]]; [by eexists..|done]. }
    destruct (get_or_create v [pretty z; cp_Method cp; cp_Path cp] m) as [[k m']|e|p] eqn:G.
    + apply get_or_create_inv in G as (-> & ? & ? & Hl). eexists. split_and!; [done..|].
      intros j Hj. apply Hl. by intros ->.
    + unfold get_or_create in G. rewrite Hs in G. by destruct (m !! _).
    + unfold get_or_create in G. rewrite Hs in G. by destruct (m !! _).
Qed.

Definition reqs_series (code method path : string) : series := (fqName (reqs prometheusMiddleware), [code; method; path]).
Definition latency_series (code method path : string) : series :=
  (fqName (latency prometheusMiddleware), [code; method; path]).

(** One request. *)
Lemma complete_spec m cp :
  (∀ code method path,
   value (reqs_series code method path) (complete prometheusMiddleware m cp) =
   value (reqs_series code method path) m + (if utf8_request cp && counted code method path cp then 1 else 0) ∧
   observations (latency_series code method path) (complete prometheusMiddleware m cp) =
   observations (latency_series code method path) m ++
   (if utf8_request cp && counted code method path cp then [cp_Elapsed cp] else [])) ∧
  (∀ k, k.1 ∉ [fqName (reqs prometheusMiddleware); fqName (latency prometheusMiddleware)] →
   complete prometheusMiddleware m cp !! k = m !! k).
Proof.
  assert (∀ z : Z, z = z + 0) as Hz by lia.
  unfold complete, handler, counted. destruct (cp_Next cp) as [ops|e|p];
    [|rewrite andb_false_r; split; [|done]; intros; rewrite app_nil_r; by split..].
  rewrite wrapped_status_client. set (z := if wrote ops then _ else _). cbv zeta.
  destruct (WithLabelValues_middleware (reqs prometheusMiddleware) cp z m) as (r & -> & Hr); [set_solver|].
  destruct (utf8_request cp) eqn:Hu.
  2:{ destruct Hr as [p ->]. split; [|done]. intros. rewrite app_nil_r. by split. }
  destruct Hr as (m1 & -> & Hv1 & Ho1 & Hl1).
  set (k1 := (fqName (reqs prometheusMiddleware), [pretty z; cp_Method cp; cp_Path cp]) : series) in *.
  destruct (WithLabelValues_middleware (latency prometheusMiddleware) cp z (add_value k1 1 m1)) as (r & -> & Hr); [set_solver|].
  rewrite Hu in Hr. destruct Hr as (m2 & -> & Hv2 & Ho2 & Hl2). cbv iota beta. cbn [snd].
  set (k2 := (fqName (latency prometheusMiddleware), [pretty z; cp_Method cp; cp_Path cp]) : series) in *.
  split.
  - intros code method path.
    assert (∀ n : string, bool_decide ((n, [code; method; path]) = (n, [pretty z; cp_Method cp; cp_Path cp])) =
                 String.eqb code (pretty z) && String.eqb method (cp_Method cp) && String.eqb path (cp_Path cp)) as Hb.
    { intros n. apply Bool.eq_iff_eq_true. rewrite bool_decide_eq_true, !andb_true_iff, !String.eqb_eq. naive_solver. }
    simpl andb. split.
    + transitivity (value (reqs_series code method path) m2).
      { apply value_lookup. by rewrite lookup_observe_ne. }
      rewrite Hv2, value_add, Hv1. rewrite <- (Hb (fqName (reqs prometheusMiddleware))).
      unfold reqs_series, k1. case_decide;
          [by rewrite bool_decide_true|by rewrite bool_decide_false].
    + rewrite observations_observe, Ho2. f_equal.
      * transitivity (observations (latency_series code method path) m1); [|apply Ho1].
        apply value_lookup. by rewrite lookup_add_ne.
      * rewrite <- (Hb (fqName (latency prometheusMiddleware))). unfold latency_series, k2.
        case_decide;
          [by rewrite bool_decide_true|by rewrite bool_decide_false].
  - intros k Hk. assert (k.1 ≠ k1.1 ∧ k.1 ≠ k2.1) as [H1 H2] by set_solver.
    rewrite lookup_observe_ne by congruence. rewrite Hl2 by done. rewrite lookup_add_ne by congruence. by rewrite Hl1.
Qed.


(** A request with a byte in its path that is no UTF-8 gets no answer: the
    middleware panics when the handler has already written one. *)
Lemma bad_path_panics method path elapsed ops m :
  ValidString path = false → ∃ p, (handler prometheusMiddleware method path elapsed (Ok ops) m).1 = Panic p.
Proof.
  intros Hp. unfold handler.
  destruct (WithLabelValues_middleware (reqs prometheusMiddleware)
              {| cp_Method := method; cp_Path := path; cp_Elapsed := elapsed; cp_Next := Ok ops |}
              (wrapped_status ops) m) as (r & E & Hr); [set_solver|].
  cbn [cp_Method cp_Path] in E. rewrite E. unfold utf8_request in Hr. cbn [cp_Method cp_Path] in Hr. rewrite Hp, andb_false_r in Hr.
  destruct Hr as [p ->]. by eexists.
Qed.

(** Two requests of three show: the path of the third has the byte 0xFF. *)
Example requests_counted :
  let get path code := {| cp_Method := "GET"; cp_Path := path; cp_Elapsed := 5;
                          cp_Next := Ok [WriteHeader code; WriteBody (PText "body")] |} in
  let bad := String (ascii_of_nat 47) (String (ascii_of_nat 255) "") in
  let m := fold_left (complete prometheusMiddleware) [get "/a" 200; get bad 404; get "/a" 200] ∅ in
  value (reqs_series "200" "GET" "/a") m = 2 ∧ observations (latency_series "200" "GET" "/a") m = [5; 5] ∧
  size m = 2%nat.
Proof. vm_compute. done. Qed.

(** ** Registration *)

(** The collectors the process and the Go runtime bring along. *)
Definition runtime_name (name : string) : Prop := HasPrefix name "go_" = true ∨ HasPrefix name "process_" = true.

Definition all_collectors : list Vec := init_collectors ++ mjoin (queue_collectors <$> queue_names).

Lemma all_collectors_valid : Forall (λ v, desc_err v = None) all_collectors.
Proof.
  assert (forallb (λ v, match desc_err v with None => true | Some _ => false end) all_collectors = true) as H
    by (vm_compute; reflexivity).
  apply Forall_forall. intros v Hv. rewrite forallb_forall in H. specialize (H v).
  rewrite <- list_elem_of_In in H. specialize (H Hv). by destruct (desc_err v).
Qed.

Lemma all_collectors_names :
  NoDup (fqName <$> all_collectors) ∧ Forall (λ v, ¬ runtime_name (fqName v)) all_collectors.
Proof.
  split; [apply (bool_decide_unpack _); vm_compute; exact I|].
  assert (forallb (λ v, negb (HasPrefix (fqName v) "go_" || HasPrefix (fqName v) "process_")) all_collectors = true) as H
    by (vm_compute; reflexivity).
  apply Forall_forall. intros v Hv Hn. rewrite forallb_forall in H. specialize (H v).
  rewrite <- list_elem_of_In in H. specialize (H Hv). unfold runtime_name in Hn.
  destruct Hn as [Hn|Hn]; rewrite Hn, ?orb_true_r in H; done.
Qed.

Lemma register_queue_all name r r' :
  register_all (queue_collectors name) r = Ok r' → register_queue name r = r'.
Proof.
  unfold register_queue. generalize (queue_collectors name). intros vs. revert r.
  induction vs as [|v vs IH]; intros r; simpl; [by intros [= ->]|].
  unfold MustRegister. destruct (Register v r) as [r1 [err|]]; [done|]. simpl. apply IH.
Qed.

Lemma register_all_app vs1 vs2 r :
  register_all (vs1 ++ vs2) r = (r' ← register_all vs1 r; register_all vs2 r').
Proof. revert r. induction vs1 as [|v vs1 IH]; intros r; [done|]. simpl. destruct (MustRegister v r); simpl; [apply IH|done|done]. Qed.

Lemma register_queues_all names r r' :
  register_all (mjoin (queue_collectors <$> names)) r = Ok r' →
  fold_left (λ r name, register_queue name r) names r = r'.
Proof.
  revert r. induction names as [|name names IH]; intros r; [by intros [= ->]|].
  change (mjoin (queue_collectors <$> name :: names)) with
    (queue_collectors name ++ mjoin (queue_collectors <$> names)).
  rewrite register_all_app. intros (r1 & H1 & H2)%outcome_bind_Ok.
  change (fold_left (λ r name, register_queue name r) names (register_queue name r) = r').
  rewrite (register_queue_all _ _ _ H1). by apply IH.
Qed.

(** the program starts with all of its metrics. Whatever the process and
    Go collectors have registered, no [init] function panics, and creating
    the work queues registers every metric of theirs, although it ignores
    the errors: the registry has each collector under its own name. *)
Theorem collectors_register r :
  registry_ok r → (∀ name, is_Some (dimsByName r !! name) → runtime_name name) →
  ∃ r1, register_all init_collectors r = Ok r1 ∧
  let r2 := fold_left (λ r name, register_queue name r) queue_names r1 in
  ∀ v, v ∈ all_collectors → dimsByName r2 !! fqName v = Some (desc_dim v).
Proof.
  intros Hr Hruntime. destruct all_collectors_names as [Hnd Hnames].
  destruct (register_all_fresh all_collectors r) as (r2 & Hrun & _ & Hother & Hown);
    [done|apply all_collectors_valid|done| |].
  { eapply Forall_impl; [exact Hnames|]. intros v Hv. apply eq_None_not_Some. intros Hs. by apply Hv, Hruntime. }
  unfold all_collectors in Hrun. rewrite register_all_app in Hrun.
  apply outcome_bind_Ok in Hrun as (r1 & H1 & H2). exists r1. split; [done|]. cbv zeta.
  rewrite (register_queues_all _ _ _ H2). exact Hown.
Qed.

(** What a registry with a collector of the runtime looks like. *)
Definition goroutines : Vec :=
  MkVec GaugeType (plain_opts "" "" "go_goroutines" "Number of goroutines that currently exist.") [].
Definition runtime_registry : Registry :=
  MkRegistry ({[desc_id goroutines]} ∪ descIDs NewRegistry)
    (<[fqName goroutines := desc_dim goroutines]> (dimsByName NewRegistry)).

Lemma collectors_register_witness :
  Register goroutines NewRegistry = (runtime_registry, None) ∧
  ∃ r1, register_all init_collectors runtime_registry = Ok r1 ∧
  let r2 := fold_left (λ r name, register_queue name r) queue_names r1 in
  ∀ v, v ∈ all_collectors → dimsByName r2 !! fqName v = Some (desc_dim v).
Proof.
  assert (registry_ok NewRegistry) as Hr by (intros id Hid; set_solver).
  split; [by apply Register_fresh|]. apply (collectors_register runtime_registry).
  - by apply registry_ok_add.
  - intros name Hn. change (is_Some (<[fqName goroutines := desc_dim goroutines]> (dimsByName NewRegistry) !! name)) in Hn.
    apply lookup_insert_is_Some in Hn as [<-|[_ [d Hd]]]; [by left|done].
Defined.

(** ** Work queues

    client-go counts an addition when the item is not yet dirty, and an item
    taken off the queue. [metered q depth adds]: what the metrics of a queue
    read when it has come to [q]. *)
Inductive metered : queue → Z → Z → Prop :=
  | metered_new : metered q_New 0 0
  | metered_add x q depth adds : metered q depth adds →
      shuttingDown q = false → x ∉ q_dirty q → metered (q_Add x q) (depth + 1) (adds + 1)
  | metered_ignored x q depth adds : metered q depth adds →
      shuttingDown q = true ∨ x ∈ q_dirty q → metered (q_Add x q) depth adds
  | metered_get x q q' depth adds : metered q depth adds → q_Get q = Some (Some x, q') → metered q' (depth - 1) adds
  | metered_done x q depth adds : metered q depth adds → x ∈ q_processing q → metered (q_Done x q) depth adds
  | metered_limiter f wt q depth adds : metered q depth adds → metered (set_failures f wt q) depth adds
  | metered_shutdown q depth adds : metered q depth adds → metered (q_ShutDown q) depth adds.

Lemma metered_q_Add x q depth adds : metered q depth adds → ∃ depth adds, metered (q_Add x q) depth adds.
Proof.
  intros H. destruct (shuttingDown q) eqn:Hs; [by eexists _, _; apply metered_ignored; eauto|].
  destruct (decide (x ∈ q_dirty q)); eexists _, _; [eapply metered_ignored; eauto|by eapply metered_add].
Qed.

Lemma metered_handleErr err x n q depth adds : metered q depth adds → metered (handleErr err x n q) depth adds.
Proof.
  intros H. unfold handleErr, q_Forget, q_AddRateLimited, q_AddAfter.
  destruct err; [destruct (_ || _)|]; simpl; try destruct (shuttingDown q); by repeat apply metered_limiter.
Qed.

(** The metrics cover every execution of the workers. *)
Lemma reachable_metered n p : reachable n p → ∃ depth adds, metered (p_queue p) depth adds.
Proof.
  induction 1 as [|s s' Hs (depth & adds & IH) Hstep]; [by eexists _, _; constructor|].
  apply reachable_ok in Hs. destruct Hstep; simpl in *.
  - by eapply metered_q_Add.
  - exists depth, adds. unfold q_AddAfter. destruct (shuttingDown q); [done|by constructor].
  - eapply metered_q_Add. by constructor.
  - by eexists _, _; eapply metered_get.
  - eexists _, _. by apply metered_handleErr.
  - eexists _, _. by constructor.
  - eexists _, _. constructor; [done|]. apply (ok_processing _ _ Hs). by eexists i, (Finishing x).
  - eexists _, _. by constructor.
Qed.

(** The depth is the number of dirty items. *)
Lemma metered_depth q depth adds :
  metered q depth adds → queue_ok q ∧ depth = Z.of_nat (size (q_dirty q)) ∧ depth ≤ adds.
Proof.
  induction 1 as [|x q depth adds _ (Hq & -> & Ha) Hs Hd|x q depth adds _ (Hq & -> & Ha) Hs
                  |x q q' depth adds _ (Hq & -> & Ha) Hg|x q depth adds _ (Hq & -> & Ha) Hx|f wt q depth adds _ (Hq & -> & Ha)
                  |q depth adds _ (Hq & -> & Ha)].
  - split_and!; [|done|done]. split; [apply NoDup_nil_2|]. intros y. split; [by intros ?%not_elem_of_nil|set_solver].
  - split; [by apply queue_ok_add|]. unfold q_Add. rewrite Hs, decide_False by done. simpl.
    rewrite size_union, size_singleton by set_solver. lia.
  - split; [by apply queue_ok_add|]. unfold q_Add. destruct Hs as [-> | Hx]; [done|].
    destruct (shuttingDown q); [done|]. by rewrite decide_True.
  - split; [by eapply queue_ok_get|]. unfold q_Get in Hg.
    destruct (q_queue q) as [|y l] eqn:E; [by destruct (shuttingDown q)|]. injection Hg as <- <-. simpl.
    assert (y ∈ q_dirty q) as Hy by (apply (ok_queue _ Hq); rewrite E; by left).
    rewrite size_difference, size_singleton by set_solver.
    assert (size (q_dirty q) ≠ 0%nat) by (intros ?%size_empty_inv; set_solver). lia.
  - split; [by apply queue_ok_done|]. done.
  - split; [by apply queue_ok_limiter|]. done.
  - split; [by destruct Hq|done].
Qed.

(** In every reachable state a queue's depth metric reads the number of items
    that wait, those queued and those to be queued again when the worker that
    has them is done; it never exceeds the number of additions. *)
Theorem queue_depth_exact n p : reachable n p →
  ∃ depth adds, metered (p_queue p) depth adds ∧
  depth = Z.of_nat (length (q_queue (p_queue p)) + size (q_dirty (p_queue p) ∩ q_processing (p_queue p))) ∧
  depth ≤ adds.
Proof.
  intros (depth & adds & H)%reachable_metered. exists depth, adds. split; [done|].
  apply metered_depth in H as (Hq & -> & Ha). split; [|done]. f_equal.
  destruct (p_queue p) as [l dirty proc ? ? ?]. destruct Hq as [Hnd Hq]. simpl in *.
  assert (dirty = list_to_set l ∪ (dirty ∩ proc)) as E.
  { apply leibniz_equiv. intros x. rewrite elem_of_union, elem_of_list_to_set, Hq, elem_of_intersection.
    destruct (decide (x ∈ proc)); tauto. }
  rewrite E at 1. rewrite size_union, size_list_to_set by (done || (intros x; rewrite elem_of_list_to_set, Hq; set_solver)).
  done.
Qed.

(** ** A concrete import, next to another one that has just begun *)
Definition up : ReportDataSource := named "up".
Definition beside : list tagged :=
  pair (counter_series (collectors_of ["other"; "ns"; "t2"])) <$>
  [Ev (ACounter ImportsRunningGauge 1) true; Ev (ACounter TotalImports 1) true; Ev (ACounter MetricsImported 3) true].

Lemma import_series_exact_witness : ∃ mc m1 res w',
  newPromImporterMetricsCollectors up metrics_table Importer.cfg0 ∅ = Ok (mc, m1) ∧
  import0 = (Ok (res, None), w') ∧ length (Metrics res) = 4%nat ∧
  changes running_imports beside = 1 ∧
  ∃ t, trace w' = trace (world0 mem0) ++ t ∧
  ∀ l, l ≡ₚ (pair (counter_series mc) <$> t) ++ beside →
  ∃ m2, record_events l m1 = Ok m2 ∧
  value (MetricsImportedCounter mc) m2 = value (MetricsImportedCounter mc) ∅ + Z.of_nat (length (Metrics res)) ∧
  value (TotalImportsCounter mc) m2 = value (TotalImportsCounter mc) ∅ + 1 ∧
  failures_of None (value (FailedImportsCounter mc) m2 - value (FailedImportsCounter mc) ∅) ∧
  ∀ k, k.2 ≠ datasource_labels up Importer.cfg0 → value k m2 = value k ∅ + changes k beside.
Proof.
  destruct (newPromImporterMetricsCollectors_ok up metrics_table Importer.cfg0 ∅) as [m1 Hm1]; [by repeat constructor|].
  eexists _, m1, _, _. split; [exact Hm1|]. split; [vm_compute; reflexivity|].
  split; [reflexivity|]. split; [reflexivity|].
  eapply (import_series_exact (noon - 12 * Minute) noon Importer.cfg0 true (world0 mem0) _ _ _ up metrics_table ∅).
  - exact Hm1.
  - vm_compute. reflexivity.
  - assert (∀ c k, counter_series (collectors_of ["other"; "ns"; "t2"]) c = Some k →
            k.2 ≠ datasource_labels up Importer.cfg0) as Hs.
    { intros c k E. destruct c; try discriminate E; injection E as <-; vm_compute; discriminate. }
    apply Forall_fmap, Forall_forall. intros e He. split; [|exact Hs]. clear - He.
    rewrite !elem_of_cons in He. destruct He as [->|[->|[->|?%not_elem_of_nil]]]; done.
Defined.
