(* ===== verification/JsonAnswers.v ===== *)
(** * JSON answers as text
    ([writeResultsResponseAsJSON] and [writeResponseAsJSON] of
    src/pkg/operator/http.go and util.go, with encoding/json and
    pkg/util/orderedmap below them)

    Http answers in JSON values; this file gives the text of an answer and the
    way the code comes to it: a row is marshalled, read back into a map of
    [interface{}] values, made an ordered map and marshalled again. *)

From S2P Require Export HttpFacts OrderedJsonFacts.
Open Scope Z_scope.

(** ** Texts *)

(** [base64.StdEncoding]. *)
Definition base64_char (n : Z) : ascii :=
  ascii_of_nat (Z.to_nat (if n <? 26 then 65 + n else if n <? 52 then 71 + n else if n <? 62 then n - 4
                          else if n =? 62 then 43 else 47)).
Fixpoint base64 (l : list Z) : text :=
  match l with
  | [] => []
  | [a] => [base64_char (a / 4); base64_char (a mod 4 * 16); "="%char; "="%char]
  | [a; b] => [base64_char (a / 4); base64_char (a mod 4 * 16 + b / 16); base64_char (b mod 16 * 4); "="%char]
  | a :: b :: c :: l =>
      base64_char (a / 4) :: base64_char (a mod 4 * 16 + b / 16) :: base64_char (b mod 16 * 4 + c / 64) ::
      base64_char (c mod 64) :: base64 l
  end.
Definition base64_text (s : string) : string := String.string_of_list_ascii (base64 (str_bytes s)).

(** RFC 3339 with nanoseconds, for a time in UTC. *)
Definition layout_RFC3339Nano : list chunk :=
  [CYear; CLit "-"; CMonth; CLit "-"; CDay; CLit "T"; CHour; CLit ":"; CMinute; CLit ":"; CSecond; CFrac9; CLit "Z"].
Definition time_text (t : Time) : string := Format t layout_RFC3339Nano.

Section answers.
#[local] Set Default Proof Using "All".
Context {F64 : Float64} {FT : FloatText} (of_spec : spec_float → float64) {HL : HttpLibrary}.

(** The text of a JSON value; [of_spec] is a float64 given by its bits. *)
Fixpoint json_text (j : json) : text :=
  match j with
  | JNull => T "null"
  | JString s => encode_string s
  | JBytes s => encode_string (base64_text s)
  | JInt z => T (pretty z)
  | JFloat x => FormatFloat (of_spec x)
  | JBool b => T (if b then "true" else "false")
  | JTime t => encode_string (time_text t)
  | JArray l => brackets (comma_join (json_text <$> l))
  | JObject l => braces (comma_join ((λ p, encode_member (p.1, json_text p.2)) <$> l))
  end.
Definition payload_text (p : payload) : text := match p with PText s => T s | PJson j => json_text j end.
(** What the client reads. *)
Definition answer_text (r : Response) : text := rs_Body r ≫= payload_text.

(** [orderedmap.NewFromMap] on a row. *)
Definition NewFromRow (item : Row) : outcome any :=
  l ← marshal_row item; OrderedJson.UnmarshalJSON (json_text (JObject l)).

(** The text [writeResultsResponseAsJSON] writes, [None] if it cannot be
    encoded. *)
Definition results_text (results : list Row) : outcome (option text) :=
  newResults ← mapM NewFromRow results;
  Ok (Marshal (AnySlice newResults)).

(** ** Plain rows

    What a client reads of a value, and the values this holds for: ASCII
    text, finite numbers, integers which a float64 is written like (all those
    up to 2^53), times of four-digit years. *)
Fixpoint any_of_value (v : Value) : any :=
  match v with
  | VNil => AnyNil
  | VString s => AnyString s
  | VBytes s => AnyString (base64_text s)
  | VInt z => AnyFloat (of_spec (f64_of_Z z))
  | VFloat x => AnyFloat (of_spec x)
  | VBool b => AnyBool b
  | VTime t => AnyString (time_text t)
  | VMap l => AnyMap ((λ p, (p.1, any_of_value p.2)) <$> l)
  | VOther _ => AnyNil
  end.
Fixpoint plain_value (v : Value) : bool :=
  match v with
  | VInt z => bool_decide (FormatFloat (of_spec (f64_of_Z z)) = T (pretty z))
  | VFloat x => is_finite x
  | VTime t => (0 <=? year t) && (year t <? 10000)
  | VMap l => forallb (λ p, plain_value p.2) l
  | VOther _ => false
  | _ => true
  end.
Definition any_of_row (row : Row) : list (string * any) :=
  (λ p, (p.1, any_of_value p.2)) <$> sort_by fst (map_to_list row).
Definition plain_row (row : Row) : bool :=
  plain (AnyMap (any_of_row row)) && forallb (λ p, plain_value p.2) (sort_by fst (map_to_list row)).

Lemma Value_nested_ind (P : Value → Prop) :
  P VNil → (∀ s, P (VString s)) → (∀ s, P (VBytes s)) → (∀ z, P (VInt z)) → (∀ x, P (VFloat x)) →
  (∀ b, P (VBool b)) → (∀ t, P (VTime t)) → (∀ l, Forall (λ p, P p.2) l → P (VMap l)) → (∀ t, P (VOther t)) →
  ∀ v, P v.
Proof.
  intros Hn Hs Hb Hi Hf Hbo Ht Hm Ho. fix IH 1. intros [|s|s|z|x|b|t|l|t];
    [exact Hn|apply Hs|apply Hb|apply Hi|apply Hf|apply Hbo|apply Ht| |apply Ho].
  apply Hm. induction l as [|[k v] l IHl]; constructor; [apply IH|exact IHl].
Qed.

(** How a value is written, before and after the trip through float64. *)
Definition written (v : Value) (j : json) : Prop :=
  json_text j = enc (any_of_value v) ∧ json_text (numbers_as_floats j) = enc (any_of_value v).
Definition written_member (p : string * Value) (q : string * json) : Prop := q.1 = p.1 ∧ written p.2 q.2.

Lemma written_members l js : Forall2 written_member l js →
  fst <$> js = fst <$> l ∧ written (VMap l) (JObject js).
Proof.
  intros H. unfold written. simpl. rewrite <- !list_fmap_compose.
  assert (fst <$> js = fst <$> l ∧
    (λ p, encode_member (p.1, json_text p.2)) <$> js = (λ p, encode_member (p.1, enc (any_of_value p.2))) <$> l ∧
    (λ p, encode_member (p.1, json_text (numbers_as_floats p.2))) <$> js =
    (λ p, encode_member (p.1, enc (any_of_value p.2))) <$> l) as (E1 & E2 & E3).
  { induction H as [|[k v] [k' j] l js [E [H1 H2]] _ (IH1 & IH2 & IH3)]; [done|].
    simpl in E, H1, H2. subst k'. rewrite !fmap_cons. simpl. rewrite H1, H2. by rewrite IH1, IH2, IH3. }
  split; [exact E1|]. split; f_equal; f_equal; [by rewrite E2|].
  transitivity ((λ p, encode_member (p.1, json_text (numbers_as_floats p.2))) <$> js); [|by rewrite E3].
  apply list_fmap_ext. by intros i [k j] _.
Qed.

(** The loop of [marshal] over the entries of a map. *)
Fixpoint marshal_members (l : list (string * Value)) : outcome (list (string * json)) :=
  match l with
  | [] => Ok []
  | (k, v) :: l => j ← marshal v; rest ← marshal_members l; Ok ((k, j) :: rest)
  end.
Lemma marshal_map l : marshal (VMap l) = (js ← marshal_members l; Ok (JMap js)).
Proof. reflexivity. Qed.

(** Entries that are written as they should be, one by one. *)
Lemma marshal_members_plain l :
  Forall (λ p, plain (any_of_value p.2) = true → plain_value p.2 = true → ∃ j, marshal p.2 = Ok j ∧ written p.2 j) l →
  forallb (λ p, plain_key p.1 && plain p.2) ((λ p, (p.1, any_of_value p.2)) <$> l) = true →
  forallb (λ p, plain_value p.2) l = true →
  ∃ js, marshal_members l = Ok js ∧ Forall2 written_member l js.
Proof.
  induction l as [|[k v] l IHl]; intros IH Hp Hv; [by exists []|].
  apply Forall_cons in IH as [IHv IH]. simpl in Hp, Hv. apply andb_prop in Hp as [Hpv Hp], Hv as [Hvv Hv].
  apply andb_prop in Hpv as [_ Hpv]. destruct (IHv Hpv Hvv) as (j & Hj & Hw). simpl in Hj.
  destruct (IHl IH Hp Hv) as (js & Hjs & Hall). exists ((k, j) :: js).
  split; [simpl; by rewrite Hj; simpl; rewrite Hjs|]. by constructor.
Qed.

Lemma marshal_plain v : plain (any_of_value v) = true → plain_value v = true → ∃ j, marshal v = Ok j ∧ written v j.
Proof.
  induction v as [|s|s|z|x|b|t|l IH|t] using Value_nested_ind; intros Hp Hv; try discriminate Hv;
    try by (simpl; eexists).
  - simpl in Hv. apply bool_decide_eq_true_1 in Hv. eexists. split; [done|]. unfold written. simpl. by rewrite Hv.
  - simpl in *. unfold marshal_float. rewrite Hv. by eexists.
  - simpl in *. unfold marshal_Time. rewrite Hv. by eexists.
  - simpl in Hp, Hv. apply andb_prop in Hp as [Hasc Hp].
    rewrite <- list_fmap_compose in Hasc. change (ascending (fst <$> l) = true) in Hasc.
    destruct (marshal_members_plain l IH Hp Hv) as (js & Hjs & Hall). rewrite marshal_map, Hjs.
    apply written_members in Hall as [Hk Hw]. unfold JMap. simpl.
    rewrite sort_ascending by by rewrite Hk. by eexists.
Qed.

Lemma marshal_members_mapM l : marshal_members l = mapM (λ '(k, v), j ← marshal v; Ok (k, j)) l.
Proof.
  induction l as [|[k v] l IH]; [done|]. simpl. rewrite IH. by destruct (marshal v).
Qed.

Lemma marshal_row_plain row : plain_row row = true → ∃ js, marshal_row row = Ok js ∧
  json_text (JObject js) = enc (AnyMap (any_of_row row)) ∧
  json_text (numbers_as_floats (JObject js)) = enc (AnyMap (any_of_row row)).
Proof.
  unfold plain_row, any_of_row, marshal_row. intros [Hp Hv]%andb_prop.
  simpl in Hp. apply andb_prop in Hp as [_ Hp]. rewrite <- marshal_members_mapM.
  destruct (marshal_members_plain (sort_by fst (map_to_list row))) as (js & -> & Hjs); [|done|done|].
  { apply Forall_forall. intros p _. apply marshal_plain. }
  apply written_members in Hjs as [_ Hw]. by exists js.
Qed.

(** *** Rows and answers *)
Lemma mapM_cons_Ok {A B} (f : A → outcome B) x l y ys :
  f x = Ok y → mapM f l = Ok ys → mapM f (x :: l) = Ok (y :: ys).
Proof. intros Hx Hl. simpl. by rewrite Hx; simpl; rewrite Hl. Qed.

Definition rows_read (results : list Row) : any := AnySlice ((λ row, AnyMap (any_of_row row)) <$> results).

Lemma rows_plain results : Forall (λ row, plain_row row = true) results → plain (rows_read results) = true.
Proof.
  intros H. simpl. apply forallb_forall. intros v Hv%list_elem_of_In.
  apply list_elem_of_fmap in Hv as (row & -> & Hrow). rewrite Forall_forall in H. apply H in Hrow.
  by apply andb_prop in Hrow as [? _].
Qed.

(** Rows as Http writes them: the values of a plain row as they are read. *)
Lemma NewFromMap_rows results : Forall (λ row, plain_row row = true) results →
  ∃ js, mapM Http.NewFromMap results = Ok js ∧ json_text (JArray js) = enc (rows_read results).
Proof.
  intros H. unfold rows_read. simpl.
  assert (∃ js, mapM Http.NewFromMap results = Ok js ∧ json_text <$> js = (λ row, enc (AnyMap (any_of_row row))) <$> results)
    as (js & Hjs & E).
  { induction H as [|row results Hrow _ (js & Hjs & E)]; [by exists []|].
    destruct (marshal_row_plain row Hrow) as (l & Hl & _ & Hw). eexists. split.
    - apply mapM_cons_Ok; [|exact Hjs]. unfold Http.NewFromMap. by rewrite Hl.
    - rewrite !fmap_cons. by f_equal. }
  exists js. split; [done|]. do 2 f_equal. rewrite E, <- list_fmap_compose. done.
Qed.

(** Rows as the code makes them. *)
Lemma results_text_plain results : Forall (λ row, plain_row row = true) results →
  results_text results = Ok (Some (enc (rows_read results))).
Proof.
  intros H. unfold results_text, rows_read.
  assert (∃ vs, mapM NewFromRow results = Ok vs ∧ Marshal <$> vs = (λ row, Some (enc (AnyMap (any_of_row row)))) <$> results)
    as (vs & -> & E).
  { induction H as [|row results Hrow _ (vs & Hvs & E)]; [by exists []|].
    destruct (marshal_row_plain row Hrow) as (l & Hl & Hw & _). apply andb_prop in Hrow as [Hplain _].
    destruct (UnmarshalJSON_enc _ Hplain) as (values & Hv & Hs). eexists. split.
    - apply mapM_cons_Ok; [|exact Hvs]. unfold NewFromRow. rewrite Hl.
      transitivity (OrderedJson.UnmarshalJSON (json_text (JObject l))); [reflexivity|]. rewrite Hw. exact Hv.
    - rewrite !fmap_cons. f_equal; [exact Hs|exact E]. }
  simpl. f_equal. rewrite E.
  assert (mapM id ((λ row, Some (enc (AnyMap (any_of_row row)))) <$> results) =
          Some ((λ row, enc (AnyMap (any_of_row row))) <$> results)) as ->.
  { clear. induction results as [|row results IH]; [done|]. rewrite !fmap_cons. cbn [mapM mbind option_bind id].
    by rewrite IH. }
  simpl. by rewrite <- list_fmap_compose.
Qed.

(** C23: a JSON answer is the table: for rows of plain values the first API
    answers in JSON with status 200, and the text the code comes to, row by row
    through JSON text, ordered maps and JSON text again, is that of the answer
    Http gives; it is valid JSON and reads back as an array with one object for
    each row, in order, that has exactly the visible columns with their
    values. *)
Theorem json_answer_reads_back name columns results r :
  let visible := delete_hidden TableHidden columns <$> results in
  Forall (λ row, plain_row row = true) visible →
  ∃ ops, writeResultsResponseV1 "json" name columns results r = Ok ops ∧
  status (respond ops) = 200 ∧ header (respond ops) "Content-Type" = Some "application/json" ∧
  results_text visible = Ok (Some (answer_text (respond ops))) ∧
  Unmarshal (answer_text (respond ops)) = Some (rows_read visible).
Proof.
  intros visible H. destruct (NewFromMap_rows visible H) as (js & Hjs & E).
  exists (writeResultsResponseAsJSON name visible). split; [done|].
  unfold writeResultsResponseAsJSON. rewrite Hjs.
  set (ops := _ :: _).
  assert (answer_text (respond ops) = enc (rows_read visible)) as ->.
  { unfold answer_text, ops, attachment. simpl. by rewrite app_nil_r. }
  split; [done|]. split; [done|]. split; [by apply results_text_plain|].
  apply Unmarshal_enc. by apply rows_plain.
Qed.
End answers.

(** ** A concrete answer *)
#[local] Existing Instances small_numbers small_numbers_text.
Definition small_of_spec (x : spec_float) : float64 :=
  match x with S754_finite false m e => Z.to_nat (Z.shiftl (Zpos m) e) | _ => 0%nat end.
Definition json_row (pod : string) (cost count : Z) : Row :=
  list_to_map [("pod", VString pod); ("cost", VInt cost); ("count", VInt count); ("note", VBytes "ok");
               ("seen", VTime (Date 2019 7 4 12 0 0)); ("labels", VMap [("app", VString "<a, b>")])].

Lemma json_answer_reads_back_witness : ∃ ops,
  writeResultsResponseV1 (HL := plain_library) "json" "q" usage_columns
    [json_row "a" 12 7; json_row "b" 1 999] (get_request "json") = Ok ops ∧
  Unmarshal (answer_text small_of_spec (respond ops)) =
  Some (AnySlice [
    AnyMap [("count", AnyFloat 7%nat); ("labels", AnyMap [("app", AnyString "<a, b>")]); ("note", AnyString "b2s=");
            ("pod", AnyString "a"); ("seen", AnyString "2019-07-04T12:00:00Z")];
    AnyMap [("count", AnyFloat 999%nat); ("labels", AnyMap [("app", AnyString "<a, b>")]); ("note", AnyString "b2s=");
            ("pod", AnyString "b"); ("seen", AnyString "2019-07-04T12:00:00Z")]]).
Proof.
  destruct (json_answer_reads_back (F64 := small_numbers) (FT := small_numbers_text) small_of_spec (HL := plain_library)
    "q" usage_columns [json_row "a" 12 7; json_row "b" 1 999] (get_request "json")) as (ops & H1 & _ & _ & _ & H2).
  - repeat constructor; vm_compute; reflexivity.
  - exists ops. split; [exact H1|]. rewrite H2. match goal with |- ?x = ?y => exact (eq_refl y <: x = y) end.
Defined.

(** An integer that is no float64 comes out as another one. *)
Example json_rounds_integers :
  Http.NewFromMap (HL := plain_library) {["n" := VInt 9007199254740993]} =
  Ok (JObject [("n", JFloat (f64_of_Z 9007199254740992))]).
Proof. vm_compute. reflexivity. Qed.
