(* ===== verification/DeepCopy.v ===== *)
(** * Deep copies of API objects: the memory and the code of the copies

    A resource read from an informer's cache is shared, so the controllers
    copy it before they change it.  Elsewhere in the development resources
    are values; here they are what they are in Go, structs with pointers,
    slices and maps into a shared memory.  The methods deepcopy-gen has
    written are statements per field ([copy]), run by an interpreter; ApiCopies
    has those of the API types.  [check] decides whether the methods of a
    program copy everything they must, and is proved sound. *)

From S2P Require Export Prelude.
Open Scope nat_scope.

(** ** Memory *)
Abbreviation loc := positive.

(** What a variable holds: a value without references (text, numbers,
    instants), a nil pointer, slice or map, a reference, or a struct, its
    fields in the order of the declaration. *)
Inductive gval :=
  | Leaf (s : string)
  | Nil
  | Ptr (l : loc)
  | Slice (l : loc) (offset len : nat)
  | MapRef (l : loc)
  | Struct (fs : list gval).
(** What is at a location: a variable, an array or a map's entries. *)
Inductive cell :=
  | Var (v : gval)
  | Array (vs : list gval)
  | Table (es : list (string * gval)).
Abbreviation heap := (gmap loc cell).

Definition alloc (c : cell) (h : heap) : loc * heap := let l := fresh (dom h) in (l, <[l := c]> h).

(** The elements a slice shows of its array. *)
Definition window {A} (offset len : nat) (vs : list A) : option (list A) :=
  if offset + len <=? length vs then Some (take len (drop offset vs)) else None.

(** ** Types *)
Inductive ty :=
  | TLeaf
  | TPtr (t : ty)
  | TSlice (t : ty)
  | TMap (t : ty)
  | TNamed (n : string).

(** ** Methods

    The statements of a [DeepCopyInto], after its first, [*out = *in]. *)
Inductive copy :=
  | Assign                  (* out.F = in.F, or no statement *)
  | TimeInto                (* in.F.DeepCopyInto(&out.F), of a metav1.Time *)
  | CallInto (n : string)   (* the same, of another type *)
  | NewPlain                (* *out = new(T); **out = **in *)
  | TimeDeepCopy            (* *out = in.DeepCopy(), of a metav1.Time *)
  | NewDeep (n : string)    (* *out = new(n); in.DeepCopyInto( *out) *)
  | MakeCopy                (* *out = make([]T, len( *in)); copy( *out, *in) *)
  | MakeEach (n : string)   (* make, and DeepCopyInto for each element *)
  | MakeEachNew (n : string)  (* make, and new and DeepCopyInto for each that is not nil *)
  | MakeMap                 (* make(map[string]T), and an assignment for each key *)
  | NewSlice.               (* *out = new(S); make and copy unless **in is nil *)

Record methods := {
  into : list (string * copy);   (* [DeepCopyInto] *)
  object : bool;                 (* has [DeepCopyObject] *)
}.

(** A program: the fields of its structs, and the methods of its types. *)
Record program := {
  fields : string → option (list (string * ty));
  code : string → option methods;
}.

Fixpoint each {A B} (f : A → heap → option (B * heap)) (l : list A) (h : heap) : option (list B * heap) :=
  match l with
  | [] => Some ([], h)
  | x :: l => '(y, h) ← f x h; '(ys, h) ← each f l h; Some (y :: ys, h)
  end.

Fixpoint stmt (l : list (string * copy)) (f : string) : copy :=
  match l with
  | [] => Assign
  | (g, c) :: l => if String.eqb f g then c else stmt l f
  end.

Section interpreter.
Variable P : program.

(** [new], then the target's [DeepCopyInto]. *)
Definition new_deep (deep : gval → heap → option (gval * heap)) (x : gval) (h : heap) : option (gval * heap) :=
  match x with
  | Nil => Some (Nil, h)
  | Ptr l =>
      match h !! l with
      | Some (Var v) => '(v, h) ← deep v h; let '(l, h) := alloc (Var v) h in Some (Ptr l, h)
      | _ => None
      end
  | _ => None
  end.

Definition make_each (f : gval → heap → option (gval * heap)) (x : gval) (h : heap) : option (gval * heap) :=
  match x with
  | Nil => Some (Nil, h)
  | Slice l offset len =>
      match h !! l with
      | Some (Array vs) =>
          vs ← window offset len vs;
          '(vs, h) ← each f vs h;
          let '(l, h) := alloc (Array vs) h in Some (Slice l 0 len, h)
      | _ => None
      end
  | _ => None
  end.

Definition make_map (x : gval) (h : heap) : option (gval * heap) :=
  match x with
  | Nil => Some (Nil, h)
  | MapRef l =>
      match h !! l with
      | Some (Table es) => let '(l, h) := alloc (Table es) h in Some (MapRef l, h)
      | _ => None
      end
  | _ => None
  end.

Definition plain_copy (x : gval) (h : heap) : option (gval * heap) := Some (x, h).

(** One statement: [in.F] is [x]. *)
Definition run (deep : string → gval → heap → option (gval * heap)) (c : copy) : gval → heap → option (gval * heap) :=
  match c with
  | Assign | TimeInto => plain_copy
  | CallInto n => deep n
  | NewPlain | TimeDeepCopy => new_deep plain_copy
  | NewDeep n => new_deep (deep n)
  | MakeCopy => make_each plain_copy
  | MakeEach n => make_each (deep n)
  | MakeEachNew n => make_each (new_deep (deep n))
  | MakeMap => make_map
  | NewSlice => new_deep (make_each plain_copy)
  end.

(** [fuel] bounds how deep types are nested. *)
Fixpoint DeepCopyInto (fuel : nat) (n : string) (v : gval) (h : heap) : option (gval * heap) :=
  match fuel with
  | O => None
  | S fuel =>
      match v with
      | Struct vs =>
          decl ← fields P n; m ← code P n;
          if length decl =? length vs then
            '(vs, h) ← each (λ '(f, x), run (DeepCopyInto fuel) (stmt (into m) f) x) (zip (fst <$> decl) vs) h;
            Some (Struct vs, h)
          else None
      | _ => None
      end
  end.

(** [DeepCopy], on a pointer. *)
Definition DeepCopy (fuel : nat) (n : string) : gval → heap → option (gval * heap) := new_deep (DeepCopyInto fuel n).
(** [DeepCopyObject]: the result is an interface, nil for a nil pointer. *)
Definition DeepCopyObject (fuel : nat) (n : string) (x : gval) (h : heap) : option (gval * heap) :=
  m ← code P n; if object m then DeepCopy fuel n x h else None.

(** ** What a variable means *)
Inductive tree :=
  | DLeaf (s : string)
  | DNil
  | DPtr (d : tree)
  | DList (ds : list tree)
  | DMap (es : list (string * tree))
  | DStruct (fs : list (string * tree)).

(** The value of a variable of a type, references followed: [None] unless the
    memory is as the type says. *)
Fixpoint value_of (fuel : nat) (h : heap) (t : ty) (v : gval) : option tree :=
  match fuel with
  | O => None
  | S fuel =>
      match t, v with
      | TLeaf, Leaf s => Some (DLeaf s)
      | (TPtr _ | TSlice _ | TMap _), Nil => Some DNil
      | TPtr t, Ptr l =>
          match h !! l with Some (Var v) => DPtr <$> value_of fuel h t v | _ => None end
      | TSlice t, Slice l offset len =>
          match h !! l with
          | Some (Array vs) => vs ← window offset len vs; DList <$> mapM (value_of fuel h t) vs
          | _ => None
          end
      | TMap t, MapRef l =>
          match h !! l with
          | Some (Table es) => DMap <$> mapM (λ '(k, v), (k,.) <$> value_of fuel h t v) es
          | _ => None
          end
      | TNamed n, Struct vs =>
          decl ← fields P n;
          if length decl =? length vs then
            DStruct <$> mapM (λ '((f, t), v), (f,.) <$> value_of fuel h t v) (zip decl vs)
          else None
      | _, _ => None
      end
  end.

(** ** The check *)

(** A type without references. *)
Fixpoint plain_type (fuel : nat) (t : ty) : bool :=
  match fuel with
  | O => false
  | S fuel =>
      match t with
      | TLeaf => true
      | TNamed n => match fields P n with Some decl => forallb (λ p, plain_type fuel p.2) decl | None => false end
      | _ => false
      end
  end.

(** No variable of a type is deeper than that. *)
Fixpoint depth_at_most (fuel : nat) (t : ty) : bool :=
  match fuel with
  | O => false
  | S fuel =>
      match t with
      | TLeaf => true
      | TPtr t | TSlice t | TMap t => depth_at_most fuel t
      | TNamed n => match fields P n with Some decl => forallb (λ p, depth_at_most fuel p.2) decl | None => true end
      end
  end.

(** Does a statement copy a field of a type? *)
Definition covers (fuel : nat) (t : ty) (c : copy) : bool :=
  match c, t with
  | (Assign | TimeInto), _ => plain_type fuel t
  | CallInto n, TNamed m => String.eqb n m
  | (NewPlain | TimeDeepCopy), TPtr t => plain_type fuel t
  | NewDeep n, TPtr (TNamed m) => String.eqb n m
  | MakeCopy, TSlice t => plain_type fuel t
  | MakeEach n, TSlice (TNamed m) => String.eqb n m
  | MakeEachNew n, TSlice (TPtr (TNamed m)) => String.eqb n m
  | MakeMap, TMap t => plain_type fuel t
  | NewSlice, TPtr (TSlice t) => plain_type fuel t
  | _, _ => false
  end.

(** The types whose methods a statement calls. *)
Definition callee (c : copy) : option string :=
  match c with CallInto n | NewDeep n | MakeEach n | MakeEachNew n => Some n | _ => None end.

(** Every field is copied, and no statement is about a field that is not
    there; [names] are the types that have methods. *)
Definition check_type (fuel : nat) (names : list string) (n : string) : bool :=
  match fields P n, code P n with
  | Some decl, Some m =>
      forallb (λ '(f, t), covers fuel t (stmt (into m) f)) decl &&
      forallb (λ '(f, c), existsb (String.eqb f) (fst <$> decl) &&
                          match callee c with Some n => existsb (String.eqb n) names | None => true end) (into m)
  | _, _ => false
  end.
Definition check (fuel : nat) (names : list string) : bool := forallb (check_type fuel names) names.
End interpreter.

(** ** Facts *)
Lemma mapM_impl {A B} (f g : A → option B) l ys :
  (∀ x y, x ∈ l → f x = Some y → g x = Some y) → mapM f l = Some ys → mapM g l = Some ys.
Proof.
  rewrite !mapM_Some. intros Hfg H. induction H as [|x y l ys Hx _ IH]; constructor.
  - apply Hfg; [by left|done].
  - apply IH. intros. apply Hfg; [by right|done].
Qed.

Lemma mapM_zip_r {A B C} (f : B → option C) (l : list A) (ys : list B) ds : length ys = length l →
  mapM (λ '(_, y), f y) (zip l ys) = Some ds → mapM f ys = Some ds.
Proof.
  revert ys ds. induction l as [|a l IH]; intros [|y ys] ds Hl; try done.
  simpl. intros (d & Hd & (ds' & Hds & [= <-])%bind_Some)%bind_Some.
  rewrite Hd. simpl. by rewrite (IH ys ds') by (done || (simpl in Hl; lia)).
Qed.

#[local] Arguments window : simpl never.
Lemma alloc_union c (h n : heap) : h ##ₘ n →
  ∃ l, alloc c (h ∪ n) = (l, h ∪ <[l := c]> n) ∧ h ##ₘ <[l := c]> n ∧ n ⊆ <[l := c]> n.
Proof.
  intros Hd. exists (fresh (dom (h ∪ n))). unfold alloc. set (l := fresh (dom (h ∪ n))).
  assert (l ∉ dom (h ∪ n)) as Hl by apply is_fresh. rewrite dom_union, not_elem_of_union, !not_elem_of_dom in Hl.
  destruct Hl as [Hlh Hln]. split_and!.
  - f_equal. by rewrite insert_union_r.
  - by apply map_disjoint_insert_r_2.
  - by apply insert_subseteq.
Qed.
#[local] Opaque alloc.

Section soundness.
Context (P : program).
Abbreviation value_of := (value_of P).

Lemma value_of_weaken k (h h' : heap) t v d : h ⊆ h' → value_of k h t v = Some d → value_of k h' t v = Some d.
Proof.
  intros Hsub. revert t v d. induction k as [|k IH]; intros t v d; simpl; [done|].
  destruct t, v; try done.
  - destruct (h !! l) as [[v| |]|] eqn:E; try done. rewrite (lookup_weaken _ _ _ _ E Hsub).
    intros (d' & Hd & ->)%fmap_Some. by rewrite (IH _ _ _ Hd).
  - destruct (h !! l) as [[|vs|]|] eqn:E; try done. rewrite (lookup_weaken _ _ _ _ E Hsub).
    destruct (window offset len vs) as [ws|]; [|done]. simpl. intros (ds & Hd & ->)%fmap_Some.
    rewrite (mapM_impl _ (value_of k h' t) _ _ (λ x y _, IH t x y) Hd). done.
  - destruct (h !! l) as [[| |es]|] eqn:E; try done. rewrite (lookup_weaken _ _ _ _ E Hsub).
    intros (ds & Hd & ->)%fmap_Some. erewrite mapM_impl; [done| |exact Hd].
    intros [key x] y _ (d & Hx & ->)%fmap_Some. by rewrite (IH _ _ _ Hx).
  - destruct (fields P n) as [decl|]; [|done]. simpl. destruct (_ =? _); [|done].
    intros (ds & Hd & ->)%fmap_Some. erewrite mapM_impl; [done| |exact Hd].
    intros [[f t] x] y _ (d & Hx & ->)%fmap_Some. by rewrite (IH _ _ _ Hx).
Qed.

Lemma value_of_depth k k' h t v : depth_at_most P k t = true → k <= k' → value_of k h t v = value_of k' h t v.
Proof.
  revert k' t v. induction k as [|k IH]; intros [|k'] t v; simpl; try done; [lia|]. intros Hd Hk.
  assert (k <= k') as Hk' by lia. destruct t, v; try done.
  - destruct (h !! l) as [[v| |]|]; [|done..]. by rewrite (IH k').
  - destruct (h !! l) as [[|vs|]|]; [done| |done..]. destruct (window offset len vs); [|done]. simpl.
    f_equal. apply Forall_mapM_ext, Forall_forall. intros. by apply IH.
  - destruct (h !! l) as [[| |es]|]; [done..| |done]. f_equal. apply Forall_mapM_ext, Forall_forall.
    intros [key x] _. by rewrite (IH k').
  - destruct (fields P n) as [decl|]; [|done]. simpl. destruct (_ =? _); [|done]. f_equal.
    rewrite forallb_forall in Hd. apply Forall_mapM_ext, Forall_forall. intros [[f t] x] Hin.
    apply elem_of_zip_l, list_elem_of_In, Hd in Hin. by rewrite (IH k').
Qed.

Lemma value_of_nil k h t x : value_of (S k) h (TPtr t) x = Some DNil ↔ x = Nil.
Proof.
  simpl. split; [|by intros ->]. destruct x; try done. destruct (h !! l) as [[v| |]|]; try done.
  by intros (? & _ & ?)%fmap_Some.
Qed.

(** A value without references means the same in any memory. *)
Lemma value_of_plain j k h h' t v d :
  plain_type P j t = true → value_of k h t v = Some d → value_of k h' t v = Some d.
Proof.
  revert k t v d. induction j as [|j IH]; intros [|k] t v d; simpl; try done. destruct t, v; try done.
  destruct (fields P n) as [decl|]; [|done]. simpl. destruct (_ =? _); [|done]. intros Hp (ds & Hd & ->)%fmap_Some.
  erewrite mapM_impl; [done| |exact Hd]. intros [[f t] x] y Hin (d & Hx & ->)%fmap_Some.
  rewrite forallb_forall in Hp. erewrite IH; [done| |exact Hx].
  apply elem_of_zip_l in Hin. apply list_elem_of_In in Hin. by apply Hp in Hin.
Qed.

(** *** Copies

    [o] is a result with the meaning [d] by the reading [rd], in memory that
    was added to [h]: nothing it refers to was there before. *)
Definition fresh_copy {D} (rd : heap → gval → option D) (h : heap) (o : option (gval * heap)) (d : D) : Prop :=
  ∃ y n, o = Some (y, h ∪ n) ∧ h ##ₘ n ∧ rd n y = Some d.

Lemma fresh_copy_plain j k t (h : heap) v d :
  plain_type P j t = true → value_of k h t v = Some d → fresh_copy (λ n, value_of k n t) h (plain_copy v h) d.
Proof.
  intros Hp Hv. exists v, ∅. rewrite map_union_empty. split; [done|]. split; [apply map_disjoint_empty_r|].
  by eapply value_of_plain.
Qed.

Lemma each_fresh {A D} (rd : A → heap → gval → option D) (src : A → gval) (f : A → heap → option (gval * heap)) l h ds :
  (∀ a h h' v d, h ⊆ h' → rd a h v = Some d → rd a h' v = Some d) →
  (∀ a h d, a ∈ l → rd a h (src a) = Some d → fresh_copy (rd a) h (f a h) d) →
  mapM (λ a, rd a h (src a)) l = Some ds →
  ∃ ys n, each f l h = Some (ys, h ∪ n) ∧ h ##ₘ n ∧ length ys = length l ∧
  mapM (λ '(a, y), rd a n y) (zip l ys) = Some ds.
Proof.
  intros Hmono. revert h ds. induction l as [|a l IH]; intros h ds Hf Hds.
  { injection Hds as <-. exists [], ∅. rewrite map_union_empty. split_and!; try done. apply map_disjoint_empty_r. }
  simpl in Hds. apply bind_Some in Hds as (d & Hd & (ds' & Hds & [= <-])%bind_Some).
  destruct (Hf a h d) as (y & n1 & E1 & Hd1 & Hy); [by left|done|].
  assert (mapM (λ a, rd a (h ∪ n1) (src a)) l = Some ds') as Hds1.
  { eapply mapM_impl; [|exact Hds]. intros x z _. apply Hmono, map_union_subseteq_l. }
  destruct (IH (h ∪ n1) ds') as (ys & n2 & E2 & Hd2 & Hlen & Hys); [|exact Hds1|].
  { intros. apply Hf; [by right|done]. }
  apply map_disjoint_union_l in Hd2 as [Hd2 Hd12].
  exists (y :: ys), (n1 ∪ n2). simpl. rewrite E1. simpl. rewrite E2. simpl. split_and!.
  - by rewrite map_union_assoc.
  - by apply map_disjoint_union_r_2.
  - by f_equal.
  - rewrite (Hmono _ n1 (n1 ∪ n2) y d (map_union_subseteq_l _ _) Hy). simpl.
    erewrite mapM_impl; [done| |exact Hys]. intros [b z] e _. apply Hmono. by apply map_union_subseteq_r.
Qed.

Lemma new_deep_fresh deep k t h x d :
  (∀ v d, value_of k h t v = Some d → fresh_copy (λ n, value_of k n t) h (deep v h) d) →
  value_of (S k) h (TPtr t) x = Some d → fresh_copy (λ n, value_of (S k) n (TPtr t)) h (new_deep deep x h) d.
Proof.
  intros Hdeep. unfold new_deep. simpl. destruct x; try done.
  { intros [= <-]. exists Nil, ∅. rewrite map_union_empty. split_and!; try done. apply map_disjoint_empty_r. }
  destruct (h !! l) as [[v| |]|] eqn:E; try done. intros (d' & Hd & ->)%fmap_Some.
  destruct (Hdeep v d' Hd) as (y & n & -> & Hdis & Hy). cbn [mbind option_bind].
  destruct (alloc_union (Var y) h n Hdis) as (l' & -> & Hdis' & Hsub). exists (Ptr l'), (<[l' := Var y]> n).
  split_and!; [done|done|]. simpl. rewrite lookup_insert_eq. by rewrite (value_of_weaken _ _ _ _ _ _ Hsub Hy).
Qed.

Lemma window_all {A} (vs : list A) : window 0 (length vs) vs = Some vs.
Proof. unfold window. simpl. rewrite Nat.leb_refl, drop_0. by rewrite take_ge. Qed.

Lemma make_each_fresh f k t h x d :
  (∀ h v d, value_of k h t v = Some d → fresh_copy (λ n, value_of k n t) h (f v h) d) →
  value_of (S k) h (TSlice t) x = Some d → fresh_copy (λ n, value_of (S k) n (TSlice t)) h (make_each f x h) d.
Proof.
  intros Hf. unfold make_each. simpl. destruct x; try done.
  { intros [= <-]. exists Nil, ∅. rewrite map_union_empty. split_and!; try done. apply map_disjoint_empty_r. }
  destruct (h !! l) as [[|vs|]|] eqn:E; try done. destruct (window offset len vs) as [ws|] eqn:Hw; [|done].
  cbn [mbind option_bind]. intros (ds & Hd & ->)%fmap_Some.
  destruct (each_fresh (λ _, λ n, value_of k n t) id f ws h ds) as (ys & n & -> & Hdis & Hlen & Hys); [|by eauto|exact Hd|].
  { intros _ h1 h2 v e Hsub. by apply value_of_weaken. }
  apply mapM_zip_r in Hys; [|done]. cbn [mbind option_bind].
  destruct (alloc_union (Array ys) h n Hdis) as (l' & -> & Hdis' & Hsub).
  assert (len = length ws) as ->.
  { unfold window in Hw. destruct (Nat.leb_spec (offset + len) (length vs)); [|done]. injection Hw as <-.
    rewrite length_take, length_drop. lia. }
  exists (Slice l' 0 (length ws)), (<[l' := Array ys]> n). split_and!; [done|done|].
  simpl. rewrite lookup_insert_eq, <- Hlen, window_all. cbn [mbind option_bind].
  erewrite mapM_impl; [done| |exact Hys]. intros y e _. by apply value_of_weaken.
Qed.

Lemma make_map_fresh j k t h x d :
  plain_type P j t = true → value_of (S k) h (TMap t) x = Some d →
  fresh_copy (λ n, value_of (S k) n (TMap t)) h (make_map x h) d.
Proof.
  intros Hp. unfold make_map. simpl. destruct x; try done.
  { intros [= <-]. exists Nil, ∅. rewrite map_union_empty. split_and!; try done. apply map_disjoint_empty_r. }
  destruct (h !! l) as [[| |es]|] eqn:E; try done. intros (ds & Hd & ->)%fmap_Some.
  destruct (alloc_union (Table es) h ∅ (map_disjoint_empty_r _)) as (l' & Ha & Hdis & _).
  rewrite map_union_empty in Ha. rewrite Ha. exists (MapRef l'), (<[l' := Table es]> ∅).
  split_and!; [done|done|]. simpl. rewrite lookup_insert_eq. erewrite mapM_impl; [done| |exact Hd].
  intros [key v] e _ (d & Hv & ->)%fmap_Some. by rewrite (value_of_plain _ _ _ _ _ _ _ Hp Hv).
Qed.

Context (names : list string).

(** Methods that copy whatever is at most [k] deep. *)
Definition copies (k : nat) (deep : string → gval → heap → option (gval * heap)) : Prop :=
  ∀ n, n ∈ names → ∀ k', k' <= k → ∀ h v d, value_of k' h (TNamed n) v = Some d →
  fresh_copy (λ m, value_of k' m (TNamed n)) h (deep n v h) d.

Lemma run_fresh j k deep t c h x d :
  copies k deep → covers P j t c = true → (∀ n, callee c = Some n → n ∈ names) → value_of k h t x = Some d →
  fresh_copy (λ m, value_of k m t) h (run deep c x h) d.
Proof.
  intros Hdeep Hc Hn Hx. destruct k as [|k]; [done|].
  destruct c; cbn [covers callee run] in *;
    repeat match type of Hc with context [match ?t with _ => _ end] => destruct t; try done end;
    try (apply String.eqb_eq in Hc as ->).
  - by eapply fresh_copy_plain.
  - by eapply fresh_copy_plain.
  - apply Hdeep; [by apply Hn|lia|done].
  - apply new_deep_fresh; [|done]. intros. by eapply fresh_copy_plain.
  - apply new_deep_fresh; [|done]. intros. by eapply fresh_copy_plain.
  - apply new_deep_fresh; [|done]. intros. apply Hdeep; [by apply Hn|lia|done].
  - apply make_each_fresh; [|done]. intros. by eapply fresh_copy_plain.
  - apply make_each_fresh; [|done]. intros. apply Hdeep; [by apply Hn|lia|done].
  - apply make_each_fresh; [|done]. intros h' v e Hv. destruct k as [|k]; [done|].
    apply new_deep_fresh; [|done]. intros. apply Hdeep; [by apply Hn|lia|done].
  - by eapply make_map_fresh.
  - apply new_deep_fresh; [|done]. intros v e Hv. destruct k as [|k]; [done|].
    apply make_each_fresh; [|done]. intros. by eapply fresh_copy_plain.
Qed.

Lemma each_zip {A B C D} (g : A * C → heap → option (D * heap)) (decl : list (A * B)) vs h :
  each g (zip (fst <$> decl) vs) h = each (λ a, g (a.1.1, a.2)) (zip decl vs) h.
Proof.
  revert vs h. induction decl as [|[a b] decl IH]; intros [|v vs] h; try done. simpl.
  destruct (g (a, v) h) as [[y h']|]; [|done]. cbn [mbind option_bind]. by rewrite IH.
Qed.

Lemma mapM_zip_fields {A B C D} (g : A → C → option D) (decl : list A) (vs : list B) (ys : list C) :
  length decl = length vs → mapM (λ '(a, y), g a.1 y) (zip (zip decl vs) ys) = mapM (λ '(a, y), g a y) (zip decl ys).
Proof.
  revert vs ys. induction decl as [|a decl IH]; intros [|v vs] [|y ys] Hl; try done. simpl.
  rewrite IH by (simpl in Hl; lia). done.
Qed.

Lemma fresh_copy_fmap {D E} (rd : heap → gval → option D) (g : D → E) h o d :
  fresh_copy rd h o d → fresh_copy (λ n y, g <$> rd n y) h o (g d).
Proof. intros (y & n & -> & Hd & Hy). exists y, n. by rewrite Hy. Qed.

Lemma stmt_In l f n : callee (stmt l f) = Some n → ∃ g c, (g, c) ∈ l ∧ callee c = Some n.
Proof.
  induction l as [|[g c] l IH]; simpl; [done|]. destruct (String.eqb f g).
  - intros Hc. exists g, c. split; [by left|done].
  - intros (g' & c' & Hin & Hc)%IH. exists g', c'. split; [by right|done].
Qed.

(** Methods that pass the check copy whatever their fuel reaches. *)
Lemma DeepCopyInto_copies j fuel : check P j names = true → copies fuel (DeepCopyInto P fuel).
Proof.
  intros Hcheck. unfold check in Hcheck. rewrite forallb_forall in Hcheck.
  induction fuel as [|fuel IH]; intros n Hn [|k] Hk h v d Hv; [done|lia|done|].
  pose proof (Hcheck n (proj1 (list_elem_of_In _ _) Hn)) as Hty. unfold check_type in Hty.
  cbn [value_of DeepCopyInto] in Hv |- *. destruct v as [| | | | |vs]; try done.
  destruct (fields P n) as [decl|]; [|done]. destruct (code P n) as [m|]; [|done]. cbn [mbind option_bind] in *.
  destruct (Nat.eqb_spec (length decl) (length vs)) as [Hl|]; [|done].
  apply fmap_Some in Hv as (ds & Hds & ->). apply andb_prop in Hty as [Hfields Hstmts].
  rewrite forallb_forall in Hfields, Hstmts.
  destruct (each_fresh (λ (a : string * ty * gval) h v, (a.1.1,.) <$> value_of k h a.1.2 v) snd
              (λ a, run (DeepCopyInto P fuel) (stmt (into m) a.1.1) a.2) (zip decl vs) h ds)
    as (ys & nw & Heach & Hdis & Hlen & Hys).
  - intros a h1 h2 v e Hsub (d' & Hd' & ->)%fmap_Some. by rewrite (value_of_weaken _ _ _ _ _ _ Hsub Hd').
  - intros [[f t] x] h1 e Hin (d' & Hd' & ->)%fmap_Some. simpl in Hd' |- *. apply fresh_copy_fmap.
    apply elem_of_zip_l, list_elem_of_In in Hin. apply Hfields in Hin.
    apply (run_fresh j k (DeepCopyInto P fuel) t (stmt (into m) f) h1 x d'); [|done| |done].
    + intros n' Hn' k' Hk'. apply IH; [done|lia].
    + intros n' (g & c & Hgc & Hcn)%stmt_In. apply list_elem_of_In, Hstmts, andb_prop in Hgc as [_ Hgc].
      rewrite Hcn in Hgc. apply existsb_exists in Hgc as (n'' & Hin' & ->%String.eqb_eq). by apply list_elem_of_In.
  - eapply mapM_impl; [|exact Hds]. by intros [[f t] x] y _.
  - exists (Struct ys), nw. rewrite (each_zip (λ '(f, x), run (DeepCopyInto P fuel) (stmt (into m) f) x)).
    rewrite length_zip in Hlen. split_and!; [|done|].
    + cbv beta iota. by rewrite Heach.
    + rewrite (proj2 (Nat.eqb_eq _ _)) by lia.
      rewrite (mapM_zip_fields (λ (a : string * ty) v, (a.1,.) <$> value_of k nw a.2 v)) in Hys by done.
      erewrite mapM_impl; [done| |exact Hys]. by intros [[f t] x] y _.
Qed.

(** [DeepCopy]: nil for nil, or a pointer to memory of its own that means the
    same. *)
Lemma DeepCopy_fresh j fuel n h x d : check P j names = true → n ∈ names →
  value_of fuel h (TPtr (TNamed n)) x = Some d →
  fresh_copy (λ m, value_of fuel m (TPtr (TNamed n))) h (DeepCopy P fuel n x h) d.
Proof.
  intros Hcheck Hn Hx. destruct fuel as [|k]; [done|]. apply new_deep_fresh; [|done].
  intros v e Hv. eapply DeepCopyInto_copies; [done|done|lia|done].
Qed.
End soundness.
