(* ===== verification/ApiCopies.v ===== *)
(** * Deep copies of API objects: the methods of the API types

    The structs of pkg/apis/metering/v1 and the methods deepcopy-gen has
    written for them (zz_generated.deepcopy.go), with those of the types of
    apimachinery they contain, as a program of DeepCopy: [<T>_fields] is the
    struct [T], [<T>_methods] its [DeepCopyInto], [DeepCopy] and
    [DeepCopyObject].  The theorem: a copy has the value of its original and
    shares no memory with it. *)

From S2P Require Export DeepCopy.
Open Scope string_scope.

(** ** Types of libraries

    Of apimachinery, core/v1 and the packages hive and presto.  An instant is
    a value here: what it refers to, its zone, is never written. *)
Definition leaves (l : list string) : list (string * ty) := (λ f, (f, TLeaf)) <$> l.
Definition no_copies : methods := {| into := []; object := false |}.

Definition TypeMeta_fields : list (string * ty) := leaves ["Kind"; "APIVersion"].
Definition ListMeta_fields : list (string * ty) := leaves ["SelfLink"; "ResourceVersion"; "Continue"].
Definition LocalObjectReference_fields : list (string * ty) := leaves ["Name"].
Definition Column_fields : list (string * ty) := leaves ["Name"; "Type"].

Definition Initializer_fields : list (string * ty) := leaves ["Name"].
Definition StatusCause_fields : list (string * ty) := leaves ["Type"; "Message"; "Field"].
Definition StatusDetails_fields : list (string * ty) :=
  leaves ["Name"; "Group"; "Kind"; "UID"] ++ [("Causes", TSlice (TNamed "StatusCause")); ("RetryAfterSeconds", TLeaf)].
Definition StatusDetails_methods : methods := {| into := [("Causes", MakeCopy)]; object := false |}.
Definition Status_fields : list (string * ty) :=
  [("TypeMeta", TNamed "TypeMeta"); ("ListMeta", TNamed "ListMeta")] ++ leaves ["Status"; "Message"; "Reason"] ++
  [("Details", TPtr (TNamed "StatusDetails")); ("Code", TLeaf)].
Definition Status_methods : methods := {|
  into := [("TypeMeta", Assign); ("ListMeta", Assign); ("Details", NewDeep "StatusDetails")];
  object := true |}.
Definition Initializers_fields : list (string * ty) :=
  [("Pending", TSlice (TNamed "Initializer")); ("Result", TPtr (TNamed "Status"))].
Definition Initializers_methods : methods := {|
  into := [("Pending", MakeCopy); ("Result", NewDeep "Status")];
  object := false |}.
Definition OwnerReference_fields : list (string * ty) :=
  leaves ["APIVersion"; "Kind"; "Name"; "UID"] ++ [("Controller", TPtr TLeaf); ("BlockOwnerDeletion", TPtr TLeaf)].
Definition OwnerReference_methods : methods := {|
  into := [("Controller", NewPlain); ("BlockOwnerDeletion", NewPlain)];
  object := false |}.
Definition ObjectMeta_fields : list (string * ty) :=
  leaves ["Name"; "GenerateName"; "Namespace"; "SelfLink"; "UID"; "ResourceVersion"; "Generation"; "CreationTimestamp"] ++
  [("DeletionTimestamp", TPtr TLeaf); ("DeletionGracePeriodSeconds", TPtr TLeaf); ("Labels", TMap TLeaf);
   ("Annotations", TMap TLeaf); ("OwnerReferences", TSlice (TNamed "OwnerReference"));
   ("Initializers", TPtr (TNamed "Initializers")); ("Finalizers", TSlice TLeaf); ("ClusterName", TLeaf)].
Definition ObjectMeta_methods : methods := {|
  into :=
    [("CreationTimestamp", TimeInto); ("DeletionTimestamp", TimeDeepCopy); ("DeletionGracePeriodSeconds", NewPlain);
     ("Labels", MakeMap); ("Annotations", MakeMap); ("OwnerReferences", MakeEach "OwnerReference");
     ("Initializers", NewDeep "Initializers"); ("Finalizers", MakeCopy)];
  object := false |}.

(** ** Types of the API *)
Definition AWSBillingDataSource_fields : list (string * ty) :=
    [("Source", TPtr (TNamed "S3Bucket")); ("DatabaseName", TLeaf)].
Definition AWSBillingDataSource_methods : methods := {|
  into :=
    [("Source", NewPlain)];
  object := false |}.

Definition HiveColumn_fields : list (string * ty) :=
    [("Name", TLeaf); ("Type", TLeaf)].
Definition HiveColumn_methods : methods := {|
  into :=
    [];
  object := false |}.

Definition HiveStorage_fields : list (string * ty) :=
    [("UnmanagedDatabase", TLeaf); ("DatabaseName", TLeaf); ("Location", TLeaf);
     ("DefaultTableProperties", TPtr (TNamed "HiveStorageDefaultTableProperties"))].
Definition HiveStorage_methods : methods := {|
  into :=
    [("DefaultTableProperties", NewPlain)];
  object := false |}.

Definition HiveStorageDefaultTableProperties_fields : list (string * ty) :=
    [("RowFormat", TLeaf); ("FileFormat", TLeaf)].
Definition HiveStorageDefaultTableProperties_methods : methods := {|
  into :=
    [];
  object := false |}.

Definition HiveStorageStatus_fields : list (string * ty) :=
    [("DatabaseName", TLeaf); ("Location", TLeaf)].
Definition HiveStorageStatus_methods : methods := {|
  into :=
    [];
  object := false |}.

Definition HiveTable_fields : list (string * ty) :=
    [("TypeMeta", TNamed "TypeMeta"); ("ObjectMeta", TNamed "ObjectMeta"); ("Spec", TNamed "HiveTableSpec");
     ("Status", TNamed "HiveTableStatus")].
Definition HiveTable_methods : methods := {|
  into :=
    [("TypeMeta", Assign); ("ObjectMeta", CallInto "ObjectMeta"); ("Spec", CallInto "HiveTableSpec");
     ("Status", CallInto "HiveTableStatus")];
  object := true |}.

Definition HiveTableList_fields : list (string * ty) :=
    [("TypeMeta", TNamed "TypeMeta"); ("ListMeta", TNamed "ListMeta");
     ("Items", TSlice (TPtr (TNamed "HiveTable")))].
Definition HiveTableList_methods : methods := {|
  into :=
    [("TypeMeta", Assign); ("ListMeta", Assign); ("Items", MakeEachNew "HiveTable")];
  object := true |}.

Definition HiveTablePartition_fields : list (string * ty) :=
    [("Location", TLeaf); ("PartitionSpec", TMap TLeaf)].
Definition HiveTablePartition_methods : methods := {|
  into :=
    [("PartitionSpec", MakeMap)];
  object := false |}.

Definition HiveTableSpec_fields : list (string * ty) :=
    [("DatabaseName", TLeaf); ("TableName", TLeaf); ("Columns", TSlice (TNamed "hive.Column"));
     ("PartitionedBy", TSlice (TNamed "hive.Column")); ("ClusteredBy", TSlice TLeaf);
     ("SortedBy", TSlice (TNamed "SortColumn")); ("NumBuckets", TLeaf); ("Location", TLeaf);
     ("RowFormat", TLeaf); ("FileFormat", TLeaf); ("TableProperties", TMap TLeaf); ("External", TLeaf);
     ("ManagePartitions", TLeaf); ("Partitions", TSlice (TNamed "HiveTablePartition"))].
Definition HiveTableSpec_methods : methods := {|
  into :=
    [("Columns", MakeCopy); ("PartitionedBy", MakeCopy); ("ClusteredBy", MakeCopy);
     ("SortedBy", MakeEach "SortColumn"); ("TableProperties", MakeMap);
     ("Partitions", MakeEach "HiveTablePartition")];
  object := false |}.

Definition HiveTableStatus_fields : list (string * ty) :=
    [("DatabaseName", TLeaf); ("TableName", TLeaf); ("Columns", TSlice (TNamed "hive.Column"));
     ("PartitionedBy", TSlice (TNamed "hive.Column")); ("ClusteredBy", TSlice TLeaf);
     ("SortedBy", TSlice (TNamed "SortColumn")); ("NumBuckets", TLeaf); ("Location", TLeaf);
     ("RowFormat", TLeaf); ("FileFormat", TLeaf); ("TableProperties", TMap TLeaf); ("External", TLeaf);
     ("Partitions", TSlice (TNamed "HiveTablePartition"))].
Definition HiveTableStatus_methods : methods := {|
  into :=
    [("Columns", MakeCopy); ("PartitionedBy", MakeCopy); ("ClusteredBy", MakeCopy);
     ("SortedBy", MakeEach "SortColumn"); ("TableProperties", MakeMap);
     ("Partitions", MakeEach "HiveTablePartition")];
  object := false |}.

Definition PrestoTable_fields : list (string * ty) :=
    [("TypeMeta", TNamed "TypeMeta"); ("ObjectMeta", TNamed "ObjectMeta"); ("Spec", TNamed "PrestoTableSpec");
     ("Status", TNamed "PrestoTableStatus")].
Definition PrestoTable_methods : methods := {|
  into :=
    [("TypeMeta", Assign); ("ObjectMeta", CallInto "ObjectMeta"); ("Spec", CallInto "PrestoTableSpec");
     ("Status", CallInto "PrestoTableStatus")];
  object := true |}.

Definition PrestoTableDataSource_fields : list (string * ty) :=
    [("TableRef", TNamed "LocalObjectReference")].
Definition PrestoTableDataSource_methods : methods := {|
  into :=
    [("TableRef", Assign)];
  object := false |}.

Definition PrestoTableList_fields : list (string * ty) :=
    [("TypeMeta", TNamed "TypeMeta"); ("ListMeta", TNamed "ListMeta");
     ("Items", TSlice (TPtr (TNamed "PrestoTable")))].
Definition PrestoTableList_methods : methods := {|
  into :=
    [("TypeMeta", Assign); ("ListMeta", Assign); ("Items", MakeEachNew "PrestoTable")];
  object := true |}.

Definition PrestoTableSpec_fields : list (string * ty) :=
    [("Unmanaged", TLeaf); ("Catalog", TLeaf); ("Schema", TLeaf); ("TableName", TLeaf);
     ("Columns", TSlice (TNamed "presto.Column")); ("Properties", TMap TLeaf); ("Comment", TLeaf);
     ("View", TLeaf); ("CreateTableAs", TLeaf); ("Query", TLeaf)].
Definition PrestoTableSpec_methods : methods := {|
  into :=
    [("Columns", MakeCopy); ("Properties", MakeMap)];
  object := false |}.

Definition PrestoTableStatus_fields : list (string * ty) :=
    [("Catalog", TLeaf); ("Schema", TLeaf); ("TableName", TLeaf); ("Columns", TSlice (TNamed "presto.Column"));
     ("Properties", TMap TLeaf); ("Comment", TLeaf); ("View", TLeaf); ("CreateTableAs", TLeaf);
     ("Query", TLeaf)].
Definition PrestoTableStatus_methods : methods := {|
  into :=
    [("Columns", MakeCopy); ("Properties", MakeMap)];
  object := false |}.

Definition PrometheusConnectionConfig_fields : list (string * ty) :=
    [("URL", TLeaf)].
Definition PrometheusConnectionConfig_methods : methods := {|
  into :=
    [];
  object := false |}.

Definition PrometheusMetricsImportStatus_fields : list (string * ty) :=
    [("LastImportTime", TPtr TLeaf); ("ImportDataStartTime", TPtr TLeaf); ("ImportDataEndTime", TPtr TLeaf);
     ("EarliestImportedMetricTime", TPtr TLeaf); ("NewestImportedMetricTime", TPtr TLeaf)].
Definition PrometheusMetricsImportStatus_methods : methods := {|
  into :=
    [("LastImportTime", TimeDeepCopy); ("ImportDataStartTime", TimeDeepCopy);
     ("ImportDataEndTime", TimeDeepCopy); ("EarliestImportedMetricTime", TimeDeepCopy);
     ("NewestImportedMetricTime", TimeDeepCopy)];
  object := false |}.

Definition PrometheusMetricsImporterDataSource_fields : list (string * ty) :=
    [("Query", TLeaf); ("QueryConfig", TPtr (TNamed "PrometheusQueryConfig"));
     ("Storage", TPtr (TNamed "StorageLocationRef"));
     ("PrometheusConfig", TPtr (TNamed "PrometheusConnectionConfig"))].
Definition PrometheusMetricsImporterDataSource_methods : methods := {|
  into :=
    [("QueryConfig", NewDeep "PrometheusQueryConfig"); ("Storage", NewPlain); ("PrometheusConfig", NewPlain)];
  object := false |}.

Definition PrometheusQueryConfig_fields : list (string * ty) :=
    [("QueryInterval", TPtr TLeaf); ("StepSize", TPtr TLeaf); ("ChunkSize", TPtr TLeaf)].
Definition PrometheusQueryConfig_methods : methods := {|
  into :=
    [("QueryInterval", NewPlain); ("StepSize", NewPlain); ("ChunkSize", NewPlain)];
  object := false |}.

Definition Report_fields : list (string * ty) :=
    [("TypeMeta", TNamed "TypeMeta"); ("ObjectMeta", TNamed "ObjectMeta"); ("Spec", TNamed "ReportSpec");
     ("Status", TNamed "ReportStatus")].
Definition Report_methods : methods := {|
  into :=
    [("TypeMeta", Assign); ("ObjectMeta", CallInto "ObjectMeta"); ("Spec", CallInto "ReportSpec");
     ("Status", CallInto "ReportStatus")];
  object := true |}.

Definition ReportCondition_fields : list (string * ty) :=
    [("Type", TLeaf); ("Status", TLeaf); ("LastUpdateTime", TLeaf); ("LastTransitionTime", TLeaf);
     ("Reason", TLeaf); ("Message", TLeaf)].
Definition ReportCondition_methods : methods := {|
  into :=
    [("LastUpdateTime", TimeInto); ("LastTransitionTime", TimeInto)];
  object := false |}.

Definition ReportDataSource_fields : list (string * ty) :=
    [("TypeMeta", TNamed "TypeMeta"); ("ObjectMeta", TNamed "ObjectMeta");
     ("Spec", TNamed "ReportDataSourceSpec"); ("Status", TNamed "ReportDataSourceStatus")].
Definition ReportDataSource_methods : methods := {|
  into :=
    [("TypeMeta", Assign); ("ObjectMeta", CallInto "ObjectMeta"); ("Spec", CallInto "ReportDataSourceSpec");
     ("Status", CallInto "ReportDataSourceStatus")];
  object := true |}.

Definition ReportDataSourceList_fields : list (string * ty) :=
    [("TypeMeta", TNamed "TypeMeta"); ("ListMeta", TNamed "ListMeta");
     ("Items", TSlice (TPtr (TNamed "ReportDataSource")))].
Definition ReportDataSourceList_methods : methods := {|
  into :=
    [("TypeMeta", Assign); ("ListMeta", Assign); ("Items", MakeEachNew "ReportDataSource")];
  object := true |}.

Definition ReportDataSourceSpec_fields : list (string * ty) :=
    [("PrometheusMetricsImporter", TPtr (TNamed "PrometheusMetricsImporterDataSource"));
     ("AWSBilling", TPtr (TNamed "AWSBillingDataSource"));
     ("PrestoTable", TPtr (TNamed "PrestoTableDataSource"));
     ("ReportQueryView", TPtr (TNamed "ReportQueryViewDataSource"))].
Definition ReportDataSourceSpec_methods : methods := {|
  into :=
    [("PrometheusMetricsImporter", NewDeep "PrometheusMetricsImporterDataSource");
     ("AWSBilling", NewDeep "AWSBillingDataSource"); ("PrestoTable", NewPlain);
     ("ReportQueryView", NewDeep "ReportQueryViewDataSource")];
  object := false |}.

Definition ReportDataSourceStatus_fields : list (string * ty) :=
    [("TableRef", TNamed "LocalObjectReference");
     ("PrometheusMetricsImportStatus", TPtr (TNamed "PrometheusMetricsImportStatus"))].
Definition ReportDataSourceStatus_methods : methods := {|
  into :=
    [("TableRef", Assign); ("PrometheusMetricsImportStatus", NewDeep "PrometheusMetricsImportStatus")];
  object := false |}.

Definition ReportList_fields : list (string * ty) :=
    [("TypeMeta", TNamed "TypeMeta"); ("ListMeta", TNamed "ListMeta");
     ("Items", TSlice (TPtr (TNamed "Report")))].
Definition ReportList_methods : methods := {|
  into :=
    [("TypeMeta", Assign); ("ListMeta", Assign); ("Items", MakeEachNew "Report")];
  object := true |}.

Definition ReportQuery_fields : list (string * ty) :=
    [("TypeMeta", TNamed "TypeMeta"); ("ObjectMeta", TNamed "ObjectMeta"); ("Spec", TNamed "ReportQuerySpec");
     ("Status", TNamed "ReportQueryStatus")].
Definition ReportQuery_methods : methods := {|
  into :=
    [("TypeMeta", Assign); ("ObjectMeta", CallInto "ObjectMeta"); ("Spec", CallInto "ReportQuerySpec");
     ("Status", Assign)];
  object := true |}.

Definition ReportQueryColumn_fields : list (string * ty) :=
    [("Name", TLeaf); ("Type", TLeaf); ("TableHidden", TLeaf); ("Unit", TLeaf)].
Definition ReportQueryColumn_methods : methods := {|
  into :=
    [];
  object := false |}.

Definition ReportQueryInputDefinition_fields : list (string * ty) :=
    [("Name", TLeaf); ("Required", TLeaf); ("Type", TLeaf); ("Default", TPtr (TSlice TLeaf))].
Definition ReportQueryInputDefinition_methods : methods := {|
  into :=
    [("Default", NewSlice)];
  object := false |}.

Definition ReportQueryInputValue_fields : list (string * ty) :=
    [("Name", TLeaf); ("Value", TPtr (TSlice TLeaf))].
Definition ReportQueryInputValue_methods : methods := {|
  into :=
    [("Value", NewSlice)];
  object := false |}.

Definition ReportQueryList_fields : list (string * ty) :=
    [("TypeMeta", TNamed "TypeMeta"); ("ListMeta", TNamed "ListMeta");
     ("Items", TSlice (TPtr (TNamed "ReportQuery")))].
Definition ReportQueryList_methods : methods := {|
  into :=
    [("TypeMeta", Assign); ("ListMeta", Assign); ("Items", MakeEachNew "ReportQuery")];
  object := true |}.

Definition ReportQuerySpec_fields : list (string * ty) :=
    [("Columns", TSlice (TNamed "ReportQueryColumn")); ("Query", TLeaf);
     ("Inputs", TSlice (TNamed "ReportQueryInputDefinition"))].
Definition ReportQuerySpec_methods : methods := {|
  into :=
    [("Columns", MakeCopy); ("Inputs", MakeEach "ReportQueryInputDefinition")];
  object := false |}.

Definition ReportQueryStatus_fields : list (string * ty) :=
    [].
Definition ReportQueryStatus_methods : methods := {|
  into :=
    [];
  object := false |}.

Definition ReportQueryViewDataSource_fields : list (string * ty) :=
    [("QueryName", TLeaf); ("Inputs", TSlice (TNamed "ReportQueryInputValue"));
     ("Storage", TPtr (TNamed "StorageLocationRef"))].
Definition ReportQueryViewDataSource_methods : methods := {|
  into :=
    [("Inputs", MakeEach "ReportQueryInputValue"); ("Storage", NewPlain)];
  object := false |}.

Definition ReportSchedule_fields : list (string * ty) :=
    [("Period", TLeaf); ("Cron", TPtr (TNamed "ReportScheduleCron"));
     ("Hourly", TPtr (TNamed "ReportScheduleHourly")); ("Daily", TPtr (TNamed "ReportScheduleDaily"));
     ("Weekly", TPtr (TNamed "ReportScheduleWeekly")); ("Monthly", TPtr (TNamed "ReportScheduleMonthly"))].
Definition ReportSchedule_methods : methods := {|
  into :=
    [("Cron", NewPlain); ("Hourly", NewPlain); ("Daily", NewPlain); ("Weekly", NewDeep "ReportScheduleWeekly");
     ("Monthly", NewDeep "ReportScheduleMonthly")];
  object := false |}.

Definition ReportScheduleCron_fields : list (string * ty) :=
    [("Expression", TLeaf)].
Definition ReportScheduleCron_methods : methods := {|
  into :=
    [];
  object := false |}.

Definition ReportScheduleDaily_fields : list (string * ty) :=
    [("Hour", TLeaf); ("Minute", TLeaf); ("Second", TLeaf)].
Definition ReportScheduleDaily_methods : methods := {|
  into :=
    [];
  object := false |}.

Definition ReportScheduleHourly_fields : list (string * ty) :=
    [("Minute", TLeaf); ("Second", TLeaf)].
Definition ReportScheduleHourly_methods : methods := {|
  into :=
    [];
  object := false |}.

Definition ReportScheduleMonthly_fields : list (string * ty) :=
    [("DayOfMonth", TPtr TLeaf); ("Hour", TLeaf); ("Minute", TLeaf); ("Second", TLeaf)].
Definition ReportScheduleMonthly_methods : methods := {|
  into :=
    [("DayOfMonth", NewPlain)];
  object := false |}.

Definition ReportScheduleWeekly_fields : list (string * ty) :=
    [("DayOfWeek", TPtr TLeaf); ("Hour", TLeaf); ("Minute", TLeaf); ("Second", TLeaf)].
Definition ReportScheduleWeekly_methods : methods := {|
  into :=
    [("DayOfWeek", NewPlain)];
  object := false |}.

Definition ReportSpec_fields : list (string * ty) :=
    [("QueryName", TLeaf); ("Schedule", TPtr (TNamed "ReportSchedule")); ("ReportingStart", TPtr TLeaf);
     ("ReportingEnd", TPtr TLeaf); ("OverwriteExistingData", TLeaf); ("RunImmediately", TLeaf);
     ("Inputs", TSlice (TNamed "ReportQueryInputValue")); ("Output", TPtr (TNamed "StorageLocationRef"))].
Definition ReportSpec_methods : methods := {|
  into :=
    [("Schedule", NewDeep "ReportSchedule"); ("ReportingStart", TimeDeepCopy); ("ReportingEnd", TimeDeepCopy);
     ("Inputs", MakeEach "ReportQueryInputValue"); ("Output", NewPlain)];
  object := false |}.

Definition ReportStatus_fields : list (string * ty) :=
    [("Conditions", TSlice (TNamed "ReportCondition")); ("LastReportTime", TPtr TLeaf);
     ("NextReportTime", TPtr TLeaf); ("TableRef", TNamed "LocalObjectReference")].
Definition ReportStatus_methods : methods := {|
  into :=
    [("Conditions", MakeEach "ReportCondition"); ("LastReportTime", TimeDeepCopy);
     ("NextReportTime", TimeDeepCopy); ("TableRef", Assign)];
  object := false |}.

Definition S3Bucket_fields : list (string * ty) :=
    [("Region", TLeaf); ("Bucket", TLeaf); ("Prefix", TLeaf)].
Definition S3Bucket_methods : methods := {|
  into :=
    [];
  object := false |}.

Definition SortColumn_fields : list (string * ty) :=
    [("Name", TLeaf); ("Decending", TPtr TLeaf)].
Definition SortColumn_methods : methods := {|
  into :=
    [("Decending", NewPlain)];
  object := false |}.

Definition StorageLocation_fields : list (string * ty) :=
    [("TypeMeta", TNamed "TypeMeta"); ("ObjectMeta", TNamed "ObjectMeta");
     ("Spec", TNamed "StorageLocationSpec"); ("Status", TNamed "StorageLocationStatus")].
Definition StorageLocation_methods : methods := {|
  into :=
    [("TypeMeta", Assign); ("ObjectMeta", CallInto "ObjectMeta"); ("Spec", CallInto "StorageLocationSpec");
     ("Status", Assign)];
  object := true |}.

Definition StorageLocationList_fields : list (string * ty) :=
    [("TypeMeta", TNamed "TypeMeta"); ("ListMeta", TNamed "ListMeta");
     ("Items", TSlice (TPtr (TNamed "StorageLocation")))].
Definition StorageLocationList_methods : methods := {|
  into :=
    [("TypeMeta", Assign); ("ListMeta", Assign); ("Items", MakeEachNew "StorageLocation")];
  object := true |}.

Definition StorageLocationRef_fields : list (string * ty) :=
    [("StorageLocationName", TLeaf)].
Definition StorageLocationRef_methods : methods := {|
  into :=
    [];
  object := false |}.

Definition StorageLocationSpec_fields : list (string * ty) :=
    [("Hive", TPtr (TNamed "HiveStorage"))].
Definition StorageLocationSpec_methods : methods := {|
  into :=
    [("Hive", NewDeep "HiveStorage")];
  object := false |}.

Definition StorageLocationStatus_fields : list (string * ty) :=
    [("Hive", TNamed "HiveStorageStatus")].
Definition StorageLocationStatus_methods : methods := {|
  into :=
    [("Hive", Assign)];
  object := false |}.

(** ** The program *)
Definition library_types : list (string * (list (string * ty) * methods)) :=
  [("TypeMeta", (TypeMeta_fields, no_copies));
   ("ListMeta", (ListMeta_fields, no_copies));
   ("LocalObjectReference", (LocalObjectReference_fields, no_copies));
   ("hive.Column", (Column_fields, no_copies));
   ("presto.Column", (Column_fields, no_copies));
   ("Initializer", (Initializer_fields, no_copies));
   ("StatusCause", (StatusCause_fields, no_copies));
   ("StatusDetails", (StatusDetails_fields, StatusDetails_methods));
   ("Status", (Status_fields, Status_methods));
   ("Initializers", (Initializers_fields, Initializers_methods));
   ("OwnerReference", (OwnerReference_fields, OwnerReference_methods));
   ("ObjectMeta", (ObjectMeta_fields, ObjectMeta_methods))].
Definition api_types : list (string * (list (string * ty) * methods)) :=
  [("AWSBillingDataSource", (AWSBillingDataSource_fields, AWSBillingDataSource_methods));
   ("HiveColumn", (HiveColumn_fields, HiveColumn_methods));
   ("HiveStorage", (HiveStorage_fields, HiveStorage_methods));
   ("HiveStorageDefaultTableProperties", (HiveStorageDefaultTableProperties_fields, HiveStorageDefaultTableProperties_methods));
   ("HiveStorageStatus", (HiveStorageStatus_fields, HiveStorageStatus_methods));
   ("HiveTable", (HiveTable_fields, HiveTable_methods));
   ("HiveTableList", (HiveTableList_fields, HiveTableList_methods));
   ("HiveTablePartition", (HiveTablePartition_fields, HiveTablePartition_methods));
   ("HiveTableSpec", (HiveTableSpec_fields, HiveTableSpec_methods));
   ("HiveTableStatus", (HiveTableStatus_fields, HiveTableStatus_methods));
   ("PrestoTable", (PrestoTable_fields, PrestoTable_methods));
   ("PrestoTableDataSource", (PrestoTableDataSource_fields, PrestoTableDataSource_methods));
   ("PrestoTableList", (PrestoTableList_fields, PrestoTableList_methods));
   ("PrestoTableSpec", (PrestoTableSpec_fields, PrestoTableSpec_methods));
   ("PrestoTableStatus", (PrestoTableStatus_fields, PrestoTableStatus_methods));
   ("PrometheusConnectionConfig", (PrometheusConnectionConfig_fields, PrometheusConnectionConfig_methods));
   ("PrometheusMetricsImportStatus", (PrometheusMetricsImportStatus_fields, PrometheusMetricsImportStatus_methods));
   ("PrometheusMetricsImporterDataSource", (PrometheusMetricsImporterDataSource_fields, PrometheusMetricsImporterDataSource_methods));
   ("PrometheusQueryConfig", (PrometheusQueryConfig_fields, PrometheusQueryConfig_methods));
   ("Report", (Report_fields, Report_methods));
   ("ReportCondition", (ReportCondition_fields, ReportCondition_methods));
   ("ReportDataSource", (ReportDataSource_fields, ReportDataSource_methods));
   ("ReportDataSourceList", (ReportDataSourceList_fields, ReportDataSourceList_methods));
   ("ReportDataSourceSpec", (ReportDataSourceSpec_fields, ReportDataSourceSpec_methods));
   ("ReportDataSourceStatus", (ReportDataSourceStatus_fields, ReportDataSourceStatus_methods));
   ("ReportList", (ReportList_fields, ReportList_methods));
   ("ReportQuery", (ReportQuery_fields, ReportQuery_methods));
   ("ReportQueryColumn", (ReportQueryColumn_fields, ReportQueryColumn_methods));
   ("ReportQueryInputDefinition", (ReportQueryInputDefinition_fields, ReportQueryInputDefinition_methods));
   ("ReportQueryInputValue", (ReportQueryInputValue_fields, ReportQueryInputValue_methods));
   ("ReportQueryList", (ReportQueryList_fields, ReportQueryList_methods));
   ("ReportQuerySpec", (ReportQuerySpec_fields, ReportQuerySpec_methods));
   ("ReportQueryStatus", (ReportQueryStatus_fields, ReportQueryStatus_methods));
   ("ReportQueryViewDataSource", (ReportQueryViewDataSource_fields, ReportQueryViewDataSource_methods));
   ("ReportSchedule", (ReportSchedule_fields, ReportSchedule_methods));
   ("ReportScheduleCron", (ReportScheduleCron_fields, ReportScheduleCron_methods));
   ("ReportScheduleDaily", (ReportScheduleDaily_fields, ReportScheduleDaily_methods));
   ("ReportScheduleHourly", (ReportScheduleHourly_fields, ReportScheduleHourly_methods));
   ("ReportScheduleMonthly", (ReportScheduleMonthly_fields, ReportScheduleMonthly_methods));
   ("ReportScheduleWeekly", (ReportScheduleWeekly_fields, ReportScheduleWeekly_methods));
   ("ReportSpec", (ReportSpec_fields, ReportSpec_methods));
   ("ReportStatus", (ReportStatus_fields, ReportStatus_methods));
   ("S3Bucket", (S3Bucket_fields, S3Bucket_methods));
   ("SortColumn", (SortColumn_fields, SortColumn_methods));
   ("StorageLocation", (StorageLocation_fields, StorageLocation_methods));
   ("StorageLocationList", (StorageLocationList_fields, StorageLocationList_methods));
   ("StorageLocationRef", (StorageLocationRef_fields, StorageLocationRef_methods));
   ("StorageLocationSpec", (StorageLocationSpec_fields, StorageLocationSpec_methods));
   ("StorageLocationStatus", (StorageLocationStatus_fields, StorageLocationStatus_methods))].

Fixpoint find_type {A} (l : list (string * A)) (n : string) : option A :=
  match l with
  | [] => None
  | (m, x) :: l => if String.eqb n m then Some x else find_type l n
  end.
Definition api_program : program := {|
  fields := λ n, fst <$> find_type (library_types ++ api_types)%list n;
  code := λ n, snd <$> find_type (library_types ++ api_types)%list n |}.
(** The types with methods. *)
Definition api_names : list string := fst <$> (library_types ++ api_types)%list.

(** [ReportQueryInputValues] is a slice with methods of its own, on a value:
    copied into, nil becomes an empty slice, but [DeepCopy] keeps nil. *)
Definition ReportQueryInputValues_DeepCopyInto (fuel : nat) (x : gval) (h : heap) : option (gval * heap) :=
  match x with
  | Nil => let '(l, h) := alloc (Array []) h in Some (Slice l 0 0, h)
  | _ => make_each (DeepCopyInto api_program fuel "ReportQueryInputValue") x h
  end.
Definition ReportQueryInputValues_DeepCopy (fuel : nat) (x : gval) (h : heap) : option (gval * heap) :=
  match x with
  | Nil => Some (Nil, h)
  | _ => ReportQueryInputValues_DeepCopyInto fuel x h
  end.

(** ** Facts *)

(** A depth that no type of the API exceeds: more fuel finds nothing more. *)
Definition api_depth : nat := 16.

Lemma api_depth_enough fuel n h x : n ∈ api_names → api_depth <= fuel →
  value_of api_program fuel h (TPtr (TNamed n)) x = value_of api_program api_depth h (TPtr (TNamed n)) x.
Proof.
  intros Hn Hf. symmetry. apply value_of_depth; [|done].
  assert (forallb (λ n, depth_at_most api_program api_depth (TPtr (TNamed n))) api_names = true) as H by (vm_compute; reflexivity).
  rewrite forallb_forall in H. by apply H, list_elem_of_In.
Qed.

Lemma api_checked : check api_program api_depth api_names = true.
Proof. vm_compute. reflexivity. Qed.

(** [y] is a copy of [x] that shares nothing with it: whatever is written,
    later, to the memory of one of them, new memory included, the other keeps
    its value.  [h] is the memory before the copy, [h'] the one after. *)
Definition isolated_copy (rd : heap → gval → option tree) (h h' : heap) (x y : gval) (d : tree) : Prop :=
  h ⊆ h' ∧ rd h' x = Some d ∧ rd h' y = Some d ∧
  (∀ m, (∀ l, l ∈ dom h → m !! l = h !! l) → rd m x = Some d) ∧
  (∀ m, (∀ l, l ∈ dom h' → l ∉ dom h → m !! l = h' !! l) → rd m y = Some d).

(** The value of a pointer to an object of the API. *)
Definition api_value (n : string) (h : heap) (x : gval) : option tree := value_of api_program api_depth h (TPtr (TNamed n)) x.

#[local] Opaque api_depth.

(** The slice of input values: nil for nil, or a slice of its own. *)
Lemma ReportQueryInputValues_fresh fuel h x d (t := TSlice (TNamed "ReportQueryInputValue")) :
  value_of api_program (S fuel) h t x = Some d →
  fresh_copy (λ n, value_of api_program (S fuel) n t) h (ReportQueryInputValues_DeepCopy fuel x h) d.
Proof.
  intros Hx. replace (ReportQueryInputValues_DeepCopy fuel x h)
    with (make_each (DeepCopyInto api_program fuel "ReportQueryInputValue") x h) by by destruct x.
  apply make_each_fresh; [|exact Hx]. intros h' v e Hv. eapply DeepCopyInto_copies; [exact api_checked| |apply Nat.le_refl|exact Hv].
  apply list_elem_of_In. vm_compute. tauto.
Qed.

Lemma api_value_weaken n (h h' : heap) x d : h ⊆ h' → api_value n h x = Some d → api_value n h' x = Some d.
Proof. unfold api_value. apply value_of_weaken. Qed.

Lemma api_DeepCopy_fresh fuel n h x d : n ∈ api_names → api_depth <= fuel → api_value n h x = Some d →
  fresh_copy (api_value n) h (DeepCopy api_program fuel n x h) d.
Proof.
  unfold api_value. intros Hn Hf Hx. rewrite <- (api_depth_enough fuel _ _ _ Hn Hf) in Hx.
  destruct (DeepCopy_fresh _ _ _ _ _ _ _ _ api_checked Hn Hx) as (y & m & E & Hd & Hy).
  exists y, m. split_and!; [exact E|exact Hd|]. by rewrite <- (api_depth_enough fuel _ _ _ Hn Hf).
Qed.

Lemma api_value_nil n h x : api_value n h x = Some DNil ↔ x = Nil.
Proof.
  exact (value_of_nil _ 15 _ _ _).
Qed.

#[local] Opaque api_value.

Lemma fresh_copy_isolated n (h : heap) o x d :
  api_value n h x = Some d → fresh_copy (api_value n) h o d →
  ∃ y h', o = Some (y, h') ∧ isolated_copy (api_value n) h h' x y d.
Proof.
  intros Hx (y & m & -> & Hdis & Hy). exists y, (h ∪ m). split; [reflexivity|].
  pose proof (map_union_subseteq_l h m) as Hl. pose proof (map_union_subseteq_r h m Hdis) as Hr.
  split; [exact Hl|]. split; [exact (api_value_weaken _ _ _ _ _ Hl Hx)|]. split; [exact (api_value_weaken _ _ _ _ _ Hr Hy)|].
  split; intros m' Hm; [refine (api_value_weaken _ h _ _ _ _ Hx)|refine (api_value_weaken _ m _ _ _ _ Hy)];
    apply map_subseteq_spec; intros l c Hc.
  - rewrite Hm; [done|]. by apply elem_of_dom_2 in Hc.
  - assert (h !! l = None) as Hn by (eapply map_disjoint_Some_r; eassumption). rewrite Hm.
    + by rewrite lookup_union_r.
    + eapply elem_of_dom_2, lookup_weaken; eassumption.
    + by rewrite not_elem_of_dom.
Qed.

(** C25: for every type of the API, [DeepCopy] of an object succeeds and gives
    nil for nil, or a pointer to an object with the same value in memory of
    its own: whatever a controller then writes to the copy, the original in
    the informer's cache keeps its value, and whatever is written to the
    original, the copy keeps its.  The same holds of [DeepCopyObject] where a
    type has it. *)
Theorem deep_copy_isolated fuel n h x d : n ∈ api_names → api_depth <= fuel → api_value n h x = Some d →
  ∃ y h', DeepCopy api_program fuel n x h = Some (y, h') ∧
  isolated_copy (api_value n) h h' x y d ∧ (y = Nil ↔ x = Nil) ∧
  (object <$> code api_program n = Some true → DeepCopyObject api_program fuel n x h = Some (y, h')).
Proof.
  intros Hn Hf Hx. destruct (fresh_copy_isolated n h (DeepCopy api_program fuel n x h) x d Hx)
    as (y & h' & E & Hi); [by apply api_DeepCopy_fresh|].
  exists y, h'. split_and!; [done|done| |].
  - destruct Hi as (_ & H1 & H2 & _). rewrite <- (api_value_nil n h' y), <- (api_value_nil n h' x). by rewrite H1, H2.
  - unfold DeepCopyObject. intros (m & -> & Ho)%fmap_Some. cbn [mbind option_bind]. by rewrite <- Ho, E.
Qed.

(** The status of a report with one condition and a last report time. *)
Definition status_heap : heap :=
  <[1%positive := Var (Struct [Slice 2 0 1; Ptr 3; Nil; Struct [Leaf "report_ns_r"]])]>
  (<[2%positive := Array [Struct [Leaf "Running"; Leaf "True"; Leaf "t0"; Leaf "t0"; Leaf "Scheduled"; Leaf "m"]]]>
  (<[3%positive := Var (Leaf "t1")]> ∅)).

Lemma deep_copy_isolated_witness : ∃ d, api_value "ReportStatus" status_heap (Ptr 1) = Some d ∧
  ∃ y h', DeepCopy api_program api_depth "ReportStatus" (Ptr 1) status_heap = Some (y, h') ∧
  isolated_copy (api_value "ReportStatus") status_heap h' (Ptr 1) y d ∧ (y = Nil ↔ Ptr 1 = Nil) ∧
  (object <$> code api_program "ReportStatus" = Some true →
   DeepCopyObject api_program api_depth "ReportStatus" (Ptr 1) status_heap = Some (y, h')).
Proof.
  eexists. split; [vm_compute; reflexivity|]. apply deep_copy_isolated; [|apply Nat.le_refl|vm_compute; reflexivity].
  apply list_elem_of_In. vm_compute. tauto.
Defined.
